(* ===== verification/_CoqProject ===== *)
-Q . S2P
Prelude.v
JsString.v
Unicode.v
Uri.v
JsValue.v
QueryString.v
KeyCode.v
Heap.v
Regex.v
RegexSpec.v
ClassName.v
Validators.v
Device.v
Binary64.v
Scroll.v
Json.v
ParseQueryString.v
RandomColor.v
NumberText.v
StringNumber.v
EcmaDate.v
DateText.v
RelativeTime.v
DigitUppercase.v
Moment.v
Cookie.v
