(* ===== verification/Prelude.v ===== *)
(** * A verification development for the utility library of xu128523/utils

    The repository is one ES module, [src/index.js], exporting small
    browser utilities; [src/test/index.js] holds its mocha tests.  Each
    helper is modelled by a Rocq definition named as in the source; the
    parts of the JavaScript platform it calls (string methods, URI
    coding, objects, regular expressions, binary64 arithmetic,
    [Number::toString], [parseInt], [JSON.parse], [Date] time values,
    [document.cookie]) are modelled from ECMA-262 and RFC 6265, and
    PROJECT.json marks them spec-modelled.  The host objects a helper
    reads ([window.location.href], [navigator], the current time,
    [Math.random()], the global [sys], [Math], the local time zone) are
    parameters of its definition.

    ** Files, in dependency order

    - [Prelude] (this file): the [js_scope] notations, the completion type
      [completion] of a JavaScript call (a normal value or a thrown error
      of kind [error_kind]) with its bind and laws, the hint databases
      [jsdb] (resolve) and [jsrw] (rewrite), the tactics [zify_bits],
      [inv_completion] and [range_check] (an exhaustive check of a
      boolean property over an integer range by [vm_compute]), and
      shared lemmas on lists and [Z] bit operations.
    - [JsString]: a JS string as a list of UTF-16 code units ([Z]);
      [lastIndexOf], [substring], [split], [join], [Number]'s [ToString]
      on integers; split/join round trips.
    - [Unicode], [Uri]: UTF-16 and UTF-8 conversions and
      [Encode]/[Decode] of ECMA-262 19.2.6, [encodeURIComponent] and
      [decodeURIComponent]; the class [PercentCodec] is the interface the
      query codec relies on, discharged by the ECMA instance (decoding
      inverts encoding, encoding fails exactly on lone surrogates,
      [Decode] maps concatenations homomorphically).
    - [JsValue]: values, [ToString], ordinary objects in creation order
      with [[Set]] ([__proto__] ignored) and own-key order.
    - [QueryString]: [parseUrlQuery], [stringifyQueryString] and
      [stringifyUrlQuery] (lines 651-703) over any [PercentCodec]: the
      parse loop's last-wins and error behaviour, and the round trips.
    - [KeyCode]: [keyCodeMap] and [getKeyName] (lines 240-361).
    - [Heap]: [arrayEqual], [deepClone] and [isEmptyObject] over a heap of
      objects with identity; [deepClone] runs with a stack budget and
      throws [RangeError] on a cycle for every budget.
    - [Regex], [RegexSpec]: the part of ECMA-262 regular expressions the
      library uses, a backtracking matcher proved sound for a declarative
      semantics, and analyses of patterns.
    - [ClassName], [Validators], [Device]: [hasClass]/[addClass]/
      [removeClass], [isEmail]/[isIDCard]/[isPhone]/[isUrl],
      [getBrowser]/[getOS], through the compiled literals, and
      [isSupportWebP] with the canvas of the host as a parameter;
      [getBrowser] writes into the global [sys] (absent: [option]), whose
      state carries over from one call to the next.
    - [Binary64]: JS numbers as [SpecFloat] binary64 values; the
      operations the code performs, with lemmas on when rounding is exact
      and on the range of a quotient.
    - [Json]: [JSON.parse] with a fuel bounded by the text length.
    - [ParseQueryString]: [parseQueryString] (lines 639-649), refined by
      [parseUrlQuery] on well-formed queries; a token invariant on the
      JSON text it builds shows that it only ever returns objects of
      strings.
    - [RandomColor]: [randomColor] (lines 424-426).
    - [NumberText]: [Number::toString] on doubles (shortest round-trip
      decimal) and [parseInt].
    - [StringNumber]: [ToNumber] and [StringToNumber] (the numeric
      string grammar with white space, signs, [Infinity] and the
      [0b]/[0o]/[0x] prefixes); it reads back [Number::toString] of any
      integer.
    - [DateText]: [Date.prototype.toString] and [Date.parse] (the Date
      Time String Format, the format of [toString] read back, and the
      host's own formats as a parameter), with parsers as functions
      from text to an optional value and rest.
    - [Scroll]: [getScrollTop], [setScrollTop], [offset], [scrollTo] on
      binary64 positions, with the body of its animation callback (which
      calls the [Math.ads] of the host, [None] when absent) and an event
      loop of animation frames as a step relation.
    - [RelativeTime]: [formatPassTime] and [formatRemainTime]
      (lines 590-631) on numbers, dates and strings.
    - [DigitUppercase]: [digitUppercase] (lines 474-507) on a number or
      on any value it converts with [ToNumber].
    - [EcmaDate], [Moment]: [Date] time values and the [Moment] wrapper
      (lines 519-583), whose constructor parses a string argument; its
      getters and setters work in local time through the host's
      [LocalTZA].
    - [Cookie]: [setCookie]/[removeCookie]/[getCookie] over a cookie jar
      that follows RFC 6265, its [expires] attribute read from the
      [toString] text [setCookie] writes by the cookie-date algorithm
      (RFC 6265 5.1.1).

    ** What the theorems show

    Each claim of PROJECT.json is one theorem, marked [C<n>] in its doc
    comment: round trips of the query codec; its functional behaviour on
    every branch, errors included; the refinement of [parseQueryString]
    by [parseUrlQuery], the inputs on which they part and the type of
    what [parseQueryString] can return; termination of
    [JSON.parse] and of the [Number::toString] digit loops; the shape of
    what the validators accept; the state-machine invariant of
    [scrollTo] (it never scrolls, since [Math.ads] is absent, and its
    animation ends); the behaviour of [getBrowser] with and without the
    global [sys]; the cookie round trip and the cookie's expiry (read
    before it, gone after, at the local time written as if it were UTC);
    the readings of [digitUppercase], on numbers and on
    the strings that denote them;
    the bounds of [randomColor] and [formatRemainTime]; the behaviour of
    [formatPassTime] on the current time and on date strings, through
    [DateText.date_parse_toString] ([Date.parse] reads back what
    [toString] writes, without the milliseconds, on a host whose offset
    is a whole number of minutes); [Moment]'s date arithmetic in local
    time and what [format] gives for a [YYYY-MM-DD] string, the day
    before on a host west of UTC.
    Witness lemmas apply each theorem with hypotheses at a concrete input.

    ** Bounds and fuel

    [JSON.parse] gets one more unit of fuel than its text has code units;
    [Json.parse_value_fuel] shows it never runs out and that more fuel
    changes nothing.  [Number::toString]'s integer digit loops run at most
    the bit length of the number, which bounds its digit count.  The
    shortest-decimal search of [NumberText] tries at most 17 digits
    (enough for any binary64 value) by a binary search of 5 steps.
    [deepClone] takes a stack budget, as the engine has one.  Other
    definitions are structural; the exhaustive checks ([range_check])
    cover the finite ranges their theorems state (0 to 9999 for
    [digitUppercase], the 1000 possible milliseconds for
    [formatPassTime], 0 to 59 for the fields of [formatRemainTime]).
    The animation of [scrollTo] is bounded by [Scroll.frames_left], the
    largest number of frames a pending callback can still schedule.

    ** Not modelled

    The [export] list (lines 704-733) has no behaviour.  The local time
    zone is one fixed offset ([DateText.date_host]): daylight saving
    time, which makes the offset depend on the date, is not modelled.
    [requestAnimFrame] (lines 207-216) is never called.  What [Date.parse] does on strings in neither the
    standard's format nor that of [toString] is left to the host
    ([DateText.parse_fallback]), as ECMA-262 leaves it. *)

From Stdlib Require Import ZArith Lia List.
From stdpp Require Import base decidable.
Import ListNotations.

Declare Scope js_scope.
Delimit Scope js_scope with js.

(** ** Completions of a JavaScript call *)

(** The kinds of error a modelled call can throw. *)
Inductive error_kind :=
| URIError
| SyntaxError
| TypeError
| ReferenceError
| RangeError
| PlainError.  (* [new Error(...)] *)

#[export] Instance error_kind_eq_dec : EqDecision error_kind.
Proof. solve_decision. Defined.

(** A call either returns normally or throws; a throw discards whatever the
    call had built so far, as an uncaught exception does. *)
Inductive completion (A : Type) :=
| Normal (a : A)
| Throw (e : error_kind).
Arguments Normal {A} a.
Arguments Throw {A} e.

Definition cbind {A B} (c : completion A) (f : A -> completion B) : completion B :=
  match c with
  | Normal a => f a
  | Throw e => Throw e
  end.

Definition cmap {A B} (f : A -> B) (c : completion A) : completion B :=
  match c with
  | Normal a => Normal (f a)
  | Throw e => Throw e
  end.

Notation "x <- c1 ;; c2" := (cbind c1 (fun x => c2))
  (at level 100, c1 at next level, right associativity) : js_scope.
Notation "f <$$> c" := (cmap f c) (at level 61, left associativity) : js_scope.

Open Scope js_scope.

(** [for]-loop helper: run [f] on every element, stopping at the first throw. *)
Fixpoint cmap_list {A B} (f : A -> completion B) (l : list A) : completion (list B) :=
  match l with
  | [] => Normal []
  | x :: l' => y <- f x ;; ys <- cmap_list f l' ;; Normal (y :: ys)
  end.

(** A [for] loop that threads an accumulator and may throw. *)
Fixpoint cfold_left {A B} (f : B -> A -> completion B) (l : list A) (acc : B) : completion B :=
  match l with
  | [] => Normal acc
  | x :: l' => acc' <- f acc x ;; cfold_left f l' acc'
  end.

(** A [for] loop that pushes several results per element. *)
Fixpoint cconcat_map {A B} (f : A -> completion (list B)) (l : list A) : completion (list B) :=
  match l with
  | [] => Normal []
  | x :: l' => ys <- f x ;; zs <- cconcat_map f l' ;; Normal (ys ++ zs)
  end.

Create HintDb jsdb discriminated.
Create Rewrite HintDb jsrw.

Section CompletionLaws.
Context {A B C : Type}.

Lemma cbind_normal (a : A) (f : A -> completion B) : cbind (Normal a) f = f a.
Proof. reflexivity. Qed.

Lemma cbind_throw e (f : A -> completion B) : cbind (Throw e) f = Throw e.
Proof. reflexivity. Qed.

Lemma cbind_assoc (c : completion A) (f : A -> completion B) (g : B -> completion C) :
  cbind (cbind c f) g = cbind c (fun a => cbind (f a) g).
Proof. destruct c; reflexivity. Qed.

Lemma cmap_cmap (f : A -> B) (g : B -> C) (c : completion A) :
  cmap g (cmap f c) = cmap (fun a => g (f a)) c.
Proof. destruct c; reflexivity. Qed.

Lemma cbind_cmap (f : A -> B) (c : completion A) (g : B -> completion C) :
  cbind (cmap f c) g = cbind c (fun a => g (f a)).
Proof. destruct c; reflexivity. Qed.

Lemma cmap_cbind (f : B -> C) (c : completion A) (g : A -> completion B) :
  cmap f (cbind c g) = cbind c (fun a => cmap f (g a)).
Proof. destruct c; reflexivity. Qed.

Lemma cbind_eq_normal (c : completion A) (f : A -> completion B) b :
  cbind c f = Normal b -> exists a, c = Normal a /\ f a = Normal b.
Proof. destruct c; simpl; [eauto | discriminate]. Qed.

Lemma cmap_eq_normal (f : A -> B) (c : completion A) b :
  cmap f c = Normal b -> exists a, c = Normal a /\ b = f a.
Proof. destruct c; simpl; [intros [= <-]; eauto | discriminate]. Qed.

Lemma cmap_list_app (f : A -> completion B) l1 l2 :
  cmap_list f (l1 ++ l2) =
    (ys1 <- cmap_list f l1 ;; ys2 <- cmap_list f l2 ;; Normal (ys1 ++ ys2)).
Proof.
  induction l1 as [|x l1 IH]; simpl.
  - destruct (cmap_list f l2); reflexivity.
  - destruct (f x); simpl; [|reflexivity].
    rewrite IH. destruct (cmap_list f l1); simpl; [|reflexivity].
    destruct (cmap_list f l2); reflexivity.
Qed.

Lemma cmap_list_normal (f : A -> B) l :
  cmap_list (fun x => Normal (f x)) l = Normal (map f l).
Proof. induction l as [|x l IH]; simpl; [|rewrite IH]; reflexivity. Qed.
End CompletionLaws.

(** Rewriting under the continuation of a bind. *)
#[export] Instance cbind_proper {A B} :
  Proper (eq ==> pointwise_relation A eq ==> eq) (@cbind A B).
Proof. intros c ? <- f g Hfg. destruct c; simpl; [apply Hfg | reflexivity]. Qed.

#[export] Instance cmap_proper {A B} :
  Proper (pointwise_relation A eq ==> eq ==> eq) (@cmap A B).
Proof. intros f g Hfg c ? <-. destruct c; simpl; [rewrite Hfg |]; reflexivity. Qed.

#[export] Hint Rewrite @cbind_normal @cbind_throw @cbind_assoc @cmap_cmap @cbind_cmap
  @cmap_list_app @cmap_list_normal : jsrw.

(** Strong induction on the length of a list, for loops that consume
    more than one element per step. *)
Lemma length_strong_ind {A} (P : list A -> Prop) :
  (forall l, (forall l', length l' < length l -> P l') -> P l) -> forall l, P l.
Proof.
  intros Hstep l. remember (length l) as n eqn:Hn. revert l Hn.
  induction (lt_wf n) as [n _ IH]. intros l ->. apply Hstep.
  intros l' Hl'. apply (IH (length l') Hl'). reflexivity.
Qed.

(** A [forallb] test is the [Forall] of its predicate. *)
Lemma forallb_Forall {A} (f : A -> bool) l : forallb f l = true <-> Forall (fun x => f x = true) l.
Proof. rewrite forallb_forall, List.Forall_forall. reflexivity. Qed.

Lemma flat_map_ext_in {A B} (f g : A -> list B) l :
  (forall x, In x l -> f x = g x) -> flat_map f l = flat_map g l.
Proof.
  induction l as [|x l IH]; intros H; simpl; [reflexivity|].
  rewrite (H x) by (left; reflexivity). rewrite IH by (intros y Hy; apply H; right; exact Hy).
  reflexivity.
Qed.

Lemma Forall2_In_l {A B} (R : A -> B -> Prop) l1 l2 x :
  Forall2 R l1 l2 -> In x l1 -> exists y, In y l2 /\ R x y.
Proof.
  induction 1 as [|a b l1 l2 Hab _ IH]; simpl; [tauto|].
  intros [<-|Hx]; [exists b; auto|]. destruct (IH Hx) as (y & Hy & Hr). exists y; auto.
Qed.

Lemma Forall2_add_in {A B} (P : A -> Prop) (R : A -> B -> Prop) l1 l2 :
  (forall x, In x l1 -> P x) -> Forall2 R l1 l2 -> Forall2 (fun a b => P a /\ R a b) l1 l2.
Proof.
  intros HP H. induction H as [|a b l1 l2 Hab _ IH]; constructor.
  - split; [apply HP; left; reflexivity | exact Hab].
  - apply IH. intros x Hx. apply HP. right. exact Hx.
Qed.

Lemma filter_all {A} (f : A -> bool) l : Forall (fun x => f x = true) l -> List.filter f l = l.
Proof. induction 1 as [|x l Hx _ IH]; [reflexivity|]. simpl. rewrite Hx, IH. reflexivity. Qed.

Lemma skipn_nth_cons {A} (s : list A) i c : nth_error s i = Some c -> skipn i s = c :: skipn (S i) s.
Proof.
  revert i. induction s as [|x s IH]; intros [|i] H; simpl in *; try discriminate.
  - injection H as ->. reflexivity.
  - apply IH. exact H.
Qed.

(** The units of [s] from [i] to [i + n] satisfy [Q]. *)
Lemma firstn_skipn_forall {A} (Q : A -> Prop) s n i :
  (forall j c, (i <= j < i + n)%nat -> nth_error s j = Some c -> Q c) -> Forall Q (firstn n (skipn i s)).
Proof.
  revert i. induction n as [|n IH]; intros i H; [constructor|].
  destruct (nth_error s i) as [c|] eqn:E.
  - rewrite (skipn_nth_cons s i c E). cbn [firstn]. constructor.
    + apply (H i c); [lia|exact E].
    + apply IH. intros j d Hj. apply H. lia.
  - apply nth_error_None in E. rewrite skipn_all2 by exact E. destruct n; constructor.
Qed.

Lemma app_nonempty {A} (l1 l2 : list A) : l1 ++ l2 <> [] <-> l1 <> [] \/ l2 <> [].
Proof. destruct l1, l2; simpl; intuition congruence. Qed.

Lemma head_nonempty {A} (l : list A) : head l <> None <-> l <> [].
Proof. destruct l; simpl; intuition congruence. Qed.

(** Split an equation [c = Normal _] whose left side is a chain of binds. *)
Ltac inv_completion :=
  repeat match goal with
  | H : cbind ?c _ = Normal _ |- _ =>
      let a := fresh "a" in let Ha := fresh "Ha" in
      apply cbind_eq_normal in H as [a [Ha H]]
  | H : cmap _ ?c = Normal _ |- _ =>
      let a := fresh "a" in let Ha := fresh "Ha" in
      apply cmap_eq_normal in H as [a [Ha H]]; subst
  | H : Normal _ = Normal _ |- _ => injection H as H; subst
  | H : Throw _ = Normal _ |- _ => discriminate H
  | H : Normal _ = Throw _ |- _ => discriminate H
  end.

(** ** Bit operations on bounded integers *)

Open Scope Z_scope.

(** Or-ing a high prefix with a value that fits below it adds them. *)
Lemma lor_low_bits (h y : Z) (k : Z) :
  0 <= k -> 0 <= y < 2 ^ k -> h mod 2 ^ k = 0 -> Z.lor h y = h + y.
Proof.
  intros Hk Hy Hh.
  assert (Hd : Z.land h y = 0).
  2:{ rewrite <- Z.lxor_lor by exact Hd. symmetry. apply Z.add_nocarry_lxor, Hd. }
  apply Z.bits_inj'. intros i Hi. rewrite Z.land_spec, Z.bits_0.
  destruct (Z.lt_ge_cases i k) as [Hlt|Hge].
  - rewrite <- (Z.mod_pow2_bits_low h k i) by lia. rewrite Hh, Z.bits_0. reflexivity.
  - rewrite <- (Z.mod_small y (2 ^ k)) by lia.
    rewrite Z.mod_pow2_bits_high by lia; [apply andb_false_r|..].
Qed.

Lemma land_ones_mod (x k : Z) : 0 <= k -> Z.land x (2 ^ k - 1) = x mod 2 ^ k.
Proof. intros Hk. rewrite <- Z.land_ones by lia. unfold Z.ones. rewrite Z.shiftl_1_l. f_equal; lia. Qed.

Lemma land_63 x : Z.land x 63 = x mod 64.
Proof. apply (land_ones_mod x 6). lia. Qed.
Lemma land_31 x : Z.land x 31 = x mod 32.
Proof. apply (land_ones_mod x 5). lia. Qed.
Lemma land_15 x : Z.land x 15 = x mod 16.
Proof. apply (land_ones_mod x 4). lia. Qed.
Lemma land_7 x : Z.land x 7 = x mod 8.
Proof. apply (land_ones_mod x 3). lia. Qed.
Lemma land_1023 x : Z.land x 1023 = x mod 1024.
Proof. apply (land_ones_mod x 10). lia. Qed.

Lemma shiftr_div x k : 0 <= k -> Z.shiftr x k = x / 2 ^ k.
Proof. apply Z.shiftr_div_pow2. Qed.
Lemma shiftl_mul x k : 0 <= k -> Z.shiftl x k = x * 2 ^ k.
Proof. apply Z.shiftl_mul_pow2. Qed.

#[export] Hint Rewrite land_63 land_31 land_15 land_7 land_1023 : jsrw.
#[export] Hint Rewrite shiftr_div shiftl_mul using lia : jsrw.

(** Turn the bit operations of a goal into arithmetic: shifts and masks
    become division and remainder, and each [Z.lor] of a prefix with a
    small value becomes a sum (its side conditions go to [lia]). *)
Ltac eval_pow2 :=
  repeat match goal with
  | |- context [2 ^ ?k] =>
      let v := eval vm_compute in (2 ^ k) in change (2 ^ k) with v
  | H : context [2 ^ ?k] |- _ =>
      let v := eval vm_compute in (2 ^ k) in change (2 ^ k) with v in H
  end.

Ltac zify_bits :=
  autorewrite with jsrw in *; eval_pow2;
  repeat match goal with
  | |- context [Z.lor ?h ?y] =>
      first [ rewrite (lor_low_bits h y 6) by (eval_pow2; Z.div_mod_to_equations; lia)
            | rewrite (lor_low_bits h y 5) by (eval_pow2; Z.div_mod_to_equations; lia)
            | rewrite (lor_low_bits h y 4) by (eval_pow2; Z.div_mod_to_equations; lia)
            | rewrite (lor_low_bits h y 3) by (eval_pow2; Z.div_mod_to_equations; lia)
            | rewrite (lor_low_bits h y 12) by (eval_pow2; Z.div_mod_to_equations; lia)
            | rewrite (lor_low_bits h y 18) by (eval_pow2; Z.div_mod_to_equations; lia) ]
  end; eval_pow2.

(** Split an equation between lists or options into its elements. *)
Ltac cons_eq :=
  repeat match goal with
  | |- _ :: _ = _ :: _ => f_equal
  | |- Some _ = Some _ => f_equal
  end.

(** Close a goal of linear arithmetic with constant divisors. *)
Ltac zarith := Z.div_mod_to_equations; lia.

(** Case on every integer comparison left in the goal, keeping each
    outcome as a hypothesis. *)
Ltac case_tests :=
  repeat match goal with
  | |- context [?a <? ?b] => destruct (Z.ltb_spec a b)
  | |- context [?a <=? ?b] => destruct (Z.leb_spec a b)
  | |- context [?a =? ?b] => destruct (Z.eqb_spec a b)
  end; simpl.

(** The same, reducing only the boolean connectives afterwards (so the
    arithmetic terms keep their shape for [lia]). *)
Ltac case_cmp :=
  repeat match goal with
  | |- context [?a <? ?b] => destruct (Z.ltb_spec a b)
  | |- context [?a <=? ?b] => destruct (Z.leb_spec a b)
  | |- context [?a =? ?b] => destruct (Z.eqb_spec a b)
  end; cbn [negb andb orb].

(** Turn a boolean hypothesis built from comparisons into propositions. *)
Ltac bool_hyps :=
  repeat match goal with
  | H : (_ && _) = true |- _ => apply andb_true_iff in H as [? ?]
  | H : (_ || _) = false |- _ => apply orb_false_iff in H as [? ?]
  | H : (_ && _) = false |- _ => apply andb_false_iff in H as [?|?]
  | H : (_ || _) = true |- _ => apply orb_true_iff in H as [?|?]
  | H : negb _ = true |- _ => apply negb_true_iff in H
  | H : (_ <=? _) = true |- _ => apply Z.leb_le in H
  | H : (_ <? _) = true |- _ => apply Z.ltb_lt in H
  | H : (_ =? _) = true |- _ => apply Z.eqb_eq in H
  | H : (_ <=? _) = false |- _ => apply Z.leb_gt in H
  | H : (_ <? _) = false |- _ => apply Z.ltb_ge in H
  | H : (_ =? _) = false |- _ => apply Z.eqb_neq in H
  end.

(** Rewrite a boolean equation built from comparisons into a proposition. *)
Ltac bool_to_prop :=
  repeat (rewrite ?andb_true_iff, ?orb_true_iff, ?negb_true_iff, ?Z.leb_le, ?Z.eqb_eq,
          ?Z.ltb_lt, ?andb_false_iff, ?orb_false_iff, ?Z.leb_gt, ?Z.ltb_ge, ?Z.eqb_neq).

(** A boolean property checked on every integer of a range, by evaluation,
    holds on the whole range: the lemma behind the exhaustive checks of
    byte-level tables. *)
Lemma forallb_range (f : Z -> bool) (lo : Z) (n : nat) :
  forallb f (map (fun i => lo + Z.of_nat i) (seq 0 n)) = true ->
  forall z, lo <= z < lo + Z.of_nat n -> f z = true.
Proof.
  intros Hall z Hz. rewrite forallb_forall in Hall. apply Hall.
  apply in_map_iff. exists (Z.to_nat (z - lo)). split; [lia|].
  apply in_seq. lia.
Qed.

(** Prove [f z = true] on a bounded [z] by evaluating [f] on the range. *)
Ltac range_check f lo n :=
  match goal with
  | |- _ = true => apply (forallb_range f lo n); [vm_compute; reflexivity | lia]
  end.

