(* ===== verification/JsString.v ===== *)
(** JavaScript strings and the string methods the query-string code calls.

    A JS string is a sequence of UTF-16 code units; here a [list Z] whose
    elements lie in [0, 2^16).  The methods follow ECMA-262:
    [String.prototype.lastIndexOf] with a one-unit search string,
    [substring] with one argument, [split] with a one-unit separator and no
    limit, [Array.prototype.join] on strings, the [replace(/^\?/, '')]
    of [parseUrlQuery], and [Number::toString] on integers. *)

From Stdlib Require Import ZArith Lia List String Ascii.
From stdpp Require Import base decidable list.
From S2P Require Import Prelude.
Import ListNotations.
Open Scope Z_scope.

Module JsString.

Definition jsstring := list Z.

(** A code unit is a 16-bit unsigned integer. *)
Definition valid_unit (u : Z) : bool := (0 <=? u) && (u <? 65536).
Definition wf_units (s : jsstring) : bool := forallb valid_unit s.

(** String literals of the source (all ASCII) as code units. *)
Definition js (s : string) : jsstring :=
  map (fun a => Z.of_nat (nat_of_ascii a)) (list_ascii_of_string s).

Definition c_pct : Z := 37.       (* '%' *)
Definition c_amp : Z := 38.       (* '&' *)
Definition c_eq : Z := 61.        (* '=' *)
Definition c_qmark : Z := 63.     (* '?' *)
Definition c_lbracket : Z := 91.  (* '[' *)
Definition c_rbracket : Z := 93.  (* ']' *)
Definition c_minus : Z := 45.     (* '-' *)
Definition c_zero : Z := 48.      (* '0' *)

(** [s.lastIndexOf(c)]: the largest index holding [c], or -1. *)
Fixpoint last_index_from (c : Z) (s : jsstring) (i best : Z) : Z :=
  match s with
  | [] => best
  | x :: t => last_index_from c t (i + 1) (if x =? c then i else best)
  end.

Definition lastIndexOf (s : jsstring) (c : Z) : Z := last_index_from c s 0 (-1).

(** [s.substring(start)]: the start is clamped to [0, length s]. *)
Definition substring (s : jsstring) (start : Z) : jsstring :=
  drop (Z.to_nat (Z.min (Z.max start 0) (Z.of_nat (length s)))) s.

(** [s.split(sep)] for a one-unit separator: the pieces between the
    occurrences of [sep], so [""] splits into [[""]]. *)
Fixpoint split (sep : Z) (s : jsstring) : list jsstring :=
  match s with
  | [] => [[]]
  | x :: t =>
      if x =? sep then [] :: split sep t
      else match split sep t with
           | [] => [[x]]
           | w :: ws => (x :: w) :: ws
           end
  end.

(** [pieces.join(sep)] on an array of strings. *)
Fixpoint join (sep : jsstring) (l : list jsstring) : jsstring :=
  match l with
  | [] => []
  | [w] => w
  | w :: ws => w ++ sep ++ join sep ws
  end.

(** [s.replace(/^\?/, '')]: drop one leading ['?']. *)
Definition strip_leading_qmark (s : jsstring) : jsstring :=
  match s with
  | x :: t => if x =? c_qmark then t else s
  | [] => []
  end.

(** [Number::toString] on an integer: its decimal digits, after a ['-']
    when negative.  The loop emits the last digit first; its bound is the
    bit length of the number, which is at least its digit count. *)
Fixpoint decimal_digits (fuel : nat) (z : Z) (acc : jsstring) : jsstring :=
  match fuel with
  | O => acc
  | S f =>
      let acc' := (c_zero + z mod 10) :: acc in
      if z <? 10 then acc' else decimal_digits f (z / 10) acc'
  end.

Definition digit_bound (z : Z) : nat := S (Z.to_nat (Z.log2 z)).

Definition number_to_string (z : Z) : jsstring :=
  if z <? 0 then c_minus :: decimal_digits (digit_bound (- z)) (- z) []
  else decimal_digits (digit_bound z) z [].

Definition is_digit (c : Z) : bool := (48 <=? c) && (c <=? 57).

(** The value of a string of decimal digits, most significant first. *)
Definition decimal_value (s : jsstring) : Z :=
  fold_left (fun acc d => acc * 10 + (d - c_zero)) s 0.

(** ** Lemmas *)

Lemma last_index_from_notin c s i best :
  ~ In c s -> last_index_from c s i best = best.
Proof.
  revert i best. induction s as [|x s IH]; intros i best Hn; simpl; [reflexivity|].
  destruct (Z.eqb_spec x c); [simpl in Hn; tauto|]. apply IH. simpl in Hn; tauto.
Qed.

Lemma last_index_from_app_last c pre post i best :
  ~ In c post ->
  last_index_from c (pre ++ c :: post) i best = i + Z.of_nat (length pre).
Proof.
  revert i best. induction pre as [|x pre IH]; intros i best Hn; simpl.
  - rewrite Z.eqb_refl, last_index_from_notin by exact Hn. lia.
  - rewrite IH by exact Hn. lia.
Qed.

(** Every string either lacks [c], or splits at its last [c]. *)
Lemma split_at_last (c : Z) (s : jsstring) :
  ~ In c s \/ exists pre post, s = pre ++ c :: post /\ ~ In c post.
Proof.
  induction s as [|x s IH]; [left; simpl; tauto|].
  destruct IH as [Hn | (pre & post & -> & Hn)].
  - destruct (Z.eq_dec x c) as [->|Hne].
    + right. exists [], s. auto.
    + left. simpl. intuition congruence.
  - right. exists (x :: pre), post. auto.
Qed.

Lemma lastIndexOf_notin s c : ~ In c s -> lastIndexOf s c = -1.
Proof. apply last_index_from_notin. Qed.

Lemma lastIndexOf_last pre post c :
  ~ In c post -> lastIndexOf (pre ++ c :: post) c = Z.of_nat (length pre).
Proof. intros H. unfold lastIndexOf. rewrite last_index_from_app_last by exact H. lia. Qed.

Lemma substring_0 s : substring s 0 = s.
Proof. unfold substring. rewrite Z.max_id. replace (Z.min 0 _) with 0 by lia. reflexivity. Qed.

Lemma substring_after (pre post : jsstring) c :
  substring (pre ++ c :: post) (Z.of_nat (length pre) + 1) = post.
Proof.
  unfold substring. rewrite length_app. simpl length.
  replace (Z.to_nat _) with (length (pre ++ [c])).
  - replace (pre ++ c :: post) with ((pre ++ [c]) ++ post) by (rewrite <- app_assoc; reflexivity).
    apply drop_app_length.
  - rewrite length_app. simpl. lia.
Qed.

(** The part after the last [c] (the whole string when there is none). *)
Lemma substring_lastIndexOf_notin s c :
  ~ In c s -> substring s (lastIndexOf s c + 1) = s.
Proof. intros H. rewrite lastIndexOf_notin by exact H. apply substring_0. Qed.

Lemma substring_lastIndexOf_last pre post c :
  ~ In c post -> substring (pre ++ c :: post) (lastIndexOf (pre ++ c :: post) c + 1) = post.
Proof. intros H. rewrite lastIndexOf_last by exact H. apply substring_after. Qed.

Lemma split_notin sep s : ~ In sep s -> split sep s = [s].
Proof.
  induction s as [|x s IH]; intros Hn; simpl; [reflexivity|].
  destruct (Z.eqb_spec x sep); [simpl in Hn; subst; tauto|].
  rewrite IH by (simpl in Hn; tauto). reflexivity.
Qed.

Lemma split_app_sep sep w s :
  ~ In sep w -> split sep (w ++ sep :: s) = w :: split sep s.
Proof.
  induction w as [|x w IH]; intros Hn; simpl; [rewrite Z.eqb_refl; reflexivity|].
  destruct (Z.eqb_spec x sep); [simpl in Hn; subst; tauto|].
  rewrite IH by (simpl in Hn; tauto). reflexivity.
Qed.

Lemma split_nonempty sep s : split sep s <> [].
Proof.
  destruct s as [|x s]; simpl; [discriminate|].
  destruct (x =? sep); [discriminate|]. destruct (split sep s); discriminate.
Qed.

(** Splitting the join of separator-free pieces gives the pieces back. *)
Lemma split_join sep (l : list jsstring) :
  l <> [] -> Forall (fun w => ~ In sep w) l -> split sep (join [sep] l) = l.
Proof.
  induction l as [|w [|w' l] IH]; intros Hne Hf; [congruence| |].
  - inversion Hf; subst. simpl. apply split_notin; assumption.
  - inversion Hf as [|? ? Hw Hl]; subst.
    change (split sep (w ++ sep :: join [sep] (w' :: l)) = w :: w' :: l).
    rewrite split_app_sep by exact Hw.
    rewrite IH by (discriminate || exact Hl). reflexivity.
Qed.

(** Joining the pieces of a split gives the string back. *)
Lemma join_split sep s : join [sep] (split sep s) = s.
Proof.
  induction s as [|x s IH]; simpl; [reflexivity|].
  destruct (Z.eqb_spec x sep) as [->|Hne].
  - pose proof (split_nonempty sep s) as Hs.
    destruct (split sep s) as [|w ws] eqn:E; [congruence|].
    destruct ws; simpl in *; rewrite <- IH; reflexivity.
  - pose proof (split_nonempty sep s) as Hs.
    destruct (split sep s) as [|w ws] eqn:E; [congruence|].
    destruct ws; simpl in *; rewrite <- IH; reflexivity.
Qed.

Lemma In_join sep l c :
  In c (join sep l) -> In c sep \/ exists w, In w l /\ In c w.
Proof.
  induction l as [|w [|w' l] IH]; simpl; [tauto| |].
  - intros H. right. exists w. auto.
  - intros H. apply in_app_or in H as [H|H]; [right; exists w; auto|].
    apply in_app_or in H as [H|H]; [left; exact H|].
    destruct (IH H) as [H'|(w0 & Hw0 & Hc)]; [left; exact H'|].
    right. exists w0. simpl in Hw0. tauto.
Qed.

Lemma strip_leading_qmark_other s :
  hd_error s <> Some c_qmark -> strip_leading_qmark s = s.
Proof.
  destruct s as [|x s]; simpl; [reflexivity|]. intros H.
  destruct (Z.eqb_spec x c_qmark); [congruence|reflexivity].
Qed.

Lemma decimal_digits_digits fuel z acc :
  0 <= z -> Forall (fun c => is_digit c = true) acc ->
  Forall (fun c => is_digit c = true) (decimal_digits fuel z acc).
Proof.
  revert z acc. induction fuel as [|f IH]; intros z acc Hz Hacc; simpl; [exact Hacc|].
  assert (Hd : is_digit (c_zero + z mod 10) = true).
  { unfold is_digit, c_zero. apply andb_true_intro; split; apply Z.leb_le; zarith. }
  destruct (z <? 10); [constructor; assumption|].
  apply IH; [zarith | constructor; assumption].
Qed.

(** [ToString] of an integer is made of digits and at most a leading minus. *)
Lemma number_to_string_chars z :
  Forall (fun c => is_digit c = true \/ c = c_minus) (number_to_string z).
Proof.
  assert (H : forall w, 0 <= w ->
            Forall (fun c => is_digit c = true \/ c = c_minus) (decimal_digits (digit_bound w) w [])).
  { intros w Hw. eapply Forall_impl.
    - apply decimal_digits_digits; [exact Hw | constructor].
    - intros c Hc. left. exact Hc. }
  unfold number_to_string. destruct (Z.ltb_spec z 0).
  - constructor; [right; reflexivity|]. apply H. lia.
  - apply H. lia.
Qed.

Lemma decimal_value_acc s a :
  fold_left (fun acc d => acc * 10 + (d - c_zero)) s a = a * 10 ^ Z.of_nat (length s) + decimal_value s.
Proof.
  unfold decimal_value. revert a. induction s as [|d s IH]; intros a; simpl; [lia|].
  rewrite IH, (IH (0 * 10 + (d - c_zero))). rewrite Nat2Z.inj_succ, Z.pow_succ_r by lia. lia.
Qed.

Lemma decimal_value_cons d s :
  decimal_value (d :: s) = (d - c_zero) * 10 ^ Z.of_nat (length s) + decimal_value s.
Proof. unfold decimal_value at 1. simpl. rewrite decimal_value_acc. lia. Qed.

(** With enough fuel, the digit loop appends the digits of [z] to [acc]. *)
Lemma decimal_digits_value fuel z acc :
  0 <= z < 10 ^ Z.of_nat fuel ->
  decimal_value (decimal_digits fuel z acc) = z * 10 ^ Z.of_nat (length acc) + decimal_value acc.
Proof.
  revert z acc. induction fuel as [|f IH]; intros z acc Hz.
  { simpl in *. assert (z = 0) as -> by lia. lia. }
  rewrite Nat2Z.inj_succ, Z.pow_succ_r in Hz by lia. simpl.
  destruct (Z.ltb_spec z 10).
  - rewrite decimal_value_cons. unfold c_zero. rewrite Z.mod_small by lia. lia.
  - rewrite IH by zarith. rewrite decimal_value_cons. simpl length.
    rewrite Nat2Z.inj_succ, Z.pow_succ_r by lia. unfold c_zero. zarith.
Qed.

(** The bit length of [z] bounds its digit count. *)
Lemma digit_bound_enough z : 0 <= z -> z < 10 ^ Z.of_nat (digit_bound z).
Proof.
  intros Hz. unfold digit_bound. rewrite Nat2Z.inj_succ, Z2Nat.id by apply Z.log2_nonneg.
  apply Z.lt_le_trans with (2 ^ Z.succ (Z.log2 z)).
  - destruct (Z.eq_dec z 0) as [->|Hne]; [reflexivity|]. apply Z.log2_spec. lia.
  - apply Z.pow_le_mono_l. lia.
Qed.

(** [Number::toString] of a non-negative integer is a string of
    decimal digits whose value is the integer: the loop's bound never
    cuts it short. *)
Theorem number_to_string_decimal z :
  0 <= z -> Forall (fun c => is_digit c = true) (number_to_string z) /\
            decimal_value (number_to_string z) = z.
Proof.
  intros Hz. unfold number_to_string. destruct (Z.ltb_spec z 0); [lia|]. split.
  - apply decimal_digits_digits; [exact Hz | constructor].
  - rewrite decimal_digits_value by (split; [exact Hz | apply digit_bound_enough, Hz]).
    change (decimal_value []) with 0. simpl length. rewrite Z.pow_0_r. lia.
Qed.

Lemma number_to_string_value z : 0 <= z -> decimal_value (number_to_string z) = z.
Proof.
  intros Hz. unfold number_to_string. destruct (Z.ltb_spec z 0); [lia|].
  rewrite decimal_digits_value by (split; [exact Hz | apply digit_bound_enough, Hz]).
  change (decimal_value []) with 0. simpl length. rewrite Z.pow_0_r. lia.
Qed.

Lemma number_to_string_nonneg_digits z :
  0 <= z -> Forall (fun c => is_digit c = true) (number_to_string z).
Proof.
  intros Hz. unfold number_to_string. destruct (Z.ltb_spec z 0); [lia|].
  apply decimal_digits_digits; [exact Hz | constructor].
Qed.

(** [ToString] is injective on integers: distinct numeric keys are
    distinct property keys. *)
Lemma number_to_string_inj a b : number_to_string a = number_to_string b -> a = b.
Proof.
  assert (Hneg : forall z, z < 0 -> number_to_string z = c_minus :: number_to_string (- z)).
  { intros z Hz. unfold number_to_string at 1. destruct (Z.ltb_spec z 0); [|lia].
    unfold number_to_string. destruct (Z.ltb_spec (- z) 0); [lia | reflexivity]. }
  assert (Hmix : forall x y, x < 0 -> 0 <= y -> number_to_string x <> number_to_string y).
  { intros x y Hx Hy Heq. rewrite Hneg in Heq by exact Hx.
    pose proof (number_to_string_nonneg_digits y Hy) as Hd. rewrite <- Heq in Hd.
    inversion Hd as [|? ? Hm _]. vm_compute in Hm. discriminate. }
  intros Heq. destruct (Z.ltb_spec a 0), (Z.ltb_spec b 0).
  - rewrite (Hneg a), (Hneg b) in Heq by assumption. injection Heq as Heq.
    apply (f_equal decimal_value) in Heq. rewrite !number_to_string_value in Heq by lia. lia.
  - exfalso. exact (Hmix a b ltac:(assumption) ltac:(assumption) Heq).
  - exfalso. exact (Hmix b a ltac:(assumption) ltac:(assumption) (eq_sym Heq)).
  - apply (f_equal decimal_value) in Heq. rewrite !number_to_string_value in Heq by lia. exact Heq.
Qed.

Lemma number_to_string_decimal_witness :
  number_to_string 4294967295 = js "4294967295" /\ decimal_value (js "4294967295") = 4294967295.
Proof.
  split; [vm_compute; reflexivity|].
  change (js "4294967295") with (number_to_string 4294967295).
  exact (proj2 (number_to_string_decimal 4294967295 ltac:(lia))).
Defined.

End JsString.

#[export] Hint Rewrite JsString.split_app_sep JsString.split_notin using assumption : jsrw.
