(* ===== verification/Unicode.v ===== *)
(** Unicode conversions behind [encodeURIComponent]/[decodeURIComponent].

    From ECMA-262: [CodePointAt] (11.1.4), [UTF16EncodeCodePoint] (11.1.1),
    [UTF16SurrogatePairToCodePoint] (11.1.3), [IsStringWellFormedUnicode]
    (7.2.9); from the Unicode standard, the UTF-8 transformation of a code
    point and the well-formed byte sequences of its Table 3-7.  UTF-8 is
    written with shifts and masks as decoders are; [zify_bits] turns them
    into arithmetic in the proofs. *)

From Stdlib Require Import ZArith Lia List.
From stdpp Require Import base decidable.
From S2P Require Import Prelude JsString.
Import ListNotations.
Open Scope Z_scope.

Module Unicode.
Import JsString.

Definition is_lead_surrogate (u : Z) : bool := (0xD800 <=? u) && (u <=? 0xDBFF).
Definition is_trail_surrogate (u : Z) : bool := (0xDC00 <=? u) && (u <=? 0xDFFF).
Definition is_surrogate (u : Z) : bool := (0xD800 <=? u) && (u <=? 0xDFFF).

(** [UTF16SurrogatePairToCodePoint(lead, trail)]. *)
Definition surrogate_pair_to_cp (lead trail : Z) : Z :=
  (lead - 0xD800) * 0x400 + (trail - 0xDC00) + 0x10000.

(** The record [CodePointAt] returns. *)
Record code_point_record := {
  cp_value : Z;
  cp_count : nat;
  cp_unpaired : bool
}.

(** [CodePointAt(string, position)], with the string seen from
    [position]: its unit [first] and the units [rest] after it. *)
Definition CodePointAt (first : Z) (rest : jsstring) : code_point_record :=
  if negb (is_lead_surrogate first) && negb (is_trail_surrogate first) then
    {| cp_value := first; cp_count := 1; cp_unpaired := false |}
  else if is_trail_surrogate first then
    {| cp_value := first; cp_count := 1; cp_unpaired := true |}
  else match rest with
       | [] => {| cp_value := first; cp_count := 1; cp_unpaired := true |}
       | second :: _ =>
           if negb (is_trail_surrogate second) then
             {| cp_value := first; cp_count := 1; cp_unpaired := true |}
           else
             {| cp_value := surrogate_pair_to_cp first second; cp_count := 2;
                cp_unpaired := false |}
       end.

(** [UTF16EncodeCodePoint(cp)]. *)
Definition UTF16EncodeCodePoint (cp : Z) : jsstring :=
  if cp <=? 0xFFFF then [cp]
  else [(cp - 0x10000) / 0x400 + 0xD800; (cp - 0x10000) mod 0x400 + 0xDC00].

(** [IsStringWellFormedUnicode]: code units of 16 bits, every lead
    surrogate followed by a trail surrogate, no trail surrogate alone. *)
Fixpoint well_formed_pairs (s : jsstring) : bool :=
  match s with
  | [] => true
  | c :: rest =>
      if is_lead_surrogate c then
        match rest with
        | d :: rest' => is_trail_surrogate d && well_formed_pairs rest'
        | [] => false
        end
      else negb (is_trail_surrogate c) && well_formed_pairs rest
  end.

Definition IsStringWellFormedUnicode (s : jsstring) : bool :=
  wf_units s && well_formed_pairs s.

(** A Unicode scalar value: a code point that is not a surrogate. *)
Definition is_scalar (cp : Z) : bool :=
  (0 <=? cp) && (cp <=? 0x10FFFF) && negb (is_surrogate cp).

Definition is_byte (b : Z) : bool := (0 <=? b) && (b <=? 255).

(** The UTF-8 transformation of a code point. *)
Definition utf8_encode (cp : Z) : list Z :=
  if cp <? 0x80 then [cp]
  else if cp <? 0x800 then
    [Z.lor 0xC0 (Z.shiftr cp 6); Z.lor 0x80 (Z.land cp 0x3F)]
  else if cp <? 0x10000 then
    [Z.lor 0xE0 (Z.shiftr cp 12); Z.lor 0x80 (Z.land (Z.shiftr cp 6) 0x3F);
     Z.lor 0x80 (Z.land cp 0x3F)]
  else
    [Z.lor 0xF0 (Z.shiftr cp 18); Z.lor 0x80 (Z.land (Z.shiftr cp 12) 0x3F);
     Z.lor 0x80 (Z.land (Z.shiftr cp 6) 0x3F); Z.lor 0x80 (Z.land cp 0x3F)].

(** The number of leading one bits of an octet, counted from bit 7. *)
Fixpoint count_leading_ones (k : nat) (b : Z) : nat :=
  match k with
  | O => O
  | S k' => if Z.testbit b (Z.of_nat k') then S (count_leading_ones k' b) else O
  end.

Definition leading_ones (b : Z) : nat := count_leading_ones 8 b.

Definition is_continuation (b : Z) : bool := Z.shiftr b 6 =? 2.

(** Decoding an octet sequence read by [Decode]: [None] when it is not
    the UTF-8 encoding of a scalar value (overlong forms, surrogates and
    values past U+10FFFF are rejected). *)
Definition utf8_decode (octets : list Z) : option Z :=
  match octets with
  | [b0] => if b0 <? 0x80 then Some b0 else None
  | [b0; b1] =>
      if (Z.shiftr b0 5 =? 6) && is_continuation b1 then
        let cp := Z.lor (Z.shiftl (Z.land b0 0x1F) 6) (Z.land b1 0x3F) in
        if cp <? 0x80 then None else Some cp
      else None
  | [b0; b1; b2] =>
      if (Z.shiftr b0 4 =? 14) && is_continuation b1 && is_continuation b2 then
        let cp := Z.lor (Z.shiftl (Z.land b0 0x0F) 12)
                   (Z.lor (Z.shiftl (Z.land b1 0x3F) 6) (Z.land b2 0x3F)) in
        if (cp <? 0x800) || is_surrogate cp then None else Some cp
      else None
  | [b0; b1; b2; b3] =>
      if (Z.shiftr b0 3 =? 30) && is_continuation b1 && is_continuation b2
         && is_continuation b3 then
        let cp := Z.lor (Z.shiftl (Z.land b0 0x07) 18)
                   (Z.lor (Z.shiftl (Z.land b1 0x3F) 12)
                     (Z.lor (Z.shiftl (Z.land b2 0x3F) 6) (Z.land b3 0x3F))) in
        if (cp <? 0x10000) || (0x10FFFF <? cp) then None else Some cp
      else None
  | _ => None
  end.

(** Table 3-7 of the Unicode standard: the well-formed UTF-8 sequences. *)
Definition in_range (lo hi b : Z) : bool := (lo <=? b) && (b <=? hi).

Definition utf8_well_formed (octets : list Z) : bool :=
  match octets with
  | [b0] => in_range 0x00 0x7F b0
  | [b0; b1] => in_range 0xC2 0xDF b0 && in_range 0x80 0xBF b1
  | [b0; b1; b2] =>
      ((b0 =? 0xE0) && in_range 0xA0 0xBF b1
       || in_range 0xE1 0xEC b0 && in_range 0x80 0xBF b1
       || (b0 =? 0xED) && in_range 0x80 0x9F b1
       || in_range 0xEE 0xEF b0 && in_range 0x80 0xBF b1)
      && in_range 0x80 0xBF b2
  | [b0; b1; b2; b3] =>
      ((b0 =? 0xF0) && in_range 0x90 0xBF b1
       || in_range 0xF1 0xF3 b0 && in_range 0x80 0xBF b1
       || (b0 =? 0xF4) && in_range 0x80 0x8F b1)
      && in_range 0x80 0xBF b2 && in_range 0x80 0xBF b3
  | _ => false
  end.

(** ** UTF-8 in arithmetic form *)

Lemma utf8_encode_1 cp : cp < 0x80 -> utf8_encode cp = [cp].
Proof. intros H. unfold utf8_encode. destruct (Z.ltb_spec cp 0x80); [reflexivity | lia]. Qed.

Lemma utf8_encode_2 cp :
  0x80 <= cp < 0x800 -> utf8_encode cp = [192 + cp / 64; 128 + cp mod 64].
Proof.
  intros H. unfold utf8_encode.
  destruct (Z.ltb_spec cp 0x80); [lia|]. destruct (Z.ltb_spec cp 0x800); [|lia].
  zify_bits. reflexivity.
Qed.

Lemma utf8_encode_3 cp :
  0x800 <= cp < 0x10000 ->
  utf8_encode cp = [224 + cp / 4096; 128 + (cp / 64) mod 64; 128 + cp mod 64].
Proof.
  intros H. unfold utf8_encode.
  destruct (Z.ltb_spec cp 0x80); [lia|]. destruct (Z.ltb_spec cp 0x800); [lia|].
  destruct (Z.ltb_spec cp 0x10000); [|lia].
  zify_bits. reflexivity.
Qed.

Lemma utf8_encode_4 cp :
  0x10000 <= cp <= 0x10FFFF ->
  utf8_encode cp = [240 + cp / 262144; 128 + (cp / 4096) mod 64;
                    128 + (cp / 64) mod 64; 128 + cp mod 64].
Proof.
  intros H. unfold utf8_encode.
  destruct (Z.ltb_spec cp 0x80); [lia|]. destruct (Z.ltb_spec cp 0x800); [lia|].
  destruct (Z.ltb_spec cp 0x10000); [lia|].
  zify_bits. reflexivity.
Qed.

Lemma utf8_decode_2 b0 b1 :
  utf8_decode [b0; b1] =
    if (b0 / 32 =? 6) && (b1 / 64 =? 2) then
      if (b0 mod 32) * 64 + b1 mod 64 <? 0x80 then None
      else Some ((b0 mod 32) * 64 + b1 mod 64)
    else None.
Proof. unfold utf8_decode, is_continuation. zify_bits. reflexivity. Qed.

Lemma utf8_decode_3 b0 b1 b2 :
  utf8_decode [b0; b1; b2] =
    if (b0 / 16 =? 14) && (b1 / 64 =? 2) && (b2 / 64 =? 2) then
      let cp := (b0 mod 16) * 4096 + ((b1 mod 64) * 64 + b2 mod 64) in
      if (cp <? 0x800) || is_surrogate cp then None else Some cp
    else None.
Proof. unfold utf8_decode, is_continuation. zify_bits. reflexivity. Qed.

Lemma utf8_decode_4 b0 b1 b2 b3 :
  utf8_decode [b0; b1; b2; b3] =
    if (b0 / 8 =? 30) && (b1 / 64 =? 2) && (b2 / 64 =? 2) && (b3 / 64 =? 2) then
      let cp := (b0 mod 8) * 262144 + ((b1 mod 64) * 4096 + ((b2 mod 64) * 64 + b3 mod 64)) in
      if (cp <? 0x10000) || (0x10FFFF <? cp) then None else Some cp
    else None.
Proof. unfold utf8_decode, is_continuation. zify_bits. reflexivity. Qed.

(** ** UTF-8 round trips and the Unicode table *)

Lemma if_checked_some (c d : bool) (x y : Z) :
  c = true -> d = false -> x = y -> (if c then (if d then None else Some x) else None) = Some y.
Proof. intros -> -> ->. reflexivity. Qed.

Lemma if_checked_not_none (c d : bool) (x : Z) :
  (if c then (if d then None else Some x) else None) <> None <-> c = true /\ d = false.
Proof. destruct c, d; intuition congruence. Qed.

(** Decoding the UTF-8 form of a scalar value gives the value back. *)
Lemma utf8_decode_encode cp : is_scalar cp = true -> utf8_decode (utf8_encode cp) = Some cp.
Proof.
  unfold is_scalar, is_surrogate. bool_to_prop. intros H.
  destruct (Z.ltb_spec cp 0x80).
  { rewrite utf8_encode_1 by lia. simpl. case_tests; [reflexivity | lia]. }
  destruct (Z.ltb_spec cp 0x800); [|destruct (Z.ltb_spec cp 0x10000)].
  - rewrite utf8_encode_2, utf8_decode_2 by lia.
    apply if_checked_some; bool_to_prop; zarith.
  - rewrite utf8_encode_3, utf8_decode_3 by lia. cbv zeta. unfold is_surrogate.
    apply if_checked_some; bool_to_prop; zarith.
  - rewrite utf8_encode_4, utf8_decode_4 by lia. cbv zeta.
    apply if_checked_some; bool_to_prop; zarith.
Qed.

Ltac destruct_bytes :=
  repeat match goal with H : Forall _ (_ :: _) |- _ => inversion H; subst; clear H end;
  bool_hyps.

(** A byte sequence that decodes is the UTF-8 form of what it decodes to:
    the decoder accepts only the canonical encoding (no overlong form). *)
Lemma utf8_encode_decode o cp :
  Forall (fun b => is_byte b = true) o -> utf8_decode o = Some cp -> utf8_encode cp = o.
Proof.
  intros Hb Hd. unfold is_byte in Hb.
  destruct o as [|b0 [|b1 [|b2 [|b3 [|b4 o]]]]]; try discriminate; destruct_bytes.
  - simpl in Hd. destruct (Z.ltb_spec b0 0x80); [|discriminate]. injection Hd as <-.
    apply utf8_encode_1; lia.
  - rewrite utf8_decode_2 in Hd. revert Hd; case_tests; intros Hd; try discriminate;
    injection Hd as <-; rewrite utf8_encode_2 by zarith; cons_eq; zarith.
  - rewrite utf8_decode_3 in Hd. unfold is_surrogate in Hd. cbv zeta in Hd.
    revert Hd; case_tests; intros Hd; try discriminate;
    injection Hd as <-; rewrite utf8_encode_3 by zarith; cons_eq; zarith.
  - rewrite utf8_decode_4 in Hd. cbv zeta in Hd.
    revert Hd; case_tests; intros Hd; try discriminate;
    injection Hd as <-; rewrite utf8_encode_4 by zarith;
    cons_eq; zarith.
Qed.

(** The decoder accepts exactly the well-formed sequences of Table 3-7
    of the Unicode standard. *)
Lemma utf8_decode_table o :
  Forall (fun b => is_byte b = true) o ->
  utf8_decode o <> None <-> utf8_well_formed o = true.
Proof.
  intros Hb. unfold is_byte in Hb.
  destruct o as [|b0 [|b1 [|b2 [|b3 [|b4 o]]]]];
    try (simpl; intuition congruence); destruct_bytes.
  - simpl. unfold in_range. case_tests; intuition (try congruence; lia).
  - rewrite utf8_decode_2, if_checked_not_none.
    unfold utf8_well_formed, in_range. bool_to_prop. zarith.
  - rewrite utf8_decode_3. cbv zeta. rewrite if_checked_not_none.
    unfold utf8_well_formed, in_range, is_surrogate. bool_to_prop. zarith.
  - rewrite utf8_decode_4. cbv zeta. rewrite if_checked_not_none.
    unfold utf8_well_formed, in_range. bool_to_prop. zarith.
Qed.

(** ** Leading ones of the first byte *)

Lemma leading_ones_ascii b : 0 <= b < 0x80 -> leading_ones b = 0%nat.
Proof. intros H. apply Nat.eqb_eq.
  range_check (fun x => Nat.eqb (leading_ones x) 0) 0 128%nat. Qed.

Lemma leading_ones_2 b : 0xC0 <= b < 0xE0 -> leading_ones b = 2%nat.
Proof. intros H. apply Nat.eqb_eq.
  range_check (fun x => Nat.eqb (leading_ones x) 2) 0xC0 32%nat. Qed.

Lemma leading_ones_3 b : 0xE0 <= b < 0xF0 -> leading_ones b = 3%nat.
Proof. intros H. apply Nat.eqb_eq.
  range_check (fun x => Nat.eqb (leading_ones x) 3) 0xE0 16%nat. Qed.

Lemma leading_ones_4 b : 0xF0 <= b < 0xF8 -> leading_ones b = 4%nat.
Proof. intros H. apply Nat.eqb_eq.
  range_check (fun x => Nat.eqb (leading_ones x) 4) 0xF0 8%nat. Qed.

(** The first byte of an encoding announces the length of the sequence,
    and every byte lies in [0, 256). *)
Lemma utf8_encode_lead cp :
  is_scalar cp = true ->
  exists b0 bs, utf8_encode cp = b0 :: bs /\ (length bs <= 3)%nat /\
    Forall (fun b => is_byte b = true) (b0 :: bs) /\
    leading_ones b0 = (match bs with [] => 0 | _ => S (length bs) end)%nat.
Proof.
  unfold is_scalar, is_surrogate, is_byte. bool_to_prop. intros H.
  destruct (Z.ltb_spec cp 0x80); [|destruct (Z.ltb_spec cp 0x800); [|destruct (Z.ltb_spec cp 0x10000)]].
  - rewrite utf8_encode_1 by lia. do 2 eexists. split; [reflexivity|].
    split; [simpl; lia|]. split; [repeat constructor; bool_to_prop; lia|].
    apply leading_ones_ascii; lia.
  - rewrite utf8_encode_2 by lia. do 2 eexists. split; [reflexivity|].
    split; [simpl; lia|]. split; [repeat constructor; bool_to_prop; zarith|].
    apply leading_ones_2; zarith.
  - rewrite utf8_encode_3 by lia. do 2 eexists. split; [reflexivity|].
    split; [simpl; lia|]. split; [repeat constructor; bool_to_prop; zarith|].
    apply leading_ones_3; zarith.
  - rewrite utf8_encode_4 by lia. do 2 eexists. split; [reflexivity|].
    split; [simpl; lia|]. split; [repeat constructor; bool_to_prop; zarith|].
    apply leading_ones_4; zarith.
Qed.

(** ** UTF-16 *)

Lemma UTF16EncodeCodePoint_bmp cp : cp <= 0xFFFF -> UTF16EncodeCodePoint cp = [cp].
Proof. intros H. unfold UTF16EncodeCodePoint. case_tests; [reflexivity | lia]. Qed.

(** A code unit that is not a surrogate is a code point of its own. *)
Lemma CodePointAt_single c rest :
  is_surrogate c = false ->
  CodePointAt c rest = {| cp_value := c; cp_count := 1; cp_unpaired := false |}.
Proof.
  unfold CodePointAt, is_surrogate, is_lead_surrogate, is_trail_surrogate. intros H.
  revert H. case_tests; intros Hs; try discriminate; try reflexivity; lia.
Qed.

(** A lead surrogate followed by a trail surrogate is one code point,
    whose UTF-16 form is the pair itself. *)
Lemma CodePointAt_pair c d rest :
  is_lead_surrogate c = true -> is_trail_surrogate d = true ->
  CodePointAt c (d :: rest) =
    {| cp_value := surrogate_pair_to_cp c d; cp_count := 2; cp_unpaired := false |}.
Proof.
  unfold CodePointAt. intros Hc Hd. rewrite Hc, Hd.
  replace (is_trail_surrogate c) with false; [reflexivity|].
  revert Hc. unfold is_lead_surrogate, is_trail_surrogate. case_tests; lia.
Qed.

Lemma surrogate_pair_scalar c d :
  is_lead_surrogate c = true -> is_trail_surrogate d = true ->
  is_scalar (surrogate_pair_to_cp c d) = true /\
  UTF16EncodeCodePoint (surrogate_pair_to_cp c d) = [c; d].
Proof.
  unfold is_lead_surrogate, is_trail_surrogate, is_scalar, is_surrogate,
    surrogate_pair_to_cp, UTF16EncodeCodePoint.
  bool_to_prop. intros Hc Hd. split.
  - bool_to_prop. lia.
  - case_tests; [lia|]. cons_eq; zarith.
Qed.

End Unicode.
