(* ===== verification/Uri.v ===== *)
(** [encodeURIComponent] and [decodeURIComponent] (ECMA-262 19.2.6).

    [Encode] and [Decode] are the abstract operations of the standard,
    written over the remaining input instead of an index [k]: each step of
    their loops consumes a prefix of the string.  [Decode] reads the
    continuation escapes of a multi-byte sequence with [read_continuations],
    to which it passes itself; the recursion stays structural.  A thrown
    [URIError] ends the call, so the partial result [R] is never seen.

    [PercentCodec] is what the query-string code needs of the two
    functions; [ecma_codec_laws] proves that the ECMA functions meet it. *)

From Stdlib Require Import ZArith Lia String List.
From stdpp Require Import base decidable.
From S2P Require Import Prelude JsString Unicode.
Import ListNotations.
Open Scope Z_scope.

Module Uri.
Import JsString Unicode.

(** uriAlpha, DecimalDigit and uriMark: the units [encodeURIComponent]
    leaves alone. *)
Definition is_uri_unreserved (c : Z) : bool :=
  in_range 65 90 c || in_range 97 122 c || in_range 48 57 c ||
  existsb (Z.eqb c) [45; 95; 46; 33; 126; 42; 39; 40; 41]. (* - _ . ! ~ * ' ( ) *)

(** The digit of [0 <= d < 16] in uppercase hexadecimal. *)
Definition hex_digit_upper (d : Z) : Z := if d <? 10 then 48 + d else 55 + d.

(** ["%" + StringPad(hex(octet), 2, "0", start)]. *)
Definition percent_escape (octet : Z) : jsstring :=
  [c_pct; hex_digit_upper (octet / 16); hex_digit_upper (octet mod 16)].

Definition percent_escape_octets (octets : list Z) : jsstring :=
  flat_map percent_escape octets.

(** [Encode(string, extraUnescaped)]: [unescaped] is the whole unescaped
    set (the always-unescaped units and the extra ones). *)
Fixpoint Encode (unescaped : Z -> bool) (s : jsstring) : completion jsstring :=
  match s with
  | [] => Normal []
  | c :: rest =>
      if unescaped c then cons c <$$> Encode unescaped rest
      else
        let cp := CodePointAt c rest in
        if cp_unpaired cp then Throw URIError
        else
          let escaped := percent_escape_octets (utf8_encode (cp_value cp)) in
          match cp_count cp, rest with
          | 2%nat, _ :: rest2 => app escaped <$$> Encode unescaped rest2
          | _, _ => app escaped <$$> Encode unescaped rest
          end
  end.

(** The value of a hexadecimal digit of either case. *)
Definition hex_value (c : Z) : option Z :=
  if in_range 48 57 c then Some (c - 48)
  else if in_range 65 70 c then Some (c - 55)
  else if in_range 97 102 c then Some (c - 87)
  else None.

(** [ParseHexOctet]: two hexadecimal digits. *)
Definition hex_octet (h1 h2 : Z) : option Z :=
  match hex_value h1, hex_value h2 with
  | Some d1, Some d2 => Some (d1 * 16 + d2)
  | _, _ => None
  end.

(** The inner loop of [Decode] ("Repeat, while j < n"): read [k] more
    escapes ["%XX"] into [octets], then check the octets are the UTF-8
    form of a code point, append its UTF-16 form, and continue with
    [dec] on what is left. *)
Fixpoint read_continuations (dec : jsstring -> completion jsstring)
    (k : nat) (octets : list Z) (t : jsstring) {struct t} : completion jsstring :=
  match k with
  | O =>
      match utf8_decode octets with
      | None => Throw URIError
      | Some v => app (UTF16EncodeCodePoint v) <$$> dec t
      end
  | S k' =>
      match t with
      | p :: g1 :: g2 :: t' =>
          if negb (p =? c_pct) then Throw URIError
          else match hex_octet g1 g2 with
               | None => Throw URIError
               | Some o => read_continuations dec k' (octets ++ [o]) t'
               end
      | _ => Throw URIError
      end
  end.

(** [Decode(string, preserveEscapeSet)]. *)
Fixpoint Decode (preserve : Z -> bool) (s : jsstring) : completion jsstring :=
  match s with
  | [] => Normal []
  | c :: rest =>
      if negb (c =? c_pct) then cons c <$$> Decode preserve rest
      else
        match rest with
        | h1 :: h2 :: rest1 =>
            match hex_octet h1 h2 with
            | None => Throw URIError
            | Some b =>
                let n := leading_ones b in
                if (n =? 0)%nat then
                  (if preserve b then app [c; h1; h2] else cons b) <$$> Decode preserve rest1
                else if (n =? 1)%nat || (4 <? n)%nat then Throw URIError
                else read_continuations (Decode preserve) (n - 1) [b] rest1
            end
        | _ => Throw URIError
        end
  end.

(** [encodeURIComponent] and [decodeURIComponent] on the string their
    argument converts to. *)
Definition encodeURIComponent (s : jsstring) : completion jsstring :=
  Encode is_uri_unreserved s.

Definition decodeURIComponent (s : jsstring) : completion jsstring :=
  Decode (fun _ => false) s.

(** The exhaustive check that [ParseHexOctet] reads back an escape. *)
Definition hex_roundtrip_check (b : Z) : bool :=
  match hex_octet (hex_digit_upper (b / 16)) (hex_digit_upper (b mod 16)) with
  | Some x => x =? b
  | None => false
  end.

(** ** What the query-string code relies on *)

Class PercentCodec := {
  percent_encode : jsstring -> completion jsstring;
  percent_decode : jsstring -> completion jsstring
}.

Class PercentCodecLaws (C : PercentCodec) := {
  (** decoding inverts encoding on well-formed strings *)
  codec_roundtrip : forall s, IsStringWellFormedUnicode s = true ->
    (e <- percent_encode s ;; percent_decode e) = Normal s;
  (** encoded text holds only unreserved units and [%] *)
  codec_alphabet : forall s e, wf_units s = true -> percent_encode s = Normal e ->
    Forall (fun c => is_uri_unreserved c = true \/ c = c_pct) e;
  (** unreserved text is its own encoding *)
  codec_unreserved : forall s, Forall (fun c => is_uri_unreserved c = true) s ->
    percent_encode s = Normal s
}.

#[export] Instance ecma_codec : PercentCodec := {|
  percent_encode := encodeURIComponent;
  percent_decode := decodeURIComponent
|}.

(** ** Lemmas *)

Lemma hex_octet_escape b :
  0 <= b < 256 -> hex_octet (hex_digit_upper (b / 16)) (hex_digit_upper (b mod 16)) = Some b.
Proof.
  intros H. assert (Hc : hex_roundtrip_check b = true) by range_check hex_roundtrip_check 0 256%nat.
  unfold hex_roundtrip_check in Hc. destruct (hex_octet _ _); [|discriminate].
  apply Z.eqb_eq in Hc. congruence.
Qed.

Lemma escape_digits_unreserved b :
  0 <= b < 256 ->
  is_uri_unreserved (hex_digit_upper (b / 16)) = true /\ is_uri_unreserved (hex_digit_upper (b mod 16)) = true.
Proof.
  intros H. split.
  - range_check (fun b => is_uri_unreserved (hex_digit_upper (b / 16))) 0 256%nat.
  - range_check (fun b => is_uri_unreserved (hex_digit_upper (b mod 16))) 0 256%nat.
Qed.

Lemma pct_reserved : is_uri_unreserved c_pct = false.
Proof. reflexivity. Qed.

Lemma Decode_plain p s : ~ In c_pct s -> Decode p s = Normal s.
Proof.
  induction s as [|c s IH]; intros Hn; [reflexivity|]. simpl.
  destruct (Z.eqb_spec c c_pct) as [->|Hne]; [simpl in Hn; tauto|]. simpl.
  rewrite IH by (simpl in Hn; tauto). reflexivity.
Qed.

Lemma Encode_unescaped u s : Forall (fun c => u c = true) s -> Encode u s = Normal s.
Proof.
  induction 1 as [|c s Hc Hs IH]; [reflexivity|]. simpl. rewrite Hc, IH. reflexivity.
Qed.

Lemma read_escapes dec bs acc t :
  Forall (fun b => is_byte b = true) bs ->
  read_continuations dec (length bs) acc (percent_escape_octets bs ++ t) =
    match utf8_decode (acc ++ bs) with
    | None => Throw URIError
    | Some v => app (UTF16EncodeCodePoint v) <$$> dec t
    end.
Proof.
  revert acc. induction bs as [|b bs IH]; intros acc Hb; simpl.
  - rewrite app_nil_r. destruct t; reflexivity.
  - inversion Hb as [|? ? Hb0 Hbs]; subst. unfold is_byte in Hb0. bool_hyps.
    rewrite hex_octet_escape by lia.
    rewrite IH by exact Hbs. rewrite <- app_assoc. reflexivity.
Qed.

Lemma Decode_escapes cp t :
  is_scalar cp = true ->
  decodeURIComponent (percent_escape_octets (utf8_encode cp) ++ t) =
    app (UTF16EncodeCodePoint cp) <$$> decodeURIComponent t.
Proof.
  intros Hcp. unfold decodeURIComponent.
  destruct (utf8_encode_lead cp Hcp) as (b0 & bs & Henc & Hlen & Hbytes & Hlead).
  pose proof (utf8_decode_encode cp Hcp) as Hdec. rewrite Henc in Hdec |- *.
  inversion Hbytes as [|? ? Hb0 Hbs]; subst. unfold is_byte in Hb0. bool_hyps.
  simpl. rewrite hex_octet_escape by lia. rewrite Hlead.
  destruct bs as [|b1 bs].
  - simpl. simpl in Hdec. destruct (Z.ltb_spec b0 0x80); [|discriminate]. injection Hdec as ->.
    rewrite UTF16EncodeCodePoint_bmp by lia. reflexivity.
  - simpl length in *.
    replace (4 <? S (S (length bs)))%nat with false by (symmetry; apply Nat.ltb_ge; lia).
    cbn [Nat.eqb orb negb].
    change (S (S (length bs)) - 1)%nat with (length (b1 :: bs)).
    rewrite read_escapes by exact Hbs. simpl app. rewrite Hdec. reflexivity.
Qed.

Lemma read_continuations_O dec o t :
  read_continuations dec 0 o t =
    match utf8_decode o with
    | None => Throw URIError
    | Some v => app (UTF16EncodeCodePoint v) <$$> dec t
    end.
Proof. destruct t; reflexivity. Qed.

(** The inner loop throws only [URIError], when [dec] does on what is left. *)
Lemma read_continuations_throw dec k o t e :
  (forall t', (length t' <= length t)%nat -> dec t' = Throw e -> e = URIError) ->
  read_continuations dec k o t = Throw e -> e = URIError.
Proof.
  revert k o. induction t as [t IH] using length_strong_ind. intros k o Hdec H.
  destruct k as [|k]; [rewrite read_continuations_O in H|].
  - destruct (utf8_decode o); [|congruence].
    destruct (dec t) eqn:Ht; simpl in H; [discriminate | injection H as ->; eapply Hdec; eauto].
  - destruct t as [|u [|g1 [|g2 t']]]; simpl in H; try congruence.
    destruct (negb (u =? c_pct)); [congruence|]. destruct (hex_octet g1 g2); [|congruence].
    refine (IH t' _ _ _ _ H); [simpl; lia|]. intros t'' Hl. apply Hdec. simpl in *. lia.
Qed.

(** [Decode] throws only [URIError]. *)
Lemma Decode_throw p s e : Decode p s = Throw e -> e = URIError.
Proof.
  induction s as [s IH] using length_strong_ind. intros H.
  destruct s as [|c rest]; simpl in H; [discriminate|].
  destruct (negb (c =? c_pct)).
  { destruct (Decode p rest) eqn:Hr; simpl in H; [discriminate|]. injection H as ->.
    apply (IH rest); [simpl; lia | exact Hr]. }
  destruct rest as [|h1 [|h2 rest1]]; try congruence.
  destruct (hex_octet h1 h2) as [b|]; [|congruence].
  destruct (leading_ones b =? 0)%nat.
  { destruct (Decode p rest1) eqn:Hr; simpl in H; [discriminate|]. injection H as ->.
    apply (IH rest1); [simpl; lia | exact Hr]. }
  destruct ((leading_ones b =? 1)%nat || (4 <? leading_ones b)%nat); [congruence|].
  eapply read_continuations_throw; [| exact H].
  intros t' Hl. apply IH. simpl. lia.
Qed.

(** The inner loop on a text followed by more: when [Decode] maps
    concatenations homomorphically on shorter texts, so does the loop. *)
Lemma read_continuations_app p k o s t r :
  (forall s1 r1, (length s1 <= length s)%nat -> Decode p s1 = Normal r1 ->
     Decode p (s1 ++ t) = app r1 <$$> Decode p t) ->
  read_continuations (Decode p) k o s = Normal r ->
  read_continuations (Decode p) k o (s ++ t) = app r <$$> Decode p t.
Proof.
  revert o s r. induction k as [|k IH]; intros o s r Hdec H.
  - rewrite read_continuations_O in H |- *. destruct (utf8_decode o) as [v|]; [|discriminate].
    destruct (Decode p s) as [r0|] eqn:Hs; cbn in H; [|discriminate]. injection H as <-.
    rewrite (Hdec s r0 (le_n _) Hs), cmap_cmap. destruct (Decode p t); cbn; rewrite ?app_assoc; reflexivity.
  - destruct s as [|pc [|g1 [|g2 s']]]; cbn in H; try discriminate. cbn [app read_continuations].
    destruct (negb (pc =? c_pct)); [discriminate|]. destruct (hex_octet g1 g2); [|discriminate].
    apply IH; [|exact H]. intros s1 r1 Hl. apply Hdec. cbn. lia.
Qed.

(** [Decode] of a text that decodes, followed by more, decodes the
    two parts separately. *)
Lemma Decode_app p s t s' :
  Decode p s = Normal s' -> Decode p (s ++ t) = app s' <$$> Decode p t.
Proof.
  revert s'. induction s as [s IH] using length_strong_ind. intros s' H.
  destruct s as [|c rest]; cbn [Decode] in H.
  - injection H as <-. cbn. destruct (Decode p t); cbn; rewrite ?app_assoc; reflexivity.
  - cbn [app Decode]. destruct (negb (c =? c_pct)).
    + destruct (Decode p rest) as [r0|] eqn:Hr; cbn [cmap] in H; [|discriminate]. injection H as <-.
      rewrite (IH rest ltac:(cbn; lia) r0 Hr), cmap_cmap. destruct (Decode p t); cbn; rewrite ?app_assoc; reflexivity.
    + destruct rest as [|h1 [|h2 rest1]]; try discriminate. cbn [app].
      destruct (hex_octet h1 h2) as [b|]; [|discriminate].
      destruct (leading_ones b =? 0)%nat.
      * destruct (Decode p rest1) as [r0|] eqn:Hr; cbn [cmap] in H; [|destruct (p b); discriminate].
        rewrite (IH rest1 ltac:(cbn; lia) r0 Hr), cmap_cmap.
        destruct (p b); injection H as <-; destruct (Decode p t); cbn; rewrite ?app_assoc; reflexivity.
      * destruct ((leading_ones b =? 1)%nat || (4 <? leading_ones b)%nat); [discriminate|].
        apply read_continuations_app; [|exact H].
        intros s1 r1 Hl. apply IH. cbn. lia.
Qed.

Lemma unreserved_ascii c : is_uri_unreserved c = true -> 33 <= c <= 126.
Proof. unfold is_uri_unreserved, in_range. simpl existsb. bool_to_prop. lia. Qed.

Lemma not_surrogate c :
  is_lead_surrogate c = false -> is_trail_surrogate c = false -> is_surrogate c = false.
Proof.
  unfold is_lead_surrogate, is_trail_surrogate, is_surrogate. bool_to_prop. lia.
Qed.

Lemma unit_scalar c : valid_unit c = true -> is_surrogate c = false -> is_scalar c = true.
Proof. unfold valid_unit, is_scalar. intros H1 H2. rewrite H2. bool_to_prop. lia. Qed.

Lemma Encode_cons c rest :
  wf_units (c :: rest) = true ->
  (is_uri_unreserved c = true /\ encodeURIComponent (c :: rest) = cons c <$$> encodeURIComponent rest /\
   well_formed_pairs (c :: rest) = well_formed_pairs rest)
  \/ (exists cp rest', is_scalar cp = true /\ c :: rest = UTF16EncodeCodePoint cp ++ rest' /\
        encodeURIComponent (c :: rest) = app (percent_escape_octets (utf8_encode cp)) <$$> encodeURIComponent rest' /\
        well_formed_pairs (c :: rest) = well_formed_pairs rest' /\
        (length rest' < S (length rest))%nat)
  \/ (encodeURIComponent (c :: rest) = Throw URIError /\ well_formed_pairs (c :: rest) = false).
Proof.
  intros Hw. simpl in Hw. apply andb_true_iff in Hw as [Hc _].
  unfold encodeURIComponent. simpl Encode. simpl well_formed_pairs.
  destruct (is_uri_unreserved c) eqn:Hu.
  - left. split; [reflexivity|]. split; [reflexivity|].
    apply unreserved_ascii in Hu.
    replace (is_lead_surrogate c) with false
      by (symmetry; unfold is_lead_surrogate; bool_to_prop; lia).
    replace (is_trail_surrogate c) with false
      by (symmetry; unfold is_trail_surrogate; bool_to_prop; lia). reflexivity.
  - right. unfold CodePointAt. destruct (is_lead_surrogate c) eqn:Hl.
    + replace (is_trail_surrogate c) with false
        by (revert Hl; unfold is_lead_surrogate, is_trail_surrogate; bool_to_prop; lia).
      simpl. destruct rest as [|d rest2]; [right; auto|].
      destruct (is_trail_surrogate d) eqn:Ht; simpl; [|right; auto].
      left. exists (surrogate_pair_to_cp c d), rest2.
      destruct (surrogate_pair_scalar c d Hl Ht) as [Hs Hu16].
      rewrite Hu16. repeat split; auto.
    + destruct (is_trail_surrogate c) eqn:Ht; simpl; [right; auto|].
      left. exists c, rest. pose proof (not_surrogate c Hl Ht) as Hns.
      rewrite UTF16EncodeCodePoint_bmp by (unfold valid_unit in Hc; bool_to_prop; lia).
      repeat split; auto. apply unit_scalar; assumption.
Qed.

Lemma decodeURIComponent_cons c e :
  c <> c_pct -> decodeURIComponent (c :: e) = cons c <$$> decodeURIComponent e.
Proof. intros H. unfold decodeURIComponent. simpl. destruct (Z.eqb_spec c c_pct); [congruence|reflexivity]. Qed.

Lemma wf_units_app s t : wf_units (s ++ t) = wf_units s && wf_units t.
Proof. apply forallb_app. Qed.

Lemma encodeURIComponent_roundtrip s :
  IsStringWellFormedUnicode s = true ->
  (e <- encodeURIComponent s ;; decodeURIComponent e) = Normal s.
Proof.
  induction s as [s IH] using length_strong_ind. intros Hwf.
  unfold IsStringWellFormedUnicode in Hwf. apply andb_true_iff in Hwf as [Hu Hp].
  destruct s as [|c rest]; [reflexivity|].
  destruct (Encode_cons c rest Hu) as [(Hc & -> & Hpr) | [(cp & rest' & Hs & Hsplit & -> & Hpr & Hlen) | (_ & Hpr)]].
  - rewrite cbind_cmap.
    assert (Hnp : c <> c_pct) by (intros ->; discriminate).
    setoid_rewrite (fun e => decodeURIComponent_cons c e Hnp).
    transitivity (cmap (cons c) (e <- encodeURIComponent rest ;; decodeURIComponent e));
      [destruct (encodeURIComponent rest); reflexivity|].
    rewrite (IH rest); [reflexivity | simpl; lia |].
    unfold IsStringWellFormedUnicode. simpl in Hu. rewrite Hpr in Hp.
    apply andb_true_iff in Hu as [_ Hu]. rewrite Hu, Hp. reflexivity.
  - rewrite cbind_cmap. setoid_rewrite Decode_escapes; [|exact Hs].
    transitivity (cmap (app (UTF16EncodeCodePoint cp)) (e <- encodeURIComponent rest' ;; decodeURIComponent e));
      [destruct (encodeURIComponent rest'); reflexivity|].
    rewrite (IH rest'); [rewrite Hsplit; reflexivity | simpl; lia |].
    unfold IsStringWellFormedUnicode. rewrite Hsplit, wf_units_app in Hu.
    apply andb_true_iff in Hu as [_ Hu]. rewrite Hpr in Hp. rewrite Hu, Hp. reflexivity.
  - congruence.
Qed.

Lemma wf_units_tail c rest : wf_units (c :: rest) = true -> wf_units rest = true.
Proof. simpl. intros H. apply andb_true_iff in H as [_ H]. exact H. Qed.

Lemma wf_units_suffix u rest : wf_units (u ++ rest) = true -> wf_units rest = true.
Proof. rewrite wf_units_app. intros H. apply andb_true_iff in H as [_ H]. exact H. Qed.

(** [encodeURIComponent] throws exactly on strings with a lone surrogate,
    and only [URIError]. *)
Lemma encodeURIComponent_result s :
  wf_units s = true ->
  (well_formed_pairs s = true /\ exists e, encodeURIComponent s = Normal e) \/
  (well_formed_pairs s = false /\ encodeURIComponent s = Throw URIError).
Proof.
  induction s as [s IH] using length_strong_ind. intros Hu.
  destruct s as [|c rest]; [left; split; [reflexivity | eexists; reflexivity]|].
  destruct (Encode_cons c rest Hu) as [(Hc & -> & Hpr) | [(cp & rest' & Hs & Hsplit & -> & Hpr & Hlen) | (Ht & Hpr)]].
  - rewrite Hpr. destruct (IH rest) as [(Hp & e & ->) | (Hp & ->)];
      [simpl; lia | eapply wf_units_tail; eauto | left; eauto | right; auto].
  - rewrite Hpr. rewrite Hsplit in Hu. destruct (IH rest') as [(Hp & e & ->) | (Hp & ->)];
      [simpl; lia | eapply wf_units_suffix; eauto | left; eauto | right; auto].
  - right. auto.
Qed.

Lemma percent_escape_octets_alphabet o :
  Forall (fun b => is_byte b = true) o ->
  Forall (fun c => is_uri_unreserved c = true \/ c = c_pct) (percent_escape_octets o).
Proof.
  induction 1 as [|b o Hb _ IH]; [constructor|]. simpl.
  unfold is_byte in Hb. bool_hyps.
  destruct (escape_digits_unreserved b) as [H1 H2]; [lia|].
  constructor; [right; reflexivity|]. constructor; [left; exact H1|].
  constructor; [left; exact H2|]. exact IH.
Qed.

Lemma encodeURIComponent_alphabet s e :
  wf_units s = true -> encodeURIComponent s = Normal e ->
  Forall (fun c => is_uri_unreserved c = true \/ c = c_pct) e.
Proof.
  revert e. induction s as [s IH] using length_strong_ind. intros e Hu He.
  destruct s as [|c rest]; [injection He as <-; constructor|].
  destruct (Encode_cons c rest Hu) as [(Hc & Heq & Hpr) | [(cp & rest' & Hs & Hsplit & Heq & Hpr & Hlen) | (Ht & Hpr)]];
    [rewrite Heq in He | rewrite Heq in He | rewrite Ht in He; discriminate]; inv_completion.
  - constructor; [left; exact Hc|]. apply (IH rest); [simpl; lia | eapply wf_units_tail; eauto | assumption].
  - apply Forall_app. split.
    + apply percent_escape_octets_alphabet.
      destruct (utf8_encode_lead cp Hs) as (b0 & bs & -> & _ & Hb & _). exact Hb.
    + rewrite Hsplit in Hu. apply (IH rest'); [simpl; lia | eapply wf_units_suffix; eauto | assumption].
Qed.

Lemma encodeURIComponent_unreserved s :
  Forall (fun c => is_uri_unreserved c = true) s -> encodeURIComponent s = Normal s.
Proof. apply Encode_unescaped. Qed.

(** C11: On a string of 16-bit units, [encodeURIComponent] throws
    [URIError] exactly when the string holds a lone surrogate; otherwise
    its result holds only unreserved units and ['%'], and
    [decodeURIComponent] maps it back to the string. *)
Theorem encodeURIComponent_spec s :
  wf_units s = true ->
  match encodeURIComponent s with
  | Normal e => well_formed_pairs s = true /\ decodeURIComponent e = Normal s /\
                Forall (fun c => is_uri_unreserved c = true \/ c = c_pct) e
  | Throw err => err = URIError /\ well_formed_pairs s = false
  end.
Proof.
  intros Hu. destruct (encodeURIComponent_result s Hu) as [(Hp & e & He) | (Hp & He)]; rewrite He; [|auto].
  pose proof (encodeURIComponent_roundtrip s) as Hr.
  unfold IsStringWellFormedUnicode in Hr. rewrite Hu, Hp, He in Hr.
  split; [exact Hp|]. split; [exact (Hr eq_refl)|]. exact (encodeURIComponent_alphabet s e Hu He).
Qed.

Lemma encodeURIComponent_spec_witness :
  wf_units [97; 0x20AC; 0xD83D; 0xDE00] = true /\
  decodeURIComponent (js "a%E2%82%AC%F0%9F%98%80"%string) = Normal [97; 0x20AC; 0xD83D; 0xDE00].
Proof.
  assert (Hu : wf_units [97; 0x20AC; 0xD83D; 0xDE00] = true) by reflexivity.
  split; [exact Hu|].
  pose proof (encodeURIComponent_spec _ Hu) as H.
  assert (He : encodeURIComponent [97; 0x20AC; 0xD83D; 0xDE00] = Normal (js "a%E2%82%AC%F0%9F%98%80"%string))
    by (vm_compute; reflexivity).
  rewrite He in H. exact (proj1 (proj2 H)).
Defined.

#[export] Instance ecma_codec_laws : PercentCodecLaws ecma_codec.
Proof.
  split; simpl.
  - apply encodeURIComponent_roundtrip.
  - apply encodeURIComponent_alphabet.
  - apply encodeURIComponent_unreserved.
Qed.

End Uri.
