(* ===== verification/JsValue.v ===== *)
(** JavaScript values and ordinary objects, as the query-string code uses them.

    A value is a primitive, an array (its elements in order, no holes) or
    a plain object.  A plain object is the list of its own properties in
    creation order, each key once; its prototype is [Object.prototype],
    which has no enumerable property and whose only accessor is
    [__proto__].  [ToString], [ToBoolean], property assignment
    ([OrdinarySet] through the [__proto__] setter), the own-key order of
    [OrdinaryOwnPropertyKeys] (array indices ascending, then strings in
    creation order) and the keys a [for ... in] loop visits follow
    ECMA-262.  Numbers are integers. *)

From Stdlib Require Import ZArith Lia List String Sorting.Permutation.
From stdpp Require Import base decidable list.
From S2P Require Import Prelude JsString.
Import ListNotations.
Open Scope Z_scope.

Module JsValue.
Import JsString.

#[warnings="-register-all"]
Inductive value :=
| VUndefined
| VNull
| VBool (b : bool)
| VNumber (n : Z)
| VString (s : jsstring)
| VArray (elems : list value)
| VObject (props : list (jsstring * value)).

Definition object := list (jsstring * value).

(** [ToString]; an array converts through [join(",")], where [undefined]
    and [null] elements become empty. *)
Fixpoint to_string (v : value) : jsstring :=
  match v with
  | VUndefined => js "undefined"
  | VNull => js "null"
  | VBool true => js "true"
  | VBool false => js "false"
  | VNumber n => number_to_string n
  | VString s => s
  | VArray elems =>
      join [44] (map (fun e => match e with
                               | VUndefined | VNull => []
                               | _ => to_string e
                               end) elems)
  | VObject _ => js "[object Object]"
  end.

(** [ToBoolean], the test of [!obj]. *)
Definition truthy (v : value) : bool :=
  match v with
  | VUndefined | VNull => false
  | VBool b => b
  | VNumber n => negb (n =? 0)
  | VString s => negb (bool_decide (s = []))
  | VArray _ | VObject _ => true
  end.

(** [v instanceof Array]. *)
Definition is_array (v : value) : bool :=
  match v with VArray _ => true | _ => false end.

Definition proto_key : jsstring := js "__proto__".

Fixpoint obj_get {A} (o : list (jsstring * A)) (k : jsstring) : option A :=
  match o with
  | [] => None
  | (k', v) :: o' => if bool_decide (k' = k) then Some v else obj_get o' k
  end.

(** The write [o[k] = v] of an existing own data property, or the
    creation of a new one at the end of the creation order. *)
Fixpoint obj_put {A} (o : list (jsstring * A)) (k : jsstring) (v : A) : list (jsstring * A) :=
  match o with
  | [] => [(k, v)]
  | (k', v') :: o' =>
      if bool_decide (k' = k) then (k', v) :: o' else (k', v') :: obj_put o' k v
  end.

(** [o[k] = s] for a string [s] on a plain object: the key [__proto__]
    reaches the inherited setter, which ignores a value that is not an
    object, so nothing changes. *)
Definition set_string_property (o : object) (k : jsstring) (s : jsstring) : object :=
  if bool_decide (k = proto_key) then o else obj_put o k (VString s).

(** An array index: the canonical decimal form of an integer below
    [2^32 - 1]. *)
Definition is_array_index (k : jsstring) : bool :=
  match k with
  | [] => false
  | d :: rest =>
      forallb is_digit k && negb ((d =? c_zero) && negb (bool_decide (rest = [])))
      && (decimal_value k <? 4294967295)
  end.

Fixpoint insert_by_index {A} (p : jsstring * A) (o : list (jsstring * A)) : list (jsstring * A) :=
  match o with
  | [] => [p]
  | q :: o' =>
      if decimal_value p.1 <? decimal_value q.1 then p :: q :: o'
      else q :: insert_by_index p o'
  end.

(** [OrdinaryOwnPropertyKeys]: array indices in ascending numeric order,
    then the other string keys in creation order. *)
Definition ordered_props {A} (o : list (jsstring * A)) : list (jsstring * A) :=
  fold_right insert_by_index [] (List.filter (fun p => is_array_index p.1) o)
  ++ List.filter (fun p => negb (is_array_index p.1)) o.

Fixpoint indexed {A} (i : Z) (l : list A) : list (Z * A) :=
  match l with
  | [] => []
  | x :: l' => (i, x) :: indexed (i + 1) l'
  end.

(** The key/value pairs a [for (let key in v)] loop visits, with [v[key]]:
    the ordered own properties of an object, the indices of an array or
    of a string; primitives other than strings have none. *)
Definition for_in (v : value) : list (jsstring * value) :=
  match v with
  | VObject o => ordered_props o
  | VArray elems => map (fun '(i, e) => (number_to_string i, e)) (indexed 0 elems)
  | VString s => map (fun '(i, c) => (number_to_string i, VString [c])) (indexed 0 s)
  | _ => []
  end.

Definition keys {A} (o : list (jsstring * A)) : list jsstring := map fst o.

(** ** Lemmas *)

Lemma obj_get_put_eq {A} (o : list (jsstring * A)) k v : obj_get (obj_put o k v) k = Some v.
Proof.
  induction o as [|[k' v'] o IH]; simpl; [rewrite bool_decide_true; auto|].
  destruct (bool_decide_reflect (k' = k)) as [->|Hne]; simpl.
  - rewrite bool_decide_true; auto.
  - rewrite bool_decide_false by exact Hne. exact IH.
Qed.

Lemma obj_get_put_ne {A} (o : list (jsstring * A)) k k' v : k <> k' -> obj_get (obj_put o k v) k' = obj_get o k'.
Proof.
  intros Hne. induction o as [|[k0 v0] o IH]; simpl.
  - rewrite bool_decide_false by exact Hne. reflexivity.
  - destruct (bool_decide_reflect (k0 = k)) as [->|Hk]; simpl.
    + rewrite !bool_decide_false by exact Hne. reflexivity.
    + destruct (bool_decide (k0 = k')); [reflexivity | exact IH].
Qed.

Lemma keys_obj_put_new {A} (o : list (jsstring * A)) k v : ~ In k (keys o) -> obj_put o k v = o ++ [(k, v)].
Proof.
  induction o as [|[k' v'] o IH]; intros Hn; simpl; [reflexivity|].
  rewrite bool_decide_false by (simpl in Hn; tauto).
  rewrite IH by (simpl in Hn; tauto). reflexivity.
Qed.

Lemma in_keys_obj_put {A} (o : list (jsstring * A)) k v x : In x (keys (obj_put o k v)) -> x = k \/ In x (keys o).
Proof.
  induction o as [|[k' v'] o IH]; simpl; [intuition|].
  destruct (bool_decide_reflect (k' = k)) as [->|Hne]; simpl; [tauto|].
  intros [->|H]; [tauto|]. destruct (IH H); tauto.
Qed.

(** Assignment keeps the keys of an object distinct. *)
Lemma obj_put_nodup {A} (o : list (jsstring * A)) k v : NoDup (keys o) -> NoDup (keys (obj_put o k v)).
Proof.
  induction o as [|[k' v'] o IH]; intros Hnd; simpl.
  { constructor; [intros Hin; inversion Hin | constructor]. }
  inversion Hnd as [|? ? Hn Hnd']; subst.
  destruct (bool_decide_reflect (k' = k)) as [->|Hne]; simpl; [constructor; assumption|].
  constructor; [|apply IH; exact Hnd'].
  intros Hin. apply list_elem_of_In, in_keys_obj_put in Hin as [->|Hin]; [congruence|].
  apply Hn, list_elem_of_In, Hin.
Qed.

Lemma set_string_property_proto o s : set_string_property o proto_key s = o.
Proof. unfold set_string_property. rewrite bool_decide_true; reflexivity. Qed.

(** Reading a property after a string assignment. *)
Lemma obj_get_set_string o k s k' :
  obj_get (set_string_property o k s) k' =
    if bool_decide (k = proto_key) then obj_get o k'
    else if bool_decide (k = k') then Some (VString s) else obj_get o k'.
Proof.
  unfold set_string_property. destruct (bool_decide (k = proto_key)); [reflexivity|].
  destruct (bool_decide_reflect (k = k')) as [<-|Hne].
  - apply obj_get_put_eq.
  - apply obj_get_put_ne, Hne.
Qed.

Lemma ordered_props_no_index {A} (o : list (jsstring * A)) :
  Forall (fun p => is_array_index p.1 = false) o -> ordered_props o = o.
Proof.
  intros Hf. unfold ordered_props.
  assert (H1 : List.filter (fun p => is_array_index p.1) o = []).
  { induction Hf as [|p o Hp _ IH]; simpl; [reflexivity|]. rewrite Hp. exact IH. }
  assert (H2 : List.filter (fun p => negb (is_array_index p.1)) o = o).
  { clear H1. induction Hf as [|p o Hp _ IH]; simpl; [reflexivity|]. rewrite Hp. simpl. f_equal. exact IH. }
  rewrite H1, H2. reflexivity.
Qed.

Lemma insert_by_index_perm {A} (p : jsstring * A) o : Permutation (p :: o) (insert_by_index p o).
Proof.
  induction o as [|q o IH]; simpl; [reflexivity|].
  destruct (_ <? _); [reflexivity|].
  rewrite perm_swap. constructor. exact IH.
Qed.

Lemma fold_insert_perm {A} (l : list (jsstring * A)) : Permutation l (fold_right insert_by_index [] l).
Proof.
  induction l as [|p l IH]; simpl; [reflexivity|].
  rewrite <- insert_by_index_perm. constructor. exact IH.
Qed.

Lemma filter_partition_perm {A} (f : A -> bool) l :
  Permutation l (List.filter f l ++ List.filter (fun x => negb (f x)) l).
Proof.
  induction l as [|a l IH]; simpl; [reflexivity|].
  destruct (f a); simpl; [constructor; exact IH | apply Permutation_cons_app; exact IH].
Qed.

(** The own-key order only reorders the properties. *)
Lemma ordered_props_perm {A} (o : list (jsstring * A)) : Permutation o (ordered_props o).
Proof.
  unfold ordered_props. rewrite <- fold_insert_perm. apply filter_partition_perm.
Qed.

Lemma ordered_props_nodup {A} (o : list (jsstring * A)) :
  NoDup (map fst o) -> NoDup (map fst (ordered_props o)).
Proof.
  intros H. rewrite <- (Permutation_map fst (ordered_props_perm o)). exact H.
Qed.

(** A property of an object with distinct keys is what a read gives. *)
Lemma obj_get_in {A} (o : list (jsstring * A)) k x :
  NoDup (map fst o) -> In (k, x) o -> obj_get o k = Some x.
Proof.
  induction o as [|[k' x'] o IH]; simpl; [tauto|]. intros Hnd Hin.
  inversion Hnd as [|? ? Hn Hnd']; subst.
  destruct Hin as [[= -> ->]|Hin]; [rewrite bool_decide_true; reflexivity|].
  rewrite bool_decide_false; [apply IH; assumption|].
  intros ->. apply Hn, list_elem_of_In, in_map_iff. exists (k, x). auto.
Qed.

(** The own-key order looks only at keys: it commutes with any relation
    between objects that relates properties with the same key. *)
Section OrderedRel.
Context {A B} (R : jsstring * A -> jsstring * B -> Prop).
Hypothesis R_key : forall a b, R a b -> a.1 = b.1.

Lemma filter_Forall2 (f : jsstring -> bool) l1 l2 :
  Forall2 R l1 l2 -> Forall2 R (List.filter (fun p => f p.1) l1) (List.filter (fun p => f p.1) l2).
Proof.
  induction 1 as [|a b l1 l2 Hab _ IH]; simpl; [constructor|].
  rewrite (R_key a b Hab). destruct (f b.1); [constructor|]; assumption.
Qed.

Lemma insert_by_index_Forall2 a b l1 l2 :
  R a b -> Forall2 R l1 l2 -> Forall2 R (insert_by_index a l1) (insert_by_index b l2).
Proof.
  intros Hab. induction 1 as [|c d l1 l2 Hcd Hl IH]; simpl; [repeat constructor; exact Hab|].
  rewrite (R_key a b Hab), (R_key c d Hcd).
  destruct (decimal_value b.1 <? decimal_value d.1); repeat constructor; assumption.
Qed.

Lemma ordered_props_Forall2 l1 l2 :
  Forall2 R l1 l2 -> Forall2 R (ordered_props l1) (ordered_props l2).
Proof.
  intros H. unfold ordered_props. apply Forall2_app.
  - pose proof (filter_Forall2 is_array_index _ _ H) as Hf.
    induction Hf as [|a b l1' l2' Hab _ IH]; simpl; [constructor|].
    apply insert_by_index_Forall2; assumption.
  - apply (filter_Forall2 (fun k => negb (is_array_index k))), H.
Qed.
End OrderedRel.

Lemma ordered_props_map {A B} (f : A -> B) (o : list (jsstring * A)) :
  ordered_props (map (fun kv => (kv.1, f kv.2)) o) = map (fun kv => (kv.1, f kv.2)) (ordered_props o).
Proof.
  set (g := fun kv : jsstring * A => (kv.1, f kv.2)).
  assert (H : Forall2 (fun a b => b = g a) o (map g o)).
  { induction o as [|a o IH]; simpl; constructor; auto. }
  apply ordered_props_Forall2 in H; [|intros a b ->; reflexivity].
  induction H as [|a b l1 l2 -> _ IH]; simpl; [reflexivity|]. rewrite IH. reflexivity.
Qed.

End JsValue.
