(* ===== verification/QueryString.v ===== *)
(** The query-string codec of [src/index.js]: [parseUrlQuery],
    [stringifyQueryString] and [stringifyUrlQuery].

    The functions are written against [PercentCodec], the interface of
    [encodeURIComponent]/[decodeURIComponent]; with the instance
    [Uri.ecma_codec] they are the functions of the source.  The parser
    takes the value of [window.location.href] as a parameter [href]. *)

From Stdlib Require Import ZArith Lia String List.
From stdpp Require Import base decidable list.
From S2P Require Import Prelude JsString Unicode Uri JsValue.
Import ListNotations.
Open Scope Z_scope.

Module QueryString.
Import JsString Unicode Uri JsValue.

Section WithCodec.
Context `{C : PercentCodec}.

(** One call of the [forEach] callback of [parseUrlQuery]:
    [const s = item.split('='); ret[s[0]] = decodeURIComponent(s[1])].
    [s[1]] is [undefined] when the item has no ['='], and
    [decodeURIComponent] converts it to the string ["undefined"]. *)
Definition parse_item (ret : object) (item : jsstring) : completion object :=
  let s := split c_eq item in
  let key := match s with k :: _ => k | [] => [] end in
  let raw := match s with _ :: v :: _ => v | _ => js "undefined"%string end in
  v <- percent_decode raw ;; Normal (set_string_property ret key v).

(** [parseUrlQuery(str)]: the emptiness test looks at the part after the
    last ['?'], but the pairs are split from the whole string with only a
    leading ['?'] removed. *)
Definition parseUrlQuery (href : jsstring) (str : option jsstring) : completion object :=
  let str := match str with Some ((_ :: _) as s) => s | _ => href end in
  let search := substring str (lastIndexOf str c_qmark + 1) in
  match search with
  | [] => Normal []
  | _ :: _ => cfold_left parse_item (split c_amp (strip_leading_qmark str)) []
  end.

(** [encodeURIComponent(key) + '=' + encodeURIComponent(value)]. *)
Definition encode_pair (key : jsstring) (v : value) : completion jsstring :=
  k <- percent_encode key ;; e <- percent_encode (to_string v) ;; Normal (k ++ [c_eq] ++ e).

(** The body of the [for ... in] loop of [stringifyQueryString]: an array
    value pushes one pair per element under [key[i]], any other value one
    pair. *)
Definition stringify_entry (kv : jsstring * value) : completion (list jsstring) :=
  let '(key, v) := kv in
  match v with
  | VArray elems =>
      cmap_list (fun '(i, e) =>
        encode_pair (key ++ [c_lbracket] ++ number_to_string i ++ [c_rbracket]) e)
        (indexed 0 elems)
  | _ => (fun p => [p]) <$$> encode_pair key v
  end.

Definition stringifyQueryString (obj : value) : completion jsstring :=
  if negb (truthy obj) then Normal []
  else pairs <- cconcat_map stringify_entry (for_in obj) ;; Normal (join [c_amp] pairs).

(** [stringifyUrlQuery(data)]: the key is written raw, the value encoded. *)
Definition stringifyUrlQuery (data : value) : completion jsstring :=
  if negb (truthy data) then Normal []
  else ret <- cmap_list (fun '(k, v) =>
                  e <- percent_encode (to_string v) ;; Normal (k ++ [c_eq] ++ e)) (for_in data) ;;
       Normal (join [c_amp] ret).

(** The key [s[0]] and the raw value [s[1]] of an item of the query. *)
Definition item_key (item : jsstring) : jsstring :=
  match split c_eq item with k :: _ => k | [] => [] end.

Definition item_raw (item : jsstring) : jsstring :=
  match split c_eq item with _ :: v :: _ => v | _ => js "undefined"%string end.

(** ** The shape of a query the parser reads back *)

(** A unit that separates nothing: not ['&'], ['='] or ['?']. *)
Definition plain_unit (c : Z) : Prop := c <> c_amp /\ c <> c_eq /\ c <> c_qmark.

#[export] Instance plain_unit_dec c : Decision (plain_unit c).
Proof. unfold plain_unit. apply _. Defined.

(** A query piece [key=encoded] with the decoded value it stands for. *)
Definition piece (t : jsstring * jsstring * jsstring) : jsstring :=
  let '(k, e, _) := t in k ++ c_eq :: e.

Definition piece_entry (t : jsstring * jsstring * jsstring) : jsstring * value :=
  let '(k, _, s) := t in (k, VString s).

Definition good_piece (t : jsstring * jsstring * jsstring) : Prop :=
  let '(k, e, s) := t in
  Forall plain_unit k /\ Forall plain_unit e /\ percent_decode e = Normal s /\ k <> proto_key.

(** The entries a round trip can preserve: an unreserved key other than
    [__proto__], and a value that is not an array and converts to a
    well-formed string. *)
Definition query_safe_entry (kv : jsstring * value) : bool :=
  let '(k, v) := kv in
  forallb is_uri_unreserved k && negb (bool_decide (k = proto_key)) && negb (is_array v)
  && IsStringWellFormedUnicode (to_string v).

(** The entries [stringifyUrlQuery] writes so that the parser reads them
    back: a key with no separator, other than [__proto__], and a value
    that converts to a well-formed string. *)
Definition url_safe_entry (kv : jsstring * value) : bool :=
  let '(k, v) := kv in
  bool_decide (Forall plain_unit k) && negb (bool_decide (k = proto_key))
  && IsStringWellFormedUnicode (to_string v).

(** A property as the parser gives it back: its value as a string. *)
Definition string_entry (kv : jsstring * value) : jsstring * value :=
  let '(k, v) := kv in (k, VString (to_string v)).

End WithCodec.

Section Laws.
Context `{C : PercentCodec} `{L : !PercentCodecLaws C}.

Lemma plain_notin s :
  Forall plain_unit s -> ~ In c_amp s /\ ~ In c_eq s /\ ~ In c_qmark s.
Proof.
  intros H. rewrite List.Forall_forall in H.
  repeat split; intros Hin; apply H in Hin; unfold plain_unit in Hin; tauto.
Qed.

Lemma parse_item_piece acc k e s :
  good_piece (k, e, s) -> parse_item acc (piece (k, e, s)) = Normal (set_string_property acc k s).
Proof.
  intros (Hk & He & Hd & Hp).
  destruct (plain_notin k Hk) as (_ & Hk2 & _). destruct (plain_notin e He) as (_ & He2 & _).
  unfold parse_item, piece. rewrite split_app_sep by exact Hk2.
  rewrite split_notin by exact He2. simpl. rewrite Hd. reflexivity.
Qed.

Lemma set_string_property_new o k s :
  k <> proto_key -> ~ In k (keys o) -> set_string_property o k s = o ++ [(k, VString s)].
Proof.
  intros Hp Hn. unfold set_string_property. rewrite bool_decide_false by exact Hp.
  apply keys_obj_put_new, Hn.
Qed.

Lemma nodup_app_notin (l : list jsstring) x r : NoDup (l ++ x :: r) -> ~ In x l.
Proof.
  intros H Hin. apply NoDup_app in H as (_ & H & _).
  apply (H x); [apply list_elem_of_In, Hin | left].
Qed.

(** Parsing well-formed pieces appends one property per piece. *)
Lemma fold_pieces ts acc :
  Forall good_piece ts -> NoDup (keys (acc ++ map piece_entry ts)) ->
  cfold_left parse_item (map piece ts) acc = Normal (acc ++ map piece_entry ts).
Proof.
  revert acc. induction ts as [|[[k e] s] ts IH]; intros acc Hg Hnd; cbn [map cfold_left].
  { rewrite app_nil_r. reflexivity. }
  inversion Hg as [|? ? Hp Hts]; subst.
  rewrite parse_item_piece by exact Hp. simpl.
  unfold keys in Hnd. rewrite map_app in Hnd. simpl in Hnd.
  rewrite set_string_property_new.
  - rewrite IH by (exact Hts || (unfold keys; rewrite <- app_assoc, map_app; exact Hnd)).
    rewrite <- app_assoc. reflexivity.
  - destruct Hp as (_ & _ & _ & Hp). exact Hp.
  - exact (nodup_app_notin _ _ _ Hnd).
Qed.

(** A piece holds no ['&'] and no ['?']. *)
Lemma piece_separators t c :
  good_piece t -> c = c_amp \/ c = c_qmark -> ~ In c (piece t).
Proof.
  destruct t as [[k e] s]. intros (Hk & He & _) Hc Hin. simpl in Hin.
  apply in_app_or in Hin as [Hin | [Hin | Hin]].
  - apply (proj1 (List.Forall_forall _ _) Hk) in Hin. unfold plain_unit in Hin. intuition congruence.
  - subst. unfold c_eq, c_amp, c_qmark in Hc. lia.
  - apply (proj1 (List.Forall_forall _ _) He) in Hin. unfold plain_unit in Hin. intuition congruence.
Qed.

Lemma query_no_qmark ts : Forall good_piece ts -> ~ In c_qmark (join [c_amp] (map piece ts)).
Proof.
  intros Hg Hc. apply In_join in Hc as [[Hq|[]] | (w & Hw & Hc)]; [unfold c_amp, c_qmark in Hq; lia|].
  apply in_map_iff in Hw as (t & <- & Ht). rewrite List.Forall_forall in Hg.
  exact (piece_separators t c_qmark (Hg t Ht) (or_intror eq_refl) Hc).
Qed.

Lemma pieces_no_amp ts : Forall good_piece ts -> Forall (fun w => ~ In c_amp w) (map piece ts).
Proof.
  intros Hg. apply Forall_map. eapply Forall_impl; [exact Hg|].
  intros t Ht. exact (piece_separators t c_amp Ht (or_introl eq_refl)).
Qed.

(** [parseUrlQuery] reads back a query made of well-formed pieces with
    distinct keys. *)
Lemma parse_pieces href ts :
  ts <> [] -> Forall good_piece ts -> NoDup (keys (map piece_entry ts)) ->
  parseUrlQuery href (Some (join [c_amp] (map piece ts))) = Normal (map piece_entry ts).
Proof.
  intros Hne Hg Hnd. pose proof (query_no_qmark ts Hg) as Hq.
  assert (Hs : split c_amp (join [c_amp] (map piece ts)) = map piece ts).
  { apply split_join; [destruct ts; simpl; congruence | apply pieces_no_amp, Hg]. }
  unfold parseUrlQuery.
  destruct (join [c_amp] (map piece ts)) as [|x r] eqn:Eq.
  - exfalso. destruct ts as [|[[k e] s] ts]; [congruence|].
    simpl in Hs. injection Hs as Hs _. destruct k; discriminate.
  - rewrite substring_lastIndexOf_notin by exact Hq.
    rewrite strip_leading_qmark_other by (simpl; intros [= ->]; apply Hq; left; reflexivity).
    rewrite Hs. apply (fold_pieces ts []); assumption.
Qed.

Lemma unreserved_plain c : is_uri_unreserved c = true -> plain_unit c.
Proof.
  unfold is_uri_unreserved, in_range, plain_unit, c_amp, c_eq, c_qmark. simpl existsb.
  bool_to_prop. lia.
Qed.

(** What the codec laws give on one value: an encoding that decodes back
    and holds no separator. *)
Lemma encode_value s :
  IsStringWellFormedUnicode s = true ->
  exists e, percent_encode s = Normal e /\ percent_decode e = Normal s /\ Forall plain_unit e.
Proof.
  intros Hw. pose proof (codec_roundtrip s Hw) as Hr.
  destruct (percent_encode s) as [e|err] eqn:He; [|discriminate].
  exists e. split; [reflexivity|]. split; [exact Hr|].
  unfold IsStringWellFormedUnicode in Hw. apply andb_true_iff in Hw as [Hu _].
  eapply Forall_impl; [exact (codec_alphabet s e Hu He)|].
  intros c [Hc| ->]; [apply unreserved_plain, Hc | unfold plain_unit, c_pct, c_amp, c_eq, c_qmark; lia].
Qed.

Lemma stringify_safe_entry kv :
  query_safe_entry kv = true ->
  exists e, stringify_entry kv = Normal [piece (kv.1, e, to_string kv.2)] /\
            good_piece (kv.1, e, to_string kv.2).
Proof.
  destruct kv as [k v]. intros H. cbv beta iota delta [query_safe_entry] in H.
  apply andb_true_iff in H as [H Hw]. apply andb_true_iff in H as [H Ha].
  apply andb_true_iff in H as [Hk Hp]. apply forallb_Forall in Hk.
  apply negb_true_iff, bool_decide_eq_false in Hp. apply negb_true_iff in Ha. cbn [fst snd].
  destruct (encode_value _ Hw) as (e & He & Hd & Hpl). exists e. split.
  - assert (Hent : stringify_entry (k, v) = (fun p => [p]) <$$> encode_pair k v)
      by (destruct v; try reflexivity; discriminate).
    rewrite Hent. unfold encode_pair. rewrite codec_unreserved by exact Hk.
    simpl. rewrite He. reflexivity.
  - split; [|auto]. eapply Forall_impl; [exact Hk|]. intros c Hc. apply unreserved_plain, Hc.
Qed.

Lemma stringify_entries o :
  Forall (fun kv => query_safe_entry kv = true) o ->
  exists ts, cconcat_map stringify_entry o = Normal (map piece ts) /\ Forall good_piece ts /\
             map piece_entry ts = map string_entry o.
Proof.
  induction 1 as [|[k v] o Hkv _ IH]; [exists []; split; [reflexivity | split; constructor]|].
  destruct IH as (ts & Hc & Hg & Hm). destruct (stringify_safe_entry _ Hkv) as (e & He & Hp).
  exists ((k, e, to_string v) :: ts). cbn [cconcat_map map]. rewrite He, Hc. simpl.
  split; [reflexivity|]. split; [constructor; assumption|]. rewrite Hm. reflexivity.
Qed.

Lemma keys_string_entries o : keys (map string_entry o) = keys o.
Proof. unfold keys. rewrite map_map. apply map_ext. intros [k v]. reflexivity. Qed.

(** C1: Parsing what [stringifyQueryString] makes of a non-empty plain
    object whose keys are unreserved (and not [__proto__]) and whose
    values are not arrays and convert to well-formed strings gives back
    an object with the same keys, in the own-key order of the original
    (integer-like keys first), each mapped to the string its value
    converts to. *)
Theorem parse_stringify_roundtrip href o :
  o <> [] -> NoDup (keys o) -> forallb query_safe_entry o = true ->
  (q <- stringifyQueryString (VObject o) ;; parseUrlQuery href (Some q)) =
    Normal (map string_entry (ordered_props o)).
Proof.
  intros Hne Hnd Hs. apply forallb_Forall in Hs. pose proof (ordered_props_perm o) as Hperm.
  assert (Hs' : Forall (fun kv => query_safe_entry kv = true) (ordered_props o)).
  { rewrite List.Forall_forall in *. intros x Hx. apply Hs.
    eapply Permutation_in; [symmetry; exact Hperm | exact Hx]. }
  destruct (stringify_entries _ Hs') as (ts & Hc & Hg & Hm).
  unfold stringifyQueryString. simpl. rewrite Hc. simpl. rewrite <- Hm.
  apply parse_pieces; [| exact Hg |].
  - intros ->. simpl in Hm. destruct (ordered_props o) eqn:E; [|discriminate].
    apply Hne, Permutation_nil. symmetry. exact Hperm.
  - rewrite Hm, keys_string_entries. apply ordered_props_nodup, Hnd.
Qed.
Lemma url_entries o :
  Forall (fun kv => url_safe_entry kv = true) o ->
  exists ts, cmap_list (fun '(k, v) => e <- percent_encode (to_string v) ;; Normal (k ++ [c_eq] ++ e)) o
               = Normal (map piece ts) /\
             Forall good_piece ts /\ map piece_entry ts = map string_entry o.
Proof.
  induction 1 as [|[k v] o Hkv _ IH]; [exists []; split; [reflexivity | split; constructor]|].
  destruct IH as (ts & Hc & Hg & Hm). cbv beta iota delta [url_safe_entry] in Hkv.
  apply andb_true_iff in Hkv as [H Hw]. apply andb_true_iff in H as [Hk Hp].
  apply bool_decide_eq_true in Hk. apply negb_true_iff, bool_decide_eq_false in Hp.
  destruct (encode_value _ Hw) as (e & He & Hd & Hpl).
  exists ((k, e, to_string v) :: ts). cbn [cmap_list map]. rewrite He, Hc. simpl.
  split; [reflexivity|]. split; [constructor; [repeat split; assumption | assumption]|].
  rewrite Hm. reflexivity.
Qed.

(** C6: Parsing what [stringifyUrlQuery] makes of a non-empty plain
    object gives back its properties in own-key order with their values
    as strings, when no key holds ['&'], ['='] or ['?'] or is
    [__proto__], keys are distinct and values convert to well-formed
    strings.  Keys are written raw, so they need not be unreserved. *)
Theorem parse_stringifyUrlQuery_roundtrip href o :
  o <> [] -> NoDup (keys o) -> forallb url_safe_entry o = true ->
  (q <- stringifyUrlQuery (VObject o) ;; parseUrlQuery href (Some q)) =
    Normal (map string_entry (ordered_props o)).
Proof.
  intros Hne Hnd Hs. apply forallb_Forall in Hs. pose proof (ordered_props_perm o) as Hperm.
  assert (Hs' : Forall (fun kv => url_safe_entry kv = true) (ordered_props o)).
  { rewrite List.Forall_forall in *. intros x Hx. apply Hs.
    eapply Permutation_in; [symmetry; exact Hperm | exact Hx]. }
  destruct (url_entries _ Hs') as (ts & Hc & Hg & Hm).
  unfold stringifyUrlQuery. cbn [truthy negb for_in]. rewrite Hc. simpl. rewrite <- Hm.
  apply parse_pieces; [| exact Hg |].
  - intros ->. simpl in Hm. destruct (ordered_props o) eqn:E; [|discriminate].
    apply Hne, Permutation_nil. symmetry. exact Hperm.
  - rewrite Hm, keys_string_entries. apply ordered_props_nodup, Hnd.
Qed.

End Laws.

Section Parser.
Context `{C : PercentCodec}.

Lemma parse_item_eq acc item :
  parse_item acc item =
    (v <- percent_decode (item_raw item) ;; Normal (set_string_property acc (item_key item) v)).
Proof. reflexivity. Qed.

Lemma parse_item_get acc item acc' k :
  parse_item acc item = Normal acc' -> k <> proto_key ->
  (item_key item = k /\ exists s, percent_decode (item_raw item) = Normal s /\ obj_get acc' k = Some (VString s))
  \/ (item_key item <> k /\ obj_get acc' k = obj_get acc k).
Proof.
  rewrite parse_item_eq. intros H Hk. inv_completion. rewrite obj_get_set_string.
  destruct (bool_decide_reflect (item_key item = proto_key)) as [Hp|Hp].
  - right. split; [congruence | reflexivity].
  - destruct (bool_decide_reflect (item_key item = k)) as [<-|Hne]; [left | right]; eauto.
Qed.

(** C2: The [forEach] loop of [parseUrlQuery] keeps, for every key other
    than [__proto__], the decoded value of the last item with that key;
    a key no item has keeps the value it had before the loop. *)
Theorem parse_items_last_wins items acc r k :
  cfold_left parse_item items acc = Normal r -> k <> proto_key ->
  (exists pre i post s, items = pre ++ i :: post /\ item_key i = k /\
     Forall (fun j => item_key j <> k) post /\ percent_decode (item_raw i) = Normal s /\
     obj_get r k = Some (VString s)) \/
  (Forall (fun j => item_key j <> k) items /\ obj_get r k = obj_get acc k).
Proof.
  revert acc. induction items as [|x items IH]; intros acc H Hk; simpl in H.
  { injection H as <-. right. split; [constructor | reflexivity]. }
  inv_completion. rename a into acc'.
  destruct (IH acc' H Hk) as [(pre & i & post & s & -> & Hi & Hpost & Hd & Hr) | (Hn & Hr)].
  - left. exists (x :: pre), i, post, s. auto.
  - destruct (parse_item_get acc x acc' k Ha Hk) as [(Hx & s & Hd & Hs) | (Hx & Hs)].
    + left. exists [], x, items, s. rewrite Hr. auto.
    + right. split; [constructor; assumption | congruence].
Qed.

(** C3: The loop throws exactly when the value of some item fails to
    decode, every item before it decoding; the error is the decoder's. *)
Theorem parse_items_throw items acc e :
  cfold_left parse_item items acc = Throw e <->
  exists pre i post, items = pre ++ i :: post /\
    Forall (fun j => exists s, percent_decode (item_raw j) = Normal s) pre /\
    percent_decode (item_raw i) = Throw e.
Proof.
  revert acc. induction items as [|x items IH]; intros acc; simpl.
  { split; [discriminate|]. intros ([|] & ? & ? & Heq & _); simpl in Heq; discriminate. }
  rewrite parse_item_eq. destruct (percent_decode (item_raw x)) as [s|e'] eqn:Hx; simpl.
  - rewrite IH. split.
    + intros (pre & i & post & -> & Hpre & Hi). exists (x :: pre), i, post. eauto.
    + intros ([|y pre] & i & post & Heq & Hpre & Hi); injection Heq as <- Heq.
      * congruence.
      * exists pre, i, post. inversion Hpre; subst. auto.
  - split.
    + intros [= <-]. exists [], x, items. auto.
    + intros ([|y pre] & i & post & Heq & Hpre & Hi); injection Heq as <- Heq.
      * congruence.
      * inversion Hpre as [|? ? (s & Hs) _]; congruence.
Qed.

(** The loop never gives the object an own property [__proto__]. *)
Lemma parse_items_no_proto items acc r :
  cfold_left parse_item items acc = Normal r -> obj_get acc proto_key = None -> obj_get r proto_key = None.
Proof.
  revert acc. induction items as [|x items IH]; intros acc H Hacc; simpl in H.
  - injection H as <-. exact Hacc.
  - inv_completion. apply (IH a H). rewrite parse_item_eq in Ha. inv_completion.
    rewrite obj_get_set_string. destruct (bool_decide (item_key x = proto_key)); exact Hacc.
Qed.

(** C7: whatever the query, the object [parseUrlQuery] returns has no own
    property [__proto__]: an item with that key assigns through the
    inherited [__proto__] setter, which ignores a string, and the item is
    lost. *)
Theorem parseUrlQuery_no_proto href str o :
  parseUrlQuery href str = Normal o -> obj_get o proto_key = None.
Proof.
  unfold parseUrlQuery. cbv zeta. destruct (substring _ _) as [|c r].
  - intros [= <-]. reflexivity.
  - intros H. exact (parse_items_no_proto _ _ _ H eq_refl).
Qed.

Lemma fold_throw_item items acc e :
  cfold_left parse_item items acc = Throw e ->
  exists i, In i items /\ percent_decode (item_raw i) = Throw e.
Proof.
  revert acc. induction items as [|x items IH]; intros acc H; simpl in H; [discriminate|].
  rewrite parse_item_eq in H. destruct (percent_decode (item_raw x)) as [s|e'] eqn:Hx; simpl in H.
  - destruct (IH _ H) as (i & Hi & Hd). exists i. simpl. auto.
  - injection H as <-. exists x. simpl. auto.
Qed.

(** C4: An item with more than one ['='] stores only the text between
    its first and second ['=']: the rest of the item is lost. *)
Theorem parse_item_extra_eq acc k v w :
  ~ In c_eq k -> ~ In c_eq v ->
  parse_item acc (k ++ c_eq :: v ++ c_eq :: w) =
    (s <- percent_decode v ;; Normal (set_string_property acc k s)).
Proof.
  intros Hk Hv. rewrite parse_item_eq. unfold item_raw, item_key.
  rewrite split_app_sep by exact Hk. rewrite split_app_sep by exact Hv. reflexivity.
Qed.

End Parser.

(** ** The source's parser: [decodeURIComponent] as the decoder *)

(** [parseUrlQuery] throws nothing but [URIError]. *)
Theorem parseUrlQuery_throw_uri href str e :
  @parseUrlQuery ecma_codec href str = Throw e -> e = URIError.
Proof.
  unfold parseUrlQuery. intros H.
  destruct (substring _ _); [discriminate|].
  destruct (fold_throw_item _ _ _ H) as (i & _ & Hd). exact (Decode_throw _ _ _ Hd).
Qed.

(** C5: An item without ['='] stores the string ["undefined"] under the
    whole item: [s[1]] is [undefined], which [decodeURIComponent]
    converts to a string. *)
Theorem parse_item_no_eq acc item :
  ~ In c_eq item ->
  @parse_item ecma_codec acc item = Normal (set_string_property acc item (js "undefined"%string)).
Proof.
  intros H. rewrite parse_item_eq. unfold item_raw, item_key.
  rewrite split_notin by exact H. reflexivity.
Qed.

(** ** Instances at concrete inputs *)

Definition sample_href : jsstring := js "http://h/p?z=0".

Lemma parse_stringify_roundtrip_witness :
  (q <- @stringifyQueryString ecma_codec
          (VObject [(js "b", VNumber 1); (js "7", VString (js "x y")); (js "a", VBool true)]) ;;
   @parseUrlQuery ecma_codec sample_href (Some q)) =
  Normal [(js "7", VString (js "x y")); (js "b", VString (js "1")); (js "a", VString (js "true"))].
Proof.
  apply (@parse_stringify_roundtrip ecma_codec ecma_codec_laws sample_href
           [(js "b", VNumber 1); (js "7", VString (js "x y")); (js "a", VBool true)]).
  - discriminate.
  - apply (bool_decide_unpack _). vm_compute. reflexivity.
  - vm_compute. reflexivity.
Defined.

Lemma parse_items_last_wins_witness :
  @cfold_left _ _ (@parse_item ecma_codec) [js "a=1"; js "b=2"; js "a=3"] [] =
    Normal [(js "a", VString (js "3")); (js "b", VString (js "2"))] /\
  js "a" <> proto_key /\
  ((exists pre i post s, [js "a=1"; js "b=2"; js "a=3"] = pre ++ i :: post /\ item_key i = js "a" /\
     Forall (fun j => item_key j <> js "a") post /\ decodeURIComponent (item_raw i) = Normal s /\
     obj_get [(js "a", VString (js "3")); (js "b", VString (js "2"))] (js "a") = Some (VString s)) \/
   (Forall (fun j => item_key j <> js "a") [js "a=1"; js "b=2"; js "a=3"] /\
     obj_get [(js "a", VString (js "3")); (js "b", VString (js "2"))] (js "a") = obj_get [] (js "a"))).
Proof.
  assert (H1 : @cfold_left _ _ (@parse_item ecma_codec) [js "a=1"; js "b=2"; js "a=3"] [] =
    Normal [(js "a", VString (js "3")); (js "b", VString (js "2"))]) by (vm_compute; reflexivity).
  assert (H2 : js "a" <> proto_key) by (vm_compute; discriminate).
  split; [exact H1|]. split; [exact H2|].
  exact (@parse_items_last_wins ecma_codec _ _ _ _ H1 H2).
Defined.

Lemma parse_item_extra_eq_witness :
  @parse_item ecma_codec [] (js "k" ++ c_eq :: js "v%20" ++ c_eq :: js "w") =
    (s <- decodeURIComponent (js "v%20") ;; Normal (set_string_property [] (js "k") s)).
Proof.
  apply (@parse_item_extra_eq ecma_codec); vm_compute; intuition discriminate.
Defined.

Lemma parseUrlQuery_throw_uri_witness :
  @parseUrlQuery ecma_codec sample_href (Some (js "a=%E0%A4")) = Throw URIError /\ URIError = URIError.
Proof.
  assert (H : @parseUrlQuery ecma_codec sample_href (Some (js "a=%E0%A4")) = Throw URIError)
    by (vm_compute; reflexivity).
  split; [exact H | exact (parseUrlQuery_throw_uri _ _ _ H)].
Defined.

Lemma parse_item_no_eq_witness :
  @parse_item ecma_codec [] (js "flag") = Normal [(js "flag", VString (js "undefined"))].
Proof. apply (parse_item_no_eq [] (js "flag")). vm_compute. intuition discriminate. Defined.

Lemma parse_stringifyUrlQuery_roundtrip_witness :
  (q <- @stringifyUrlQuery ecma_codec
          (VObject [(js "x%", VString (js "1 2")); (js "10", VBool false)]) ;;
   @parseUrlQuery ecma_codec sample_href (Some q)) =
  Normal [(js "10", VString (js "false")); (js "x%", VString (js "1 2"))].
Proof.
  apply (@parse_stringifyUrlQuery_roundtrip ecma_codec ecma_codec_laws sample_href
           [(js "x%", VString (js "1 2")); (js "10", VBool false)]).
  - discriminate.
  - apply (bool_decide_unpack _). vm_compute. reflexivity.
  - vm_compute. reflexivity.
Defined.

(** [parseUrlQuery] is documented as reading the query of a URL, but
    it splits the whole URL: the part before the last ['?'] stays in the
    first key. *)
Example parse_full_url :
  @parseUrlQuery ecma_codec sample_href (Some (js "http://example.com/path?x=5"%string)) =
    Normal [(js "http://example.com/path?x"%string, VString (js "5"%string))].
Proof. vm_compute. reflexivity. Qed.

(** The empty query that [stringifyQueryString] makes of an empty
    object does not parse back to an empty object: an empty argument
    makes [parseUrlQuery] read [window.location.href] instead. *)
Theorem stringify_empty_parse_href href :
  @stringifyQueryString ecma_codec (VObject []) = Normal [] /\
  @parseUrlQuery ecma_codec href (Some []) = @parseUrlQuery ecma_codec href None.
Proof. split; reflexivity. Qed.

(** Array values do not round-trip: [stringifyQueryString] encodes
    the bracketed key [a[0]] as [a%5B0%5D], and the parser, which never
    decodes keys, keeps the encoded form. *)
Example stringify_array_parse :
  (q <- @stringifyQueryString ecma_codec
          (VObject [(js "a"%string, VArray [VString (js "x"%string); VNumber 2])]) ;;
   @parseUrlQuery ecma_codec sample_href (Some q)) =
  Normal [(js "a%5B0%5D"%string, VString (js "x"%string));
          (js "a%5B1%5D"%string, VString (js "2"%string))].
Proof. vm_compute. reflexivity. Qed.

(** A [__proto__] item of the query is lost: the assignment reaches
    the inherited [__proto__] setter, which ignores a string. *)
Example parse_proto_item :
  @parseUrlQuery ecma_codec sample_href (Some (js "__proto__=1&x=2"%string)) =
    Normal [(js "x"%string, VString (js "2"%string))].
Proof. vm_compute. reflexivity. Qed.

Lemma parseUrlQuery_no_proto_witness :
  @parseUrlQuery ecma_codec sample_href (Some (js "__proto__=1&x=2"%string)) =
    Normal [(js "x"%string, VString (js "2"%string))] /\
  obj_get [(js "x"%string, VString (js "2"%string))] proto_key = None.
Proof.
  assert (H : @parseUrlQuery ecma_codec sample_href (Some (js "__proto__=1&x=2"%string)) =
              Normal [(js "x"%string, VString (js "2"%string))]) by (vm_compute; reflexivity).
  split; [exact H|]. exact (parseUrlQuery_no_proto _ _ _ H).
Defined.

(** [stringifyUrlQuery] writes keys raw, so a key holding ['&'] or
    ['='] is split apart by the parser. *)
Example stringifyUrlQuery_raw_key :
  (q <- @stringifyUrlQuery ecma_codec (VObject [(js "a&b"%string, VString (js "c=d"%string))]) ;;
   @parseUrlQuery ecma_codec sample_href (Some q)) =
  Normal [(js "a"%string, VString (js "undefined"%string));
          (js "b"%string, VString (js "c=d"%string))].
Proof. vm_compute. reflexivity. Qed.

End QueryString.
