(* ===== verification/KeyCode.v ===== *)
(** The key-code table of [src/index.js] and [getKeyName] (lines 240-361).

    [keyCodeMap] is an object literal with numeric keys; evaluating it
    creates one property per entry, keyed by [ToString] of the number.
    [getKeyName(keycode)] reads [keyCodeMap[keycode]] and returns it when
    it is truthy, otherwise writes a line to the console and returns the
    empty string.  The key code is an integer, as [KeyboardEvent.keyCode]
    is; the console is modelled as the list of lines a call writes. *)

From Stdlib Require Import ZArith Lia String List.
From stdpp Require Import base decidable list.
From S2P Require Import Prelude JsString JsValue.
Import ListNotations.
Open Scope string_scope.
Open Scope Z_scope.

Module KeyCode.
Import JsString JsValue.

(** The entries of the literal, in source order. *)
Definition key_table : list (Z * string) := [
  (8, "Backspace");
  (9, "Tab");
  (13, "Enter");
  (16, "Shift");
  (17, "Ctrl");
  (18, "Alt");
  (19, "Pause");
  (20, "Caps Lock");
  (27, "Escape");
  (32, "Space");
  (33, "Page Up");
  (34, "Page Down");
  (35, "End");
  (36, "Home");
  (37, "Left");
  (38, "Up");
  (39, "Right");
  (40, "Down");
  (42, "Print Screen");
  (45, "Insert");
  (46, "Delete");
  (48, "0");
  (49, "1");
  (50, "2");
  (51, "3");
  (52, "4");
  (53, "5");
  (54, "6");
  (55, "7");
  (56, "8");
  (57, "9");
  (65, "A");
  (66, "B");
  (67, "C");
  (68, "D");
  (69, "E");
  (70, "F");
  (71, "G");
  (72, "H");
  (73, "I");
  (74, "J");
  (75, "K");
  (76, "L");
  (77, "M");
  (78, "N");
  (79, "O");
  (80, "P");
  (81, "Q");
  (82, "R");
  (83, "S");
  (84, "T");
  (85, "U");
  (86, "V");
  (87, "W");
  (88, "X");
  (89, "Y");
  (90, "Z");
  (91, "Windows");
  (93, "Right Click");
  (96, "Numpad 0");
  (97, "Numpad 1");
  (98, "Numpad 2");
  (99, "Numpad 3");
  (100, "Numpad 4");
  (101, "Numpad 5");
  (102, "Numpad 6");
  (103, "Numpad 7");
  (104, "Numpad 8");
  (105, "Numpad 9");
  (106, "Numpad *");
  (107, "Numpad +");
  (109, "Numpad -");
  (110, "Numpad .");
  (111, "Numpad /");
  (112, "F1");
  (113, "F2");
  (114, "F3");
  (115, "F4");
  (116, "F5");
  (117, "F6");
  (118, "F7");
  (119, "F8");
  (120, "F9");
  (121, "F10");
  (122, "F11");
  (123, "F12");
  (144, "Num Lock");
  (145, "Scroll Lock");
  (182, "My Computer");
  (183, "My Calculator");
  (186, ";");
  (187, "=");
  (188, ",");
  (189, "-");
  (190, ".");
  (191, "/");
  (192, "`");
  (219, "[");
  (220, "\");
  (221, "]");
  (222, "'")
].

(** The object the literal evaluates to: each entry defines the property
    [ToString(code)], in order. *)
Definition keyCodeMap : object :=
  fold_left (fun o '(c, n) => obj_put o (number_to_string c) (VString (js n))) key_table [].

Definition unknown_key_message (keycode : Z) : jsstring :=
  (js "Unknow Key(Key Code: " ++ number_to_string keycode ++ js ")")%list.

(** [getKeyName(keycode)]: the result and the console lines written. *)
Definition getKeyName (keycode : Z) : value * list jsstring :=
  match obj_get keyCodeMap (number_to_string keycode) with
  | Some v => if truthy v then (v, []) else (VString [], [unknown_key_message keycode])
  | None => (VString [], [unknown_key_message keycode])
  end.

(** ** Specification: a lookup in the table of codes *)

Fixpoint lookup_code (t : list (Z * string)) (k : Z) : option string :=
  match t with
  | [] => None
  | (c, n) :: t' => if c =? k then Some n else lookup_code t' k
  end.

Definition key_entry (e : Z * string) : jsstring * value :=
  let '(c, n) := e in (number_to_string c, VString (js n)).

(** ** Lemmas *)

Lemma keyCodeMap_entries : keyCodeMap = map key_entry key_table.
Proof. vm_compute. reflexivity. Qed.

Lemma obj_get_code_table t k :
  obj_get (map key_entry t) (number_to_string k) = option_map (fun n => VString (js n)) (lookup_code t k).
Proof.
  induction t as [|[c n] t IH]; simpl; [reflexivity|].
  destruct (Z.eqb_spec c k) as [->|Hne].
  - rewrite bool_decide_true; reflexivity.
  - rewrite bool_decide_false; [exact IH|]. intros H. apply Hne, number_to_string_inj, H.
Qed.

Lemma key_names_nonempty : Forall (fun e => js e.2 <> []) key_table.
Proof. apply (bool_decide_unpack _). vm_compute. reflexivity. Qed.

Lemma lookup_code_in t k n : lookup_code t k = Some n -> In (k, n) t.
Proof.
  induction t as [|[c m] t IH]; simpl; [discriminate|].
  destruct (Z.eqb_spec c k) as [->|_]; [intros [= ->]; left; reflexivity | intros H; right; auto].
Qed.

(** C12: [getKeyName] is a lookup of the key code in the table of the
    source: the name of the code when the table has it, with nothing
    written to the console, and otherwise the empty string with the
    message ["Unknow Key(Key Code: <code>)"]. *)
Theorem getKeyName_spec k :
  getKeyName k =
    match lookup_code key_table k with
    | Some n => (VString (js n), [])
    | None => (VString [], [unknown_key_message k])
    end.
Proof.
  unfold getKeyName. rewrite keyCodeMap_entries, obj_get_code_table.
  destruct (lookup_code key_table k) as [n|] eqn:Hl; simpl; [|reflexivity].
  apply lookup_code_in in Hl.
  pose proof (proj1 (List.Forall_forall _ _) key_names_nonempty _ Hl) as Hn. simpl in Hn.
  unfold truthy. rewrite bool_decide_false by exact Hn. reflexivity.
Qed.

(** The table is well formed: its keys are distinct, every name is a
    non-empty string (so the truthiness test of [getKeyName] is a
    membership test), and its own-key order is the source order, the
    codes being ascending array indices. *)
Theorem keyCodeMap_wf :
  NoDup (keys keyCodeMap) /\ Forall (fun kv => truthy kv.2 = true) keyCodeMap /\
  ordered_props keyCodeMap = keyCodeMap.
Proof.
  split; [apply (bool_decide_unpack _); vm_compute; reflexivity|].
  split; [apply (bool_decide_unpack _); vm_compute; reflexivity|].
  vm_compute. reflexivity.
Qed.

End KeyCode.
