(* ===== verification/Heap.v ===== *)
(** Objects with identity: [arrayEqual] (lines 7-30), [deepClone]
    (lines 372-407) and [isEmptyObject] (lines 414-420) of [src/index.js].

    These helpers compare objects by reference ([===]), allocate fresh
    objects and may recurse through cyclic structures, so a value here is
    a primitive or a reference to a location of a heap.  Numbers are
    integers or [NaN] (the only number for which [x !== x]).  A heap cell
    holds an array (its elements, no holes), a plain object (its own
    properties in creation order, prototype [Object.prototype]) or a
    [Date] (its time value).  Functions and symbols are not modelled. *)

From Stdlib Require Import ZArith Lia String List.
From stdpp Require Import base decidable list gmap.
From S2P Require Import Prelude JsString JsValue.
Import ListNotations.
Open Scope Z_scope.

Module Heap.
Import JsString JsValue.

Definition loc := positive.

Inductive num := NaN | Int (z : Z).

Inductive prim :=
| PUndefined
| PNull
| PBool (b : bool)
| PNum (n : num)
| PString (s : jsstring).

Inductive jsv :=
| JPrim (p : prim)
| JRef (l : loc).

Inductive hobj :=
| HArray (elems : list jsv)
| HObject (props : list (jsstring * jsv))
| HDate (time : Z).

Abbreviation heap := (gmap loc hobj).

#[export] Instance num_eq_dec : EqDecision num.
Proof. solve_decision. Defined.
#[export] Instance prim_eq_dec : EqDecision prim.
Proof. solve_decision. Defined.
#[export] Instance jsv_eq_dec : EqDecision jsv.
Proof. solve_decision. Defined.

(** [IsStrictlyEqual]: [NaN] differs from everything, objects are equal
    when they are the same object. *)
Definition num_strict_eq (a b : num) : bool :=
  match a, b with
  | Int x, Int y => x =? y
  | _, _ => false
  end.

Definition prim_strict_eq (a b : prim) : bool :=
  match a, b with
  | PUndefined, PUndefined | PNull, PNull => true
  | PBool x, PBool y => Bool.eqb x y
  | PNum x, PNum y => num_strict_eq x y
  | PString x, PString y => bool_decide (x = y)
  | _, _ => false
  end.

Definition strict_equals (a b : jsv) : bool :=
  match a, b with
  | JPrim x, JPrim y => prim_strict_eq x y
  | JRef l1, JRef l2 => bool_decide (l1 = l2)
  | _, _ => false
  end.

(** [ToBoolean] and [typeof]. *)
Definition truthy (v : jsv) : bool :=
  match v with
  | JPrim PUndefined | JPrim PNull => false
  | JPrim (PBool b) => b
  | JPrim (PNum NaN) => false
  | JPrim (PNum (Int z)) => negb (z =? 0)
  | JPrim (PString s) => negb (bool_decide (s = []))
  | JRef _ => true
  end.

Definition typeof (v : jsv) : jsstring :=
  match v with
  | JPrim PUndefined => js "undefined"
  | JPrim PNull => js "object"
  | JPrim (PBool _) => js "boolean"
  | JPrim (PNum _) => js "number"
  | JPrim (PString _) => js "string"
  | JRef _ => js "object"
  end.

(** [Object.prototype.toString.call(v) == '[object Array]'], which is also
    [Array.isArray(v)] and [v instanceof Array] here. *)
Definition is_array_ref (h : heap) (v : jsv) : bool :=
  match v with
  | JRef l => match h !! l with Some (HArray _) => true | _ => false end
  | JPrim _ => false
  end.

Definition array_elems (h : heap) (v : jsv) : list jsv :=
  match v with
  | JRef l => match h !! l with Some (HArray es) => es | _ => [] end
  | JPrim _ => []
  end.

(** [Object.keys(v)]: the own enumerable string keys, in own-key order. *)
Definition object_keys (h : heap) (v : jsv) : list jsstring :=
  match v with
  | JRef l =>
      match h !! l with
      | Some (HObject ps) => map fst (ordered_props ps)
      | Some (HArray es) => map (fun '(i, _) => number_to_string i) (indexed 0 es)
      | _ => []
      end
  | JPrim _ => []
  end.

(** The loop [for (i = 0; i < arr1.length; i++) if (arr1[i] !== arr2[i])
    return false; return true]. *)
Fixpoint elems_strict_equal (l1 l2 : list jsv) : bool :=
  match l1, l2 with
  | x :: r1, y :: r2 => if negb (strict_equals x y) then false else elems_strict_equal r1 r2
  | _, _ => true
  end.

Definition arrayEqual (h : heap) (arr1 arr2 : jsv) : completion bool :=
  let isArr1 := is_array_ref h arr1 in
  let isArr2 := is_array_ref h arr2 in
  if negb isArr1 || negb isArr2 then Throw PlainError
  else if strict_equals arr1 arr2 then Normal true
  else if negb (Nat.eqb (length (array_elems h arr1)) (length (array_elems h arr2))) then Normal false
  else Normal (elems_strict_equal (array_elems h arr1) (array_elems h arr2)).

Definition isEmptyObject (h : heap) (obj : jsv) : bool :=
  if negb (truthy obj) || negb (bool_decide (typeof obj = js "object")) || is_array_ref h obj
  then false
  else negb (negb (Nat.eqb (length (object_keys h obj)) 0)).

(** The values a call of [deepClone] on a cell reads and clones, and the
    paths they make between cells. *)
Definition children (o : hobj) : list jsv :=
  match o with
  | HArray es => es
  | HObject ps => flat_map (fun k => match obj_get ps k with Some x => [x] | None => [] end) (map fst ps)
  | HDate _ => []
  end.

Inductive path (h : heap) : loc -> loc -> Prop :=
| path_step l l' o : h !! l = Some o -> In (JRef l') (children o) -> path h l l'
| path_trans l1 l2 l3 : path h l1 l2 -> path h l2 l3 -> path h l1 l3.

(** Strict equality is equality on everything but [NaN]. *)
Definition not_nan (v : jsv) : Prop := v <> JPrim (PNum NaN).

#[export] Instance not_nan_dec v : Decision (not_nan v).
Proof. unfold not_nan. apply _. Defined.

(** ** [deepClone] *)

(** [copy[key] = v] on a fresh plain object: a new or updated own data
    property, except that the key [__proto__] reaches the inherited
    setter and creates no own property. *)
Definition assign_prop (ps : list (jsstring * jsv)) (k : jsstring) (v : jsv) : list (jsstring * jsv) :=
  if bool_decide (k = proto_key) then ps else obj_put ps k v.

Definition push_elem (x : jsv) (o : hobj) : hobj :=
  match o with HArray es => HArray (es ++ [x]) | _ => o end.

Definition set_prop (k : jsstring) (x : jsv) (o : hobj) : hobj :=
  match o with HObject ps => HObject (assign_prop ps k x) | _ => o end.

(** A write to the cell of the copy. *)
Definition update_cell (h : heap) (c : loc) (f : hobj -> hobj) : heap :=
  match h !! c with Some o => <[c := f o]> h | None => h end.

(** [new Date()], [[]] or [{}]: a fresh location. *)
Definition alloc (h : heap) (o : hobj) : heap * loc :=
  let c := fresh (dom h) in (<[c := o]> h, c).

(** The loops of [deepClone]: for each item, read the value to copy,
    clone it, and store the clone in the copy [c]. *)
Fixpoint clone_each {A} (clone : heap -> jsv -> completion (heap * jsv)) (c : loc)
    (read : A -> option jsv) (store : A -> jsv -> hobj -> hobj) (items : list A) (h : heap)
    : completion heap :=
  match items with
  | [] => Normal h
  | i :: items' =>
      match read i with
      | Some x => r <- clone h x ;; clone_each clone c read store items' (update_cell r.1 c (store i r.2))
      | None => clone_each clone c read store items' h
      end
  end.

(** [for (i = 0; i < len; i++) copy[i] = deepClone(values[i])]. *)
Definition clone_elems (clone : heap -> jsv -> completion (heap * jsv)) (c : loc)
    (es : list jsv) (h : heap) : completion heap :=
  clone_each clone c Some (fun _ x => push_elem x) es h.

(** [for (key in values) if (values.hasOwnProperty(key))
    copy[key] = deepClone(values[key])], over the keys [ks] the loop
    visits; [ps] are the properties of [values], which the loop does not
    change. *)
Definition clone_props (clone : heap -> jsv -> completion (heap * jsv)) (c : loc)
    (ps : list (jsstring * jsv)) (ks : list jsstring) (h : heap) : completion heap :=
  clone_each clone c (obj_get ps) set_prop ks h.

(** [deepClone(values)], with [fuel] the calls the stack still has room
    for: a call with none left throws [RangeError]. *)
Fixpoint deepClone (fuel : nat) (h : heap) (values : jsv) {struct fuel} : completion (heap * jsv) :=
  match fuel with
  | O => Throw RangeError
  | S fuel' =>
      match values with
      | JPrim _ => Normal (h, values)
      | JRef l =>
          match h !! l with
          | Some (HDate t) => let '(h1, c) := alloc h (HDate t) in Normal (h1, JRef c)
          | Some (HArray es) =>
              let '(h1, c) := alloc h (HArray []) in
              h2 <- clone_elems (deepClone fuel') c es h1 ;; Normal (h2, JRef c)
          | Some (HObject ps) =>
              let '(h1, c) := alloc h (HObject []) in
              h2 <- clone_props (deepClone fuel') c ps (map fst (ordered_props ps)) h1 ;;
              Normal (h2, JRef c)
          | None => Normal (h, values)
          end
      end
  end.

(** ** The value a reference stands for *)

#[warnings="-register-all"]
Inductive tree :=
| TPrim (p : prim)
| TArray (ts : list tree)
| TObject (ps : list (jsstring * tree))
| TDate (t : Z).

Fixpoint omap_list {A B} (f : A -> option B) (l : list A) : option (list B) :=
  match l with
  | [] => Some []
  | x :: l' => match f x, omap_list f l' with Some y, Some ys => Some (y :: ys) | _, _ => None end
  end.

(** The tree of depth at most [n] a value unfolds to; [None] when it is
    deeper (a cyclic structure is deeper than every [n]) or dangling. *)
Fixpoint unfold (n : nat) (h : heap) (v : jsv) : option tree :=
  match v with
  | JPrim p => Some (TPrim p)
  | JRef l =>
      match n with
      | O => None
      | S n' =>
          match h !! l with
          | Some (HArray es) => TArray <$> omap_list (unfold n' h) es
          | Some (HObject ps) =>
              TObject <$> omap_list (fun '(k, x) => pair k <$> unfold n' h x) ps
          | Some (HDate t) => Some (TDate t)
          | None => None
          end
      end
  end.

(** The locations [unfold n h v] reads. *)
Fixpoint reach (n : nat) (h : heap) (v : jsv) : list loc :=
  match v with
  | JPrim _ => []
  | JRef l =>
      l :: match n with
           | O => []
           | S n' =>
               match h !! l with
               | Some (HArray es) => flat_map (reach n' h) es
               | Some (HObject ps) => flat_map (fun kv => reach n' h kv.2) ps
               | _ => []
               end
           end
  end.

(** Own-key order applied to every object of a tree. *)
Fixpoint canon (t : tree) : tree :=
  match t with
  | TArray ts => TArray (map canon ts)
  | TObject ps => TObject (ordered_props (map (fun '(k, u) => (k, canon u)) ps))
  | _ => t
  end.

(** Objects whose keys are distinct and not [__proto__]. *)
Fixpoint tree_ok (t : tree) : bool :=
  match t with
  | TArray ts => forallb tree_ok ts
  | TObject ps =>
      bool_decide (NoDup (map fst ps)) && negb (bool_decide (proto_key ∈ map fst ps))
      && forallb (fun '(_, u) => tree_ok u) ps
  | _ => true
  end.

(** ** Lemmas *)

Lemma strict_equals_eq a b : strict_equals a b = true -> a = b.
Proof.
  destruct a as [[| |x|[|x]|x]|l1], b as [[| |y|[|y]|y]|l2]; simpl; try discriminate; auto.
  - intros H. apply Bool.eqb_prop in H. congruence.
  - intros H. apply Z.eqb_eq in H. congruence.
  - intros H. apply bool_decide_eq_true in H. congruence.
  - intros H. apply bool_decide_eq_true in H. congruence.
Qed.

Lemma strict_equals_refl a : not_nan a -> strict_equals a a = true.
Proof.
  unfold not_nan. destruct a as [[| |x|[|x]|x]|l]; simpl; intros H; try reflexivity.
  - apply Bool.eqb_reflx.
  - congruence.
  - apply Z.eqb_refl.
  - apply bool_decide_true. reflexivity.
  - apply bool_decide_true. reflexivity.
Qed.

Lemma elems_strict_equal_spec l1 l2 :
  length l1 = length l2 -> Forall not_nan l1 ->
  elems_strict_equal l1 l2 = bool_decide (l1 = l2).
Proof.
  revert l2. induction l1 as [|x l1 IH]; intros [|y l2] Hl Hn; simpl in Hl; try discriminate.
  - reflexivity.
  - simpl. inversion Hn as [|? ? Hx Hn']; subst.
    destruct (strict_equals x y) eqn:Hxy; simpl.
    + apply strict_equals_eq in Hxy as <-. rewrite IH by (lia || exact Hn').
      apply bool_decide_ext. split; [intros ->|intros [=]]; auto.
    + symmetry. apply bool_decide_false. intros [= <- _].
      rewrite strict_equals_refl in Hxy by exact Hx. discriminate.
Qed.

(** C13: On arrays free of [NaN], [arrayEqual] decides whether the two
    arrays hold the same elements, objects compared by identity (a
    shallow comparison); the [arr1 === arr2] fast path agrees with it. *)
Theorem arrayEqual_shallow h a b :
  is_array_ref h a = true -> is_array_ref h b = true -> Forall not_nan (array_elems h a) ->
  arrayEqual h a b = Normal (bool_decide (array_elems h a = array_elems h b)).
Proof.
  intros Ha Hb Hn. unfold arrayEqual. rewrite Ha, Hb. simpl.
  destruct (strict_equals a b) eqn:Hab.
  { apply strict_equals_eq in Hab as ->. rewrite bool_decide_true; reflexivity. }
  destruct (Nat.eqb_spec (length (array_elems h a)) (length (array_elems h b))) as [Hl|Hl]; simpl.
  - rewrite elems_strict_equal_spec by assumption. reflexivity.
  - rewrite bool_decide_false; [reflexivity|]. intros He. apply Hl. rewrite He. reflexivity.
Qed.

Lemma arrayEqual_shallow_witness :
  arrayEqual {[ 1%positive := HArray [JPrim (PNum (Int 1)); JRef 3%positive];
                2%positive := HArray [JPrim (PNum (Int 1)); JRef 3%positive];
                3%positive := HObject [] ]} (JRef 1%positive) (JRef 2%positive) = Normal true.
Proof.
  refine (eq_trans (arrayEqual_shallow _ _ _ _ _ _) _);
    [reflexivity | reflexivity | apply (bool_decide_unpack _); vm_compute; reflexivity |].
  vm_compute. reflexivity.
Defined.

(** [arrayEqual] throws, and throws a plain [Error], exactly when an
    argument is not an array. *)
Theorem arrayEqual_throw h a b e :
  arrayEqual h a b = Throw e <->
  e = PlainError /\ (is_array_ref h a = false \/ is_array_ref h b = false).
Proof.
  unfold arrayEqual. destruct (is_array_ref h a) eqn:Ha, (is_array_ref h b) eqn:Hb; simpl.
  2-4: split; [intros [= <-]; auto | intros (-> & _); reflexivity].
  split; [|intros (_ & [H|H]); discriminate].
  repeat match goal with |- context [if ?c then _ else _] => destruct c end; discriminate.
Qed.

(** [arrayEqual] is not consistent on arrays holding [NaN]: an array
    equals itself through the [===] fast path, but not a copy with the
    same elements. *)
Example arrayEqual_nan :
  let h : heap := {[ 1%positive := HArray [JPrim (PNum NaN)]; 2%positive := HArray [JPrim (PNum NaN)] ]} in
  arrayEqual h (JRef 1%positive) (JRef 1%positive) = Normal true /\ arrayEqual h (JRef 1%positive) (JRef 2%positive) = Normal false.
Proof. vm_compute. split; reflexivity. Qed.

(** C14: [isEmptyObject] holds exactly of references to an object with no
    own property, or to a cell that is neither an object nor an array: a
    [Date] counts as an empty object. *)
Theorem isEmptyObject_spec h v :
  isEmptyObject h v = true <->
  exists l, v = JRef l /\
    match h !! l with
    | Some (HObject ps) => ps = []
    | Some (HArray _) => False
    | _ => True
    end.
Proof.
  unfold isEmptyObject. destruct v as [p|l].
  - split; [|intros (l & [=] & _)]. intros H. exfalso.
    assert (Ht : negb (truthy (JPrim p)) || negb (bool_decide (typeof (JPrim p) = js "object")) = true).
    { destruct p as [| |[]|[|z]|str]; try reflexivity; simpl.
      - destruct (negb (z =? 0)); reflexivity.
      - destruct (negb (bool_decide (str = []))); reflexivity. }
    rewrite Ht in H. discriminate.
  - cbn [truthy typeof negb orb]. rewrite bool_decide_true by reflexivity. cbn [negb orb is_array_ref object_keys].
    split; [intros H | intros (l' & [= <-] & H)].
    + exists l. split; [reflexivity|].
      destruct (h !! l) as [[es|ps|t]|]; simpl in H; try discriminate; auto.
      rewrite negb_involutive in H. apply Nat.eqb_eq in H.
      rewrite length_map, <- (Permutation_length (ordered_props_perm ps)) in H.
      destruct ps; [reflexivity | discriminate].
    + destruct (h !! l) as [[es|ps|t]|]; simpl; try contradiction; try (subst ps); reflexivity.
Qed.

Example isEmptyObject_date :
  isEmptyObject {[ 1%positive := HDate 0 ]} (JRef 1%positive) = true.
Proof. vm_compute. reflexivity. Qed.

(** ** Frames: what [unfold] reads *)

Lemma omap_list_Forall2 {A B} (f : A -> option B) l ys :
  omap_list f l = Some ys <-> Forall2 (fun x y => f x = Some y) l ys.
Proof.
  revert ys. induction l as [|x l IH]; intros ys; simpl.
  - split; [intros [= <-]; constructor | intros H; inversion H; reflexivity].
  - split.
    + destruct (f x) eqn:Hx, (omap_list f l) eqn:Hl; intros H; try discriminate.
      injection H as <-. constructor; [exact Hx | apply IH; reflexivity].
    + intros H. inversion H as [|? y ? ys' Hx Hl]; subst.
      rewrite Hx. apply IH in Hl. rewrite Hl. reflexivity.
Qed.

Lemma omap_list_ext {A B} (f g : A -> option B) l :
  (forall x, In x l -> f x = g x) -> omap_list f l = omap_list g l.
Proof.
  induction l as [|x l IH]; intros H; simpl; [reflexivity|].
  rewrite (H x) by (left; reflexivity). rewrite IH by (intros y Hy; apply H; right; exact Hy).
  reflexivity.
Qed.

(** [unfold] and [reach] read only the cells of the locations [reach]
    lists: a heap that agrees there gives the same result. *)
Lemma unfold_frame n h h' v :
  (forall l, In l (reach n h v) -> h' !! l = h !! l) ->
  unfold n h' v = unfold n h v /\ reach n h' v = reach n h v.
Proof.
  revert v. induction n as [|n IH]; intros [p|l] Hag; simpl; auto.
  simpl in Hag. rewrite (Hag l) by (left; reflexivity).
  assert (Hsub : forall x, (forall l', In l' (reach n h x) -> In l' (reach (S n) h (JRef l))) ->
                 unfold n h' x = unfold n h x /\ reach n h' x = reach n h x).
  { intros x Hx. apply IH. intros l' Hl'. apply Hag, Hx, Hl'. }
  simpl in Hsub. destruct (h !! l) as [[es|ps|t]|]; auto.
  - split; [f_equal; apply omap_list_ext | f_equal; apply flat_map_ext_in];
      intros x Hx; apply Hsub; intros l' Hl'; right; apply in_flat_map; eauto.
  - split; [f_equal; apply omap_list_ext | f_equal; apply flat_map_ext_in];
      intros [k x] Hx; [f_equal|]; apply Hsub; intros l' Hl'; right;
      apply in_flat_map; exists (k, x); auto.
Qed.

(** A value that unfolds reads only allocated cells. *)
Lemma unfold_reach_dom n h v t :
  unfold n h v = Some t -> forall l, In l (reach n h v) -> is_Some (h !! l).
Proof.
  revert v t. induction n as [|n IH]; intros [p|l] t Hu l' Hl'; simpl in *; try contradiction; try discriminate.
  destruct (h !! l) as [[es|ps|tm]|] eqn:Hl; try discriminate.
  - destruct Hl' as [<-|Hl']; [eauto|].
    destruct (omap_list (unfold n h) es) as [ts|] eqn:Ho; [|discriminate].
    apply omap_list_Forall2 in Ho. apply in_flat_map in Hl' as (x & Hx & Hl').
    destruct (Forall2_In_l _ _ _ _ Ho Hx) as (u & _ & Hux). eapply IH; eauto.
  - destruct Hl' as [<-|Hl']; [eauto|].
    destruct (omap_list _ ps) as [tps|] eqn:Ho; [|discriminate].
    apply omap_list_Forall2 in Ho. apply in_flat_map in Hl' as ([k x] & Hx & Hl').
    destruct (Forall2_In_l _ _ _ _ Ho Hx) as (u & _ & Hkx).
    simpl in Hkx. destruct (unfold n h x) eqn:Hux; [|discriminate]. eapply IH; eauto.
  - destruct Hl' as [<-|[]]. eauto.
Qed.

(** Unfolding is stable when the heap grows. *)
Lemma unfold_mono n h h' v t :
  h ⊆ h' -> unfold n h v = Some t -> unfold n h' v = Some t /\ reach n h' v = reach n h v.
Proof.
  intros Hsub Hu. rewrite <- Hu. apply unfold_frame.
  intros l Hl. destruct (unfold_reach_dom n h v t Hu l Hl) as [o Ho].
  rewrite Ho. eapply lookup_weaken; eauto.
Qed.

(** Unfolding is stable under a write to a location it does not read. *)
Lemma unfold_insert n h v c o :
  ~ In c (reach n h v) ->
  unfold n (<[c := o]> h) v = unfold n h v /\ reach n (<[c := o]> h) v = reach n h v.
Proof.
  intros Hc. apply unfold_frame. intros l Hl. apply lookup_insert_ne. intros ->. contradiction.
Qed.

(** ** The loops of [deepClone] *)

Lemma clone_elems_cons clone c x es h :
  clone_elems clone c (x :: es) h =
    (r <- clone h x ;; clone_elems clone c es (update_cell r.1 c (push_elem r.2))).
Proof. reflexivity. Qed.

Lemma clone_props_cons clone c ps k ks h :
  clone_props clone c ps (k :: ks) h =
    match obj_get ps k with
    | Some x => r <- clone h x ;; clone_props clone c ps ks (update_cell r.1 c (set_prop k r.2))
    | None => clone_props clone c ps ks h
    end.
Proof. reflexivity. Qed.

(** What a call of [deepClone] on a value of depth [n] must give: a heap
    that extends the old one, a value that unfolds to the tree in own-key
    order, and only locations that are new. *)
Definition clone_ok (n : nat) (clone : heap -> jsv -> completion (heap * jsv)) : Prop :=
  forall h v t, unfold n h v = Some t -> tree_ok t = true ->
  exists h' v', clone h v = Normal (h', v') /\ h ⊆ h' /\ unfold n h' v' = Some (canon t) /\
                Forall (fun l => h !! l = None) (reach n h' v').

(** A part of the copy built in [hk]: it unfolds to [canon t] and reaches
    neither the original heap [h0] nor the cell [c] of the copy. *)
Definition built (n : nat) (h0 : heap) (c : loc) (hk : heap) (x : jsv) (t : tree) : Prop :=
  unfold n hk x = Some (canon t) /\ Forall (fun l => h0 !! l = None /\ l <> c) (reach n hk x).

Definition built_prop n h0 c hk (kx : jsstring * jsv) (kt : jsstring * tree) : Prop :=
  kx.1 = kt.1 /\ built n h0 c hk kx.2 kt.2.

Lemma built_mono n h0 c hk hk' x t : hk ⊆ hk' -> built n h0 c hk x t -> built n h0 c hk' x t.
Proof.
  intros Hs [Hu Hr]. destruct (unfold_mono _ _ _ _ _ Hs Hu) as [Hu' Hr'].
  split; [exact Hu'|]. rewrite Hr'. exact Hr.
Qed.

Lemma built_insert n h0 c hk x t o : built n h0 c hk x t -> built n h0 c (<[c := o]> hk) x t.
Proof.
  intros [Hu Hr].
  assert (Hc : ~ In c (reach n hk x))
    by (intros Hin; rewrite List.Forall_forall in Hr; apply Hr in Hin; tauto).
  destruct (unfold_insert n hk x c o Hc) as [E1 E2].
  split; [rewrite E1; exact Hu | rewrite E2; exact Hr].
Qed.

(** Growing the heap and then writing the cell of the copy keeps what was
    built. *)
Lemma built_step n h0 c hk hk' o acc accs :
  hk ⊆ hk' -> Forall2 (built n h0 c hk) acc accs -> Forall2 (built n h0 c (<[c := o]> hk')) acc accs.
Proof.
  intros Hs H. eapply Forall2_impl; [exact H|]. intros x t Hb.
  apply built_insert. eapply built_mono; eassumption.
Qed.

Lemma lookup_None_subseteq (h h' : heap) l : h ⊆ h' -> h' !! l = None -> h !! l = None.
Proof.
  intros Hs Hl. destruct (h !! l) as [o|] eqn:E; [|reflexivity].
  pose proof (lookup_weaken h h' l o E Hs) as Hw. congruence.
Qed.

(** One iteration: cloning an element of the original in the current heap
    builds a part of the copy. *)
Lemma clone_step n clone h0 c hk x t :
  clone_ok n clone -> h0 ⊆ hk -> is_Some (hk !! c) ->
  unfold n h0 x = Some t -> tree_ok t = true ->
  exists hk' x', clone hk x = Normal (hk', x') /\ hk ⊆ hk' /\ built n h0 c hk' x' t.
Proof.
  intros Hc Hs [o Ho] Hu Ht.
  destruct (unfold_mono _ _ _ _ _ Hs Hu) as [Hu' _].
  destruct (Hc hk x t Hu' Ht) as (hk' & x' & E & Hs' & Hu'' & Hf).
  exists hk', x'. split; [exact E|]. split; [exact Hs'|]. split; [exact Hu''|].
  eapply Forall_impl; [exact Hf|]. intros l Hl. split.
  - eapply lookup_None_subseteq; eassumption.
  - intros ->. congruence.
Qed.

(** The array loop builds the copy's elements in order. *)
Lemma clone_elems_spec n clone h0 c :
  clone_ok n clone -> h0 !! c = None ->
  forall es ts hk acc accs,
  Forall2 (fun x t => unfold n h0 x = Some t) es ts -> Forall (fun t => tree_ok t = true) ts ->
  h0 ⊆ hk -> hk !! c = Some (HArray acc) -> Forall2 (built n h0 c hk) acc accs ->
  exists hend acc', clone_elems clone c es hk = Normal hend /\ h0 ⊆ hend /\
    hend !! c = Some (HArray (acc ++ acc')) /\ Forall2 (built n h0 c hend) (acc ++ acc') (accs ++ ts).
Proof.
  intros Hc Hc0. induction es as [|x es IH]; intros ts hk acc accs Hes Hts Hs Hck Hacc.
  { inversion Hes; subst. exists hk, []. rewrite !app_nil_r. auto. }
  inversion Hes as [|? t ? ts' Hx Hes']; subst. inversion Hts as [|? ? Ht Hts']; subst.
  destruct (clone_step n clone h0 c hk x t Hc Hs ltac:(rewrite Hck; eauto) Hx Ht)
    as (hk' & x' & E & Hs' & Hb).
  rewrite clone_elems_cons, E. simpl.
  assert (Hck' : hk' !! c = Some (HArray acc)) by (eapply lookup_weaken; eassumption).
  unfold update_cell. rewrite Hck'. simpl.
  destruct (IH ts' (<[c := HArray (acc ++ [x'])]> hk') (acc ++ [x']) (accs ++ [t]) Hes' Hts')
    as (hend & acc' & E' & Hs'' & Hc'' & Hb'').
  - apply insert_subseteq_r; [exact Hc0 | etrans; eassumption].
  - by simplify_map_eq.
  - apply Forall2_app; [eapply built_step; eassumption | constructor; [apply built_insert, Hb | constructor]].
  - exists hend, (x' :: acc'). repeat rewrite <- app_assoc in Hc''. repeat rewrite <- app_assoc in Hb''. simpl in Hc'', Hb''. auto.
Qed.

(** The object loop builds the copy's properties in the order it visits
    the keys. *)
Lemma clone_props_spec n clone h0 c ps :
  clone_ok n clone -> h0 !! c = None ->
  forall qs tqs hk accp taccp,
  Forall2 (fun kx kt => kx.1 = kt.1 /\ obj_get ps kx.1 = Some kx.2 /\ unfold n h0 kx.2 = Some kt.2) qs tqs ->
  Forall (fun kt => tree_ok kt.2 = true) tqs ->
  NoDup (map fst accp ++ map fst qs) -> ~ In proto_key (map fst qs) ->
  h0 ⊆ hk -> hk !! c = Some (HObject accp) -> Forall2 (built_prop n h0 c hk) accp taccp ->
  exists hend accp', clone_props clone c ps (map fst qs) hk = Normal hend /\ h0 ⊆ hend /\
    hend !! c = Some (HObject (accp ++ accp')) /\
    Forall2 (built_prop n h0 c hend) (accp ++ accp') (taccp ++ tqs).
Proof.
  intros Hc Hc0. induction qs as [|[k x] qs IH]; intros tqs hk accp taccp Hqs Hts Hnd Hp Hs Hck Hacc.
  { inversion Hqs; subst. exists hk, []. rewrite !app_nil_r. auto. }
  inversion Hqs as [|? [k' t] ? tqs' (Hk & Hg & Hx) Hqs']; subst. simpl in Hk, Hg, Hx. subst k'.
  inversion Hts as [|? ? Ht Hts']; subst. simpl in Ht.
  destruct (clone_step n clone h0 c hk x t Hc Hs ltac:(rewrite Hck; eauto) Hx Ht)
    as (hk' & x' & E & Hs' & Hb).
  cbn [map fst]. rewrite clone_props_cons, Hg, E. simpl.
  assert (Hck' : hk' !! c = Some (HObject accp)) by (eapply lookup_weaken; eassumption).
  unfold update_cell. rewrite Hck'. simpl.
  assert (Hassign : assign_prop accp k x' = accp ++ [(k, x')]).
  { unfold assign_prop. rewrite bool_decide_false by (intros ->; apply Hp; left; reflexivity).
    apply keys_obj_put_new. intros Hin. simpl in Hnd.
    apply NoDup_app in Hnd as (_ & Hnd & _). apply (Hnd k); [apply list_elem_of_In, Hin | left]. }
  rewrite Hassign.
  destruct (IH tqs' (<[c := HObject (accp ++ [(k, x')])]> hk') (accp ++ [(k, x')]) (taccp ++ [(k, t)])
              Hqs' Hts') as (hend & accp' & E' & Hs'' & Hc'' & Hb'').
  - rewrite map_app, <- app_assoc. exact Hnd.
  - intros Hin. apply Hp. right. exact Hin.
  - apply insert_subseteq_r; [exact Hc0 | etrans; eassumption].
  - by simplify_map_eq.
  - apply Forall2_app.
    + eapply Forall2_impl; [exact Hacc|]. intros a b [Hab Hb']. split; [exact Hab|].
      apply built_insert. eapply built_mono; eassumption.
    + constructor; [split; [reflexivity | apply built_insert, Hb] | constructor].
  - exists hend, ((k, x') :: accp'). repeat rewrite <- app_assoc in Hc''. repeat rewrite <- app_assoc in Hb''. simpl in Hc'', Hb''. auto.
Qed.

Lemma built_omap n h0 c hk acc ts :
  Forall2 (built n h0 c hk) acc ts -> omap_list (unfold n hk) acc = Some (map canon ts).
Proof.
  intros H. apply omap_list_Forall2.
  induction H as [|x t acc ts [Hu _] _ IH]; simpl; constructor; assumption.
Qed.

Lemma built_prop_omap n h0 c hk accp tps :
  Forall2 (built_prop n h0 c hk) accp tps ->
  omap_list (fun '(k, x) => pair k <$> unfold n hk x) accp = Some (map (fun kt => (kt.1, canon kt.2)) tps).
Proof.
  intros H. apply omap_list_Forall2.
  induction H as [|[k x] [k' t] accp tps [Hk [Hu _]] _ IH]; simpl in *; constructor; [|exact IH].
  rewrite Hu. subst. reflexivity.
Qed.

Lemma built_reach n h0 c hk acc ts :
  Forall2 (built n h0 c hk) acc ts -> Forall (fun l => h0 !! l = None) (flat_map (reach n hk) acc).
Proof.
  induction 1 as [|x t acc ts [_ Hr] _ IH]; simpl; [constructor|].
  apply Forall_app. split; [|exact IH]. eapply Forall_impl; [exact Hr|]. intros l [Hl _]. exact Hl.
Qed.

Lemma built_prop_reach n h0 c hk accp tps :
  Forall2 (built_prop n h0 c hk) accp tps ->
  Forall (fun l => h0 !! l = None) (flat_map (fun kv => reach n hk kv.2) accp).
Proof.
  induction 1 as [|x t acc ts [_ [_ Hr]] _ IH]; simpl; [constructor|].
  apply Forall_app. split; [|exact IH]. eapply Forall_impl; [exact Hr|]. intros l [Hl _]. exact Hl.
Qed.

Lemma fresh_loc (h : heap) : h !! fresh (dom h) = None.
Proof. apply not_elem_of_dom, is_fresh. Qed.

(** The properties of an object unfold key by key. *)
Lemma unfold_props n h (ps : list (jsstring * jsv)) (tps : list (jsstring * tree)) :
  omap_list (fun '(k, x) => pair k <$> unfold n h x) ps = Some tps ->
  Forall2 (fun kx kt => kx.1 = kt.1 /\ unfold n h kx.2 = Some kt.2) ps tps.
Proof.
  intros H. apply omap_list_Forall2 in H.
  eapply Forall2_impl; [exact H|]. intros [k x] [k' u] Hu. simpl.
  destruct (unfold n h x); simpl in Hu; [injection Hu as -> ->; auto | discriminate].
Qed.

Lemma Forall2_keys {A B} (R : jsstring * A -> jsstring * B -> Prop) l1 l2 :
  Forall2 (fun a b => a.1 = b.1 /\ R a b) l1 l2 -> map fst l1 = map fst l2.
Proof. induction 1 as [|a b l1 l2 [Hab _] _ IH]; simpl; [reflexivity|]. rewrite Hab, IH. reflexivity. Qed.

(** C15: [deepClone] copies every acyclic structure whose objects have
    distinct keys other than [__proto__], when the call stack has room
    for one more call than the structure is deep: it returns a reference
    to a copy that unfolds to the same tree (each object's properties in
    own-key order), only adds cells to the heap (the original is left
    unchanged), and shares no location with the original. *)
Theorem deepClone_copy n : forall fuel, (n < fuel)%nat -> clone_ok n (deepClone fuel).
Proof.
  induction n as [|n IH]; intros fuel Hf h v t Hu Ht; (destruct fuel as [|fuel]; [lia|]);
    (destruct v as [p|l]; [injection Hu as <-; exists h, (JPrim p); simpl; repeat split; [reflexivity | constructor]|]);
    [discriminate|].
  pose proof (IH fuel ltac:(lia)) as IHc. pose proof (fresh_loc h) as Hc0.
  simpl in Hu. simpl. destruct (h !! l) as [[es|ps|tm]|] eqn:Hl; try discriminate.
  - destruct (omap_list (unfold n h) es) as [ts|] eqn:Ho; [|discriminate]. injection Hu as <-.
    apply omap_list_Forall2 in Ho. simpl in Ht. apply forallb_Forall in Ht.
    destruct (clone_elems_spec n (deepClone fuel) h _ IHc Hc0 es ts (<[fresh (dom h) := HArray []]> h) [] []
                Ho Ht (insert_subseteq _ _ _ Hc0) ltac:(by simplify_map_eq) (List.Forall2_nil _))
      as (hend & acc' & E & Hs & Hc & Hb).
    rewrite E. simpl in Hc, Hb. exists hend, (JRef (fresh (dom h))).
    split; [reflexivity|]. split; [exact Hs|]. simpl. rewrite Hc. split.
    + rewrite (built_omap _ _ _ _ _ _ Hb). reflexivity.
    + constructor; [exact Hc0 | exact (built_reach _ _ _ _ _ _ Hb)].
  - destruct (omap_list _ ps) as [tps|] eqn:Ho; [|discriminate]. injection Hu as <-.
    apply unfold_props in Ho. simpl in Ht. apply andb_true_iff in Ht as [Ht Hok].
    apply andb_true_iff in Ht as [Hnd Hp]. apply bool_decide_eq_true in Hnd.
    apply negb_true_iff, bool_decide_eq_false in Hp. apply forallb_Forall in Hok.
    pose proof (Forall2_keys _ _ _ Ho) as Hkeys.
    assert (Hndps : NoDup (map fst ps)) by (rewrite Hkeys; exact Hnd).
    assert (Hin : Forall2 (fun kx kt => kx.1 = kt.1 /\ obj_get ps kx.1 = Some kx.2 /\ unfold n h kx.2 = Some kt.2)
                    ps tps).
    { apply (Forall2_add_in (fun kx => obj_get ps kx.1 = Some kx.2)) in Ho.
      - eapply Forall2_impl; [exact Ho|]. intros a b (Hg & Hab & Hu). auto.
      - intros [k x] Hx. apply obj_get_in; assumption. }
    apply ordered_props_Forall2 in Hin; [|intros a b [Hab _]; exact Hab].
    pose proof (ordered_props_perm tps) as Hperm.
    assert (Hok' : Forall (fun kt => tree_ok kt.2 = true) (ordered_props tps)).
    { rewrite List.Forall_forall in *. intros [k u] Hku.
      apply (Hok (k, u)). eapply Permutation_in; [symmetry; exact Hperm | exact Hku]. }
    assert (Hp' : ~ In proto_key (map fst (ordered_props ps))).
    { intros Hin'. apply Hp, list_elem_of_In. rewrite <- Hkeys.
      eapply Permutation_in; [symmetry; apply Permutation_map, ordered_props_perm | exact Hin']. }
    destruct (clone_props_spec n (deepClone fuel) h _ ps IHc Hc0 (ordered_props ps) (ordered_props tps)
                (<[fresh (dom h) := HObject []]> h) [] [] Hin Hok'
                (ordered_props_nodup ps Hndps) Hp' (insert_subseteq _ _ _ Hc0)
                ltac:(by simplify_map_eq) (List.Forall2_nil _))
      as (hend & accp' & E & Hs & Hc & Hb).
    rewrite E. simpl in Hc, Hb. exists hend, (JRef (fresh (dom h))).
    split; [reflexivity|]. split; [exact Hs|]. simpl. rewrite Hc. split.
    + rewrite (built_prop_omap _ _ _ _ _ _ Hb). simpl. do 2 f_equal.
      rewrite <- ordered_props_map. f_equal. apply map_ext. intros [k u]. reflexivity.
    + constructor; [exact Hc0 | exact (built_prop_reach _ _ _ _ _ _ Hb)].
  - exists (<[fresh (dom h) := HDate tm]> h), (JRef (fresh (dom h))). injection Hu as <-.
    split; [reflexivity|]. split; [apply insert_subseteq, Hc0|].
    simpl. replace (<[fresh (dom h) := HDate tm]> h !! fresh (dom h)) with (Some (HDate tm))
      by (by simplify_map_eq).
    split; [reflexivity|]. constructor; [exact Hc0 | constructor].
Qed.

Definition sample_heap : heap :=
  {[ 1%positive := HObject [(js "b", JRef 2%positive); (js "1", JPrim (PNum (Int 5)))];
     2%positive := HArray [JPrim (PBool true); JRef 3%positive];
     3%positive := HDate 7 ]}.

Definition sample_tree : tree :=
  TObject [(js "b", TArray [TPrim (PBool true); TDate 7]); (js "1", TPrim (PNum (Int 5)))].

Lemma deepClone_copy_witness :
  exists h' v', deepClone 4 sample_heap (JRef 1%positive) = Normal (h', v') /\ sample_heap ⊆ h' /\
    unfold 3 h' v' = Some (canon sample_tree) /\
    Forall (fun l => sample_heap !! l = None) (reach 3 h' v').
Proof.
  apply (deepClone_copy 3 4 ltac:(lia) sample_heap (JRef 1%positive) sample_tree);
    vm_compute; reflexivity.
Defined.

(** ** [deepClone] on cyclic structures *)

Lemma update_cell_subseteq (h0 hk : heap) c f :
  h0 ⊆ hk -> h0 !! c = None -> h0 ⊆ update_cell hk c f.
Proof.
  intros Hs Hc. unfold update_cell. destruct (hk !! c); [|exact Hs].
  apply insert_subseteq_r; assumption.
Qed.

Section Loops.
Context {A : Type} (clone : heap -> jsv -> completion (heap * jsv)) (c : loc)
  (read : A -> option jsv) (store : A -> jsv -> hobj -> hobj).
Hypothesis clone_range : forall hk v e, clone hk v = Throw e -> e = RangeError.
Hypothesis clone_extends : forall hk v hk' v', clone hk v = Normal (hk', v') -> hk ⊆ hk'.

Lemma clone_each_throw items hk e :
  clone_each clone c read store items hk = Throw e -> e = RangeError.
Proof.
  revert hk. induction items as [|i items IH]; intros hk H; simpl in H; [discriminate|].
  destruct (read i) as [x|]; [|exact (IH _ H)].
  destruct (clone hk x) as [[hk' x']|e'] eqn:Ex; simpl in H; [exact (IH _ H)|].
  injection H as <-. exact (clone_range _ _ _ Ex).
Qed.

Lemma clone_each_extends h0 items hk hend :
  h0 ⊆ hk -> h0 !! c = None -> clone_each clone c read store items hk = Normal hend -> h0 ⊆ hend.
Proof.
  revert hk. induction items as [|i items IH]; intros hk Hs Hc H; simpl in H; [injection H as <-; exact Hs|].
  destruct (read i) as [x|]; [|exact (IH _ Hs Hc H)].
  destruct (clone hk x) as [[hk' x']|e'] eqn:Ex; simpl in H; [|discriminate].
  apply (IH _ (update_cell_subseteq _ _ _ _ (transitivity Hs (clone_extends _ _ _ _ Ex)) Hc) Hc H).
Qed.

(** A loop that reaches an item whose clone always throws throws
    [RangeError], whatever the items before it do. *)
Lemma clone_each_diverge h0 items hk i x :
  h0 ⊆ hk -> h0 !! c = None -> In i items -> read i = Some x ->
  (forall hk', h0 ⊆ hk' -> clone hk' x = Throw RangeError) ->
  clone_each clone c read store items hk = Throw RangeError.
Proof.
  intros Hs Hc Hin Hr Hx. revert hk Hs. induction items as [|j items IH]; intros hk Hs; [contradiction|].
  simpl. destruct Hin as [->|Hin].
  - rewrite Hr, (Hx hk Hs). reflexivity.
  - destruct (read j) as [y|]; [|exact (IH Hin hk Hs)].
    destruct (clone hk y) as [[hk' y']|e'] eqn:Ey; simpl.
    + apply IH; [exact Hin|]. apply update_cell_subseteq; [|exact Hc].
      etrans; [exact Hs | exact (clone_extends _ _ _ _ Ey)].
    + f_equal. exact (clone_range _ _ _ Ey).
Qed.
End Loops.

(** [deepClone] throws nothing but [RangeError] and only adds cells. *)
Lemma deepClone_range_extends fuel :
  (forall h v e, deepClone fuel h v = Throw e -> e = RangeError) /\
  (forall h v h' v', deepClone fuel h v = Normal (h', v') -> h ⊆ h').
Proof.
  induction fuel as [|fuel [IHt IHe]]; split; simpl.
  - intros h v e [= <-]. reflexivity.
  - discriminate.
  - intros h [p|l] e H; [discriminate|].
    destruct (h !! l) as [[es|ps|tm]|]; try discriminate;
      [destruct (clone_elems _ _ _ _) eqn:E | destruct (clone_props _ _ _ _ _) eqn:E];
      simpl in H; try discriminate; injection H as <-; eapply clone_each_throw; eauto.
  - intros h [p|l] h' v' H; [injection H as <- _; reflexivity|].
    pose proof (fresh_loc h) as Hc0.
    destruct (h !! l) as [[es|ps|tm]|]; [| | injection H as <- _; apply insert_subseteq, Hc0 |
                                         injection H as <- _; reflexivity];
      [destruct (clone_elems _ _ _ _) eqn:E | destruct (clone_props _ _ _ _ _) eqn:E];
      simpl in H; try discriminate; injection H as <- _;
      (eapply clone_each_extends; [exact IHe | apply insert_subseteq, Hc0 | exact Hc0 | exact E]).
Qed.

Lemma path_first h a b :
  path h a b -> exists c o, h !! a = Some o /\ In (JRef c) (children o) /\ (c = b \/ path h c b).
Proof.
  induction 1 as [l l' o Hl Hin | l1 l2 l3 _ (c & o & Hl & Hin & Hc) H23 _].
  - exists l', o. auto.
  - exists c, o. split; [exact Hl|]. split; [exact Hin|]. right.
    destruct Hc as [->|Hc]; [assumption | eapply path_trans; eassumption].
Qed.

Lemma children_object_key ps x :
  In x (children (HObject ps)) -> exists k, In k (map fst (ordered_props ps)) /\ obj_get ps k = Some x.
Proof.
  simpl. intros Hx. apply in_flat_map in Hx as (k & Hk & Hx).
  destruct (obj_get ps k) as [y|] eqn:Hg; [|contradiction]. destruct Hx as [<-|[]].
  exists k. split; [|exact Hg].
  eapply Permutation_in; [apply Permutation_map, ordered_props_perm | exact Hk].
Qed.

(** C16: On a structure that reaches itself, [deepClone] never returns:
    the recursion exhausts every call stack, whatever its size, and the
    call throws [RangeError]. *)
Theorem deepClone_cycle h l :
  path h l l -> forall fuel h', h ⊆ h' -> deepClone fuel h' (JRef l) = Throw RangeError.
Proof.
  intros Hcyc fuel. revert l Hcyc. induction fuel as [|fuel IH]; intros l Hcyc h' Hs; [reflexivity|].
  destruct (path_first _ _ _ Hcyc) as (c & o & Hl & Hin & Hc).
  assert (Hcc : path h c c) by (destruct Hc as [->|Hc]; [exact Hcyc | eapply path_trans; [exact Hc | econstructor; eassumption]]).
  destruct (deepClone_range_extends fuel) as [Hrange Hext].
  pose proof (fresh_loc h') as Hc0.
  simpl. rewrite (lookup_weaken h h' l o Hl Hs).
  assert (Hx : forall hk', h' ⊆ hk' -> deepClone fuel hk' (JRef c) = Throw RangeError)
    by (intros hk' Hk'; apply IH; [exact Hcc | etrans; eassumption]).
  destruct o as [es|ps|tm]; [| | contradiction].
  - unfold clone_elems.
    rewrite (clone_each_diverge (deepClone fuel) _ Some (fun _ x => push_elem x) Hrange Hext h' es _ (JRef c) (JRef c));
      [reflexivity | apply insert_subseteq, Hc0 | exact Hc0 | exact Hin | reflexivity | exact Hx].
  - destruct (children_object_key ps _ Hin) as (k & Hk & Hg).
    unfold clone_props.
    rewrite (clone_each_diverge (deepClone fuel) _ (obj_get ps) set_prop Hrange Hext h' _ _ k (JRef c));
      [reflexivity | apply insert_subseteq, Hc0 | exact Hc0 | exact Hk | exact Hg | exact Hx].
Qed.

Lemma deepClone_cycle_witness :
  deepClone 1000 {[ 1%positive := HArray [JRef 1%positive] ]} (JRef 1%positive) = Throw RangeError.
Proof.
  apply (deepClone_cycle {[ 1%positive := HArray [JRef 1%positive] ]} 1%positive); [|reflexivity].
  apply (path_step _ _ _ (HArray [JRef 1%positive])); [reflexivity | left; reflexivity].
Defined.

End Heap.
