(* ===== verification/Regex.v ===== *)
(** Regular expressions of ECMA-262 (22.2), the part the library uses.

    A pattern is parsed into [regex]; a character class is a list of
    ranges of code units.  The matcher follows the backtracking order of
    the standard's matchers: [ends r s i] lists the positions where a
    match of [r] that starts at [i] can end, in the order the standard
    tries them (alternatives left to right, greedy quantifiers longest
    first, an iteration of [min = 0] that matches the empty string is
    rejected).  Captures are not recorded: no replacement of the library
    refers to them.  Case-insensitive matching ([i] flag) canonicalises
    ASCII letters only. *)

From Stdlib Require Import ZArith Lia List.
From stdpp Require Import base decidable list.
From S2P Require Import Prelude JsString.
Import ListNotations.
Open Scope Z_scope.

Module Regex.
Import JsString.

(** A class item: code units in one of the ranges, or (negated) not. *)
Record class_item := { item_neg : bool; item_ranges : list (Z * Z) }.

Record charclass := { class_neg : bool; class_items : list class_item }.

#[warnings="-register-all"]
Inductive regex :=
| REps
| RClass (c : charclass)
| RSeq (r1 r2 : regex)
| RAlt (r1 r2 : regex)
| RRep (greedy : bool) (min : nat) (max : option nat) (r : regex)
| RBol
| REol
| RWordB (neg : bool)
| RGroup (r : regex).

Definition in_ranges (rs : list (Z * Z)) (c : Z) : bool :=
  existsb (fun '(lo, hi) => (lo <=? c) && (c <=? hi)) rs.

Definition item_mem (it : class_item) (c : Z) : bool :=
  xorb (item_neg it) (in_ranges (item_ranges it) c).

Definition class_mem (cl : charclass) (c : Z) : bool :=
  xorb (class_neg cl) (existsb (fun it => item_mem it c) (class_items cl)).

(** [Canonicalize] of the [i] flag on ASCII letters: to upper case. *)
Definition canon_ascii (c : Z) : Z := if (97 <=? c) && (c <=? 122) then c - 32 else c.

(** A class matches [c] under [i] when it holds a unit with the same
    canonical form; for ASCII letters, [c] or its other case. *)
Definition class_mem_ci (icase : bool) (cl : charclass) (c : Z) : bool :=
  if icase then
    let u := canon_ascii c in
    class_mem cl c || class_mem cl u || ((65 <=? u) && (u <=? 90) && class_mem cl (u + 32))
  else class_mem cl c.

(** The character classes of escapes: [\d], [\w], [\s], and [.]. *)
Definition digit_ranges : list (Z * Z) := [(48, 57)].
Definition word_ranges : list (Z * Z) := [(48, 57); (65, 90); (95, 95); (97, 122)].
Definition space_ranges : list (Z * Z) :=
  [(9, 13); (32, 32); (160, 160); (5760, 5760); (8192, 8202); (8232, 8233); (8239, 8239);
   (8287, 8287); (12288, 12288); (65279, 65279)].
Definition line_terminators : list (Z * Z) := [(10, 10); (13, 13); (8232, 8233)].

Definition single (c : Z) : charclass := {| class_neg := false; class_items := [{| item_neg := false; item_ranges := [(c, c)] |}] |}.
Definition dot_class : charclass := {| class_neg := true; class_items := [{| item_neg := false; item_ranges := line_terminators |}] |}.

Definition is_word_char (s : jsstring) (i : nat) : bool :=
  match nth_error s i with Some c => in_ranges word_ranges c | None => false end.

(** ** Matching *)

Section Match.
Variable icase : bool.
Variable s : jsstring.

(** The end positions of the matches of [r] from [i], in the order the
    backtracking matcher tries them.  [fuel] bounds the iterations of a
    quantifier; [match_fuel] below is enough. *)
Fixpoint ends (fuel : nat) (r : regex) (i : nat) : list nat :=
  match r with
  | REps => [i]
  | RClass cl =>
      match nth_error s i with
      | Some c => if class_mem_ci icase cl c then [S i] else []
      | None => []
      end
  | RSeq r1 r2 => flat_map (ends fuel r2) (ends fuel r1 i)
  | RAlt r1 r2 => ends fuel r1 i ++ ends fuel r2 i
  | RRep greedy min max r1 =>
      (fix rep (k : nat) (min : nat) (max : option nat) (i : nat) : list nat :=
         match k with
         | O => []
         | S k' =>
             if bool_decide (max = Some O) then [i]
             else
               let iter := flat_map (fun y => if Nat.eqb min 0 && Nat.eqb y i then []
                                              else rep k' (pred min) (option_map pred max) y)
                             (ends fuel r1 i) in
               if negb (Nat.eqb min 0) then iter
               else if greedy then iter ++ [i] else i :: iter
         end) fuel min max i
  | RBol => if Nat.eqb i 0 then [i] else []
  | REol => if Nat.eqb i (length s) then [i] else []
  | RWordB neg =>
      let a := match i with O => false | S i' => is_word_char s i' end in
      let b := is_word_char s i in
      if xorb neg (xorb a b) then [i] else []
  | RGroup r1 => ends fuel r1 i
  end.

End Match.

Fixpoint rep_mins (r : regex) : nat :=
  match r with
  | RSeq r1 r2 | RAlt r1 r2 => rep_mins r1 + rep_mins r2
  | RRep _ min _ r1 => min + rep_mins r1
  | RGroup r1 => rep_mins r1
  | _ => O
  end.

(** Enough iterations for every quantifier: each iteration past the
    minimum consumes a unit. *)
Definition match_fuel (r : regex) (s : jsstring) : nat := S (length s + rep_mins r).

(** A compiled regular expression: its pattern and the [i] flag. *)
Record regexp := { re_pattern : regex; re_icase : bool }.

Definition match_at (re : regexp) (s : jsstring) (i : nat) : option nat :=
  head (ends (re_icase re) s (match_fuel (re_pattern re) s) (re_pattern re) i).

(** The first match from [i] on: its start and end. *)
Fixpoint first_match_from (re : regexp) (s : jsstring) (i : nat) (k : nat) : option (nat * nat) :=
  if Nat.ltb (length s) i then None
  else match match_at re s i with
       | Some j => Some (i, j)
       | None => match k with O => None | S k' => first_match_from re s (S i) k' end
       end.

Definition first_match (re : regexp) (s : jsstring) : option (nat * nat) :=
  first_match_from re s 0 (length s).

(** [re.test(s)] for a regular expression without the [g] flag. *)
Definition regex_test (re : regexp) (s : jsstring) : bool :=
  match first_match re s with Some _ => true | None => false end.

(** [s.replace(re, rep)] without [g], with a replacement that holds no [$]. *)
Definition replace_first (re : regexp) (s rep : jsstring) : jsstring :=
  match first_match re s with
  | Some (i, j) => firstn i s ++ rep ++ skipn j s
  | None => s
  end.

(** [s.replace(re, rep)] with [g]: every match from left to right; after
    an empty match the search moves one unit on. *)
Fixpoint replace_all_from (re : regexp) (s rep : jsstring) (i : nat) (k : nat) : jsstring :=
  match k with
  | O => skipn i s
  | S k' =>
      match first_match_from re s i (length s - i) with
      | Some (a, b) =>
          firstn (a - i) (skipn i s) ++ rep ++
          (if Nat.eqb a b then firstn 1 (skipn a s) ++ replace_all_from re s rep (S b) k'
           else replace_all_from re s rep b k')
      | None => skipn i s
      end
  end.

Definition replace_all (re : regexp) (s rep : jsstring) : jsstring :=
  replace_all_from re s rep 0 (S (length s)).

(** ** Patterns *)

(** The outcome of parsing: a result and the input left, a syntax error
    (the constructor throws [SyntaxError]), or syntax outside the part of
    the grammar modelled here (lookarounds, back references, and the
    escapes [\c], [\x], [\u] and octal ones). *)
Inductive parsed (A : Type) :=
| ParseOk (a : A) (rest : jsstring)
| ParseError
| ParseUnsupported.
Arguments ParseOk {A} a rest.
Arguments ParseError {A}.
Arguments ParseUnsupported {A}.

Definition pbind {A B} (p : parsed A) (f : A -> jsstring -> parsed B) : parsed B :=
  match p with
  | ParseOk a rest => f a rest
  | ParseError => ParseError
  | ParseUnsupported => ParseUnsupported
  end.

Definition c_bslash : Z := 92.
Definition c_lparen : Z := 40.
Definition c_rparen : Z := 41.
Definition c_bar : Z := 124.
Definition c_star : Z := 42.
Definition c_plus : Z := 43.
Definition c_quest : Z := 63.
Definition c_lbrace : Z := 123.
Definition c_rbrace : Z := 125.
Definition c_comma : Z := 44.
Definition c_caret : Z := 94.
Definition c_dollar : Z := 36.
Definition c_dot : Z := 46.
Definition c_colon : Z := 58.

Definition plain_item (rs : list (Z * Z)) : class_item := {| item_neg := false; item_ranges := rs |}.

(** The class escapes [\d \D \s \S \w \W]. *)
Definition class_escape (c : Z) : option class_item :=
  if c =? 100 then Some (plain_item digit_ranges)
  else if c =? 68 then Some {| item_neg := true; item_ranges := digit_ranges |}
  else if c =? 115 then Some (plain_item space_ranges)
  else if c =? 83 then Some {| item_neg := true; item_ranges := space_ranges |}
  else if c =? 119 then Some (plain_item word_ranges)
  else if c =? 87 then Some {| item_neg := true; item_ranges := word_ranges |}
  else None.

(** The unit a character escape [\c] stands for: the control escapes,
    and any other unit for itself ([None] for the escapes not modelled). *)
Definition char_escape (c : Z) : option Z :=
  if c =? 116 then Some 9 else if c =? 110 then Some 10 else if c =? 114 then Some 13
  else if c =? 118 then Some 11 else if c =? 102 then Some 12
  else if (48 <=? c) && (c <=? 57) then None
  else if (c =? 99) || (c =? 120) || (c =? 117) then None
  else Some c.

(** A decimal number at the head of [s]: its value and what follows. *)
Fixpoint read_digits (s : jsstring) (acc : nat) (seen : bool) : option (nat * jsstring) :=
  match s with
  | d :: s' => if is_digit d then read_digits s' (acc * 10 + Z.to_nat (d - 48))%nat true
               else if seen then Some (acc, s) else None
  | [] => if seen then Some (acc, []) else None
  end.

(** A braced quantifier [{n}], [{n,}] or [{n,m}] at the head of [s]. *)
Definition read_braces (s : jsstring) : option (nat * option nat * jsstring) :=
  match s with
  | b :: s1 =>
      if negb (b =? c_lbrace) then None else
      match read_digits s1 0 false with
      | Some (n, c :: s2) =>
          if c =? c_rbrace then Some (n, Some n, s2)
          else if c =? c_comma then
            match s2 with
            | e :: s3 =>
                if e =? c_rbrace then Some (n, None, s3)
                else match read_digits s2 0 false with
                     | Some (m, e' :: s4) => if e' =? c_rbrace then Some (n, Some m, s4) else None
                     | _ => None
                     end
            | [] => None
            end
          else None
      | _ => None
      end
  | [] => None
  end.

(** A quantifier after an atom: its bounds and what follows. *)
Definition read_quantifier (s : jsstring) : option (nat * option nat * jsstring) :=
  match s with
  | c :: s' =>
      if c =? c_star then Some (0%nat, None, s')
      else if c =? c_plus then Some (1%nat, None, s')
      else if c =? c_quest then Some (0%nat, Some 1%nat, s')
      else read_braces s
  | [] => None
  end.

(** One atom of a class: an escape or a unit, and the unit when it is a
    single one (which can bound a range). *)
Definition class_atom (s : jsstring) : parsed (class_item * option Z) :=
  match s with
  | c :: s' =>
      if c =? c_bslash then
        match s' with
        | e :: s'' =>
            match class_escape e with
            | Some it => ParseOk (it, None) s''
            | None =>
                if e =? 98 then ParseOk (plain_item [(8, 8)], Some 8) s''
                else match char_escape e with
                     | Some u => ParseOk (plain_item [(u, u)], Some u) s''
                     | None => ParseUnsupported
                     end
            end
        | [] => ParseError
        end
      else ParseOk (plain_item [(c, c)], Some c) s'
  | [] => ParseError
  end.

(** The items of a class up to its [\]]; a [-] between two single units
    makes a range, and next to a class escape it is literal. *)
Fixpoint class_items_of (fuel : nat) (s : jsstring) : parsed (list class_item) :=
  match fuel with
  | O => ParseUnsupported
  | S fuel' =>
      match s with
      | [] => ParseError
      | c :: _ =>
          if c =? c_rbracket then ParseOk [] (tl s)
          else pbind (class_atom s) (fun '(it, a) rest =>
            let more (its : list class_item) (rest' : jsstring) :=
              pbind (class_items_of fuel' rest') (fun its' rest'' => ParseOk (its ++ its') rest'') in
            match rest with
            | m :: ((n :: _) as rest1) =>
                if (m =? c_minus) && negb (n =? c_rbracket) then
                  pbind (class_atom rest1) (fun '(it2, b) rest2 =>
                    match a, b with
                    | Some lo, Some hi => if hi <? lo then ParseError else more [plain_item [(lo, hi)]] rest2
                    | _, _ => more [it; plain_item [(c_minus, c_minus)]; it2] rest2
                    end)
                else more [it] rest
            | _ => more [it] rest
            end)
      end
  end.

Definition parse_class (fuel : nat) (s : jsstring) : parsed regex :=
  match s with
  | c :: s' =>
      if c =? c_caret then
        pbind (class_items_of fuel s') (fun its rest => ParseOk (RClass {| class_neg := true; class_items := its |}) rest)
      else pbind (class_items_of fuel s) (fun its rest => ParseOk (RClass {| class_neg := false; class_items := its |}) rest)
  | [] => ParseError
  end.

(** After an atom: a quantifier, lazy when followed by [?]. *)
Definition quantify (a : regex) (rest : jsstring) : parsed regex :=
  match read_quantifier rest with
  | Some (min, max, rest') =>
      let '(greedy, rest'') :=
        match rest' with
        | q :: r' => if q =? c_quest then (false, r') else (true, rest')
        | [] => (true, rest')
        end in
      match max with
      | Some m => if Nat.ltb m min then ParseError else ParseOk (RRep greedy min max a) rest''
      | None => ParseOk (RRep greedy min max a) rest''
      end
  | None => ParseOk a rest
  end.

Definition close_group (wrap : regex -> regex) (r : regex) (rest : jsstring) : parsed regex :=
  match rest with
  | e :: rest' => if e =? c_rparen then ParseOk (wrap r) rest' else ParseError
  | [] => ParseError
  end.

(** [Disjunction], [Alternative], [Term] and [Atom] of the pattern
    grammar, with the web-compatibility rules of Annex B (a [{] that
    starts no quantifier, a [}] and a [\]] are literal).  Every call
    consumes input or descends a level; [fuel] bounds the descent. *)
Fixpoint parse_disj (fuel : nat) (s : jsstring) : parsed regex :=
  match fuel with
  | O => ParseUnsupported
  | S fuel' =>
      pbind (parse_alt fuel' s) (fun a rest =>
        match rest with
        | c :: rest' =>
            if c =? c_bar then pbind (parse_disj fuel' rest') (fun b rest'' => ParseOk (RAlt a b) rest'')
            else ParseOk a rest
        | [] => ParseOk a rest
        end)
  end
with parse_alt (fuel : nat) (s : jsstring) : parsed regex :=
  match fuel with
  | O => ParseUnsupported
  | S fuel' =>
      match s with
      | [] => ParseOk REps s
      | c :: _ =>
          if (c =? c_bar) || (c =? c_rparen) then ParseOk REps s
          else pbind (parse_term fuel' s) (fun t rest =>
                 pbind (parse_alt fuel' rest) (fun u rest' => ParseOk (RSeq t u) rest'))
      end
  end
with parse_term (fuel : nat) (s : jsstring) : parsed regex :=
  match fuel with
  | O => ParseUnsupported
  | S fuel' =>
      match s with
      | [] => ParseError
      | c :: s' =>
          if c =? c_caret then ParseOk RBol s'
          else if c =? c_dollar then ParseOk REol s'
          else match s' with
               | e :: s'' =>
                   if (c =? c_bslash) && ((e =? 98) || (e =? 66)) then ParseOk (RWordB (e =? 66)) s''
                   else pbind (parse_atom fuel' s) quantify
               | [] => pbind (parse_atom fuel' s) quantify
               end
      end
  end
with parse_atom (fuel : nat) (s : jsstring) : parsed regex :=
  match fuel with
  | O => ParseUnsupported
  | S fuel' =>
      match s with
      | [] => ParseError
      | c :: s' =>
          if c =? c_dot then ParseOk (RClass dot_class) s'
          else if c =? c_lparen then
            match s' with
            | q :: d :: s'' =>
                if (q =? c_quest) && (d =? c_colon) then pbind (parse_disj fuel' s'') (close_group id)
                else if q =? c_quest then ParseUnsupported
                else pbind (parse_disj fuel' s') (close_group RGroup)
            | _ => pbind (parse_disj fuel' s') (close_group RGroup)
            end
          else if c =? c_lbracket then parse_class fuel' s'
          else if c =? c_bslash then
            match s' with
            | e :: s'' =>
                match class_escape e with
                | Some it => ParseOk (RClass {| class_neg := false; class_items := [it] |}) s''
                | None => match char_escape e with
                          | Some u => ParseOk (RClass (single u)) s''
                          | None => ParseUnsupported
                          end
                end
            | [] => ParseError
            end
          else if (c =? c_star) || (c =? c_plus) || (c =? c_quest) then ParseError
          else if c =? c_lbrace then
            match read_braces s with Some _ => ParseError | None => ParseOk (RClass (single c)) s' end
          else ParseOk (RClass (single c)) s'
      end
  end.

(** [new RegExp(pattern, flags)]: the whole pattern must parse. *)
Definition compile (pattern : jsstring) (icase : bool) : parsed regexp :=
  match parse_disj (4 * length pattern + 4) pattern with
  | ParseOk r [] => ParseOk {| re_pattern := r; re_icase := icase |} []
  | ParseOk _ (_ :: _) => ParseError
  | ParseError => ParseError
  | ParseUnsupported => ParseUnsupported
  end.

(** The units with a meaning in a pattern. *)
Definition is_syntax_char (c : Z) : bool :=
  existsb (Z.eqb c) [c_caret; c_dollar; c_bslash; c_dot; c_star; c_plus; c_quest;
                     c_lparen; c_rparen; c_lbracket; c_rbracket; c_lbrace; c_rbrace; c_bar].

(** A sequence of literal units followed by [u]. *)
Definition lit_seq (w : jsstring) (u : regex) : regex :=
  fold_right (fun c acc => RSeq (RClass (single c)) acc) u w.

Definition space_class : charclass := {| class_neg := false; class_items := [plain_item space_ranges] |}.

Definition is_space (c : Z) : bool := in_ranges space_ranges c.

(** Whether [w] occurs in [s] at position [p]. *)
Fixpoint occurs_at (w s : jsstring) (p : nat) : bool :=
  match w with
  | [] => true
  | c :: w' => bool_decide (nth_error s p = Some c) && occurs_at w' s (S p)
  end.

(** Whether the unit at [i] is white space ([\s]). *)
Definition space_at (s : jsstring) (i : nat) : bool :=
  match nth_error s i with Some c => is_space c | None => false end.

(** ** Matching lemmas *)

Lemma ends_seq ic s f r1 r2 i : ends ic s f (RSeq r1 r2) i = flat_map (ends ic s f r2) (ends ic s f r1 i).
Proof. reflexivity. Qed.

Lemma ends_alt ic s f r1 r2 i : ends ic s f (RAlt r1 r2) i = ends ic s f r1 i ++ ends ic s f r2 i.
Proof. reflexivity. Qed.

Lemma ends_group ic s f r i : ends ic s f (RGroup r) i = ends ic s f r i.
Proof. reflexivity. Qed.

Lemma ends_seq_eps ic s f r i : ends ic s f (RSeq r REps) i = ends ic s f r i.
Proof.
  rewrite ends_seq. generalize (ends ic s f r i); intros l.
  induction l as [|x l IH]; [reflexivity|]. cbn [flat_map ends app]. f_equal. exact IH.
Qed.

Lemma space_at_lt s i : space_at s i = true -> (i < length s)%nat.
Proof.
  unfold space_at. destruct (nth_error s i) eqn:E; [|discriminate].
  intros _. apply nth_error_Some. congruence.
Qed.

Lemma ends_single s f c i :
  ends false s f (RClass (single c)) i = if bool_decide (nth_error s i = Some c) then [S i] else [].
Proof.
  cbn [ends]. destruct (nth_error s i) as [d|].
  - unfold class_mem_ci, class_mem, single; cbn. case_bool_decide as E.
    + injection E as ->. rewrite Z.leb_refl. reflexivity.
    + destruct ((c <=? d) && (d <=? c)) eqn:Hb; [|reflexivity].
      apply andb_true_iff in Hb as [H1 H2]. apply Z.leb_le in H1, H2.
      exfalso. apply E. f_equal. lia.
  - rewrite bool_decide_false by congruence. reflexivity.
Qed.

Lemma ends_space s f i : ends false s f (RClass space_class) i = if space_at s i then [S i] else [].
Proof.
  cbn [ends]. unfold space_at. destruct (nth_error s i) as [d|]; [|reflexivity].
  unfold class_mem_ci, class_mem, is_space; cbn. rewrite orb_false_r. reflexivity.
Qed.

(** A literal run matches exactly where it occurs. *)
Lemma ends_lit_seq s f w u i :
  ends false s f (lit_seq w u) i = if occurs_at w s i then ends false s f u (i + length w) else [].
Proof.
  revert i. induction w as [|c w IH]; intros i.
  - rewrite Nat.add_0_r. reflexivity.
  - change (lit_seq (c :: w) u) with (RSeq (RClass (single c)) (lit_seq w u)).
    rewrite ends_seq, ends_single. cbn [occurs_at]. case_bool_decide; [|reflexivity].
    cbn [flat_map andb]. rewrite app_nil_r, IH. simpl length. rewrite Nat.add_succ_r. reflexivity.
Qed.

Lemma occurs_at_app w a c : occurs_at w (a ++ w ++ c) (length a) = true.
Proof.
  revert a. induction w as [|x w IH]; intros a; [reflexivity|].
  cbn [occurs_at]. rewrite bool_decide_true.
  - replace (a ++ (x :: w) ++ c) with ((a ++ [x]) ++ w ++ c) by (rewrite <- app_assoc; reflexivity).
    replace (S (length a)) with (length (a ++ [x])) by (rewrite length_app; simpl; lia).
    apply IH.
  - rewrite nth_error_app2, Nat.sub_diag by lia. reflexivity.
Qed.

(** The search tries every start from [i] on. *)
Lemma first_match_from_some re s i k :
  (i + k = length s)%nat ->
  first_match_from re s i k <> None <-> exists j, (i <= j <= length s)%nat /\ match_at re s j <> None.
Proof.
  revert i. induction k as [|k IH]; intros i Hk; cbn [first_match_from];
    rewrite (proj2 (Nat.ltb_ge _ _)) by lia; destruct (match_at re s i) eqn:E.
  - split; [intros _; exists i; split; [lia|congruence]|congruence].
  - split; [congruence|]. intros (j & Hj & Hm). replace j with i in Hm by lia. congruence.
  - split; [intros _; exists i; split; [lia|congruence]|congruence].
  - rewrite IH by lia. split; intros (j & Hj & Hm); exists j; split; try exact Hm; [lia|].
    destruct (Nat.eq_dec j i) as [->|]; [congruence|lia].
Qed.

(** The search returns the leftmost start that matches. *)
Lemma first_match_from_least re s i0 k i m :
  (i0 + k = length s)%nat -> (i0 <= i <= length s)%nat ->
  (forall j, (i0 <= j < i)%nat -> match_at re s j = None) -> match_at re s i = Some m ->
  first_match_from re s i0 k = Some (i, m).
Proof.
  revert i0. induction k as [|k IH]; intros i0 Hk Hi Hbefore Hm; cbn [first_match_from];
    rewrite (proj2 (Nat.ltb_ge _ _)) by lia.
  - replace i0 with i by lia. rewrite Hm. reflexivity.
  - destruct (Nat.eq_dec i0 i) as [->|Hne]; [rewrite Hm; reflexivity|].
    rewrite Hbefore by lia. apply IH; try lia; [|exact Hm]. intros j Hj. apply Hbefore. lia.
Qed.

(** The search from [i] stops at the leftmost start that matches. *)
Lemma first_match_from_spec re s i k a b :
  (i + k = length s)%nat -> first_match_from re s i k = Some (a, b) ->
  (i <= a <= length s)%nat /\ match_at re s a = Some b /\ forall j, (i <= j < a)%nat -> match_at re s j = None.
Proof.
  revert i. induction k as [|k IH]; intros i Hk H; cbn [first_match_from] in H;
    rewrite (proj2 (Nat.ltb_ge _ _)) in H by lia; destruct (match_at re s i) eqn:E.
  - injection H as <- <-. split; [lia|]. split; [exact E|]. intros; lia.
  - discriminate.
  - injection H as <- <-. split; [lia|]. split; [exact E|]. intros; lia.
  - apply IH in H as (Ha & Hm & Hb); [|lia]. split; [lia|]. split; [exact Hm|].
    intros j Hj. destruct (Nat.eq_dec j i) as [->|]; [exact E|]. apply Hb. lia.
Qed.

Lemma first_match_from_past re s i k : (length s < i)%nat -> first_match_from re s i k = None.
Proof. intros H. destruct k; simpl; destruct (Nat.ltb_spec (length s) i); reflexivity || lia. Qed.

Lemma first_match_from_none re s i k :
  (i + k = length s)%nat -> first_match_from re s i k = None ->
  forall j, (i <= j <= length s)%nat -> match_at re s j = None.
Proof.
  intros Hk H j Hj. destruct (match_at re s j) eqn:E; [|reflexivity]. exfalso.
  apply (proj2 (first_match_from_some re s i k Hk)); [|exact H].
  exists j. split; [exact Hj|congruence].
Qed.

(** One step of a class of single units: the match from [j]. *)
Definition class_step (cl : charclass) (s : jsstring) (j : nat) : option nat :=
  match nth_error s j with Some c => if class_mem cl c then Some (S j) else None | None => None end.

Lemma match_at_class cl s j : match_at {| re_pattern := RClass cl; re_icase := false |} s j = class_step cl s j.
Proof.
  unfold match_at, class_step; cbn [re_pattern re_icase ends]. destruct (nth_error s j); [|reflexivity].
  unfold class_mem_ci. destruct (class_mem cl z); reflexivity.
Qed.

(** The pattern [c] as the parser leaves it: the class then the empty tail. *)
Lemma match_at_class_seq cl s j :
  match_at {| re_pattern := RSeq (RClass cl) REps; re_icase := false |} s j = class_step cl s j.
Proof.
  rewrite <- match_at_class. unfold match_at; cbn [re_pattern re_icase]. rewrite ends_seq_eps. reflexivity.
Qed.

(** [s.replace(/c/g, '')] for a class [c] of single units deletes the
    units of the class: the search loop agrees with [filter]. *)
Theorem replace_all_class re cl s :
  (forall j, match_at re s j = class_step cl s j) ->
  replace_all re s [] = List.filter (fun c => negb (class_mem cl c)) s.
Proof.
  intros Hre. assert (Hnot : forall i n, (forall j, (i <= j < i + n)%nat -> match_at re s j = None) ->
            List.filter (fun c => negb (class_mem cl c)) (firstn n (skipn i s)) = firstn n (skipn i s)).
  { intros i n H. apply filter_all, firstn_skipn_forall. intros j c Hj Hc.
    specialize (H j Hj). rewrite Hre in H. unfold class_step in H. rewrite Hc in H.
    destruct (class_mem cl c); [discriminate|reflexivity]. }
  unfold replace_all.
  assert (Hgen : forall k i, (length s - i < k)%nat ->
            replace_all_from re s [] i k = List.filter (fun c => negb (class_mem cl c)) (skipn i s)).
  { induction k as [|k IH]; intros i Hk; [lia|]. cbn [replace_all_from].
    destruct (first_match_from re s i (length s - i)) as [[a b]|] eqn:F.
    - destruct (Nat.le_gt_cases i (length s)) as [Hi|Hi];
        [|rewrite first_match_from_past in F by lia; discriminate].
      apply first_match_from_spec in F as (Ha & Hm & Hb); [|lia].
      rewrite Hre in Hm. unfold class_step in Hm.
      destruct (nth_error s a) as [z|] eqn:Ez; [|discriminate].
      destruct (class_mem cl z) eqn:Cz; [|discriminate]. injection Hm as <-.
      assert (Hal : (a < length s)%nat) by (apply nth_error_Some; congruence).
      rewrite (proj2 (Nat.eqb_neq a (S a))) by lia. rewrite IH by lia.
      rewrite <- (firstn_skipn (a - i) (skipn i s)) at 2. rewrite skipn_skipn.
      replace (a - i + i)%nat with a by lia. rewrite (skipn_nth_cons s a z Ez).
      rewrite List.filter_app. cbn [List.filter]. rewrite Cz. cbn [negb app]. f_equal.
      symmetry. apply Hnot. intros j Hj. apply Hb. lia.
    - destruct (Nat.le_gt_cases i (length s)) as [Hi|Hi]; [|rewrite skipn_all2 by lia; reflexivity].
      rewrite <- (firstn_all (skipn i s)) at 2. rewrite <- (firstn_all (skipn i s)) at 1.
      rewrite length_skipn. symmetry. apply Hnot. intros j Hj.
      apply (first_match_from_none re s i (length s - i)); [lia|exact F|lia]. }
  apply (Hgen _ 0%nat). lia.
Qed.

(** [re.test(s)] holds when a match starts somewhere in [s]. *)
Lemma regex_test_exists re s :
  regex_test re s = true <-> exists i, (i <= length s)%nat /\ match_at re s i <> None.
Proof.
  unfold regex_test, first_match.
  transitivity (first_match_from re s 0 (length s) <> None).
  - destruct (first_match_from re s 0 (length s)); split; congruence.
  - rewrite first_match_from_some by lia. split; intros (j & Hj & Hm); exists j; split; auto; lia.
Qed.

End Regex.
