(* ===== verification/RegexSpec.v ===== *)
(** A declarative semantics for the patterns of [Regex], the proof that
    the backtracking matcher [ends] is sound for it, and static analyses
    of a pattern (the units it can consume, the lengths of its matches,
    its anchors) proved against the semantics.  The validators of
    [Validators] are characterised through these analyses. *)

From Stdlib Require Import ZArith Lia List.
From stdpp Require Import base decidable list.
From S2P Require Import Prelude JsString Regex.
Import ListNotations.
Open Scope Z_scope.

Module RegexSpec.
Import JsString Regex.

Section Semantics.
Variable icase : bool.
Variable s : jsstring.

(** [matches r i j]: [r] matches the units of [s] from [i] to [j].  A
    quantifier stops once its minimum is reached (or its maximum is 0),
    and an iteration that may be skipped must consume a unit. *)
Inductive matches : regex -> nat -> nat -> Prop :=
| m_eps i : matches REps i i
| m_class cl i c : nth_error s i = Some c -> class_mem_ci icase cl c = true -> matches (RClass cl) i (S i)
| m_seq r1 r2 i k j : matches r1 i k -> matches r2 k j -> matches (RSeq r1 r2) i j
| m_alt_l r1 r2 i j : matches r1 i j -> matches (RAlt r1 r2) i j
| m_alt_r r1 r2 i j : matches r2 i j -> matches (RAlt r1 r2) i j
| m_rep_stop g min max r i : (min = O \/ max = Some O) -> matches (RRep g min max r) i i
| m_rep_iter g min max r i k j :
    max <> Some O -> matches r i k -> (min = O -> k <> i) ->
    matches (RRep g (pred min) (option_map pred max) r) k j -> matches (RRep g min max r) i j
| m_bol : matches RBol 0 0
| m_eol : matches REol (length s) (length s)
| m_wordb neg i :
    xorb neg (xorb (match i with O => false | S i' => is_word_char s i' end) (is_word_char s i)) = true ->
    matches (RWordB neg) i i
| m_group r i j : matches r i j -> matches (RGroup r) i j.

End Semantics.

(** ** Static analyses of a pattern *)

(** Every unit of the range satisfies [ok], checked unit by unit. *)
Definition range_ok (ok : Z -> bool) (rg : Z * Z) : bool :=
  let '(a, b) := rg in forallb ok (map (fun i => a + Z.of_nat i) (seq 0 (Z.to_nat (b - a + 1)))).

(** A class made of positive ranges of units that satisfy [ok]. *)
Definition class_within (ok : Z -> bool) (cl : charclass) : bool :=
  negb (class_neg cl) &&
  forallb (fun it => negb (item_neg it) && forallb (range_ok ok) (item_ranges it)) (class_items cl).

(** Every class of the pattern is within [ok]. *)
Fixpoint regex_within (ok : Z -> bool) (r : regex) : bool :=
  match r with
  | RClass cl => class_within ok cl
  | RSeq r1 r2 | RAlt r1 r2 => regex_within ok r1 && regex_within ok r2
  | RRep _ _ _ r1 | RGroup r1 => regex_within ok r1
  | _ => true
  end.

(** The lengths of [n] consecutive matches of lengths in [la]. *)
Fixpoint rep_lens (n : nat) (la : list nat) : list nat :=
  match n with
  | O => [0%nat]
  | S n' => nodup Nat.eq_dec (flat_map (fun x => map (Nat.add x) (rep_lens n' la)) la)
  end.

(** The possible lengths of a match, when they are finitely many. *)
Fixpoint lens (r : regex) : option (list nat) :=
  match r with
  | REps | RBol | REol | RWordB _ => Some [0%nat]
  | RClass _ => Some [1%nat]
  | RSeq r1 r2 =>
      match lens r1, lens r2 with
      | Some l1, Some l2 => Some (nodup Nat.eq_dec (flat_map (fun x => map (Nat.add x) l2) l1))
      | _, _ => None
      end
  | RAlt r1 r2 =>
      match lens r1, lens r2 with
      | Some l1, Some l2 => Some (nodup Nat.eq_dec (l1 ++ l2))
      | _, _ => None
      end
  | RRep _ min (Some max) r1 =>
      match lens r1 with
      | Some l1 => Some (flat_map (fun n => rep_lens n l1) (seq (Nat.min min max) (S (max - Nat.min min max))))
      | None => None
      end
  | RRep _ _ None _ => None
  | RGroup r1 => lens r1
  end.

Definition zero_len (r : regex) : bool :=
  match lens r with Some l => forallb (Nat.eqb 0) l | None => false end.

(** Every match starts at position 0. *)
Fixpoint starts_at0 (r : regex) : bool :=
  match r with
  | RBol => true
  | RSeq r1 r2 => starts_at0 r1 || (zero_len r1 && starts_at0 r2)
  | RAlt r1 r2 => starts_at0 r1 && starts_at0 r2
  | RGroup r1 => starts_at0 r1
  | _ => false
  end.

(** Every match ends at the end of the string. *)
Fixpoint ends_at_end (r : regex) : bool :=
  match r with
  | REol => true
  | RSeq r1 r2 => ends_at_end r2 || (zero_len r2 && ends_at_end r1)
  | RAlt r1 r2 => ends_at_end r1 && ends_at_end r2
  | RGroup r1 => ends_at_end r1
  | _ => false
  end.

(** Every match consumes the unit [c]. *)
Fixpoint requires_unit (c : Z) (r : regex) : bool :=
  match r with
  | RClass cl => class_within (Z.eqb c) cl
  | RSeq r1 r2 => requires_unit c r1 || requires_unit c r2
  | RAlt r1 r2 => requires_unit c r1 && requires_unit c r2
  | RRep _ min max r1 =>
      negb (Nat.eqb min 0) && negb (bool_decide (max = Some O)) && requires_unit c r1
  | RGroup r1 => requires_unit c r1
  | _ => false
  end.

(** ** Soundness of the matcher *)

Section Soundness.
Variable icase : bool.
Variable s : jsstring.

(** Every end the matcher reports is the end of a match. *)
Theorem ends_sound fuel r i j : In j (ends icase s fuel r i) -> matches icase s r i j.
Proof.
  revert i j. induction r as [| cl | r1 IH1 r2 IH2 | r1 IH1 r2 IH2 | g min max r IH | | | neg | r IH];
    intros i j H; cbn [ends] in H.
  - destruct H as [<-|[]]. constructor.
  - destruct (nth_error s i) as [c|] eqn:E; [|contradiction].
    destruct (class_mem_ci icase cl c) eqn:C; [|contradiction].
    destruct H as [<-|[]]. econstructor; eassumption.
  - apply in_flat_map in H as (k & Hk & Hj). econstructor; eauto.
  - apply in_app_or in H as [H|H]; [apply m_alt_l|apply m_alt_r]; auto.
  - set (e := ends icase s fuel r) in *. clearbody e. revert min max i j H.
    induction fuel as [|k IHk]; intros min max i j H; [contradiction|]. simpl in H.
    case_bool_decide as Hmax; [destruct H as [<-|[]]; apply m_rep_stop; right; exact Hmax|].
    assert (Hiter : forall y, In y (e i) -> (Nat.eqb min 0 && Nat.eqb y i) = false ->
                    matches icase s (RRep g (pred min) (option_map pred max) r) y j ->
                    matches icase s (RRep g min max r) i j).
    { intros y Hy Eb Hj. apply m_rep_iter with y; auto.
      intros Hm0 ->. rewrite Hm0, !Nat.eqb_refl in Eb. cbn in Eb. congruence. }
    destruct (negb (Nat.eqb min 0)) eqn:Em;
      [|apply negb_false_iff, Nat.eqb_eq in Em; subst min; destruct g;
        [apply in_app_or in H as [H|[<-|[]]] | destruct H as [<-|H]];
        try (apply m_rep_stop; left; reflexivity)];
      apply in_flat_map in H as (y & Hy & Hj); revert Hj;
      destruct (Nat.eqb _ 0 && Nat.eqb y i) eqn:Eb; intros Hj; try contradiction;
      eapply Hiter; eauto.
  - destruct (Nat.eqb_spec i 0) as [->|]; [destruct H as [<-|[]]; constructor|contradiction].
  - destruct (Nat.eqb_spec i (length s)) as [->|]; [destruct H as [<-|[]]; constructor|contradiction].
  - destruct (xorb neg _) eqn:E; [destruct H as [<-|[]]; constructor; exact E|contradiction].
  - constructor. auto.
Qed.

Lemma matches_le r i j : matches icase s r i j -> (i <= j)%nat.
Proof. induction 1; lia. Qed.

(** ** The analyses are sound *)

Lemma class_within_mem ok cl c : class_within ok cl = true -> class_mem cl c = true -> ok c = true.
Proof.
  unfold class_within, class_mem. intros H Hc. apply andb_true_iff in H as [Hn Hits].
  apply negb_true_iff in Hn. rewrite Hn in Hc. cbn [xorb] in Hc.
  apply existsb_exists in Hc as (it & Hit & Hm). rewrite forallb_forall in Hits.
  apply Hits, andb_true_iff in Hit as [Hin Hrs]. apply negb_true_iff in Hin.
  unfold item_mem, in_ranges in Hm. rewrite Hin in Hm. cbn [xorb] in Hm.
  apply existsb_exists in Hm as ([a b] & Hab & Hc'). rewrite forallb_forall in Hrs.
  specialize (Hrs _ Hab). apply andb_true_iff in Hc' as [H1 H2]. apply Z.leb_le in H1, H2.
  apply (forallb_range ok a (Z.to_nat (b - a + 1)) Hrs). lia.
Qed.

(** A match consumes only units its classes admit. *)
Lemma matches_within ok r i j :
  regex_within ok r = true -> matches false s r i j ->
  forall k, (i <= k < j)%nat -> exists c, nth_error s k = Some c /\ ok c = true.
Proof.
  intros Hw Hm. induction Hm; intros p Hp; cbn [regex_within] in Hw; bool_hyps; try lia.
  - exists c. replace p with i by lia. split; [exact H|]. exact (class_within_mem ok cl c Hw H0).
  - destruct (Nat.lt_ge_cases p k); [apply IHHm1 | apply IHHm2]; auto; lia.
  - auto.
  - auto.
  - destruct (Nat.lt_ge_cases p k); [apply IHHm1 | apply IHHm2]; auto; lia.
  - auto.
Qed.

Lemma rep_lens_S n la a b : In a la -> In b (rep_lens n la) -> In (a + b)%nat (rep_lens (S n) la).
Proof.
  intros Ha Hb. cbn [rep_lens]. apply nodup_In, in_flat_map. exists a. split; [exact Ha|].
  apply in_map. exact Hb.
Qed.

Lemma lens_rep g min mx r :
  lens (RRep g min (Some mx) r) =
    option_map (fun l1 => flat_map (fun n => rep_lens n l1) (seq (Nat.min min mx) (S (mx - Nat.min min mx)))) (lens r).
Proof. cbn [lens]. destruct (lens r); reflexivity. Qed.

(** The length of a match is one of [lens]. *)
Lemma matches_lens r i j L : lens r = Some L -> matches icase s r i j -> In (j - i)%nat L.
Proof.
  intros HL Hm. revert L HL. induction Hm; intros L HL;
    try (destruct max as [mx|]; [rewrite lens_rep in HL|discriminate]); cbn [lens] in HL.
  - injection HL as <-. left. lia.
  - injection HL as <-. left. lia.
  - destruct (lens r1) as [l1|], (lens r2) as [l2|]; try discriminate. injection HL as <-.
    apply nodup_In, in_flat_map. exists (k - i)%nat. split; [auto|].
    apply in_map_iff. exists (j - k)%nat. split; [|auto].
    apply matches_le in Hm1. apply matches_le in Hm2. lia.
  - destruct (lens r1) as [l1|], (lens r2) as [l2|]; try discriminate. injection HL as <-.
    apply nodup_In, in_or_app. auto.
  - destruct (lens r1) as [l1|], (lens r2) as [l2|]; try discriminate. injection HL as <-.
    apply nodup_In, in_or_app. auto.
  - destruct (lens r) as [l1|]; [|discriminate].
    assert (HL' : flat_map (fun n => rep_lens n l1) (seq (Nat.min min mx) (S (mx - Nat.min min mx))) = L)
      by (cbn [option_map] in HL; congruence). subst L.
    apply in_flat_map. exists O. split; [|left; lia]. apply in_seq.
    destruct H as [->|H]; [lia|]. injection H as ->. lia.
  - destruct (lens r) as [l1|] eqn:Er; [|discriminate].
    assert (HL' : flat_map (fun n => rep_lens n l1) (seq (Nat.min min mx) (S (mx - Nat.min min mx))) = L)
      by (cbn [option_map] in HL; congruence). subst L.
    specialize (IHHm1 l1 eq_refl). cbn [option_map] in IHHm2. rewrite lens_rep, Er in IHHm2.
    specialize (IHHm2 _ eq_refl).
    apply in_flat_map in IHHm2 as (n & Hn & Hl). apply in_seq in Hn.
    assert (mx <> O) by congruence.
    apply in_flat_map. exists (S n). split; [apply in_seq; lia|].
    replace (j - i)%nat with ((k - i) + (j - k))%nat by (apply matches_le in Hm1; apply matches_le in Hm2; lia).
    apply rep_lens_S; assumption.
  - injection HL as <-. left. lia.
  - injection HL as <-. left. lia.
  - injection HL as <-. left. lia.
  - auto.
Qed.

Lemma zero_len_matches r i j : zero_len r = true -> matches icase s r i j -> j = i.
Proof.
  unfold zero_len. destruct (lens r) as [L|] eqn:HL; [|discriminate]. intros Hz Hm.
  pose proof (matches_lens r i j L HL Hm) as Hin. pose proof (matches_le r i j Hm).
  rewrite forallb_forall in Hz. apply Hz, Nat.eqb_eq in Hin. lia.
Qed.

Lemma starts_at0_matches r i j : starts_at0 r = true -> matches icase s r i j -> i = O.
Proof.
  intros Hs Hm. induction Hm; cbn [starts_at0] in Hs; bool_hyps; try discriminate; auto.
  match goal with Hz : zero_len r1 = true |- _ => rewrite <- (zero_len_matches r1 i k Hz Hm1) end. auto.
Qed.

Lemma ends_at_end_matches r i j : ends_at_end r = true -> matches icase s r i j -> j = length s.
Proof.
  intros He Hm. induction Hm; cbn [ends_at_end] in He; bool_hyps; try discriminate; auto.
  match goal with Hz : zero_len r2 = true |- _ => rewrite (zero_len_matches r2 k j Hz Hm2) end. auto.
Qed.

End Soundness.

(** A match of a pattern that requires [c] consumes [c]. *)
Lemma requires_unit_matches s c r i j :
  requires_unit c r = true -> matches false s r i j ->
  exists k, (i <= k < j)%nat /\ nth_error s k = Some c.
Proof.
  intros Hr Hm. induction Hm; cbn [requires_unit] in Hr; bool_hyps; try discriminate.
  - exists i. split; [lia|]. rewrite H. f_equal. symmetry. apply Z.eqb_eq.
    exact (class_within_mem (Z.eqb c) cl c0 Hr H0).
  - destruct IHHm1 as (p & Hp & Hc); auto. exists p. apply matches_le in Hm2. split; [lia|exact Hc].
  - destruct IHHm2 as (p & Hp & Hc); auto. exists p. apply matches_le in Hm1. split; [lia|exact Hc].
  - auto.
  - auto.
  - destruct H as [-> | ->]; [discriminate|]. rewrite bool_decide_true in H2 by reflexivity. discriminate.
  - destruct IHHm1 as (p & Hp & Hc); auto. exists p. apply matches_le in Hm2. split; [lia|exact Hc].
  - auto.
Qed.


(** ** What a successful test says about the string *)

Lemma regex_test_matches re t :
  regex_test re t = true -> exists i j, matches (re_icase re) t (re_pattern re) i j.
Proof.
  rewrite regex_test_exists. intros (i & _ & Hm). unfold match_at in Hm.
  destruct (ends _ _ _ _ i) as [|j l] eqn:E; [contradiction|].
  exists i, j. apply (ends_sound _ _ (match_fuel (re_pattern re) t)). rewrite E. left. reflexivity.
Qed.

(** A pattern anchored at both ends, with finitely many match lengths and
    classes within [ok]: a string it accepts has one of those lengths and
    only units in [ok]. *)
Lemma regex_test_anchored re t L ok :
  re_icase re = false -> starts_at0 (re_pattern re) = true -> ends_at_end (re_pattern re) = true ->
  lens (re_pattern re) = Some L -> regex_within ok (re_pattern re) = true ->
  regex_test re t = true -> In (length t) L /\ Forall (fun c => ok c = true) t.
Proof.
  intros Hi Hs He HL Hw Ht. apply regex_test_matches in Ht as (i & j & Hm). rewrite Hi in Hm.
  pose proof (starts_at0_matches _ _ _ _ _ Hs Hm) as ->.
  pose proof (ends_at_end_matches _ _ _ _ _ He Hm) as ->.
  split; [rewrite <- (Nat.sub_0_r (length t)); exact (matches_lens _ _ _ _ _ _ HL Hm)|].
  apply List.Forall_forall. intros c Hc. apply In_nth_error in Hc as (k & Hk).
  destruct (matches_within t ok _ _ _ Hw Hm k) as (c' & Hc' & Hok).
  { split; [lia|]. apply nth_error_Some. congruence. }
  congruence.
Qed.

(** A string accepted by a pattern that requires [c] holds [c]. *)
Lemma regex_test_requires re t c :
  re_icase re = false -> requires_unit c (re_pattern re) = true -> regex_test re t = true -> In c t.
Proof.
  intros Hi Hr Ht. apply regex_test_matches in Ht as (i & j & Hm). rewrite Hi in Hm.
  destruct (requires_unit_matches t c _ _ _ Hr Hm) as (k & _ & Hk). exact (nth_error_In _ _ Hk).
Qed.

End RegexSpec.
