(* ===== verification/ClassName.v ===== *)
(** The class-name helpers of [src/index.js]: [hasClass], [addClass] and
    [removeClass] (lines 40-73).

    An element is the record of its [className]; [null] or [undefined]
    is [None].  [hasClass] builds the pattern ["(\s|^)" + cls + "(\s|$)"]
    and tests it against the class name; [addClass] appends [" " + cls]
    when the test fails; [removeClass] replaces the first match of the
    same pattern by the empty string.  Since [cls] is spliced into the
    pattern unescaped, a class name with regular-expression syntax is
    read as a pattern.  A call returns [None] when [cls] uses pattern
    syntax outside the grammar [Regex] models; otherwise the completion
    of the call with the element after it. *)

From Stdlib Require Import ZArith Lia String List.
From stdpp Require Import base decidable list.
From S2P Require Import Prelude JsString Regex.
Import ListNotations.
Open Scope Z_scope.

Module ClassName.
Import JsString Regex.

Record element := { className : jsstring }.

(** ["(\\s|^)" + cls + "(\\s|$)"]. *)
Definition class_pattern (cls : jsstring) : jsstring :=
  (js "(\s|^)" ++ cls ++ js "(\s|$)")%list.

(** [new RegExp(p)]: [SyntaxError] on a malformed pattern. *)
Definition new_regexp (p : jsstring) : option (completion regexp) :=
  match compile p false with
  | ParseOk re _ => Some (Normal re)
  | ParseError => Some (Throw SyntaxError)
  | ParseUnsupported => None
  end.

(** The pattern a class name without pattern syntax compiles to:
    [(\s|^)], its units, [(\s|$)]. *)
Definition class_regex (cls : jsstring) : regex :=
  RSeq (RGroup (RAlt (RSeq (RClass space_class) REps) (RSeq RBol REps)))
    (lit_seq cls (RSeq (RGroup (RAlt (RSeq (RClass space_class) REps) (RSeq REol REps))) REps)).

(** A class name as [classList] understands one: non-empty, without
    white space, and here without pattern syntax. *)
Definition class_token (cls : jsstring) : bool :=
  negb (bool_decide (cls = [])) && forallb (fun c => negb (is_syntax_char c) && negb (is_space c)) cls.

Definition hasClass (ele : option element) (cls : jsstring) : option (completion bool) :=
  match ele with
  | None => Some (Throw PlainError)
  | Some e =>
      if bool_decide (cls = []) then Some (Throw PlainError)
      else option_map (fun c => re <- c ;; Normal (regex_test re (className e))) (new_regexp (class_pattern cls))
  end.

Definition addClass (ele : option element) (cls : jsstring) : option (completion element) :=
  match ele with
  | None => option_map (fun c => b <- c ;; Throw PlainError) (hasClass ele cls)
  | Some e =>
      option_map (fun c => b <- c ;;
        if negb b then Normal {| className := (className e ++ [32] ++ cls)%list |} else Normal e)
        (hasClass ele cls)
  end.

Definition removeClass (ele : option element) (cls : jsstring) : option (completion element) :=
  match ele with
  | None => option_map (fun c => b <- c ;; Throw PlainError) (hasClass ele cls)
  | Some e =>
      match hasClass ele cls with
      | None => None
      | Some (Throw err) => Some (Throw err)
      | Some (Normal false) => Some (Normal e)
      | Some (Normal true) =>
          option_map (fun c => reg <- c ;; Normal {| className := replace_first reg (className e) [] |})
            (new_regexp (class_pattern cls))
      end
  end.

(** ** What a class-name pattern matches *)

(** [cls] occurs at [p] and is followed by white space or the end. *)
Definition tail_ok (s cls : jsstring) (p : nat) : bool :=
  occurs_at cls s p && (space_at s (p + length cls) || Nat.eqb (p + length cls) (length s)).

(** [cls] is a white-space delimited token of [s] at [p]. *)
Definition token_at (s cls : jsstring) (p : nat) : bool :=
  (Nat.eqb p 0 || space_at s (pred p)) && tail_ok s cls p.

(** ** Parsing the pattern of a class name *)

Lemma pbind_ok_r {A} (p : parsed A) : pbind p (fun a r => ParseOk a r) = p.
Proof. destruct p; reflexivity. Qed.

Lemma pbind_assoc {A B C} (p : parsed A) (f : A -> jsstring -> parsed B) (g : B -> jsstring -> parsed C) :
  pbind (pbind p f) g = pbind p (fun a r => pbind (f a r) g).
Proof. destruct p; reflexivity. Qed.

(** Decide every comparison of the unit [c] with a pattern character,
    knowing [c] is none of them. *)
Ltac no_syntax c :=
  repeat match goal with
  | |- context [c =? ?d] =>
      let E := fresh "E" in destruct (Z.eqb_spec c d) as [E|E]; [exfalso; congruence|]
  end; cbn [orb andb negb].

Lemma read_quantifier_lit c rest : is_syntax_char c = false -> read_quantifier (c :: rest) = None.
Proof.
  intros H. unfold is_syntax_char in H. simpl existsb in H. bool_hyps.
  unfold read_quantifier, read_braces. no_syntax c. reflexivity.
Qed.

Lemma parse_alt_cons f c s :
  parse_alt (S f) (c :: s) =
    if (c =? c_bar) || (c =? c_rparen) then ParseOk REps (c :: s)
    else pbind (parse_term f (c :: s)) (fun t rest =>
           pbind (parse_alt f rest) (fun u rest' => ParseOk (RSeq t u) rest')).
Proof. reflexivity. Qed.

Lemma parse_atom_lit f c s :
  is_syntax_char c = false -> parse_atom (S f) (c :: s) = ParseOk (RClass (single c)) s.
Proof.
  intros H. unfold is_syntax_char in H. simpl existsb in H. bool_hyps.
  cbn [parse_atom]. no_syntax c. reflexivity.
Qed.

Lemma parse_term_lit f c s :
  is_syntax_char c = false -> read_quantifier s = None ->
  parse_term (S (S f)) (c :: s) = ParseOk (RClass (single c)) s.
Proof.
  intros H Hq. assert (Ha := parse_atom_lit f c s H).
  unfold is_syntax_char in H. simpl existsb in H. bool_hyps.
  cbn [parse_term]. no_syntax c.
  destruct s; rewrite Ha; cbn [pbind]; unfold quantify; rewrite Hq; reflexivity.
Qed.

(** The units of a class name parse as literals. *)
Lemma parse_alt_lit w rest f :
  Forall (fun c => is_syntax_char c = false) w -> read_quantifier rest = None -> (length w + 2 <= f)%nat ->
  parse_alt f (w ++ rest) = pbind (parse_alt (f - length w) rest) (fun u r => ParseOk (lit_seq w u) r).
Proof.
  revert f. induction w as [|c w IH]; intros f Hw Hq Hf.
  { rewrite Nat.sub_0_r, pbind_ok_r. reflexivity. }
  inversion Hw as [|? ? Hc Hw']; subst.
  destruct f as [|[|[|f]]]; simpl in Hf; try lia.
  assert (Hq' : read_quantifier (w ++ rest) = None).
  { destruct w as [|c' w]; [exact Hq|]. inversion Hw'; subst. apply read_quantifier_lit; assumption. }
  assert (Hbar : (c =? c_bar) || (c =? c_rparen) = false).
  { unfold is_syntax_char in Hc. simpl existsb in Hc. bool_hyps. no_syntax c. reflexivity. }
  rewrite <- app_comm_cons, parse_alt_cons, Hbar, parse_term_lit by assumption. cbn [pbind].
  rewrite IH by (assumption || (simpl; lia)). rewrite pbind_assoc.
  simpl length. replace (S (S (S f)) - S (length w))%nat with (S (S f) - length w)%nat by lia.
  reflexivity.
Qed.

(** The opening group [(\s|^)], units 40 92 115 124 94 41, parses as one term, before any unit that
    starts no quantifier. *)
Lemma parse_term_open f X :
  read_quantifier X = None ->
  parse_term (S (S (S (S (S (S (S (S f)))))))) (40 :: 92 :: 115 :: 124 :: 94 :: 41 :: X) =
    ParseOk (RGroup (RAlt (RSeq (RClass space_class) REps) (RSeq RBol REps))) X.
Proof.
  intros HX.
  unfold c_bar, c_rparen, c_caret, c_dollar, c_bslash, c_dot, c_lparen, c_lbracket,
    c_star, c_plus, c_quest, c_lbrace, c_colon.
  simpl. unfold quantify. rewrite HX. reflexivity.
Qed.

(** The closing group [(\s|$)] parses to the end of the pattern. *)
Lemma parse_alt_close f :
  parse_alt (S (S (S (S (S (S (S (S (S (S (S (S f)))))))))))) (js "(\s|$)") =
    ParseOk (RSeq (RGroup (RAlt (RSeq (RClass space_class) REps) (RSeq REol REps))) REps) [].
Proof. change (js "(\s|$)") with [40;92;115;124;36;41]. simpl. reflexivity. Qed.

Lemma class_token_lits cls :
  class_token cls = true -> cls <> [] /\ Forall (fun c => is_syntax_char c = false) cls /\ Forall (fun c => is_space c = false) cls.
Proof.
  unfold class_token. intros H. apply andb_true_iff in H as [Hn Hf].
  apply negb_true_iff, bool_decide_eq_false in Hn. apply forallb_Forall in Hf.
  split; [exact Hn|]. split; eapply Forall_impl; try exact Hf; intros c Hc; simpl in Hc;
    apply andb_true_iff in Hc as [H1 H2]; apply negb_true_iff; assumption.
Qed.

(** A class name without pattern syntax compiles to [class_regex]. *)
Lemma compile_class_pattern cls :
  class_token cls = true ->
  compile (class_pattern cls) false = ParseOk {| re_pattern := class_regex cls; re_icase := false |} [].
Proof.
  intros Ht. destruct (class_token_lits cls Ht) as [Hn [Hs _]].
  assert (Hq : read_quantifier (cls ++ js "(\s|$)") = None).
  { destruct cls as [|c w]; [congruence|]. inversion Hs; subst. apply read_quantifier_lit; assumption. }
  unfold compile, class_pattern.
  assert (Hl : (4 * length (js "(\s|^)" ++ cls ++ js "(\s|$)") + 4 =
               S (S (S (S (S (S (S (S (S (S (4 * length cls + 42)))))))))))%nat).
  { rewrite !length_app. simpl. lia. }
  rewrite Hl. change (js "(\s|^)") with [40;92;115;124;94;41]. cbn [parse_disj app]. rewrite parse_alt_cons. cbn [orb Z.eqb Pos.eqb c_bar c_rparen].
  rewrite parse_term_open by exact Hq. cbn [pbind].
  rewrite parse_alt_lit by (assumption || reflexivity || lia).
  replace (S (S (S (S (S (S (S (S (4 * length cls + 42)))))))) - length cls)%nat
    with (S (S (S (S (S (S (S (S (S (S (S (S (3 * length cls + 38)))))))))))))%nat by lia.
  rewrite parse_alt_close. reflexivity.
Qed.

Lemma class_compiled cls :
  class_token cls = true ->
  new_regexp (class_pattern cls) = Some (Normal {| re_pattern := class_regex cls; re_icase := false |}).
Proof. intros H. unfold new_regexp. rewrite compile_class_pattern by exact H. reflexivity. Qed.

Lemma hasClass_test e cls :
  class_token cls = true ->
  hasClass (Some e) cls = Some (Normal (regex_test {| re_pattern := class_regex cls; re_icase := false |} (className e))).
Proof.
  intros H. destruct (class_token_lits cls H) as [Hn _].
  unfold hasClass. rewrite bool_decide_false by exact Hn. rewrite class_compiled by exact H. reflexivity.
Qed.

(** ** Matching a class-name pattern *)

Lemma tail_ends s f cls p :
  ends false s f (lit_seq cls (RSeq (RGroup (RAlt (RSeq (RClass space_class) REps) (RSeq REol REps))) REps)) p <> []
  <-> tail_ok s cls p = true.
Proof.
  rewrite ends_lit_seq. unfold tail_ok. destruct occurs_at; [|simpl; intuition congruence].
  rewrite ends_seq_eps, ends_group, ends_alt, !ends_seq_eps, ends_space. cbn [ends andb].
  destruct space_at, Nat.eqb; simpl; intuition congruence.
Qed.

(** The pattern matches from [i] when white space at [i] or the start of
    the string is followed by [cls] and then white space or the end. *)
Lemma class_regex_ends s f cls i :
  ends false s f (class_regex cls) i <> [] <->
  (space_at s i && tail_ok s cls (S i) || Nat.eqb i 0 && tail_ok s cls 0) = true.
Proof.
  unfold class_regex. rewrite ends_seq, ends_group, ends_alt, !ends_seq_eps, ends_space. cbn [ends].
  destruct (space_at s i), (Nat.eqb i 0) eqn:E; cbn [flat_map app andb orb];
    try (apply Nat.eqb_eq in E; subst i);
    rewrite ?app_nil_r, ?app_nonempty, ?tail_ends, ?orb_false_r, ?orb_true_iff; intuition congruence.
Qed.

Lemma class_match_at s cls i :
  match_at {| re_pattern := class_regex cls; re_icase := false |} s i <> None <->
  token_at s cls (S i) || Nat.eqb i 0 && token_at s cls 0 = true.
Proof.
  unfold match_at; cbn [re_pattern re_icase]. rewrite head_nonempty, class_regex_ends.
  unfold token_at. cbn [Nat.eqb pred orb]. reflexivity.
Qed.

Lemma token_match s cls :
  (exists i, (i <= length s)%nat /\ (token_at s cls (S i) || Nat.eqb i 0 && token_at s cls 0) = true) <->
  exists p, token_at s cls p = true.
Proof.
  split.
  - intros (i & _ & H). apply orb_true_iff in H as [H|H]; [eauto|].
    apply andb_true_iff in H as [_ H]. eauto.
  - intros ([|q] & H); [exists 0%nat; split; [lia|]; rewrite H, orb_true_r; reflexivity|].
    exists q. rewrite H. split; [|reflexivity].
    unfold token_at in H. cbn [Nat.eqb pred orb] in H. apply andb_true_iff in H as [H _].
    apply space_at_lt in H. lia.
Qed.

Lemma regex_test_token s cls :
  regex_test {| re_pattern := class_regex cls; re_icase := false |} s = true <-> exists p, token_at s cls p = true.
Proof.
  rewrite regex_test_exists, <- token_match.
  split; intros (i & Hi & Hm); exists i; split; auto; apply class_match_at; auto.
Qed.

(** C17: for a class name without white space or pattern syntax,
    [hasClass] returns normally, and it returns [true] exactly when the
    name is a token of the element's [className]: it occurs there after
    the start or white space, and before white space or the end. *)
Theorem hasClass_token e cls :
  class_token cls = true ->
  exists b, hasClass (Some e) cls = Some (Normal b) /\ (b = true <-> exists p, token_at (className e) cls p = true).
Proof.
  intros H. rewrite hasClass_test by exact H. eexists. split; [reflexivity|]. apply regex_test_token.
Qed.

Lemma hasClass_token_witness :
  class_token (js "b") = true /\
  exists b, hasClass (Some {| className := js "a b" |}) (js "b") = Some (Normal b) /\
    (b = true <-> exists p, token_at (className {| className := js "a b" |}) (js "b") p = true).
Proof. split; [reflexivity|]. apply hasClass_token. reflexivity. Defined.

(** A token added after a space ends the class name. *)
Lemma token_at_appended s cls :
  cls <> [] -> token_at (s ++ [32] ++ cls) cls (S (length s)) = true.
Proof.
  intros Hn. unfold token_at, tail_ok. cbn [Nat.eqb pred orb].
  replace (S (length s)) with (length (s ++ [32])) by (rewrite length_app; simpl; lia).
  assert (Ho := occurs_at_app cls (s ++ [32]) []). rewrite app_nil_r in Ho.
  rewrite app_assoc, Ho. unfold space_at.
  rewrite nth_error_app1 by (rewrite length_app; simpl; lia).
  rewrite nth_error_app2, Nat.sub_diag by lia. cbn.
  rewrite !length_app, Nat.eqb_refl, orb_true_r. reflexivity.
Qed.

(** [addClass] with such a class name returns normally; the element
    it returns has the class; and it is the element itself when the class
    was there, and otherwise the element with [" " + cls] appended. *)
Theorem addClass_adds e cls :
  class_token cls = true ->
  exists e', addClass (Some e) cls = Some (Normal e') /\ hasClass (Some e') cls = Some (Normal true) /\
    (hasClass (Some e) cls = Some (Normal true) /\ e' = e \/
     hasClass (Some e) cls = Some (Normal false) /\ className e' = (className e ++ [32] ++ cls)%list).
Proof.
  intros H. destruct (class_token_lits cls H) as [Hn _].
  unfold addClass. rewrite !hasClass_test by exact H. cbn [option_map cbind].
  destruct (regex_test _ (className e)) eqn:Hb; cbn [negb].
  - exists e. rewrite hasClass_test, Hb by exact H. auto.
  - eexists. split; [reflexivity|]. rewrite hasClass_test by exact H. cbn [className].
    split; [|right; auto]. do 2 f_equal. apply regex_test_token.
    exists (S (length (className e))). apply token_at_appended, Hn.
Qed.

Lemma addClass_adds_witness :
  class_token (js "b") = true /\
  exists e', addClass (Some {| className := js "a" |}) (js "b") = Some (Normal e') /\
    hasClass (Some e') (js "b") = Some (Normal true) /\
    (hasClass (Some {| className := js "a" |}) (js "b") = Some (Normal true) /\ e' = {| className := js "a" |} \/
     hasClass (Some {| className := js "a" |}) (js "b") = Some (Normal false) /\
     className e' = (className {| className := js "a" |} ++ [32] ++ js "b")%list).
Proof. split; [reflexivity|]. apply addClass_adds. reflexivity. Defined.

Definition close_re : regex := RSeq (RGroup (RAlt (RSeq (RClass space_class) REps) (RSeq REol REps))) REps.

Lemma tail_ends_space s f cls p :
  occurs_at cls s p = true -> space_at s (p + length cls) = true ->
  head (ends false s f (lit_seq cls close_re) p) = Some (S (p + length cls)).
Proof.
  intros Ho Hs. rewrite ends_lit_seq, Ho. unfold close_re.
  rewrite ends_seq_eps, ends_group, ends_alt, ends_seq_eps, ends_space, Hs. reflexivity.
Qed.

(** After white space, the match runs over [cls] and the white space after it. *)
Lemma class_regex_head_space s f cls i :
  space_at s i = true -> occurs_at cls s (S i) = true -> space_at s (S i + length cls) = true ->
  head (ends false s f (class_regex cls) i) = Some (S (S i + length cls)).
Proof.
  intros Hi Ho Hs. pose proof (tail_ends_space s f cls (S i) Ho Hs) as Ht.
  unfold class_regex. fold close_re.
  rewrite ends_seq, ends_group, ends_alt, !ends_seq_eps, ends_space, Hi. cbn [flat_map app].
  destruct (ends false s f (lit_seq cls close_re) (S i)); [discriminate|exact Ht].
Qed.

Lemma class_no_match s cls i :
  token_at s cls (S i) = false -> token_at s cls 0 = false ->
  match_at {| re_pattern := class_regex cls; re_icase := false |} s i = None.
Proof.
  intros H1 H0. destruct (match_at _ s i) eqn:E; [|reflexivity]. exfalso.
  assert (Hm : match_at {| re_pattern := class_regex cls; re_icase := false |} s i <> None) by congruence.
  apply class_match_at in Hm. rewrite H1, H0, andb_false_r in Hm. discriminate.
Qed.

(** C18: [removeClass] removes the white space on both sides of the first
    token it finds: when [cls] stands between two spaces and is not a
    token earlier in the class name, the classes before and after it are
    glued together ([removeClass] of ["b"] from ["a b c"] gives ["ac"]). *)
Theorem removeClass_joins a b cls :
  class_token cls = true ->
  (forall p, (p <= length a)%nat -> token_at (a ++ 32 :: cls ++ 32 :: b) cls p = false) ->
  removeClass (Some {| className := (a ++ 32 :: cls ++ 32 :: b)%list |}) cls =
    Some (Normal {| className := (a ++ b)%list |}).
Proof.
  intros H Hbefore. destruct (class_token_lits cls H) as [Hn _].
  set (s := (a ++ 32 :: cls ++ 32 :: b)%list).
  assert (Hsp : space_at s (length a) = true).
  { unfold space_at, s. rewrite nth_error_app2, Nat.sub_diag by lia. reflexivity. }
  assert (Ho : occurs_at cls s (S (length a)) = true).
  { replace s with ((a ++ [32]) ++ cls ++ 32 :: b)%list by (unfold s; rewrite <- app_assoc; reflexivity).
    replace (S (length a)) with (length (a ++ [32])) by (rewrite length_app; simpl; lia).
    apply occurs_at_app. }
  assert (Hs : space_at s (S (length a) + length cls) = true).
  { unfold space_at, s. rewrite nth_error_app2 by lia.
    replace (S (length a) + length cls - length a)%nat with (S (length cls)) by lia. cbn [nth_error].
    rewrite nth_error_app2, Nat.sub_diag by lia. reflexivity. }
  assert (Hm : match_at {| re_pattern := class_regex cls; re_icase := false |} s (length a) =
               Some (S (S (length a) + length cls))).
  { apply class_regex_head_space; assumption. }
  assert (Hfirst : first_match {| re_pattern := class_regex cls; re_icase := false |} s =
                   Some (length a, S (S (length a) + length cls))).
  { apply first_match_from_least; try exact Hm; [lia| unfold s; rewrite length_app; simpl; lia|].
    intros j Hj. apply class_no_match; apply Hbefore; lia. }
  unfold removeClass. rewrite hasClass_test by exact H. cbn [className].
  unfold regex_test at 1. rewrite Hfirst. rewrite class_compiled by exact H. cbn [option_map cbind].
  unfold replace_first. rewrite Hfirst. do 3 f_equal. unfold s.
  rewrite take_app_length. f_equal.
  replace (a ++ 32 :: cls ++ 32 :: b)%list with ((a ++ [32] ++ cls ++ [32]) ++ b)%list
    by (rewrite <- !app_assoc; reflexivity).
  replace (S (S (length a) + length cls)) with (length (a ++ [32] ++ cls ++ [32]))
    by (rewrite !length_app; simpl; lia).
  apply drop_app_length.
Qed.

Lemma removeClass_joins_witness :
  class_token (js "b") = true /\
  (forall p, (p <= length (js "a"))%nat -> token_at (js "a" ++ 32 :: js "b" ++ 32 :: js "c") (js "b") p = false) /\
  removeClass (Some {| className := (js "a" ++ 32 :: js "b" ++ 32 :: js "c")%list |}) (js "b") =
    Some (Normal {| className := (js "a" ++ js "c")%list |}).
Proof.
  assert (Hb : forall p, (p <= length (js "a"))%nat -> token_at (js "a" ++ 32 :: js "b" ++ 32 :: js "c") (js "b") p = false).
  { intros [|[|p]] Hp; [reflexivity|reflexivity|simpl in Hp; lia]. }
  split; [reflexivity|]. split; [exact Hb|]. apply removeClass_joins; [reflexivity|exact Hb].
Defined.

(** [cls] is spliced into the pattern unescaped, so a class name
    with pattern syntax is read as a pattern: ["a.b"] is reported present
    on an element whose only class is ["axb"], and ["("] makes [hasClass]
    throw [SyntaxError]. *)
Example hasClass_pattern_injection :
  hasClass (Some {| className := js "axb" |}) (js "a.b") = Some (Normal true) /\
  hasClass (Some {| className := js "x" |}) (js "(") = Some (Throw SyntaxError).
Proof. split; vm_compute; reflexivity. Qed.

(** [removeClass] removes the first token only: removing ["x"] from
    ["x y x"] leaves ["y x"], where [hasClass] still finds ["x"]. *)
Example removeClass_first_only :
  removeClass (Some {| className := js "x y x" |}) (js "x") = Some (Normal {| className := js "y x" |}) /\
  hasClass (Some {| className := js "y x" |}) (js "x") = Some (Normal true).
Proof. split; vm_compute; reflexivity. Qed.

End ClassName.
