(* ===== verification/Validators.v ===== *)
(** The validators of [src/index.js] (lines 429-466): [isEmail],
    [isIDCard], [isPhone] and [isUrl] each test a regular-expression
    literal against [str].

    A literal is compiled when the script is parsed; [regexp_literal]
    compiles its source with [Regex.compile], and every literal of the
    file is in the modelled grammar ([literals_compile]); [lit_test],
    [lit_replace] and [lit_replace_all] run a literal, for the other
    components that use one.  [test] converts its argument with [ToString], so a validator takes a
    [JsValue.value].  The shape theorems follow from the analyses of
    [RegexSpec] applied to the compiled literals. *)

From Stdlib Require Import ZArith Lia String List.
From stdpp Require Import base decidable list.
From S2P Require Import Prelude JsString JsValue Regex RegexSpec.
Import ListNotations.
Open Scope Z_scope.

Module Validators.
Import JsString JsValue Regex RegexSpec.

(** A regular-expression literal [/p/] or [/p/i]. *)
Definition regexp_literal (p : jsstring) (icase : bool) : option regexp :=
  match compile p icase with
  | ParseOk re _ => Some re
  | _ => None
  end.

(** [/p/.test(s)]. *)
Definition lit_test (p : jsstring) (icase : bool) (s : jsstring) : bool :=
  match regexp_literal p icase with Some re => regex_test re s | None => false end.

(** [s.replace(/p/, rep)]. *)
Definition lit_replace (p : jsstring) (s rep : jsstring) : jsstring :=
  match regexp_literal p false with Some re => replace_first re s rep | None => s end.

(** [s.replace(/p/g, rep)]. *)
Definition lit_replace_all (p : jsstring) (s rep : jsstring) : jsstring :=
  match regexp_literal p false with Some re => replace_all re s rep | None => s end.

Definition email_source : jsstring := js "\w+([-+.]\w+)*@\w+([-.]\w+)*\.\w+([-.]\w+)*".
Definition idcard_source : jsstring := js "^(^[1-9]\d{7}((0\d)|(1[0-2]))(([0|1|2]\d)|3[0-1])\d{3}$)|(^[1-9]\d{5}[1-9]\d{3}((0\d)|(1[0-2]))(([0|1|2]\d)|3[0-1])((\d{4})|\d{3}[Xx])$)$".
Definition phone_source : jsstring := js "^(0|86|17951)?(13[0-9]|15[012356789]|17[678]|18[0-9]|14[57])[0-9]{8}$".
Definition url_source : jsstring := js "[-a-zA-Z0-9@:%._\+~#=]{2,256}\.[a-z]{2,6}\b([-a-zA-Z0-9@:%_\+.~#?&//=]*)".

Definition isEmail (str : value) : option bool :=
  option_map (fun re => regex_test re (to_string str)) (regexp_literal email_source false).

Definition isIDCard (str : value) : option bool :=
  option_map (fun reg => regex_test reg (to_string str)) (regexp_literal idcard_source false).

Definition isPhone (str : value) : option bool :=
  option_map (fun reg => regex_test reg (to_string str)) (regexp_literal phone_source false).

Definition isUrl (str : value) : option bool :=
  option_map (fun reg => regex_test reg (to_string str)) (regexp_literal url_source true).

(** ** The literals and their analyses *)

(** Every literal of the validators is in the modelled grammar. *)
Lemma literals_compile :
  regexp_literal email_source false <> None /\ regexp_literal idcard_source false <> None /\
  regexp_literal phone_source false <> None /\ regexp_literal url_source true <> None.
Proof. repeat split; vm_compute; discriminate. Qed.

(** What an anchored literal of fixed lengths accepts. *)
Lemma literal_anchored p t L ok :
  match regexp_literal p false with
  | Some re => re_icase re = false /\ starts_at0 (re_pattern re) = true /\ ends_at_end (re_pattern re) = true /\
               lens (re_pattern re) = Some L /\ regex_within ok (re_pattern re) = true
  | None => False
  end ->
  option_map (fun re => regex_test re t) (regexp_literal p false) = Some true ->
  In (length t) L /\ Forall (fun c => ok c = true) t.
Proof.
  destruct (regexp_literal p false) as [re|]; [|contradiction].
  intros (Hi & Hs & He & HL & Hw) Ht. injection Ht as Ht.
  exact (regex_test_anchored re t L ok Hi Hs He HL Hw Ht).
Qed.

(** What a literal that requires the units [cs] accepts. *)
Lemma literal_requires p t cs :
  match regexp_literal p false with
  | Some re => re_icase re = false /\ forallb (fun c => requires_unit c (re_pattern re)) cs = true
  | None => False
  end ->
  option_map (fun re => regex_test re t) (regexp_literal p false) = Some true ->
  Forall (fun c => In c t) cs.
Proof.
  destruct (regexp_literal p false) as [re|]; [|contradiction].
  intros (Hi & Hr) Ht. injection Ht as Ht. apply forallb_Forall in Hr.
  eapply Forall_impl; [exact Hr|]. intros c Hc. exact (regex_test_requires re t c Hi Hc Ht).
Qed.

(** ** The validators *)

(** A value [isPhone] accepts converts to a string of 11, 12, 13 or
    16 decimal digits: the optional prefix [0], [86] or [17951], then a
    three-digit carrier prefix and eight digits. *)
Theorem isPhone_shape v :
  isPhone v = Some true ->
  In (length (to_string v)) [11; 12; 13; 16]%nat /\ Forall (fun c => is_digit c = true) (to_string v).
Proof. apply literal_anchored. vm_compute. repeat split. Qed.

Lemma isPhone_shape_witness :
  isPhone (VNumber 13812345678) = Some true /\
  In (length (to_string (VNumber 13812345678))) [11; 12; 13; 16]%nat /\
  Forall (fun c => is_digit c = true) (to_string (VNumber 13812345678)).
Proof.
  assert (H : isPhone (VNumber 13812345678) = Some true) by (vm_compute; reflexivity).
  split; [exact H|]. exact (isPhone_shape _ H).
Defined.

(** The units [isIDCard] admits: digits, [X], [x] and [|]. *)
Definition idcard_unit (c : Z) : bool := is_digit c || (c =? 88) || (c =? 120) || (c =? 124).

(** C19: a value [isIDCard] accepts converts to a string of 15 or 18
    units, each a digit, [X], [x] or [|]: the bar is admitted because the
    class [[0|1|2]] of the day field lists it. *)
Theorem isIDCard_shape v :
  isIDCard v = Some true ->
  In (length (to_string v)) [15; 18]%nat /\ Forall (fun c => idcard_unit c = true) (to_string v).
Proof. apply literal_anchored. vm_compute. repeat split. Qed.

Lemma isIDCard_shape_witness :
  isIDCard (VString (js "11010519491231002X")) = Some true /\
  In (length (to_string (VString (js "11010519491231002X")))) [15; 18]%nat /\
  Forall (fun c => idcard_unit c = true) (to_string (VString (js "11010519491231002X"))).
Proof.
  assert (H : isIDCard (VString (js "11010519491231002X")) = Some true) by (vm_compute; reflexivity).
  split; [exact H|]. exact (isIDCard_shape _ H).
Defined.

(** [isIDCard] accepts a bar in the day field and month and day
    [00]: ["1234567801|5123"] and ["123456780000123"] pass. *)
Example isIDCard_bar_and_zero :
  isIDCard (VString (js "1234567801|5123")) = Some true /\
  isIDCard (VString (js "123456780000123")) = Some true.
Proof. split; vm_compute; reflexivity. Qed.

(** A value [isEmail] accepts holds an [@] and a [.]. *)
Theorem isEmail_at_dot v :
  isEmail v = Some true -> In 64 (to_string v) /\ In 46 (to_string v).
Proof.
  intros H. apply (literal_requires email_source (to_string v) [64; 46]) in H; [|vm_compute; repeat split].
  inversion H as [|? ? H1 H2]. inversion H2. auto.
Qed.

Lemma isEmail_at_dot_witness :
  isEmail (VString (js "a@b.c")) = Some true /\ In 64 (to_string (VString (js "a@b.c"))) /\
  In 46 (to_string (VString (js "a@b.c"))).
Proof.
  assert (H : isEmail (VString (js "a@b.c")) = Some true) by (vm_compute; reflexivity).
  split; [exact H|]. exact (isEmail_at_dot _ H).
Defined.

(** [isEmail] and [isUrl] are not anchored: they accept any string
    that contains an address, such as ["x a@b.c y"] and ["see ab.cd now"];
    [isUrl] ignores case. *)
Example validators_unanchored :
  isEmail (VString (js "x a@b.c y")) = Some true /\
  isUrl (VString (js "see ab.cd now")) = Some true /\
  isUrl (VString (js "WWW.BAIDU.COM")) = Some true /\
  isEmail (VString (js "a@b")) = Some false.
Proof. repeat split; vm_compute; reflexivity. Qed.

End Validators.
