(* ===== verification/Device.v ===== *)
(** Browser and system sniffing of [src/index.js]: [getBrowser]
    (lines 119-141), [getOS] (lines 147-158) and the feature test
    [isSupportWebP] (lines 510-512), whose host is the record
    [canvas_host].

    [getBrowser] declares [system] but assigns to and reads [sys]: a
    global of the page.  Its state is that binding, [None] when the page
    defines no [sys] (then the first use throws [ReferenceError]; the
    module code is strict) and otherwise an object with string
    properties, which the function updates and which outlives the call.

    The [navigator] object is the record of the three strings the code
    reads, each absent or present; [toLowerCase] maps the ASCII letters
    (the patterns and the user-agent strings the code inspects are
    ASCII).  A regular-expression literal is run with [Regex.regex_test];
    every literal of this file is in the modelled grammar
    ([device_literals_compile]), so [lit_test] never takes its [false]
    default. *)

From Stdlib Require Import ZArith Lia String List.
From stdpp Require Import base decidable list.
From S2P Require Import Prelude JsString Regex Validators.
Import ListNotations.
Open Scope Z_scope.

Module Device.
Import JsString Regex Validators.

(** [String.prototype.toLowerCase] on ASCII letters. *)
Definition toLowerCase (s : jsstring) : jsstring :=
  map (fun c => if (65 <=? c) && (c <=? 90) then c + 32 else c) s.

Record navigator := {
  userAgent : option jsstring;
  vendor : option jsstring;
  appVersion : option jsstring
}.

(** ['navigator' in window && 'f' in navigator && navigator.f.toLowerCase() || '']. *)
Definition nav_field (nav : option navigator) (f : navigator -> option jsstring) : jsstring :=
  match nav with
  | Some n => match f n with Some v => toLowerCase v | None => [] end
  | None => []
  end.

(** [getOS()]: [None] is [undefined], the value when no test succeeds. *)
Definition getOS (nav : option navigator) : option jsstring :=
  let userAgent := nav_field nav userAgent in
  let vendor := nav_field nav vendor in
  let appVersion := nav_field nav appVersion in
  if lit_test (js "mac") true appVersion then Some (js "MacOSX")
  else if lit_test (js "win") true appVersion then Some (js "windows")
  else if lit_test (js "linux") true appVersion then Some (js "linux")
  else if lit_test (js "iphone") true userAgent || lit_test (js "ipad") true userAgent
          || lit_test (js "ipod") true userAgent then Some (js "ios")
  else if lit_test (js "android") true userAgent then Some (js "android")
  else if lit_test (js "win") true appVersion && lit_test (js "phone") true userAgent then Some (js "windowsPhone")
  else None.

(** ** [getBrowser] *)

(** An object with string-valued properties; [obj_set] puts the new
    value in front, where [obj_get] finds it first. *)
Definition js_object := list (jsstring * jsstring).

Definition obj_get (o : js_object) (k : jsstring) : option jsstring :=
  match List.find (fun kv => bool_decide (fst kv = k)) o with Some (_, v) => Some v | None => None end.

Definition obj_set (o : js_object) (k v : jsstring) : js_object := (k, v) :: o.

(** A test of the conditional chain: its pattern, the property of
    [sys] it assigns, and the length of the text its pattern matches
    before the group [([\d.]+)]. *)
Record browser_test := { bt_pattern : jsstring; bt_key : jsstring; bt_lead : jsstring -> nat }.

Definition starts_with (w s : jsstring) : bool := bool_decide (firstn (length w) s = w).

(** The tests of the chain, in order. *)
Definition browser_tests : list browser_test :=
  [{| bt_pattern := js "rv:([\d.]+)\) like gecko"; bt_key := js "ie"; bt_lead := fun _ => 3%nat |};
   {| bt_pattern := js "msie ([\d\.]+)"; bt_key := js "ie"; bt_lead := fun _ => 5%nat |};
   {| bt_pattern := js "edge\/([\d\.]+)"; bt_key := js "edge"; bt_lead := fun _ => 5%nat |};
   {| bt_pattern := js "firefox\/([\d\.]+)"; bt_key := js "firefox"; bt_lead := fun _ => 8%nat |};
   {| bt_pattern := js "(?:opera|opr).([\d\.]+)"; bt_key := js "opera";
      bt_lead := fun s => if starts_with (js "opera") s then 6%nat else 4%nat |};
   {| bt_pattern := js "chrome\/([\d\.]+)"; bt_key := js "chrome"; bt_lead := fun _ => 7%nat |};
   {| bt_pattern := js "version\/([\d\.]+).*safari"; bt_key := js "safari"; bt_lead := fun _ => 8%nat |}].

(** The longest run of digits and dots. *)
Fixpoint version_run (s : jsstring) : jsstring :=
  match s with
  | c :: s' => if is_digit c || (c =? 46) then c :: version_run s' else []
  | [] => []
  end.

(** [s = ua.match(p)], and [s[1]] when it matched.  The matcher does not
    record captures; the group is read off the match: it starts after
    the text before it, which is fixed by the match's start ([opera]
    or [opr], then one unit), and, being a greedy [[\d.]+] followed by
    nothing, by [\)] or by [.*safari], none of which a digit or a dot
    can start, is the longest run of digits and dots there. *)
Definition ua_match (t : browser_test) (ua : jsstring) : option jsstring :=
  match regexp_literal (bt_pattern t) false with
  | Some re =>
      match first_match re ua with
      | Some (i, _) => let rest := skipn i ua in Some (version_run (skipn (bt_lead t rest) rest))
      | None => None
      end
  | None => None
  end.

(** The chain [(s = ua.match(p)) ? sys.x = s[1] : ...]: the first test
    that matches assigns [s[1]] to its property of the global [sys]
    ([None] when no global of that name exists, which makes the
    assignment a [ReferenceError]: the function declares [system]);
    when none matches the chain yields [0]. *)
Fixpoint browser_chain (ts : list browser_test) (sys : option js_object) (ua : jsstring)
  : completion (option js_object) :=
  match ts with
  | [] => Normal sys
  | t :: ts' =>
      match ua_match t ua with
      | Some g =>
          match sys with
          | Some o => Normal (Some (obj_set o (bt_key t) g))
          | None => Throw ReferenceError
          end
      | None => browser_chain ts' sys ua
      end
  end.

(** The [if (sys.x) return ...] statements, in order, and the final
    [return 'Unkonwn']. *)
Definition browser_labels : list (jsstring * jsstring) :=
  [(js "ie", js "IE: "); (js "edge", js "EDGE: "); (js "firefox", js "Firefox: ");
   (js "chrome", js "Chrome: "); (js "opera", js "Opera: "); (js "safari", js "Safari: ")].

Fixpoint browser_report (ls : list (jsstring * jsstring)) (o : js_object) : jsstring :=
  match ls with
  | [] => js "Unkonwn"
  | (k, label) :: ls' =>
      match obj_get o k with
      | Some v => if bool_decide (v = []) then browser_report ls' o else label ++ v
      | None => browser_report ls' o
      end
  end.

(** [getBrowser()] with the global [sys] in the state: the new binding
    and the completion.  A [navigator] without [userAgent] makes
    [toLowerCase] a [TypeError]; an unbound [sys] throws [ReferenceError]
    at its first use. *)
Definition getBrowser (sys : option js_object) (nav : navigator) : option js_object * completion jsstring :=
  match userAgent nav with
  | None => (sys, Throw TypeError)
  | Some u =>
      let ua := toLowerCase u in
      match browser_chain browser_tests sys ua with
      | Throw e => (sys, Throw e)
      | Normal None => (None, Throw ReferenceError)
      | Normal (Some o) => (Some o, Normal (browser_report browser_labels o))
      end
  end.

(** ** Theorems *)

Lemma device_literals_compile :
  Forall (fun t => regexp_literal (bt_pattern t) false <> None) browser_tests /\
  Forall (fun p => regexp_literal p true <> None)
    [js "mac"; js "win"; js "linux"; js "iphone"; js "ipad"; js "ipod"; js "android"; js "phone"].
Proof. split; repeat constructor; vm_compute; discriminate. Qed.

(** C20: [getOS] never returns ['windowsPhone']: its last test needs
    [/win/i] to match [appVersion], and then the second test has already
    returned ['windows']. *)
Theorem getOS_no_windowsPhone nav : getOS nav <> Some (js "windowsPhone").
Proof.
  unfold getOS. cbv zeta.
  destruct (lit_test (js "mac") true _); [discriminate|].
  destruct (lit_test (js "win") true _) eqn:W; [discriminate|].
  repeat match goal with |- context [if ?b then _ else _] => destruct b; [discriminate|] end.
  discriminate.
Qed.

Definition android_ua : jsstring :=
  js "Mozilla/5.0 (Linux; Android 10; K) AppleWebKit/537.36 (KHTML, like Gecko) Chrome/120.0.0.0 Mobile Safari/537.36".
Definition windows_phone_ua : jsstring :=
  js "Mozilla/5.0 (Windows Phone 10.0; Android 6.0.1; Microsoft; Lumia 950) AppleWebKit/537.36 (KHTML, like Gecko) Chrome/52.0.2743.116 Mobile Safari/537.36 Edge/15.15063".

(** [appVersion] is tested before [userAgent], and an Android
    browser's [appVersion] names Linux: an Android phone is reported as
    ['linux'], and a Windows phone as ['windows']. *)
Example getOS_phones :
  getOS (Some {| userAgent := Some android_ua; vendor := Some (js "Google Inc.");
                 appVersion := Some (skipn 8 android_ua) |}) = Some (js "linux") /\
  getOS (Some {| userAgent := Some windows_phone_ua; vendor := None;
                 appVersion := Some (skipn 8 windows_phone_ua) |}) = Some (js "windows").
Proof. split; vm_compute; reflexivity. Qed.

(** The chain on an unbound [sys] throws or leaves it unbound. *)
Lemma browser_chain_unbound ts ua :
  browser_chain ts None ua = Normal None \/ browser_chain ts None ua = Throw ReferenceError.
Proof.
  induction ts as [|t ts IH]; cbn [browser_chain]; [left; reflexivity|].
  destruct (ua_match t ua); [right; reflexivity|exact IH].
Qed.

(** C21: where the page defines no global [sys], [getBrowser] never
    returns: on every [navigator] with a [userAgent] it throws
    [ReferenceError], at the assignment of the first test that matches
    or, when none does, at [if (sys.ie)]; the function declares
    [system] and uses [sys]. *)
Theorem getBrowser_throws nav u :
  userAgent nav = Some u -> getBrowser None nav = (None, Throw ReferenceError).
Proof.
  intros H. unfold getBrowser. rewrite H. cbv zeta.
  destruct (browser_chain_unbound browser_tests (toLowerCase u)) as [E|E]; rewrite E; reflexivity.
Qed.

Lemma getBrowser_throws_witness :
  userAgent {| userAgent := Some android_ua; vendor := None; appVersion := None |} = Some android_ua /\
  getBrowser None {| userAgent := Some android_ua; vendor := None; appVersion := None |} = (None, Throw ReferenceError).
Proof. split; [reflexivity|]. apply (getBrowser_throws _ android_ua). reflexivity. Defined.

Lemma obj_get_set_other o k k' v : k' <> k -> obj_get (obj_set o k' v) k = obj_get o k.
Proof. intros Hk. unfold obj_get, obj_set. cbn [List.find fst]. rewrite bool_decide_false by exact Hk. reflexivity. Qed.

(** A chain whose IE tests do not match leaves [sys.ie] as it was. *)
Lemma browser_chain_keeps_ie ts o ua sys' :
  Forall (fun t => bt_key t = js "ie" -> ua_match t ua = None) ts ->
  browser_chain ts (Some o) ua = Normal sys' ->
  exists o', sys' = Some o' /\ obj_get o' (js "ie") = obj_get o (js "ie").
Proof.
  induction 1 as [|t ts Ht _ IH]; cbn [browser_chain]; intros E.
  - injection E as <-. eauto.
  - destruct (ua_match t ua) as [g|] eqn:Eg; [|exact (IH E)].
    cbn in E. injection E as <-. eexists; split; [reflexivity|]. apply obj_get_set_other.
    intros Hk. specialize (Ht Hk). congruence.
Qed.

(** C22: [sys] is a global the function writes and reads: once a call
    has stored a version in [sys.ie], every later call whose user agent
    matches neither IE pattern still reports that IE version, whatever
    browser the user agent names, since [if (sys.ie)] is tested first. *)
Theorem getBrowser_sticky_ie o nav u v :
  userAgent nav = Some u -> obj_get o (js "ie") = Some v -> v <> [] ->
  Forall (fun t => bt_key t = js "ie" -> ua_match t (toLowerCase u) = None) browser_tests ->
  snd (getBrowser (Some o) nav) = Normal (js "IE: " ++ v).
Proof.
  intros Hu Ho Hv Hie. unfold getBrowser. rewrite Hu. cbv zeta.
  destruct (browser_chain browser_tests (Some o) (toLowerCase u)) as [sys'|e] eqn:E.
  - destruct (browser_chain_keeps_ie _ _ _ _ Hie E) as (o' & -> & Hget). cbn [snd].
    unfold browser_labels, browser_report. rewrite Hget, Ho. rewrite bool_decide_false by exact Hv. reflexivity.
  - exfalso. clear -E. revert E. generalize browser_tests. intros ts.
    induction ts as [|t ts IH]; cbn [browser_chain]; [discriminate|]. destruct (ua_match t _); [discriminate|exact IH].
Qed.

Definition ie11_ua : jsstring := js "Mozilla/5.0 (Windows NT 10.0; Trident/7.0; rv:11.0) like Gecko".

Lemma getBrowser_sticky_ie_witness :
  (userAgent {| userAgent := Some android_ua; vendor := None; appVersion := None |} = Some android_ua /\
   obj_get [(js "ie", js "11.0")] (js "ie") = Some (js "11.0") /\ js "11.0" <> [] /\
   Forall (fun t => bt_key t = js "ie" -> ua_match t (toLowerCase android_ua) = None) browser_tests) /\
  snd (getBrowser (Some [(js "ie", js "11.0")]) {| userAgent := Some android_ua; vendor := None; appVersion := None |}) =
    Normal (js "IE: " ++ js "11.0").
Proof.
  assert (H : Forall (fun t => bt_key t = js "ie" -> ua_match t (toLowerCase android_ua) = None) browser_tests).
  { unfold browser_tests. repeat constructor; intros E; vm_compute in E |- *; (reflexivity || discriminate E). }
  split; [split; [reflexivity | split; [reflexivity | split; [discriminate | exact H]]]|].
  apply (getBrowser_sticky_ie _ _ android_ua); [reflexivity | reflexivity | discriminate | exact H].
Defined.

(** [getBrowser] on a page that defines [sys = {}]: the browsers it
    names, the typo of its last answer, and the IE version it keeps
    reporting after an IE user agent has been seen. *)
Example getBrowser_samples :
  snd (getBrowser (Some []) {| userAgent := Some android_ua; vendor := None; appVersion := None |}) =
    Normal (js "Chrome: 120.0.0.0") /\
  snd (getBrowser (Some []) {| userAgent := Some ie11_ua; vendor := None; appVersion := None |}) =
    Normal (js "IE: 11.0") /\
  snd (getBrowser (Some []) {| userAgent := Some windows_phone_ua; vendor := None; appVersion := None |}) =
    Normal (js "EDGE: 15.15063") /\
  snd (getBrowser (Some []) {| userAgent := Some (js "curl/8.0"); vendor := None; appVersion := None |}) =
    Normal (js "Unkonwn") /\
  snd (getBrowser (fst (getBrowser (Some []) {| userAgent := Some ie11_ua; vendor := None; appVersion := None |}))
                  {| userAgent := Some android_ua; vendor := None; appVersion := None |}) =
    Normal (js "IE: 11.0").
Proof. repeat split; vm_compute; reflexivity. Qed.

(** ** [isSupportWebP] (lines 510-512) *)

(** What the feature test reads from the host: whether arrays have a
    [map] method, and the data URL a fresh canvas gives for a requested
    image type (a canvas falls back to PNG for a type it cannot
    write). *)
Record canvas_host := {
  array_has_map : bool;
  toDataURL : jsstring -> jsstring
}.

(** [String.prototype.indexOf(search)]: the first position from [i] on
    where [search] occurs, [-1] if none. *)
Fixpoint index_from (search s : jsstring) (i : Z) : Z :=
  if bool_decide (firstn (length search) s = search) then i
  else match s with [] => -1 | _ :: s' => index_from search s' (i + 1) end.

Definition indexOf (s search : jsstring) : Z := index_from search s 0.

(** [!![].map && canvas.toDataURL('image/webp').indexOf('data:image/webp') == 0]. *)
Definition isSupportWebP (w : canvas_host) : bool :=
  array_has_map w && (indexOf (toDataURL w (js "image/webp")) (js "data:image/webp") =? 0).

Lemma index_from_ge search s i : index_from search s i = -1 \/ i <= index_from search s i.
Proof.
  revert i. induction s as [|c s IH]; intros i; cbn [index_from]; case_bool_decide; try lia.
  destruct (IH (i + 1)); lia.
Qed.

(** [indexOf] is 0 exactly when the string starts with the search
    string. *)
Lemma indexOf_zero s search : indexOf s search = 0 <-> exists rest, s = search ++ rest.
Proof.
  unfold indexOf. destruct s as [|c s]; cbn [index_from]; case_bool_decide as H.
  - split; [intros _|reflexivity]. exists []. destruct search; [reflexivity|discriminate].
  - split; [discriminate|]. intros ([|x r] & E); destruct search; cbn in *; congruence.
  - split; [intros _|reflexivity]. exists (skipn (length search) (c :: s)). rewrite <- H at 1. symmetry. apply firstn_skipn.
  - split; [intros E; destruct (index_from_ge search s (0 + 1)); lia|].
    intros (rest & E). exfalso. apply H. rewrite E, firstn_app, Nat.sub_diag, firstn_all. cbn. apply app_nil_r.
Qed.

(** The test holds exactly on a host whose arrays have [map] and whose
    canvas writes WebP data URLs. *)
Theorem isSupportWebP_spec w :
  isSupportWebP w = true <->
  array_has_map w = true /\ exists rest, toDataURL w (js "image/webp") = js "data:image/webp" ++ rest.
Proof.
  unfold isSupportWebP. rewrite andb_true_iff, Z.eqb_eq, indexOf_zero. reflexivity.
Qed.

Example isSupportWebP_samples :
  isSupportWebP {| array_has_map := true; toDataURL := fun t => js "data:" ++ t ++ js ";base64,UklGR" |} = true /\
  isSupportWebP {| array_has_map := true; toDataURL := fun _ => js "data:image/png;base64,iVBOR" |} = false /\
  isSupportWebP {| array_has_map := false; toDataURL := fun t => js "data:" ++ t ++ js ";base64,UklGR" |} = false.
Proof. repeat split; vm_compute; reflexivity. Qed.

End Device.
