(* ===== verification/Binary64.v ===== *)
(** JavaScript numbers as IEEE 754 binary64 values.

    A [Number] is a [spec_float] of the Standard Library's [SpecFloat]
    with precision 53 and maximal exponent 1024.  The arithmetic the
    library's code performs ([*], [/], [+], [-], [%], [Math.floor],
    [Math.abs], [<], [ToInt32] and [<<]) is defined here once, with
    ECMA-262's rounding (round to nearest, ties to even, done by
    [SpecFloat]'s [binary_round_aux]).  The lemmas state when an
    operation is exact: rounding a mantissa with enough trailing zeros
    returns it unchanged, so multiplying by a power of two and the
    remainder [%] lose nothing. *)

From Stdlib Require Import ZArith Lia.
From Stdlib Require Import Floats.SpecFloat.
From S2P Require Import Prelude.
Open Scope bool_scope.
Open Scope Z_scope.

Module Binary64.

Definition prec : Z := 53.
Definition emax : Z := 1024.

Definition double := spec_float.

(** The [Number] nearest an integer. *)
Definition of_Z (z : Z) : double := binary_normalize prec emax z 0 false.

Definition dmul (x y : double) : double := SFmul prec emax x y.
Definition ddiv (x y : double) : double := SFdiv prec emax x y.
Definition dsub (x y : double) : double := SFsub prec emax x y.
Definition dadd (x y : double) : double := SFadd prec emax x y.
Definition dabs (x : double) : double := SFabs x.
Definition dlt (x y : double) : bool := SFltb x y.
Definition dle (x y : double) : bool := SFleb x y.
Definition dzero : double := S754_zero false.

Definition is_nan (x : double) : bool := match x with S754_nan => true | _ => false end.

(** [Math.floor]. *)
Definition dfloor (x : double) : double :=
  match x with
  | S754_finite s m e => if 0 <=? e then x else of_Z (Z.div (cond_Zopp s (Zpos m)) (2 ^ (- e)))
  | _ => x
  end.

(** The integer part of a finite value, rounded toward zero. *)
Definition trunc (x : double) : Z :=
  match x with
  | S754_finite s m e => cond_Zopp s (if 0 <=? e then Zpos m * 2 ^ e else Zpos m / 2 ^ (- e))
  | _ => 0
  end.

(** [Number::remainder] (ECMA-262 6.1.6.1.6, C's [fmod]): the result
    [n - d * q], [q] the quotient truncated toward zero, has the sign of
    the dividend and is exact.  Both operands are brought to the smaller
    exponent, where the remainder is [Z.rem] of the mantissas. *)
Definition dfmod (x y : double) : double :=
  match x, y with
  | S754_nan, _ | _, S754_nan | S754_infinity _, _ | _, S754_zero _ => S754_nan
  | S754_zero s, _ => S754_zero s
  | S754_finite _ _ _, S754_infinity _ => x
  | S754_finite sx mx ex, S754_finite _ my ey =>
      let e := Z.min ex ey in
      let r := Z.rem (Zpos mx * 2 ^ (ex - e)) (Zpos my * 2 ^ (ey - e)) in
      binary_normalize prec emax (cond_Zopp sx r) e sx
  end.

(** [ToInt32] (ECMA-262 7.1.6): the truncated value modulo [2^32], as a
    signed 32-bit integer; [NaN] and the infinities give 0. *)
Definition wrap32 (z : Z) : Z :=
  let u := z mod 2 ^ 32 in if 2 ^ 31 <=? u then u - 2 ^ 32 else u.

Definition to_int32 (x : double) : Z := wrap32 (trunc x).

(** [x << n] (ECMA-262 6.1.6.1.9) for a [Number] count [n]. *)
Definition left_shift (x : double) (n : double) : Z :=
  wrap32 (Z.shiftl (to_int32 x) (trunc n mod 32)).

(** ** Exact rounding *)

Lemma digits2_pos_size p : digits2_pos p = Pos.size p.
Proof. induction p; simpl; congruence. Qed.

Lemma Zdigits2_log2 p : Zdigits2 (Zpos p) = Z.log2 (Zpos p) + 1.
Proof.
  cbn [Zdigits2]. rewrite digits2_pos_size.
  destruct p; cbn [Z.log2 Pos.size]; rewrite ?Pos2Z.inj_succ; lia.
Qed.

Lemma Zdigits2_shift q n : 0 <= n -> Zdigits2 (Zpos q * 2 ^ n) = Zdigits2 (Zpos q) + n.
Proof.
  intros Hn. assert (Hp : 0 < Zpos q * 2 ^ n) by (pose proof (Z.pow_pos_nonneg 2 n); lia).
  destruct (Zpos q * 2 ^ n) as [|p|] eqn:E; try lia.
  rewrite !Zdigits2_log2, <- E, Z.log2_mul_pow2 by lia. lia.
Qed.

Lemma shr_1_even y :
  0 < y -> shr_1 {| shr_m := 2 * y; shr_r := false; shr_s := false |} =
           {| shr_m := y; shr_r := false; shr_s := false |}.
Proof. destruct y; easy. Qed.

Lemma iter_pos_nat {A} (f : A -> A) p x : iter_pos f p x = Nat.iter (Pos.to_nat p) f x.
Proof.
  revert x. induction p as [p IH|p IH|]; intros x; cbn [iter_pos].
  - rewrite IH, IH, Pos2Nat.inj_xI, <- Nat.iter_add, Nat.iter_succ_r. f_equal. lia.
  - rewrite IH, IH, Pos2Nat.inj_xO, <- Nat.iter_add. f_equal. lia.
  - reflexivity.
Qed.

Lemma iter_shr_1 (k : nat) y :
  0 < y -> Nat.iter k shr_1 {| shr_m := y * 2 ^ Z.of_nat k; shr_r := false; shr_s := false |} =
           {| shr_m := y; shr_r := false; shr_s := false |}.
Proof.
  intros Hy. induction k as [|k IH]; [cbn; rewrite Z.mul_1_r; reflexivity|].
  rewrite Nat.iter_succ_r, Nat2Z.inj_succ, Z.pow_succ_r by lia.
  replace (y * (2 * 2 ^ Z.of_nat k)) with (2 * (y * 2 ^ Z.of_nat k)) by ring.
  rewrite shr_1_even by (pose proof (Z.pow_pos_nonneg 2 (Z.of_nat k)); lia). exact IH.
Qed.

(** Shifting out [n] zero bits is exact. *)
Lemma shr_exact q e n :
  0 <= n -> shr {| shr_m := Zpos q * 2 ^ n; shr_r := false; shr_s := false |} e n =
            ({| shr_m := Zpos q; shr_r := false; shr_s := false |}, e + n).
Proof.
  intros Hn. destruct n as [|p|p]; [| |lia].
  - rewrite Z.pow_0_r, Z.mul_1_r, Z.add_0_r. reflexivity.
  - cbn [shr]. rewrite iter_pos_nat. f_equal.
    replace (Zpos p) with (Z.of_nat (Pos.to_nat p)) at 1 by apply positive_nat_Z.
    apply iter_shr_1. lia.
Qed.

Section Round.
Variable s : bool.

(** Rounding [mx * 2^ex] where the bits the format drops are zero:
    [n] is the number of bits dropped, [Z.max 0 n] of them are shifted
    out, and the result is the mantissa left. *)
Lemma binary_round_aux_exact q ex n :
  n = fexp prec emax (Zdigits2 (Zpos q) + Z.max 0 n + ex) - ex ->
  ex + Z.max 0 n <= emax - prec ->
  binary_round_aux prec emax s (Zpos q * 2 ^ Z.max 0 n) ex loc_Exact = S754_finite s q (ex + Z.max 0 n).
Proof.
  intros Hn He. unfold binary_round_aux, shr_fexp.
  rewrite Zdigits2_shift by lia. rewrite <- Hn. cbn [shr_record_of_loc].
  destruct (Z.max_spec 0 n) as [[Hlt Hm] | [Hle Hm]]; rewrite Hm in *.
  - rewrite shr_exact by lia. cbn [shr_m loc_of_shr_record round_nearest_even].
    replace (Zdigits2 (Zpos q) + (ex + n)) with (Zdigits2 (Zpos q) + n + ex) by ring.
    replace (fexp prec emax (Zdigits2 (Zpos q) + n + ex) - (ex + n)) with 0 by lia. cbn [shr shr_m]. rewrite (proj2 (Z.leb_le _ _) He). reflexivity.
  - rewrite Z.mul_1_r, Z.add_0_r in *.
    destruct n as [|p|p]; [|lia|]; cbn [shr shr_m loc_of_shr_record round_nearest_even];
      rewrite <- Hn; cbn [shr shr_m]; rewrite (proj2 (Z.leb_le _ _) He); reflexivity.
Qed.

End Round.

(** ** Rounding depends on the value only *)

Lemma shr_iter mrs e n : shr mrs e n = (Nat.iter (Z.to_nat n) shr_1 mrs, e + Z.max 0 n).
Proof.
  destruct n as [|p|p]; cbn [shr].
  - rewrite Z.add_0_r. reflexivity.
  - rewrite iter_pos_nat. reflexivity.
  - rewrite Z.add_0_r. reflexivity.
Qed.

(** Shifting [k] zero bits in first changes nothing. *)
Lemma shr_zeros p e n k :
  0 <= n -> 0 <= k ->
  shr {| shr_m := Zpos p * 2 ^ k; shr_r := false; shr_s := false |} (e - k) (n + k) =
  shr {| shr_m := Zpos p; shr_r := false; shr_s := false |} e n.
Proof.
  intros Hn Hk. rewrite !shr_iter. f_equal; [|lia].
  rewrite Z2Nat.inj_add, Nat.iter_add by lia.
  assert (Hk' : Zpos p * 2 ^ k = Zpos p * 2 ^ Z.of_nat (Z.to_nat k)) by (rewrite Z2Nat.id; lia).
  rewrite Hk', iter_shr_1 by lia. reflexivity.
Qed.

Lemma round_aux_shift s p e k :
  0 <= k -> e <= fexp prec emax (Zdigits2 (Zpos p) + e) ->
  binary_round_aux prec emax s (Zpos p * 2 ^ k) (e - k) loc_Exact =
  binary_round_aux prec emax s (Zpos p) e loc_Exact.
Proof.
  intros Hk He. unfold binary_round_aux at 1, shr_fexp at 1. rewrite Zdigits2_shift by exact Hk.
  replace (Zdigits2 (Zpos p) + k + (e - k)) with (Zdigits2 (Zpos p) + e) by ring.
  replace (fexp prec emax (Zdigits2 (Zpos p) + e) - (e - k))
    with ((fexp prec emax (Zdigits2 (Zpos p) + e) - e) + k) by ring.
  cbn [shr_record_of_loc]. rewrite shr_zeros by lia. reflexivity.
Qed.

Lemma iter_xO p d : Zpos (Pos.iter xO p d) = Zpos p * 2 ^ Zpos d.
Proof.
  induction d as [|d IH] using Pos.peano_ind; [cbn; lia|].
  rewrite Pos.iter_succ, Pos2Z.inj_succ, Z.pow_succ_r by lia.
  change (Zpos (xO (Pos.iter xO p d))) with (2 * Zpos (Pos.iter xO p d)). rewrite IH. ring.
Qed.

(** [binary_round] aligns the mantissa to the exponent [G] the format
    keeps, then rounds exactly there. *)
Lemma binary_round_aligned s p e :
  binary_round prec emax s p e =
  let G := Z.min e (fexp prec emax (Zdigits2 (Zpos p) + e)) in
  binary_round_aux prec emax s (Zpos p * 2 ^ (e - G)) G loc_Exact.
Proof.
  unfold binary_round, shl_align. cbv zeta. change (Zpos (digits2_pos p)) with (Zdigits2 (Zpos p)).
  destruct (fexp prec emax (Zdigits2 (Zpos p) + e) - e) as [|d|d] eqn:E.
  - rewrite Z.min_l by lia. rewrite Z.sub_diag, Z.mul_1_r. reflexivity.
  - rewrite Z.min_l by lia. rewrite Z.sub_diag, Z.mul_1_r. reflexivity.
  - rewrite Z.min_r by lia. rewrite iter_xO. do 3 f_equal. lia.
Qed.

Lemma binary_round_shift s p e k :
  0 <= k -> binary_round prec emax s (Z.to_pos (Zpos p * 2 ^ k)) (e - k) = binary_round prec emax s p e.
Proof.
  intros Hk. assert (Hq : 0 < Zpos p * 2 ^ k) by (pose proof (Z.pow_pos_nonneg 2 k); lia).
  rewrite !binary_round_aligned. cbv zeta. rewrite Z2Pos.id, Zdigits2_shift by lia.
  replace (Zdigits2 (Zpos p) + k + (e - k)) with (Zdigits2 (Zpos p) + e) by ring.
  set (F := fexp prec emax (Zdigits2 (Zpos p) + e)).
  destruct (Z.le_gt_cases F (e - k)) as [HF|HF].
  - rewrite !Z.min_r by lia. rewrite <- Z.mul_assoc, <- Z.pow_add_r by lia.
    replace (k + (e - k - F)) with (e - F) by lia. reflexivity.
  - rewrite (Z.min_l (e - k)) by lia. rewrite Z.sub_diag, Z.mul_1_r.
    set (G := Z.min e F).
    assert (HG : 0 < Zpos p * 2 ^ (e - G)) by (pose proof (Z.pow_pos_nonneg 2 (e - G)); lia).
    replace (Zpos p * 2 ^ k) with (Zpos (Z.to_pos (Zpos p * 2 ^ (e - G))) * 2 ^ (k - e + G)).
    2: { rewrite Z2Pos.id by lia. rewrite <- Z.mul_assoc, <- Z.pow_add_r by lia.
         replace (e - G + (k - e + G)) with k by lia. reflexivity. }
    replace (e - k) with (G - (k - e + G)) by ring.
    rewrite round_aux_shift by (rewrite ?Z2Pos.id, ?Zdigits2_shift by lia;
      replace (Zdigits2 (Zpos p) + (e - G) + G) with (Zdigits2 (Zpos p) + e) by ring; lia).
    rewrite Z2Pos.id by lia. reflexivity.
Qed.

(** Scaling the mantissa by [2^k] and the exponent by [-k] does not
    change [binary_normalize]. *)
Lemma binary_normalize_shift z e k sz :
  0 <= k -> binary_normalize prec emax (z * 2 ^ k) (e - k) sz = binary_normalize prec emax z e sz.
Proof.
  intros Hk. assert (H2 : 0 < 2 ^ k) by (apply Z.pow_pos_nonneg; lia).
  destruct z as [|p|p]; [reflexivity| |].
  - destruct (Zpos p * 2 ^ k) eqn:E; try lia. cbn [binary_normalize].
    rewrite <- (binary_round_shift _ p e k Hk), E. reflexivity.
  - replace (Zneg p * 2 ^ k) with (- (Zpos p * 2 ^ k)) by lia.
    destruct (Zpos p * 2 ^ k) eqn:E; try lia. cbn [binary_normalize Z.opp].
    rewrite <- (binary_round_shift _ p e k Hk), E. reflexivity.
Qed.

(** ** Bounds of rounded results *)

Lemma Zdigits2_bound z : 0 <= z -> z < 2 ^ Zdigits2 z /\ (0 < z -> 2 ^ (Zdigits2 z - 1) <= z).
Proof.
  intros Hz. destruct z as [|p|p]; [cbn; lia| |lia].
  rewrite Zdigits2_log2, Z.add_simpl_r. destruct (Z.log2_spec (Zpos p) ltac:(lia)) as [H1 H2].
  rewrite <- Z.add_1_r in H2. split; [|intros _]; lia.
Qed.

Lemma Zdigits2_nonneg z : 0 <= Zdigits2 z.
Proof. destruct z; cbn; lia. Qed.

(** [z < 2^k] bounds the digit count of [z] by [k]. *)
Lemma Zdigits2_le z k : 0 <= z < 2 ^ k -> 0 <= k -> Zdigits2 z <= k.
Proof.
  intros Hz Hk. destruct (Z.eq_dec z 0) as [->|Hne]; [cbn; lia|].
  destruct (Zdigits2_bound z (proj1 Hz)) as [_ H]. specialize (H ltac:(lia)).
  destruct (Z.le_gt_cases (Zdigits2 z) k) as [|Hgt]; [assumption|].
  assert (2 ^ k <= 2 ^ (Zdigits2 z - 1)) by (apply Z.pow_le_mono_r; lia). lia.
Qed.

Lemma shr_1_m r : 0 <= shr_m r -> shr_m (shr_1 r) = shr_m r / 2 /\ 0 <= shr_m (shr_1 r).
Proof.
  destruct r as [[|[p|p|]|p] rr ss]; cbn [shr_1 shr_m]; intros H.
  - split; [reflexivity | lia].
  - rewrite Pos2Z.inj_xI. split; [apply Z.div_unique with 1|]; lia.
  - rewrite Pos2Z.inj_xO. split; [apply Z.div_unique with 0|]; lia.
  - split; [reflexivity | lia].
  - exfalso. lia.
Qed.

Lemma shr_m_iter n r : 0 <= shr_m r ->
  shr_m (Nat.iter n shr_1 r) = shr_m r / 2 ^ Z.of_nat n /\ 0 <= shr_m (Nat.iter n shr_1 r).
Proof.
  intros H. induction n as [|n IH]; [cbn; rewrite Z.div_1_r; lia|].
  rewrite Nat.iter_succ. destruct IH as [IH1 IH2].
  destruct (shr_1_m _ IH2) as [-> ?]. split; [|assumption].
  rewrite IH1, Z.div_div, Nat2Z.inj_succ, Z.pow_succ_r by lia. f_equal. ring.
Qed.

Lemma shr_m_shr r e n : 0 <= shr_m r ->
  shr_m (fst (shr r e n)) = shr_m r / 2 ^ Z.max 0 n /\ 0 <= shr_m (fst (shr r e n)) /\
  snd (shr r e n) = e + Z.max 0 n.
Proof.
  intros H. rewrite shr_iter. cbn [fst snd]. destruct (shr_m_iter (Z.to_nat n) r H) as [H1 H2].
  split; [rewrite H1|split; [exact H2|reflexivity]].
  destruct (Z.le_gt_cases n 0); [rewrite Z.max_l by lia; replace (Z.to_nat n) with O by lia; reflexivity|].
  rewrite Z.max_r, Z2Nat.id by lia. reflexivity.
Qed.

Lemma round_nearest_even_range m l : m <= round_nearest_even m l <= m + 1.
Proof. destruct l as [|[]]; cbn; try destruct (Z.even m); lia. Qed.

Lemma fexp_bounds z : z - 53 <= fexp prec emax z /\ -1074 <= fexp prec emax z.
Proof. unfold fexp, emin, prec, emax. lia. Qed.

Lemma fexp_eq z : fexp prec emax z = Z.max (z - 53) (-1074).
Proof. reflexivity. Qed.

(** Rounding to nearest adds at most one to the mantissa kept, so it
    has at most one bit more than what is left of [mx]. *)
Lemma round_digits mx n1 r :
  0 <= mx -> shr_m r = mx / 2 ^ Z.max 0 n1 ->
  Zdigits2 (round_nearest_even (shr_m r) (loc_of_shr_record r)) <= Z.max 1 (Zdigits2 mx - Z.max 0 n1 + 1).
Proof.
  intros Hmx Hr. set (d := Zdigits2 mx - Z.max 0 n1).
  pose proof (round_nearest_even_range (shr_m r) (loc_of_shr_record r)) as Hn.
  destruct (Zdigits2_bound mx Hmx) as [Hdx _].
  assert (Hq : shr_m r < 2 ^ Z.max 0 d).
  { rewrite Hr. apply Z.div_lt_upper_bound; [apply Z.pow_pos_nonneg; lia|].
    rewrite <- Z.pow_add_r by lia. eapply Z.lt_le_trans; [exact Hdx|]. apply Z.pow_le_mono_r; lia. }
  assert (Hp : 2 ^ Z.max 0 d + 1 <= 2 ^ Z.max 1 (d + 1)).
  { destruct (Z.le_gt_cases d 0).
    - rewrite (Z.max_l 0 d), (Z.max_l 1 (d + 1)) by lia. cbn. lia.
    - rewrite (Z.max_r 0 d), (Z.max_r 1 (d + 1)), Z.pow_add_r by lia.
      pose proof (Z.pow_pos_nonneg 2 d). lia. }
  assert (0 <= shr_m r) by (rewrite Hr; apply Z.div_pos; [lia | apply Z.pow_pos_nonneg; lia]).
  apply Zdigits2_le; lia.
Qed.

(** [binary_round_aux] in two steps: the mantissa [mx] is shifted to the
    format's exponent and rounded ([m1]), then shifted again if the
    rounding carried ([q]). *)
Lemma round_aux_steps s mx ex lx :
  0 <= mx ->
  let n1 := fexp prec emax (Zdigits2 mx + ex) - ex in
  exists m1, 0 <= m1 /\ Zdigits2 m1 <= Z.max 1 (Zdigits2 mx - Z.max 0 n1 + 1) /\
    let e' := ex + Z.max 0 n1 in
    let n2 := fexp prec emax (Zdigits2 m1 + e') - e' in
    binary_round_aux prec emax s mx ex lx =
      match m1 / 2 ^ Z.max 0 n2 with
      | Z0 => S754_zero s
      | Zpos m => if e' + Z.max 0 n2 <=? emax - prec then S754_finite s m (e' + Z.max 0 n2) else S754_infinity s
      | Zneg _ => S754_nan
      end.
Proof.
  intros Hmx n1. unfold binary_round_aux, shr_fexp. fold n1.
  assert (Hl : shr_m (shr_record_of_loc mx lx) = mx) by (destruct lx as [|[]]; reflexivity).
  destruct (shr_m_shr (shr_record_of_loc mx lx) ex n1) as (Hm1 & Hm1p & He1); [lia|].
  rewrite Hl in Hm1. destruct (shr (shr_record_of_loc mx lx) ex n1) as [mrs' e'] eqn:E1. cbn [fst snd] in *.
  set (m1 := round_nearest_even (shr_m mrs') (loc_of_shr_record mrs')).
  pose proof (round_nearest_even_range (shr_m mrs') (loc_of_shr_record mrs')).
  exists m1. split; [lia|]. split; [apply round_digits; assumption|].
  subst e'. cbv zeta. cbn [shr_record_of_loc].
  set (r := {| shr_m := m1; shr_r := false; shr_s := false |}).
  destruct (shr_m_shr r (ex + Z.max 0 n1)
              (fexp prec emax (Zdigits2 m1 + (ex + Z.max 0 n1)) - (ex + Z.max 0 n1))) as (Hm2 & _ & He2);
    [cbn; lia|].
  destruct (shr r _ _) as [mrs'' e'']. cbn [fst snd] in *. subst r. cbn [shr_m] in Hm2.
  rewrite Hm2, He2. reflexivity.
Qed.

(** A finite result of [binary_round_aux] is a valid binary64 value: its
    mantissa has at most 53 bits and its exponent is at least [-1074];
    the exponent exceeds neither the input's nor its magnitude's. *)
Lemma round_aux_finite s mx ex lx s' m e :
  0 <= mx -> binary_round_aux prec emax s mx ex lx = S754_finite s' m e ->
  s' = s /\ Zpos m < 2 ^ 53 /\ -1074 <= e /\ e <= Z.max (Z.max ex (Zdigits2 mx + ex - 52)) (-1074).
Proof.
  intros Hmx. destruct (round_aux_steps s mx ex lx Hmx) as (m1 & Hm1 & Hd & ->). cbv zeta.
  pose proof (fexp_bounds (Zdigits2 mx + ex)).
  pose proof (fexp_bounds (Zdigits2 m1 + (ex + Z.max 0 (fexp prec emax (Zdigits2 mx + ex) - ex)))).
  destruct (Zdigits2_bound m1 Hm1) as [Hd1 _].
  set (e' := ex + Z.max 0 (fexp prec emax (Zdigits2 mx + ex) - ex)) in *.
  set (n2 := fexp prec emax (Zdigits2 m1 + e') - e').
  pose proof (fexp_bounds (Zdigits2 m1 + e')).
  assert (Hn2 : Zdigits2 m1 <= Z.max 0 n2 + 53) by (unfold n2; lia).
  assert (Hm : m1 / 2 ^ Z.max 0 n2 < 2 ^ 53).
  { apply Z.div_lt_upper_bound; [apply Z.pow_pos_nonneg; lia|].
    rewrite <- Z.pow_add_r by lia. eapply Z.lt_le_trans; [exact Hd1|].
    apply Z.pow_le_mono_r; lia. }
  destruct (m1 / 2 ^ Z.max 0 n2) as [|p|p]; [discriminate| |discriminate].
  destruct (e' + Z.max 0 n2 <=? emax - prec); [|discriminate]. intros [= <- <- <-].
  split; [reflexivity|]. split; [lia|]. unfold n2, e' in *. rewrite !fexp_eq in *. lia.
Qed.

(** No overflow when the input's exponent and magnitude are in range. *)
Lemma round_aux_no_inf s mx ex lx s' :
  0 <= mx -> ex <= emax - prec -> Zdigits2 mx + ex < emax ->
  binary_round_aux prec emax s mx ex lx <> S754_infinity s'.
Proof.
  intros Hmx Hex Hd. destruct (round_aux_steps s mx ex lx Hmx) as (m1 & Hm1 & Hd1 & ->). cbv zeta.
  pose proof (fexp_bounds (Zdigits2 mx + ex)).
  pose proof (fexp_bounds (Zdigits2 m1 + (ex + Z.max 0 (fexp prec emax (Zdigits2 mx + ex) - ex)))).
  destruct (_ / _) as [|p|p]; try discriminate.
  rewrite (proj2 (Z.leb_le _ _)); [discriminate|]. rewrite !fexp_eq in *. unfold prec, emax in *. lia.
Qed.

(** The outcomes of [binary_round_aux] on a non-negative mantissa whose
    magnitude is in range: [+-0] or a valid finite value. *)
Lemma round_aux_cases s mx ex lx :
  0 <= mx -> ex <= emax - prec -> Zdigits2 mx + ex < emax ->
  binary_round_aux prec emax s mx ex lx = S754_zero s \/
  exists m e, binary_round_aux prec emax s mx ex lx = S754_finite s m e /\ Zpos m < 2 ^ 53 /\
    -1074 <= e <= Z.max (Z.max ex (Zdigits2 mx + ex - 52)) (-1074).
Proof.
  intros Hmx Hex Hd. pose proof (round_aux_no_inf s mx ex lx s Hmx Hex Hd) as Hi.
  destruct (binary_round_aux prec emax s mx ex lx) as [s'|s'| |s' m e] eqn:E.
  - left. destruct (round_aux_steps s mx ex lx Hmx) as (m1 & _ & _ & H). rewrite E in H. cbv zeta in H.
    destruct (_ / _); [congruence| |congruence]. destruct (_ <=? _); congruence.
  - destruct (round_aux_steps s mx ex lx Hmx) as (m1 & _ & _ & H). rewrite E in H. cbv zeta in H.
    destruct (_ / _); [congruence| |congruence]. destruct (_ <=? _); [congruence|]. injection H as ->. congruence.
  - destruct (round_aux_steps s mx ex lx Hmx) as (m1 & Hm1 & _ & H). rewrite E in H. cbv zeta in H.
    assert (0 <= m1 / 2 ^ Z.max 0 (fexp prec emax (Zdigits2 m1 + (ex + Z.max 0 (fexp prec emax (Zdigits2 mx + ex) - ex)))
                                  - (ex + Z.max 0 (fexp prec emax (Zdigits2 mx + ex) - ex))))
      by (apply Z.div_pos; [lia | apply Z.pow_pos_nonneg; lia]).
    destruct (_ / _); [congruence| |lia]. destruct (_ <=? _); congruence.
  - right. destruct (round_aux_finite s mx ex lx s' m e Hmx E) as (-> & Hm & He). eauto.
Qed.

(** The quotient of the division core: its digits and exponent. *)
Lemma div_core_bounds m1 e1 m2 e2 :
  let '(q, e', _) := SFdiv_core_binary prec emax (Zpos m1) e1 (Zpos m2) e2 in
  0 <= q /\ e' <= e1 - e2 /\
  Zdigits2 q + e' <= Z.max (e1 - e2) (Zdigits2 (Zpos m1) + e1 - (Zdigits2 (Zpos m2) + e2) + 1).
Proof.
  unfold SFdiv_core_binary. cbv zeta.
  set (d1 := Zdigits2 (Zpos m1)). set (d2 := Zdigits2 (Zpos m2)).
  set (e' := Z.min (fexp prec emax (d1 + e1 - (d2 + e2))) (e1 - e2)).
  set (sh := e1 - e2 - e').
  assert (Hs : 0 <= sh) by (unfold sh, e'; lia).
  assert (Hm : (match sh with Zpos _ => Z.shiftl (Zpos m1) sh | Z0 => Zpos m1 | Zneg _ => 0 end)
               = Zpos m1 * 2 ^ sh).
  { destruct sh eqn:E; [lia| |lia]. rewrite Z.shiftl_mul_pow2 by lia. reflexivity. }
  rewrite Hm. pose proof (Z_div_mod (Zpos m1 * 2 ^ sh) (Zpos m2) ltac:(lia)) as Hdm.
  destruct (Z.div_eucl _ _) as [q r]. destruct Hdm as [Hqr Hr].
  destruct (Zdigits2_bound (Zpos m1) ltac:(lia)) as [H1 _].
  destruct (Zdigits2_bound (Zpos m2) ltac:(lia)) as [_ H2]. specialize (H2 ltac:(lia)).
  fold d1 d2 in H1, H2.
  assert (Hd1 : 0 <= d1) by apply Zdigits2_nonneg. assert (Hd2 : 1 <= d2) by (unfold d2; cbn; lia).
  assert (Hp : 0 < 2 ^ sh) by (apply Z.pow_pos_nonneg; lia).
  assert (Hp2 : 0 < 2 ^ (d2 - 1)) by (apply Z.pow_pos_nonneg; lia).
  assert (Hq0 : 0 <= q) by nia.
  split; [exact Hq0|]. split; [unfold sh in Hs; lia|].
  destruct (Z.eq_dec q 0) as [->|Hqn]; [cbn; lia|].
  destruct (Zdigits2_bound q Hq0) as [H4 H3]. specialize (H3 ltac:(lia)).
  assert (HD : 1 <= Zdigits2 q).
  { destruct (Z.le_gt_cases 1 (Zdigits2 q)) as [|Hl]; [assumption|].
    pose proof (Zdigits2_nonneg q). replace (Zdigits2 q) with 0 in H4 by lia. cbn in H4. lia. }
  assert (Hlt : 2 ^ (Zdigits2 q - 1 + (d2 - 1)) < 2 ^ (d1 + sh)).
  { rewrite !Z.pow_add_r by lia. nia. }
  apply Z.pow_lt_mono_r_iff in Hlt; [|lia|lia]. unfold sh in Hlt. lia.
Qed.

(** Dividing a valid positive double by a normal one whose exponent is
    not too far below gives [+0] or a valid positive double, with an
    exponent below the difference of the exponents. *)
Lemma ddiv_cases m1 e1 m2 e2 :
  Zpos m1 < 2 ^ 53 -> 2 ^ 52 <= Zpos m2 -> e1 - e2 <= emax - prec ->
  ddiv (S754_finite false m1 e1) (S754_finite false m2 e2) = S754_zero false \/
  exists m e, ddiv (S754_finite false m1 e1) (S754_finite false m2 e2) = S754_finite false m e /\
    Zpos m < 2 ^ 53 /\ -1074 <= e <= Z.max (e1 - e2) (-1074).
Proof.
  intros Hm1 Hm2 He. unfold ddiv, SFdiv.
  pose proof (div_core_bounds m1 e1 m2 e2) as Hc.
  destruct (SFdiv_core_binary prec emax (Zpos m1) e1 (Zpos m2) e2) as [[q e'] l].
  destruct Hc as (Hq & He' & Hd).
  assert (Hd1 : Zdigits2 (Zpos m1) <= 53) by (apply Zdigits2_le; lia).
  assert (Hd2 : 53 <= Zdigits2 (Zpos m2)).
  { destruct (Zdigits2_bound (Zpos m2) ltac:(lia)) as [H _].
    destruct (Z.le_gt_cases 53 (Zdigits2 (Zpos m2))) as [|Hlt]; [assumption|].
    assert (2 ^ Zdigits2 (Zpos m2) <= 2 ^ 52) by (apply Z.pow_le_mono_r; lia). lia. }
  cbn [xorb]. unfold emax, prec in *.
  destruct (round_aux_cases false q e' l ltac:(lia) ltac:(unfold emax, prec; lia) ltac:(unfold emax, prec; lia))
    as [H|(m & e & H & Hm & Hb)].
  - left. exact H.
  - right. exists m, e. split; [exact H|]. split; [exact Hm|]. lia.
Qed.

(** A positive integer below [2^53] is a double, exactly. *)
Lemma of_Z_pos a :
  0 < a < 2 ^ 53 -> exists m e, -52 <= e <= 0 /\ 2 ^ 52 <= Zpos m < 2 ^ 53 /\
    Zpos m = a * 2 ^ (- e) /\ of_Z a = S754_finite false m e.
Proof.
  intros Ha. destruct a as [|p|p]; try lia.
  pose proof (Zdigits2_log2 p) as Hd. pose proof (Z.log2_nonneg (Zpos p)).
  assert (Hl : Z.log2 (Zpos p) < 53) by (apply Z.log2_lt_pow2; lia).
  set (d := Zdigits2 (Zpos p)).
  assert (Hq : 0 < Zpos p * 2 ^ (53 - d)) by (pose proof (Z.pow_pos_nonneg 2 (53 - d)); lia).
  exists (Z.to_pos (Zpos p * 2 ^ (53 - d))), (d - 53).
  rewrite Z2Pos.id by exact Hq. split; [lia|].
  split.
  { destruct (Zdigits2_bound (Zpos p) ltac:(lia)) as [H1 H2]. specialize (H2 ltac:(lia)). fold d in H1, H2.
    assert (Hlo : (2 : Z) ^ 52 = 2 ^ (d - 1) * 2 ^ (53 - d)) by (rewrite <- Z.pow_add_r by lia; f_equal; ring).
    assert (Hhi : (2 : Z) ^ 53 = 2 ^ d * 2 ^ (53 - d)) by (rewrite <- Z.pow_add_r by lia; f_equal; ring).
    rewrite Hlo, Hhi. pose proof (Z.pow_pos_nonneg 2 (53 - d)). nia. }
  split; [do 2 f_equal; lia|].
  unfold of_Z. cbn [binary_normalize]. rewrite binary_round_aligned. cbv zeta.
  rewrite Z.add_0_r. fold d.
  replace (Z.min 0 (fexp prec emax d)) with (d - 53) by (unfold fexp, emin, prec, emax; lia).
  replace (Zpos p * 2 ^ (0 - (d - 53))) with (Zpos (Z.to_pos (Zpos p * 2 ^ (53 - d))) * 2 ^ Z.max 0 0)
    by (rewrite Z2Pos.id by exact Hq; rewrite Z.max_id, Z.pow_0_r, Z.mul_1_r; do 2 f_equal; lia).
  rewrite binary_round_aux_exact.
  - rewrite Z.max_id, Z.add_0_r. reflexivity.
  - rewrite Z2Pos.id, Zdigits2_shift by lia. fold d. rewrite Z.max_id.
    replace (d + (53 - d) + 0 + (d - 53)) with d by ring. unfold fexp, emin, prec, emax. lia.
  - unfold prec, emax. lia.
Qed.

(** The difference of two positive integers below [2^53] is exact. *)
Lemma dsub_of_Z a b : 0 < a < 2 ^ 53 -> 0 < b < 2 ^ 53 -> dsub (of_Z a) (of_Z b) = of_Z (a - b).
Proof.
  intros Ha Hb. destruct (of_Z_pos a Ha) as (ma & ea & Hea & _ & Hma & ->).
  destruct (of_Z_pos b Hb) as (mb & eb & Heb & _ & Hmb & ->).
  unfold dsub, SFsub. set (ez := Z.min ea eb).
  assert (Hs : forall m e, ez <= e -> Zpos (fst (shl_align m e ez)) = Zpos m * 2 ^ (e - ez)).
  { intros m e He. unfold shl_align. destruct (ez - e) as [|d|d] eqn:E; cbn [fst].
    - replace (e - ez) with 0 by lia. lia.
    - lia.
    - rewrite iter_xO. do 2 f_equal. lia. }
  cbn [cond_Zopp]. rewrite !Hs by (unfold ez; lia).
  replace (Zpos ma * 2 ^ (ea - ez) - Zpos mb * 2 ^ (eb - ez)) with ((a - b) * 2 ^ (- ez)).
  - replace ez with (0 - - ez) at 2 by ring. apply binary_normalize_shift. unfold ez. lia.
  - rewrite Hma, Hmb, <- !Z.mul_assoc, <- !Z.pow_add_r by (unfold ez; lia).
    replace (- ea + (ea - ez)) with (- ez) by ring. replace (- eb + (eb - ez)) with (- ez) by ring. ring.
Qed.

(** A non-negative valid double whose exponent is at most [E]. *)
Definition nonneg_valid (E : Z) (x : double) : Prop :=
  x = S754_zero false \/ exists m e, x = S754_finite false m e /\ Zpos m < 2 ^ 53 /\ -1074 <= e <= E.

(** Dividing by a positive integer below [2^53] keeps a double
    non-negative and valid; the exponent grows by at most 52. *)
(** [Math.floor(x % n)] for a non-negative valid [x] and a small
    positive integer [n]: the remainder is exact and below [n], so its
    floor is an integer [k] from 0 to [n - 1]. *)
Lemma dfloor_dfmod E x n :
  nonneg_valid E x ->
  0 < n < 2 ^ 52 ->
  exists k, 0 <= k < n /\ dfloor (dfmod x (of_Z n)) = of_Z k.
Proof.
  intros Hx Hn. destruct (of_Z_pos n ltac:(lia)) as (my & ey & Hey & Hmy & Hmyv & Hy). rewrite Hy.
  destruct Hx as [->|(mx & ex & -> & Hmx & Hex & _)]; [exists 0; split; [lia | reflexivity]|].
  cbn [dfmod cond_Zopp]. set (e := Z.min ex ey).
  set (X := Zpos mx * 2 ^ (ex - e)). set (Y := Zpos my * 2 ^ (ey - e)).
  assert (HY : 0 < Y) by (unfold Y; pose proof (Z.pow_pos_nonneg 2 (ey - e)); lia).
  assert (HX : 0 <= X) by (unfold X; pose proof (Z.pow_pos_nonneg 2 (ex - e)); lia).
  pose proof (Z.rem_bound_pos X Y HX HY) as [Hr0 HrY].
  assert (HrX : Z.rem X Y <= X) by (apply Z.rem_le; lia).
  set (r := Z.rem X Y) in *.
  assert (Hr53 : r < 2 ^ 53).
  { destruct (Z.min_spec ex ey) as [[_ He]|[_ He]]; fold e in He.
    - unfold X in HrX. rewrite He, Z.sub_diag, Z.pow_0_r in HrX. lia.
    - unfold Y in HrY. rewrite He, Z.sub_diag, Z.pow_0_r in HrY. lia. }
  assert (Hre : r < n * 2 ^ (- e)).
  { unfold Y in HrY. rewrite Hmyv, <- Z.mul_assoc, <- Z.pow_add_r in HrY by (unfold e; lia).
    replace (- ey + (ey - e)) with (- e) in HrY by ring. exact HrY. }
  assert (He0 : -1074 <= e <= 0) by (unfold e; lia).
  destruct r as [|p|p] eqn:Er; [exists 0; split; [lia | reflexivity]| |lia].
  cbn [binary_normalize]. rewrite binary_round_aligned. cbv zeta.
  set (F := fexp prec emax (Zdigits2 (Zpos p) + e)).
  assert (Hd : Zdigits2 (Zpos p) <= 53) by (apply Zdigits2_le; lia).
  assert (HF : F <= e) by (unfold F; rewrite fexp_eq; lia).
  rewrite Z.min_r by exact HF.
  assert (Hq : 0 < Zpos p * 2 ^ (e - F)) by (pose proof (Z.pow_pos_nonneg 2 (e - F)); lia).
  replace (Zpos p * 2 ^ (e - F)) with (Zpos (Z.to_pos (Zpos p * 2 ^ (e - F))) * 2 ^ Z.max 0 0)
    by (rewrite Z2Pos.id by exact Hq; rewrite Z.max_id, Z.pow_0_r, Z.mul_1_r; reflexivity).
  rewrite binary_round_aux_exact.
  2: { rewrite Z2Pos.id, Zdigits2_shift by lia. rewrite Z.max_id.
       replace (Zdigits2 (Zpos p) + (e - F) + 0 + F) with (Zdigits2 (Zpos p) + e) by ring. fold F. lia. }
  2: { unfold prec, emax. lia. }
  rewrite Z.max_id, Z.add_0_r. cbn [dfloor cond_Zopp].
  assert (HFn : F < 0).
  { destruct (Z.le_gt_cases 0 F) as [H0|]; [exfalso|assumption].
    destruct (Zdigits2_bound (Zpos p) ltac:(lia)) as [_ H2]. specialize (H2 ltac:(lia)).
    unfold F in H0. rewrite fexp_eq in H0.
    assert (H52 : 2 ^ 52 * 2 ^ (- e) <= 2 ^ (Zdigits2 (Zpos p) - 1))
      by (rewrite <- Z.pow_add_r by lia; apply Z.pow_le_mono_r; lia).
    assert (Hlt : n * 2 ^ (- e) < 2 ^ 52 * 2 ^ (- e))
      by (apply Z.mul_lt_mono_pos_r; [apply Z.pow_pos_nonneg|]; lia).
    lia. }
  rewrite (proj2 (Z.leb_gt 0 F)) by exact HFn.
  exists (Zpos p / 2 ^ (- e)). split.
  - split; [apply Z.div_pos; [lia | apply Z.pow_pos_nonneg; lia]|].
    apply Z.div_lt_upper_bound; [apply Z.pow_pos_nonneg; lia|]. lia.
  - rewrite Z2Pos.id by exact Hq. f_equal.
    replace (- F) with ((e - F) + (- e)) by ring.
    rewrite Z.pow_add_r by lia. rewrite <- Z.div_div by (try apply Z.pow_pos_nonneg; lia).
    rewrite Z.div_mul by (apply Z.pow_nonzero; lia). reflexivity.
Qed.

Lemma ddiv_nonneg_valid E x n :
  nonneg_valid E x -> 0 < n < 2 ^ 53 -> E <= 900 -> nonneg_valid (E + 52) (ddiv x (of_Z n)).
Proof.
  intros Hx Hn HE. destruct (of_Z_pos n Hn) as (my & ey & Hey & Hmy & _ & ->).
  destruct Hx as [->|(mx & ex & -> & Hmx & Hex)]; [left; reflexivity|].
  destruct (ddiv_cases mx ex my ey Hmx ltac:(lia) ltac:(unfold emax, prec; lia)) as [H|(m & e & H & Hm & He)];
    rewrite H; [left; reflexivity|]. right. exists m, e. repeat split; lia.
Qed.

Lemma trunc_of_Z a : 0 < a < 2 ^ 53 -> trunc (of_Z a) = a.
Proof.
  intros Ha. destruct (of_Z_pos a Ha) as (m & e & He & _ & Hm & ->). cbn [trunc cond_Zopp].
  destruct (Z.leb_spec 0 e).
  - replace e with 0 in * by lia. rewrite Z.mul_1_r. cbn in Hm. lia.
  - rewrite Hm, Z.div_mul by (apply Z.pow_nonzero; lia). reflexivity.
Qed.

Lemma of_Z_nonneg_valid a : 0 <= a < 2 ^ 53 -> nonneg_valid 0 (of_Z a).
Proof.
  intros Ha. destruct (Z.eq_dec a 0) as [->|Hne]; [left; reflexivity|].
  destruct (of_Z_pos a ltac:(lia)) as (m & e & He & Hm & _ & ->). right. exists m, e. repeat split; lia.
Qed.

(** A double in [[0, 1)], as [Math.random] returns: [+0] or a valid
    positive finite value [m * 2^e] with [m < 2^-e]. *)
Definition unit_double (r : double) : bool :=
  match r with
  | S754_zero false => true
  | S754_finite false m e => valid_binary prec emax r && (Zpos m <? 2 ^ (- e))
  | _ => false
  end.

Lemma of_Z_2p24 : of_Z (2 ^ 24) = S754_finite false (Pos.pow 2 52) (-28).
Proof. vm_compute. reflexivity. Qed.

Lemma valid_unit_exponent m e :
  valid_binary prec emax (S754_finite false m e) = true -> Zpos m < 2 ^ (- e) ->
  Zdigits2 (Zpos m) <= 53 /\ -1074 <= e /\ e + 24 < 0 /\
  (e = -1074 \/ Zdigits2 (Zpos m) = 53).
Proof.
  cbn [valid_binary]. unfold bounded, canonical_mantissa, fexp, emin, prec, emax.
  intros [Hc _]%andb_prop Hm. apply Z.eqb_eq in Hc.
  assert (Hd : 2 ^ (Zdigits2 (Zpos m) - 1) <= Zpos m).
  { rewrite Zdigits2_log2, Z.add_simpl_r. apply Z.log2_spec. lia. }
  cbn [Zdigits2] in *. rewrite digits2_pos_size in *.
  pose proof (Z.le_max_l (Zpos (Pos.size m) + e - 53) (3 - 1024 - 53)).
  pose proof (Z.le_max_r (Zpos (Pos.size m) + e - 53) (3 - 1024 - 53)).
  destruct (Z.max_spec (Zpos (Pos.size m) + e - 53) (3 - 1024 - 53)) as [[_ Hx]|[_ Hx]]; rewrite Hx in Hc.
  - repeat split; lia.
  - destruct (Z.le_gt_cases 0 e) as [He|He].
    { destruct (Z.eq_dec e 0) as [->|He0]; [cbn in Hm; lia|].
      rewrite Z.pow_neg_r in Hm by lia. lia. }
    assert (Hp : 2 ^ (Zpos (Pos.size m) - 1) < 2 ^ (- e)) by lia.
    apply Z.pow_lt_mono_r_iff in Hp; [|lia|lia]. repeat split; lia.
Qed.

(** [r * 0x1000000] for [r] in [[0, 1)] is exact: the mantissa is kept
    (shifted by [j] bits when [r] is subnormal) and the exponent grows
    by 24. *)
Lemma dmul_unit_2p24 m e :
  valid_binary prec emax (S754_finite false m e) = true -> Zpos m < 2 ^ (- e) ->
  exists j q, 0 <= j /\ Zpos q = Zpos m * 2 ^ j /\
    dmul (S754_finite false m e) (of_Z (2 ^ 24)) = S754_finite false q (e + 24 - j).
Proof.
  intros Hv Hm. destruct (valid_unit_exponent m e Hv Hm) as (Hd & Hlo & Hhi & Hcase).
  pose proof (Zdigits2_log2 m) as Hl. pose proof (Z.log2_nonneg (Zpos m)).
  set (n := fexp prec emax (Zdigits2 (Zpos m) + 52 + (e + -28)) - (e + -28)).
  assert (Hn : 0 <= n <= 52).
  { subst n. unfold fexp, emin, prec, emax. destruct Hcase; lia. }
  assert (Hq : 0 < Zpos m * 2 ^ (52 - n)) by (pose proof (Z.pow_pos_nonneg 2 (52 - n)); lia).
  exists (52 - n), (Z.to_pos (Zpos m * 2 ^ (52 - n))). rewrite Z2Pos.id by exact Hq.
  split; [lia|]. split; [reflexivity|].
  rewrite of_Z_2p24. unfold dmul, SFmul. rewrite Pos2Z.inj_mul, Pos2Z.inj_pow.
  replace (Zpos m * Zpos 2 ^ Zpos 52) with (Zpos (Z.to_pos (Zpos m * 2 ^ (52 - n))) * 2 ^ Z.max 0 n).
  2: { rewrite Z2Pos.id by exact Hq. rewrite Z.max_r by lia.
       rewrite <- Z.mul_assoc, <- Z.pow_add_r by lia. replace (52 - n + n) with 52 by lia. reflexivity. }
  replace (e + 24 - (52 - n)) with ((e + -28) + Z.max 0 n) by lia.
  apply binary_round_aux_exact.
  - rewrite Z2Pos.id, Zdigits2_shift by lia. rewrite Z.max_r by lia.
    subst n. f_equal. f_equal. lia.
  - unfold emax, prec. lia.
Qed.

End Binary64.
