(* ===== verification/Scroll.v ===== *)
(** The document helpers of [src/index.js]: [getScrollTop],
    [setScrollTop], [offset], [requestAnimFrame] and [scrollTo]
    (lines 160-237).

    The page is the document mode (in quirks mode the scroll position is
    reported by [document.body], otherwise by [document.documentElement]),
    its vertical scroll position, a binary64 number ([Binary64]), and the
    largest position; [window.scrollTo] makes a non-finite coordinate 0
    and clamps to that range (CSSOM View).  [scrollTo] is called with
    integer [to] and [duration] (so its [isNaN] guards pass and
    [duration - 16] is exact); it computes [diff] and [step] as numbers
    and schedules its callback with the global [requestAnimationFrame]
    (absent: a [ReferenceError]).  A scheduled callback is the record of
    the values it closes over.  The event loop runs, at each animation
    frame, the callbacks pending when the frame starts, in order; a
    callback scheduled during the frame waits for the next one, and the
    error a callback throws is reported and the next callback runs.

    The callback's first expression calls [Math.ads]: the window's
    [Math] object has a property [ads] only where a script added one
    ([math_ads]); the standard [Math] has none, and calling [undefined]
    throws [TypeError].  With some function there, the callback scrolls
    by [diff] or by [step], stops once [to] is reached or passed, and
    otherwise calls [scrollTo(to, duration - 16)], which schedules the
    next frame or, once [duration] is negative, jumps to [to].

    An element for [offset] is its [offsetLeft], [offsetTop] and
    [offsetParent], which the layout makes a finite chain. *)

From Stdlib Require Import ZArith Lia List.
From Stdlib Require Import Floats.SpecFloat.
From S2P Require Import Prelude Binary64.
Import ListNotations.
Open Scope bool_scope.
Open Scope Z_scope.

Module Scroll.
Import Binary64.

Record page := { quirks : bool; scroll_y : double; max_scroll : Z }.

(** A number as a condition: [0], [-0] and [NaN] are falsy. *)
Definition truthy (x : double) : bool := match x with S754_zero _ | S754_nan => false | _ => true end.

Definition documentElement_scrollTop (p : page) : double := if quirks p then dzero else scroll_y p.
Definition body_scrollTop (p : page) : double := if quirks p then scroll_y p else dzero.

(** [getScrollTop()]: [(de && de.scrollTop) || document.body.scrollTop]. *)
Definition getScrollTop (p : page) : double :=
  let de := documentElement_scrollTop p in
  if truthy de then de else body_scrollTop p.

Definition is_finite (x : double) : bool := match x with S754_zero _ | S754_finite _ _ _ => true | _ => false end.

(** [window.scrollTo(0, y)]. *)
Definition window_scrollTo (p : page) (y : double) : page :=
  let y := if is_finite y then y else dzero in
  let y := if dlt y dzero then dzero else if dlt (of_Z (max_scroll p)) y then of_Z (max_scroll p) else y in
  {| quirks := quirks p; scroll_y := y; max_scroll := max_scroll p |}.

(** [setScrollTop(value)]: scrolls and returns [value]. *)
Definition setScrollTop (p : page) (value : double) : page * double := (window_scrollTo p value, value).

(** [requestAnimFrame()]: the first scheduling function the window has;
    it returns the function and is called nowhere in the file. *)
Inductive raf := NativeRAF | WebkitRAF | MozRAF | TimeoutRAF.

(** The globals the code reads: the scheduling functions and the
    property [ads] of [Math]. *)
Record window := {
  has_raf : bool; has_webkit_raf : bool; has_moz_raf : bool;
  math_ads : option (double -> double)
}.

Definition requestAnimFrame (w : window) : raf :=
  if has_raf w then NativeRAF else if has_webkit_raf w then WebkitRAF
  else if has_moz_raf w then MozRAF else TimeoutRAF.

(** A callback [scrollTo] scheduled: the [to], [duration], [diff] and
    [step] it closes over. *)
Record frame := { fr_to : Z; fr_duration : Z; fr_diff : double; fr_step : double }.

(** [diff === 0]. *)
Definition is_zero (x : double) : bool := match x with S754_zero _ => true | _ => false end.

(** [scrollTo(to, duration)]: the page after the call, the callback it
    schedules, and how the call ends. *)
Definition scrollTo (w : window) (p : page) (to duration : Z) : page * list frame * completion unit :=
  if duration <? 0 then (fst (setScrollTop p (of_Z to)), [], Normal tt)
  else
    let diff := dsub (of_Z to) (getScrollTop p) in
    if is_zero diff then (p, [], Normal tt)
    else
      let step := dmul (ddiv diff (of_Z duration)) (of_Z 10) in
      if has_raf w then (p, [{| fr_to := to; fr_duration := duration; fr_diff := diff; fr_step := step |}], Normal tt)
      else (p, [], Throw ReferenceError).

(** The callback of [scrollTo]. *)
Definition run_frame (w : window) (p : page) (f : frame) : page * list frame * completion unit :=
  match math_ads w with
  | None => (p, [], Throw TypeError)
  | Some ads =>
      if dlt (dabs (fr_diff f)) (ads (fr_step f)) then
        (fst (setScrollTop p (dadd (getScrollTop p) (fr_diff f))), [], Normal tt)
      else
        let p := fst (setScrollTop p (dadd (getScrollTop p) (fr_step f))) in
        if (dlt dzero (fr_diff f) && dle (of_Z (fr_to f)) (getScrollTop p)) ||
           (dlt (fr_diff f) dzero && dle (getScrollTop p) (of_Z (fr_to f)))
        then (p, [], Normal tt)
        else scrollTo w p (fr_to f) (fr_duration f - 16)
  end.

Record state := {
  st_window : window;
  st_page : page;
  st_frames : list frame;        (* callbacks waiting for the next frame *)
  st_errors : list error_kind    (* errors the callbacks reported *)
}.

(** A call of [scrollTo] from the page's script. *)
Definition call_scrollTo (st : state) (to duration : Z) : state * completion unit :=
  let '(p, nf, r) := scrollTo (st_window st) (st_page st) to duration in
  ({| st_window := st_window st; st_page := p; st_frames := st_frames st ++ nf; st_errors := st_errors st |}, r).

(** One animation frame: the callbacks pending at its start run in
    order, those they schedule wait in [next]; an error is reported and
    the next callback runs. *)
Fixpoint run_frames (w : window) (p : page) (fs next : list frame) (errs : list error_kind)
  : page * list frame * list error_kind :=
  match fs with
  | [] => (p, next, errs)
  | f :: fs' =>
      let '(p', nf, r) := run_frame w p f in
      run_frames w p' fs' (next ++ nf) (match r with Throw e => errs ++ [e] | Normal _ => errs end)
  end.

Definition animation_frame (st : state) : state :=
  let '(p, nfs, errs) := run_frames (st_window st) (st_page st) (st_frames st) [] (st_errors st) in
  {| st_window := st_window st; st_page := p; st_frames := nfs; st_errors := errs |}.

(** The event loop: a call of [scrollTo] with a non-negative [duration],
    or an animation frame. *)
Inductive step : state -> state -> Prop :=
| step_scrollTo st to duration : 0 <= duration -> step st (fst (call_scrollTo st to duration))
| step_frame st : step st (animation_frame st).

Inductive reachable (st0 : state) : state -> Prop :=
| reach_refl : reachable st0 st0
| reach_step st st' : reachable st0 st -> step st st' -> reachable st0 st'.

(** An element for [offset]. *)
#[warnings="-register-all"]
Inductive element := Elem (offsetLeft offsetTop : Z) (offsetParent : option element).

(** The body of the [while (ele)] loop of [offset] and its iterations
    from a present element. *)
Fixpoint offset_from (e : element) (left top : Z) : Z * Z :=
  match e with
  | Elem l t parent =>
      match parent with
      | None => (left + l, top + t)
      | Some p => offset_from p (left + l) (top + t)
      end
  end.

Definition offset_loop (ele : option element) (left top : Z) : Z * Z :=
  match ele with None => (left, top) | Some e => offset_from e left top end.

Definition offset (ele : option element) : Z * Z := offset_loop ele 0 0.

(** The offsets along the [offsetParent] chain. *)
Fixpoint chain (e : element) : list (Z * Z) :=
  match e with
  | Elem l t None => [(l, t)]
  | Elem l t (Some p) => (l, t) :: chain p
  end.

Definition sum_pairs (l : list (Z * Z)) : Z * Z :=
  fold_right (fun '(a, b) '(x, y) => (a + x, b + y)) (0, 0) l.

(** ** Theorems *)

Lemma sum_pairs_cons a b l : sum_pairs ((a, b) :: l) = (a + fst (sum_pairs l), b + snd (sum_pairs l)).
Proof. unfold sum_pairs. cbn [fold_right]. destruct (fold_right _ _ l). reflexivity. Qed.

(** [offset] adds the offsets of the chain. *)
Lemma offset_from_chain : forall e left top,
  offset_from e left top = (left + fst (sum_pairs (chain e)), top + snd (sum_pairs (chain e))).
Proof.
  fix IH 1. intros [l t [p|]] left top; cbn [offset_from chain]; rewrite sum_pairs_cons.
  - rewrite IH. cbn [fst snd]. clear IH. f_equal; ring.
  - cbn. clear IH. f_equal; ring.
Qed.

(** ** The standard [Math]: the callback throws at once *)

Lemma run_frames_no_ads w p fs next errs :
  math_ads w = None -> run_frames w p fs next errs = (p, next, errs ++ repeat TypeError (length fs)).
Proof.
  intros Hw. revert next errs. induction fs as [|f fs IH]; intros next errs; cbn [run_frames length repeat].
  - rewrite app_nil_r. reflexivity.
  - unfold run_frame. rewrite Hw. rewrite IH, app_nil_r, <- app_assoc. reflexivity.
Qed.

(** [scrollTo] with a non-negative [duration] leaves the page as it is. *)
Lemma scrollTo_page w p to duration : 0 <= duration -> fst (fst (scrollTo w p to duration)) = p.
Proof.
  intros Hd. unfold scrollTo. rewrite (proj2 (Z.ltb_ge duration 0)) by exact Hd. cbv zeta.
  destruct (is_zero _); [reflexivity|]. destruct (has_raf w); reflexivity.
Qed.

Lemma step_no_ads st st' :
  math_ads (st_window st) = None -> step st st' ->
  st_window st' = st_window st /\ st_page st' = st_page st /\
  exists n, st_errors st' = st_errors st ++ repeat TypeError n.
Proof.
  intros Hw Hs. revert Hw. destruct Hs as [st0 to duration Hd | st0]; intros Hw.
  - unfold call_scrollTo. pose proof (scrollTo_page (st_window st0) (st_page st0) to duration Hd) as Hp.
    destruct (scrollTo _ _ _ _) as [[p nf] r]. cbn in *. subst p.
    split; [reflexivity|]. split; [reflexivity|]. exists O. rewrite app_nil_r. reflexivity.
  - unfold animation_frame. rewrite run_frames_no_ads by exact Hw. cbn.
    split; [reflexivity|]. split; [reflexivity|]. eauto.
Qed.

(** C25: with the standard [Math], which has no [ads], [scrollTo] with a
    non-negative [duration] never moves the page: along any run of calls
    and animation frames the scroll position stays where it was, and the
    only errors the callbacks report are [TypeError]s (from calling
    [Math.ads]). *)
Theorem scrollTo_never_scrolls st0 st :
  math_ads (st_window st0) = None -> reachable st0 st ->
  st_page st = st_page st0 /\ exists n, st_errors st = st_errors st0 ++ repeat TypeError n.
Proof.
  intros Hw Hr. enough (H : st_window st = st_window st0 /\ st_page st = st_page st0 /\
                            exists n, st_errors st = st_errors st0 ++ repeat TypeError n) by tauto.
  induction Hr as [|st st' _ (Hw' & Hp & n & Hn) Hs].
  - split; [reflexivity|]. split; [reflexivity|]. exists O. rewrite app_nil_r. reflexivity.
  - destruct (step_no_ads st st' ltac:(congruence) Hs) as (Hw'' & Hp' & m & Hm).
    split; [congruence|]. split; [congruence|].
    exists (n + m)%nat. rewrite Hm, Hn, repeat_app, app_assoc. reflexivity.
Qed.

Definition sample_window (ads : option (double -> double)) : window :=
  {| has_raf := true; has_webkit_raf := false; has_moz_raf := false; math_ads := ads |}.

Definition sample_state (ads : option (double -> double)) : state :=
  {| st_window := sample_window ads;
     st_page := {| quirks := false; scroll_y := dzero; max_scroll := 2000 |};
     st_frames := []; st_errors := [] |}.

Lemma scrollTo_never_scrolls_witness :
  (math_ads (st_window (sample_state None)) = None /\
   reachable (sample_state None) (animation_frame (fst (call_scrollTo (sample_state None) 800 500)))) /\
  st_page (animation_frame (fst (call_scrollTo (sample_state None) 800 500))) = st_page (sample_state None) /\
  exists n, st_errors (animation_frame (fst (call_scrollTo (sample_state None) 800 500))) =
            st_errors (sample_state None) ++ repeat TypeError n.
Proof.
  assert (H : reachable (sample_state None) (animation_frame (fst (call_scrollTo (sample_state None) 800 500)))).
  { apply reach_step with (fst (call_scrollTo (sample_state None) 800 500)); [|apply step_frame].
    apply reach_step with (sample_state None); [apply reach_refl|]. apply step_scrollTo. lia. }
  split; [split; [reflexivity | exact H]|]. exact (scrollTo_never_scrolls (sample_state None) _ eq_refl H).
Defined.

(** ** Any [Math.ads]: the animation ends *)

(** The frames a callback scheduling [scrollTo(to, duration - 16)] may
    leave: one, of that duration, only when it is not negative. *)
Lemma scrollTo_frames w p to duration :
  Forall (fun f => fr_duration f = duration /\ 0 <= duration) (snd (fst (scrollTo w p to duration))).
Proof.
  unfold scrollTo. destruct (Z.ltb_spec duration 0); [constructor|]. cbv zeta.
  destruct (is_zero _); [constructor|]. destruct (has_raf w); repeat constructor; lia.
Qed.

Lemma run_frame_frames w p f :
  Forall (fun f' => fr_duration f' = fr_duration f - 16 /\ 0 <= fr_duration f') (snd (fst (run_frame w p f))).
Proof.
  unfold run_frame. destruct (math_ads w) as [ads|]; [|constructor].
  destruct (dlt _ _); [constructor|]. cbv zeta. destruct (_ || _); [constructor|].
  eapply Forall_impl; [|apply scrollTo_frames]. intros x [Hx H]. rewrite Hx. split; [reflexivity | exact H].
Qed.

(** The frames scheduled during an animation frame: each has the
    duration of a callback that ran, less 16, and is not negative. *)
Lemma run_frames_frames w p fs next errs :
  Forall (fun f' => In f' next \/ exists f, In f fs /\ fr_duration f' = fr_duration f - 16 /\ 0 <= fr_duration f')
    (snd (fst (run_frames w p fs next errs))).
Proof.
  revert p next errs. induction fs as [|f fs IH]; intros p next errs; cbn [run_frames].
  - apply Forall_forall. intros x Hx. left. exact Hx.
  - pose proof (run_frame_frames w p f) as Hf. destruct (run_frame w p f) as [[p' nf] r]. cbn [snd fst] in Hf.
    eapply Forall_impl; [|apply IH]. intros x [Hx|(g & Hg & Hd)].
    + apply in_app_or in Hx as [Hx|Hx]; [left; exact Hx|]. right. exists f. split; [left; reflexivity|].
      exact (proj1 (Forall_forall _ _) Hf x Hx).
    + right. exists g. split; [right; exact Hg | exact Hd].
Qed.

(** The number of frames a pending callback may still take:
    [duration / 16 + 1], the largest over the pending callbacks. *)
Definition frames_left (st : state) : nat :=
  list_max (map (fun f => S (Z.to_nat (fr_duration f / 16))) (st_frames st)).

Lemma frames_left_frame (st : state) :
  (frames_left (animation_frame st) <= frames_left st - 1)%nat.
Proof.
  unfold frames_left, animation_frame.
  pose proof (run_frames_frames (st_window st) (st_page st) (st_frames st) [] (st_errors st)) as H.
  set (M := list_max (map (fun f => S (Z.to_nat (fr_duration f / 16))) (st_frames st))).
  assert (HM : Forall (fun f => (S (Z.to_nat (fr_duration f / 16)) <= M)%nat) (st_frames st))
    by exact (proj1 (Forall_map _ _ _) (proj1 (list_max_le _ _) (le_n M))).
  destruct (run_frames _ _ _ _ _) as [[p nfs] errs]. cbn [snd fst st_frames] in *.
  apply (proj2 (list_max_le _ _)), (proj2 (Forall_map _ _ _)). eapply Forall_impl; [|exact H]. intros f' [[]|(f & Hf & Hd & Hpos)].
  pose proof (proj1 (Forall_forall _ _) HM f Hf) as Hle. cbv beta in Hle.
  assert (E : fr_duration f' / 16 = fr_duration f / 16 - 1).
  { rewrite Hd. replace (fr_duration f - 16) with (fr_duration f + (-1) * 16) by ring.
    rewrite Z.div_add by lia. ring. }
  assert (1 <= fr_duration f / 16) by (apply Z.div_le_lower_bound; lia).
  rewrite E. lia.
Qed.

(** C26: whatever function [Math.ads] is, a [scrollTo] animation ends:
    a callback either stops or schedules one of [duration - 16], so
    after [duration / 16 + 1] animation frames for the longest pending
    callback, with no further calls, no callback is pending. *)
Theorem animation_ends st n : (frames_left st <= n)%nat -> st_frames (Nat.iter n animation_frame st) = [].
Proof.
  revert st. induction n as [|n IH]; intros st Hn.
  - cbn. destruct (st_frames st) as [|f fs] eqn:E; [reflexivity|]. exfalso.
    unfold frames_left, list_max in Hn. rewrite E in Hn. cbn [map fold_right] in Hn. lia.
  - rewrite Nat.iter_succ_r. apply IH. pose proof (frames_left_frame st). lia.
Qed.

Lemma animation_ends_witness :
  (frames_left (fst (call_scrollTo (sample_state (Some dabs)) 800 500)) <= 32)%nat /\
  st_frames (Nat.iter 32 animation_frame (fst (call_scrollTo (sample_state (Some dabs)) 800 500))) = [].
Proof.
  assert (H : (frames_left (fst (call_scrollTo (sample_state (Some dabs)) 800 500)) <= 32)%nat)
    by (vm_compute; lia).
  split; [exact H|]. exact (animation_ends _ _ H).
Defined.

(** Were [Math.ads] [Math.abs], [scrollTo(800, 500)] from the top would
    move the page by the recomputed [step] at each of 31 frames and jump
    to 800 at the 32nd, when [duration] is negative. *)
Example scrollTo_with_abs :
  scroll_y (st_page (Nat.iter 1 animation_frame (fst (call_scrollTo (sample_state (Some dabs)) 800 500)))) = of_Z 16 /\
  st_page (Nat.iter 32 animation_frame (fst (call_scrollTo (sample_state (Some dabs)) 800 500))) =
    {| quirks := false; scroll_y := of_Z 800; max_scroll := 2000 |}.
Proof. split; vm_compute; reflexivity. Qed.

End Scroll.
