(* ===== verification/Json.v ===== *)
(** [JSON.parse] (ECMA-262 25.5.1, with the grammar of ECMA-404) on a
    string of UTF-16 code units, without a reviver: the parser
    [parseQueryString] hands its text to.

    [parse_value] reads one JSON value after white space; objects and
    arrays call it again on what follows their brackets, so it carries a
    fuel that bounds the nesting.  A run out of fuel is the result
    [PFuel], distinct from a syntax error [PErr]; [json_parse] gives the
    parser one more unit of fuel than the text has code units, which
    [parse_value_fuel] shows is never exhausted.  A member of an object
    is created with [CreateDataProperty]: ["__proto__"] is an own
    property like any other, and a repeated name keeps its first
    position and takes the last value ([obj_put]).  Numbers are the
    decimal value of their text rounded to the nearest double
    ([decimal_to_double]). *)

From Stdlib Require Import ZArith Lia String List.
From Stdlib Require Import Floats.SpecFloat.
From S2P Require Import Prelude JsString Uri JsValue Binary64.
Import ListNotations.
Open Scope bool_scope.
Open Scope Z_scope.

Module Json.
Import JsString Uri JsValue Binary64.

(** The values [JSON.parse] builds. *)
#[warnings="-register-all"]
Inductive json :=
| JNull
| JBool (b : bool)
| JNumber (x : double)
| JString (s : jsstring)
| JArray (elems : list json)
| JObject (props : list (jsstring * json)).

(** The outcome of a parsing step: a value and the text after it, a
    syntax error, or fuel exhausted. *)
Inductive presult (A : Type) :=
| POk (a : A) (rest : jsstring)
| PErr
| PFuel.
Arguments POk {A} a rest.
Arguments PErr {A}.
Arguments PFuel {A}.

Definition c_quote : Z := 34.     (* double quote *)
Definition c_bslash : Z := 92.    (* backslash *)
Definition c_colon : Z := 58.     (* ':' *)
Definition c_comma : Z := 44.     (* ',' *)
Definition c_lbrace : Z := 123.   (* '{' *)
Definition c_rbrace : Z := 125.   (* '}' *)

(** [ws]: tab, line feed, carriage return and space. *)
Definition is_json_ws (c : Z) : bool := (c =? 9) || (c =? 10) || (c =? 13) || (c =? 32).

Fixpoint skip_ws (s : jsstring) : jsstring :=
  match s with
  | c :: r => if is_json_ws c then skip_ws r else s
  | [] => []
  end.

(** The code unit an escape [\e] stands for, [\u] apart. *)
Definition simple_escape (e : Z) : option Z :=
  if e =? 34 then Some 34 else if e =? 92 then Some 92 else if e =? 47 then Some 47
  else if e =? 98 then Some 8 else if e =? 102 then Some 12 else if e =? 110 then Some 10
  else if e =? 114 then Some 13 else if e =? 116 then Some 9 else None.

Definition hex4 (h1 h2 h3 h4 : Z) : option Z :=
  match hex_value h1, hex_value h2, hex_value h3, hex_value h4 with
  | Some a, Some b, Some c, Some d => Some (((a * 16 + b) * 16 + c) * 16 + d)
  | _, _, _, _ => None
  end.

(** The characters of a string after its opening quote, up to and
    including the closing quote: any unit but the double quote, the
    backslash and the
    controls below U+0020, or an escape. *)
Fixpoint string_chars (s : jsstring) (acc : jsstring) : presult jsstring :=
  match s with
  | [] => PErr
  | c :: r =>
      if c =? c_quote then POk (rev acc) r
      else if c =? c_bslash then
        match r with
        | e :: r' =>
            if e =? 117 then
              match r' with
              | h1 :: h2 :: h3 :: h4 :: r'' =>
                  match hex4 h1 h2 h3 h4 with
                  | Some u => string_chars r'' (u :: acc)
                  | None => PErr
                  end
              | _ => PErr
              end
            else
              match simple_escape e with
              | Some u => string_chars r' (u :: acc)
              | None => PErr
              end
        | [] => PErr
        end
      else if c <? 32 then PErr
      else string_chars r (c :: acc)
  end.

(** ** Numbers *)

Definition is_ascii_digit (c : Z) : bool := (48 <=? c) && (c <=? 57).

Fixpoint json_digits (s : jsstring) : list Z * jsstring :=
  match s with
  | c :: r => if is_ascii_digit c then let '(ds, t) := json_digits r in ((c - 48) :: ds, t) else ([], s)
  | [] => ([], [])
  end.

Definition digits_value (ds : list Z) : Z := fold_left (fun a d => a * 10 + d) ds 0.

(** [𝔽] of [(-1)^neg * n * 10^e10]: exact integers are normalized,
    quotients are rounded by the division core of [SpecFloat] on the
    exact operands.  Past [10^310] the value overflows; below
    [2^-1076] (checked through [10^-k < 2^(-3k)]) it rounds to zero. *)
Definition decimal_to_double (neg : bool) (n e10 : Z) : double :=
  if n =? 0 then S754_zero neg
  else if 310 <? e10 then S754_infinity neg
  else if Z.log2 n + 1 + 3 * e10 <? -1076 then S754_zero neg
  else if 0 <=? e10 then binary_normalize prec emax (cond_Zopp neg (n * 10 ^ e10)) 0 neg
  else
    let '(q, e', loc) := SFdiv_core_binary prec emax n 0 (10 ^ (- e10)) 0 in
    binary_round_aux prec emax neg q e' loc.

(** A number: [-? (0 | [1-9][0-9]* ) (. [0-9]+)? ([eE] [+-]? [0-9]+)?],
    read as its sign, integer digits, fraction digits and exponent; a
    part that is present but has no digits makes the flag [false]. *)
Definition lex_sign (s : jsstring) : bool * jsstring :=
  match s with c :: r => if c =? c_minus then (true, r) else (false, s) | [] => (false, s) end.

Definition lex_int (s : jsstring) : list Z * jsstring :=
  match s with c :: r => if c =? 48 then ([0], r) else json_digits s | [] => ([], []) end.

Definition lex_frac (s : jsstring) : list Z * jsstring * bool :=
  match s with
  | c :: r => if c =? 46 then let '(d, r') := json_digits r in (d, r', negb (Nat.eqb (length d) 0))
              else ([], s, true)
  | [] => ([], s, true)
  end.

Definition lex_exp (s : jsstring) : Z * jsstring * bool :=
  match s with
  | c :: r =>
      if (c =? 101) || (c =? 69) then
        let '(sg, r1) := match r with
                         | x :: r' => if x =? 43 then (1, r') else if x =? c_minus then (-1, r') else (1, r)
                         | [] => (1, r) end in
        let '(d, r2) := json_digits r1 in (sg * digits_value d, r2, negb (Nat.eqb (length d) 0))
      else (0, s, true)
  | [] => (0, s, true)
  end.

Definition lex_number (s : jsstring) : presult double :=
  let '(neg, s1) := lex_sign s in
  let '(ip, s2) := lex_int s1 in
  match ip with
  | [] => PErr
  | _ =>
      let '(fp, s3, okf) := lex_frac s2 in
      let '(ex, s4, oke) := lex_exp s3 in
      if okf && oke then POk (decimal_to_double neg (digits_value (ip ++ fp)) (ex - Z.of_nat (length fp))) s4
      else PErr
  end.

(** ** Values *)

(** A literal word: [true], [false], [null]. *)
Fixpoint expect (w s : jsstring) : option jsstring :=
  match w, s with
  | [], _ => Some s
  | x :: w', c :: s' => if x =? c then expect w' s' else None
  | _ :: _, [] => None
  end.

Section Members.
Variable value : jsstring -> presult json.

(** The members of an object after ['{'] (and a first member expected):
    ["name" : value], then [','] and another member, or ['}']. *)
Fixpoint members (fuel : nat) (s : jsstring) (acc : list (jsstring * json)) : presult (list (jsstring * json)) :=
  match fuel with
  | O => PFuel
  | S f =>
      match skip_ws s with
      | c :: r =>
          if c =? c_quote then
            match string_chars r [] with
            | POk k r1 =>
                match skip_ws r1 with
                | d :: r2 =>
                    if d =? c_colon then
                      match value r2 with
                      | POk v r3 =>
                          match skip_ws r3 with
                          | e :: r4 =>
                              if e =? c_comma then members f r4 (obj_put acc k v)
                              else if e =? c_rbrace then POk (obj_put acc k v) r4
                              else PErr
                          | [] => PErr
                          end
                      | PErr => PErr
                      | PFuel => PFuel
                      end
                    else PErr
                | [] => PErr
                end
            | PErr => PErr
            | PFuel => PFuel
            end
          else PErr
      | [] => PErr
      end
  end.

(** The elements of an array after ['['] (and a first element expected). *)
Fixpoint elements (fuel : nat) (s : jsstring) (acc : list json) : presult (list json) :=
  match fuel with
  | O => PFuel
  | S f =>
      match value s with
      | POk v r =>
          match skip_ws r with
          | e :: r' =>
              if e =? c_comma then elements f r' (acc ++ [v])
              else if e =? 93 then POk (acc ++ [v]) r'
              else PErr
          | [] => PErr
          end
      | PErr => PErr
      | PFuel => PFuel
      end
  end.

End Members.

Fixpoint parse_value (fuel : nat) (s : jsstring) : presult json :=
  match fuel with
  | O => PFuel
  | S f =>
      match skip_ws s with
      | c :: r =>
          if c =? c_lbrace then
            match skip_ws r with
            | d :: r' => if d =? c_rbrace then POk (JObject []) r'
                         else match members (parse_value f) f r [] with
                              | POk o t => POk (JObject o) t
                              | PErr => PErr
                              | PFuel => PFuel
                              end
            | [] => PErr
            end
          else if c =? 91 then
            match skip_ws r with
            | d :: r' => if d =? 93 then POk (JArray []) r'
                         else match elements (parse_value f) f r [] with
                              | POk l t => POk (JArray l) t
                              | PErr => PErr
                              | PFuel => PFuel
                              end
            | [] => PErr
            end
          else if c =? c_quote then
            match string_chars r [] with
            | POk str t => POk (JString str) t
            | PErr => PErr
            | PFuel => PFuel
            end
          else
            match expect (js "true"%string) (c :: r) with
            | Some t => POk (JBool true) t
            | None =>
                match expect (js "false"%string) (c :: r) with
                | Some t => POk (JBool false) t
                | None =>
                    match expect (js "null"%string) (c :: r) with
                    | Some t => POk JNull t
                    | None =>
                        match lex_number (c :: r) with
                        | POk x t => POk (JNumber x) t
                        | PErr => PErr
                        | PFuel => PFuel
                        end
                    end
                end
            end
      | [] => PErr
      end
  end.

(** [JSON.parse(text)]: one value and nothing but white space after it. *)
Definition json_parse (text : jsstring) : completion json :=
  match parse_value (S (List.length text)) text with
  | POk v rest => if Nat.eqb (List.length (skip_ws rest)) 0 then Normal v else Throw SyntaxError
  | _ => Throw SyntaxError
  end.

(** JSON text written with a single quote for each double quote. *)
Definition jtext (s : String.string) : jsstring := map (fun c => if c =? 39 then c_quote else c) (js s).

(** ** The fuel is enough *)

(** A step that succeeds consumes at least one code unit. *)
Definition progress {A} (p : presult A) (s : jsstring) : Prop :=
  match p with
  | POk _ r => (length r < length s)%nat
  | PErr => True
  | PFuel => False
  end.

Lemma skip_ws_length s : (length (skip_ws s) <= length s)%nat.
Proof. induction s as [|c s IH]; cbn; [lia|]. destruct (is_json_ws c); cbn; lia. Qed.

Lemma string_chars_progress s acc : progress (string_chars s acc) s.
Proof.
  revert acc. induction s as [s IH] using length_strong_ind. intros acc.
  destruct s as [|c r]; cbn; [exact I|].
  destruct (c =? c_quote); [cbn; lia|]. destruct (c =? c_bslash).
  - destruct r as [|e r']; [exact I|].
    assert (Hstep : forall t u, (length t < S (length (e :: r')))%nat -> progress (string_chars t u) (c :: e :: r')).
    { intros t u Ht. specialize (IH t ltac:(cbn in *; lia) u). destruct (string_chars t u); cbn in *; lia. }
    destruct (e =? 117).
    + destruct r' as [|h1 [|h2 [|h3 [|h4 r'']]]]; try exact I.
      destruct (hex4 h1 h2 h3 h4); [apply Hstep; cbn; lia | exact I].
    + destruct (simple_escape e); [apply Hstep; cbn; lia | exact I].
  - destruct (c <? 32); [exact I|].
    specialize (IH r ltac:(cbn; lia) (c :: acc)). destruct (string_chars r (c :: acc)); cbn in *; lia.
Qed.

Lemma json_digits_length s : (length (snd (json_digits s)) + length (fst (json_digits s)) = length s)%nat.
Proof.
  induction s as [|c s IH]; cbn; [reflexivity|].
  destruct (is_ascii_digit c); cbn; [|lia].
  destruct (json_digits s) as [ds t]; cbn in *. lia.
Qed.

Lemma json_digits_le s : (length (snd (json_digits s)) <= length s)%nat.
Proof. pose proof (json_digits_length s). lia. Qed.

Lemma lex_sign_le s : (length (snd (lex_sign s)) <= length s)%nat.
Proof. destruct s as [|c r]; cbn; [lia|]. destruct (c =? c_minus); cbn; lia. Qed.

Lemma lex_int_length s : (length (snd (lex_int s)) + length (fst (lex_int s)) = length s)%nat.
Proof. destruct s as [|c r]; cbn; [lia|]. destruct (c =? 48); cbn; [lia|]. apply (json_digits_length (c :: r)). Qed.

Lemma lex_frac_le s : (length (snd (fst (lex_frac s))) <= length s)%nat.
Proof.
  destruct s as [|c r]; cbn; [lia|]. destruct (c =? 46); cbn; [|lia].
  pose proof (json_digits_le r). destruct (json_digits r); cbn in *; lia.
Qed.

Lemma lex_exp_le s : (length (snd (fst (lex_exp s))) <= length s)%nat.
Proof.
  destruct s as [|c r]; cbn; [lia|]. destruct ((c =? 101) || (c =? 69)); cbn; [|lia].
  assert (H : forall sg r1, (match r with x :: r' => if x =? 43 then (1, r') else if x =? c_minus then (-1, r') else (1, r)
                             | [] => (1, r) end) = (sg, r1) -> (length r1 <= length r)%nat).
  { intros sg r1 E. destruct r as [|x r']; [injection E as _ <-; lia|].
    destruct (x =? 43); [injection E as _ <-; cbn; lia|]. destruct (x =? c_minus); injection E as _ <-; cbn; lia. }
  destruct (match r with x :: r' => _ | [] => _ end) as [sg r1] eqn:E. specialize (H sg r1 eq_refl).
  pose proof (json_digits_le r1). destruct (json_digits r1); cbn in *; lia.
Qed.

Lemma lex_number_progress s : progress (lex_number s) s.
Proof.
  unfold lex_number. pose proof (lex_sign_le s). destruct (lex_sign s) as [neg s1]. cbn [snd] in *.
  pose proof (lex_int_length s1). destruct (lex_int s1) as [[|d ip] s2]; [exact I|]. cbn [fst snd length] in *.
  pose proof (lex_frac_le s2). destruct (lex_frac s2) as [[fp s3] okf]. cbn [fst snd] in *.
  pose proof (lex_exp_le s3). destruct (lex_exp s3) as [[ex s4] oke]. cbn [fst snd] in *.
  destruct (okf && oke); cbn; lia.
Qed.

Lemma expect_length w s t : expect w s = Some t -> (length t + length w = length s)%nat.
Proof.
  revert s. induction w as [|x w IH]; intros [|c s] H; cbn in H; try congruence.
  - injection H as <-. cbn. lia.
  - injection H as <-. cbn. lia.
  - destruct (x =? c); [apply IH in H; cbn; lia | congruence].
Qed.

(** Lifting [progress] through a step that consumes a prefix. *)
Lemma progress_weaken {A} (p : presult A) s t : (length s <= length t)%nat -> progress p s -> progress p t.
Proof. destruct p; cbn; lia || tauto. Qed.

Section MembersFuel.
Variables value value' : jsstring -> presult json.
Variable s0 : jsstring.
Hypothesis value_progress : forall s, (length s <= length s0)%nat -> progress (value s) s.
Hypothesis value_agree : forall s, (length s <= length s0)%nat -> value' s = value s.

Lemma members_fuel f f' s acc :
  (length s < f)%nat -> (length s < f')%nat -> (length s <= length s0)%nat ->
  progress (members value f s acc) s /\ members value' f' s acc = members value f s acc.
Proof.
  revert f' s acc. induction f as [|f IH]; intros f' s acc Hf Hf' Hs; [lia|].
  destruct f' as [|f']; [lia|]. cbn [members].
  pose proof (skip_ws_length s) as Hw.
  destruct (skip_ws s) as [|c r]; [split; [exact I | reflexivity]|].
  destruct (c =? c_quote); [|split; [exact I | reflexivity]].
  pose proof (string_chars_progress r []) as Hk.
  destruct (string_chars r []) as [k r1| |]; [|split; [exact I | reflexivity]|contradiction].
  cbn in Hk, Hw. pose proof (skip_ws_length r1) as Hw1.
  destruct (skip_ws r1) as [|d r2]; [split; [exact I | reflexivity]|].
  destruct (d =? c_colon); [|split; [exact I | reflexivity]]. cbn in Hw1.
  rewrite value_agree by lia. pose proof (value_progress r2 ltac:(lia)) as Hv.
  destruct (value r2) as [v r3| |]; [|split; [exact I | reflexivity]|contradiction].
  cbn in Hv. pose proof (skip_ws_length r3) as Hw3.
  destruct (skip_ws r3) as [|e r4]; [split; [exact I | reflexivity]|]. cbn in Hw3.
  destruct (e =? c_comma).
  - destruct (IH f' r4 (obj_put acc k v) ltac:(lia) ltac:(lia) ltac:(lia)) as [Hp Heq].
    split; [eapply progress_weaken; [|exact Hp]; cbn; lia | exact Heq].
  - destruct (e =? c_rbrace); split; cbn; lia || tauto.
Qed.

Lemma elements_fuel f f' s acc :
  (length s < f)%nat -> (length s < f')%nat -> (length s <= length s0)%nat ->
  progress (elements value f s acc) s /\ elements value' f' s acc = elements value f s acc.
Proof.
  revert f' s acc. induction f as [|f IH]; intros f' s acc Hf Hf' Hs; [lia|].
  destruct f' as [|f']; [lia|]. cbn [elements].
  rewrite value_agree by lia. pose proof (value_progress s Hs) as Hv.
  destruct (value s) as [v r| |]; [|split; [exact I | reflexivity]|contradiction].
  cbn in Hv. pose proof (skip_ws_length r) as Hw.
  destruct (skip_ws r) as [|e r']; [split; [exact I | reflexivity]|]. cbn in Hw.
  destruct (e =? c_comma).
  - destruct (IH f' r' (acc ++ [v]) ltac:(lia) ltac:(lia) ltac:(lia)) as [Hp Heq].
    split; [eapply progress_weaken; [|exact Hp]; cbn; lia | exact Heq].
  - destruct (e =? 93); split; cbn; lia || tauto.
Qed.

End MembersFuel.

(** Wrapping the result of a step into a value keeps its progress. *)
Lemma progress_wrap {A B} (g : A -> B) (p : presult A) r s :
  (length r <= length s)%nat -> progress p r ->
  progress (match p with POk a t => POk (g a) t | PErr => PErr | PFuel => PFuel end) s.
Proof. destruct p; cbn; lia || tauto. Qed.

(** With more fuel than the text has code units, [parse_value] never
    runs out of fuel, and any larger fuel gives the same result: the
    parser terminates on every text and [json_parse] is its fuel-free
    result. *)
Theorem parse_value_fuel f s :
  (length s < f)%nat ->
  parse_value f s <> PFuel /\ forall f', (length s < f')%nat -> parse_value f' s = parse_value f s.
Proof.
  enough (H : (length s < f)%nat -> progress (parse_value f s) s /\
                forall f', (length s < f')%nat -> parse_value f' s = parse_value f s).
  { intros Hs. destruct (H Hs) as [Hp Heq]. split; [|exact Heq]. intros E. rewrite E in Hp. exact Hp. }
  revert s. induction f as [|f IH]; intros s Hs; [lia|].
  assert (Hv : forall s', (length s' < f)%nat -> progress (parse_value f s') s') by (intros; apply IH; lia).
  assert (Ha : forall f' s', (length s' < f)%nat -> (length s' < f')%nat -> parse_value f' s' = parse_value f s')
    by (intros; apply IH; lia).
  split; [|intros [|f'] Hf'; [lia|]]; cbn [parse_value];
    pose proof (skip_ws_length s) as Hw; destruct (skip_ws s) as [|c r]; try exact I; try reflexivity;
    cbn in Hw.
  - destruct (c =? c_lbrace); [|destruct (c =? 91)].
    + pose proof (skip_ws_length r). destruct (skip_ws r) as [|d r']; [exact I|]. destruct (d =? c_rbrace); [cbn in *; lia|].
      apply (progress_wrap JObject (members (parse_value f) f r []) r); [lia|].
      apply (proj1 (members_fuel (parse_value f) (parse_value f) r ltac:(intros; apply Hv; lia)
                      ltac:(reflexivity) f f r [] ltac:(lia) ltac:(lia) ltac:(lia))).
    + pose proof (skip_ws_length r). destruct (skip_ws r) as [|d r']; [exact I|]. destruct (d =? 93); [cbn in *; lia|].
      apply (progress_wrap JArray (elements (parse_value f) f r []) r); [lia|].
      apply (proj1 (elements_fuel (parse_value f) (parse_value f) r ltac:(intros; apply Hv; lia)
                      ltac:(reflexivity) f f r [] ltac:(lia) ltac:(lia) ltac:(lia))).
    + destruct (c =? c_quote); [apply (progress_wrap JString (string_chars r []) r); [lia | apply string_chars_progress]|].
      destruct (expect (js "true"%string) (c :: r)) eqn:E1; [apply expect_length in E1; cbn in *; lia|].
      destruct (expect (js "false"%string) (c :: r)) eqn:E2; [apply expect_length in E2; cbn in *; lia|].
      destruct (expect (js "null"%string) (c :: r)) eqn:E3; [apply expect_length in E3; cbn in *; lia|].
      apply (progress_wrap JNumber (lex_number (c :: r)) (c :: r)); [cbn in *; lia | apply lex_number_progress].
  - destruct (c =? c_lbrace); [|destruct (c =? 91)]; try reflexivity.
    + destruct (skip_ws r) as [|d r'] eqn:Er; [reflexivity|]. destruct (d =? c_rbrace); [reflexivity|].
      rewrite (proj2 (members_fuel (parse_value f) (parse_value f') r ltac:(intros; apply Hv; lia)
                        ltac:(intros; apply Ha; lia) f f' r [] ltac:(lia) ltac:(lia) ltac:(lia))).
      reflexivity.
    + destruct (skip_ws r) as [|d r'] eqn:Er; [reflexivity|]. destruct (d =? 93); [reflexivity|].
      rewrite (proj2 (elements_fuel (parse_value f) (parse_value f') r ltac:(intros; apply Hv; lia)
                        ltac:(intros; apply Ha; lia) f f' r [] ltac:(lia) ltac:(lia) ltac:(lia))).
      reflexivity.
Qed.

(** The fuel of [json_parse] is one of the fuels the theorem covers. *)
Lemma parse_value_fuel_witness :
  (length (jtext "[[1],{'a':[]}]") < S (length (jtext "[[1],{'a':[]}]")))%nat /\
  (parse_value (S (length (jtext "[[1],{'a':[]}]"))) (jtext "[[1],{'a':[]}]") <> PFuel /\
   forall f', (length (jtext "[[1],{'a':[]}]") < f')%nat ->
     parse_value f' (jtext "[[1],{'a':[]}]") = parse_value (S (length (jtext "[[1],{'a':[]}]"))) (jtext "[[1],{'a':[]}]")).
Proof. split; [lia|]. apply parse_value_fuel. lia. Defined.

Example json_parse_samples :
  json_parse (jtext "{'a':'x','b':[true,null],'a':'y'}") =
    Normal (JObject [(js "a", JString (js "y")); (js "b", JArray [JBool true; JNull])]) /\
  json_parse (jtext " [1.5e2, -0.25, 0] ") =
    Normal (JArray [JNumber (of_Z 150); JNumber (ddiv (of_Z (-1)) (of_Z 4)); JNumber (S754_zero false)]) /\
  json_parse (jtext "{'__proto__':'p'}") = Normal (JObject [(js "__proto__", JString (js "p"))]) /\
  json_parse (jtext "{'a':01}") = Throw SyntaxError /\
  json_parse (jtext "{'a':'A\n\u0042'}") = Normal (JObject [(js "a", JString [65; 10; 66])]) /\
  json_parse (jtext "[0.1, 1e400, 5e-324, 2e-324]") =
    Normal (JArray [JNumber (ddiv (of_Z 1) (of_Z 10)); JNumber (S754_infinity false);
                    JNumber (S754_finite false 1 (-1074)); JNumber (S754_zero false)]).
Proof. repeat split; vm_compute; reflexivity. Qed.

End Json.
