(* ===== verification/ParseQueryString.v ===== *)
(** [parseQueryString] of [src/index.js] (lines 639-649), the query
    parser the module exports: it decodes the whole query, turns it into
    JSON text by textual replacement and hands that to [JSON.parse]
    ([Json.json_parse]).

    The value of [window.location.href] is the parameter [href], as for
    [parseUrlQuery] ([QueryString]).  [parseQueryString_refines] shows
    that on a query of well-formed [key=value] items the two parsers
    agree; [parseQueryString_no_eq_throws] and the examples show where
    they part: a value that decodes to a backslash or holds a JSON
    escape, an item without ['='], and the key [__proto__].
    [parseQueryString_strings] shows that whatever the query, a result is
    an object of strings: the JSON text is a sequence of [tokens], and a
    string the query ends early leaves the parser outside the strings of
    the text, from where the final quote can never be closed. *)

From Stdlib Require Import ZArith Lia String List.
From stdpp Require Import base decidable.
From S2P Require Import Prelude JsString Unicode Uri JsValue QueryString Binary64 Json.
Import ListNotations.
Open Scope Z_scope.

Module ParseQueryString.
Import JsString Uri JsValue QueryString Json.

(** [s.replace(/c/g, rep)] for a one-unit pattern and a replacement
    without [$]. *)
Definition replace_unit_all (c : Z) (rep : jsstring) (s : jsstring) : jsstring :=
  flat_map (fun u => if u =? c then rep else [u]) s.

(** The replacements: a backslash and a quote, then quote-comma-quote
    for ['&'] and quote-colon-quote for ['=']. *)
Definition rep_quote : jsstring := [c_bslash; c_quote].
Definition rep_amp : jsstring := [c_quote; c_comma; c_quote].
Definition rep_eq : jsstring := [c_quote; c_colon; c_quote].

(** The argument of [JSON.parse]: a brace and a quote, the decoded
    query with its quotes escaped, ['&'] and ['='] replaced, then a quote
    and a closing brace. *)
Definition json_text (decoded : jsstring) : jsstring :=
  [c_lbrace; c_quote] ++
  replace_unit_all c_eq rep_eq (replace_unit_all c_amp rep_amp (replace_unit_all c_quote rep_quote decoded)) ++
  [c_quote; c_rbrace].

Definition parseQueryString (href : jsstring) (url : option jsstring) : completion json :=
  let url := match url with Some ((_ :: _) as s) => s | _ => href end in
  let search := substring url (lastIndexOf url c_qmark + 1) in
  match search with
  | [] => Normal (JObject [])
  | _ :: _ => d <- decodeURIComponent search ;; json_parse (json_text d)
  end.

(** The object [parseUrlQuery] returns, as the JSON value of the same
    properties. *)
Definition json_of_object (o : object) : json :=
  JObject (map (fun '(k, v) => (k, JString (to_string v))) o).

(** ** Well-formed queries *)

(** A unit [JSON.parse] reads back from its escaped form: not a
    backslash, not a control character. *)
Definition json_unit (c : Z) : Prop := c <> c_bslash /\ 32 <= c.

#[export] Instance json_unit_dec c : Decision (json_unit c).
Proof. unfold json_unit. apply _. Defined.

(** An item [k=e] of the query ([QueryString.piece]) whose value [e]
    decodes to [s]: besides [good_piece], the key has no ['%'] and both
    key and decoded value are JSON units, the value without ['&'] or
    ['=']. *)
Definition json_piece (t : jsstring * jsstring * jsstring) : Prop :=
  let '(k, e, s) := t in
  good_piece t /\ ~ In c_pct k /\ Forall json_unit k /\ Forall json_unit s /\ ~ In c_amp s /\ ~ In c_eq s.

(** The item after decoding, and as the JSON text it becomes. *)
Definition dpiece (t : jsstring * jsstring * jsstring) : jsstring :=
  let '(k, _, s) := t in k ++ c_eq :: s.

Definition esc (w : jsstring) : jsstring := replace_unit_all c_quote rep_quote w.

Definition item_text (t : jsstring * jsstring * jsstring) : jsstring :=
  let '(k, _, s) := t in c_quote :: esc k ++ [c_quote; c_colon; c_quote] ++ esc s ++ [c_quote].

(** The two parsers' loops: [parseUrlQuery] stores strings, [JSON.parse]
    creates string properties. *)
Definition put_value (o : object) (t : jsstring * jsstring * jsstring) : object :=
  let '(k, _, s) := t in obj_put o k (VString s).

Definition put_json (o : list (jsstring * json)) (t : jsstring * jsstring * jsstring) : list (jsstring * json) :=
  let '(k, _, s) := t in obj_put o k (JString s).

(** *** Textual replacement *)

Lemma replace_unit_all_app c rep a b :
  replace_unit_all c rep (a ++ b) = replace_unit_all c rep a ++ replace_unit_all c rep b.
Proof. apply flat_map_app. Qed.

Lemma replace_unit_all_notin c rep w : ~ In c w -> replace_unit_all c rep w = w.
Proof.
  induction w as [|x w IH]; intros Hn; [reflexivity|]. cbn.
  destruct (Z.eqb_spec x c); [subst; cbn in Hn; tauto|].
  cbn. f_equal. apply IH. cbn in Hn. tauto.
Qed.

Lemma replace_unit_all_join c rep sep l :
  replace_unit_all c rep (join sep l) = join (replace_unit_all c rep sep) (map (replace_unit_all c rep) l).
Proof.
  induction l as [|w [|w' l] IH]; [reflexivity|reflexivity|].
  change (join sep (w :: w' :: l)) with (w ++ sep ++ join sep (w' :: l)).
  rewrite !replace_unit_all_app, IH. reflexivity.
Qed.

Lemma In_replace_unit_all c rep w x :
  In x (replace_unit_all c rep w) -> In x rep \/ In x w.
Proof.
  unfold replace_unit_all. rewrite in_flat_map. intros (u & Hu & Hx).
  destruct (u =? c); [left; exact Hx | right; destruct Hx as [<-|[]]; exact Hu].
Qed.

(** Escaping quotes adds no ['&'] or ['=']. *)
Lemma esc_notin c w : c <> c_bslash -> c <> c_quote -> ~ In c w -> ~ In c (esc w).
Proof.
  intros H1 H2 Hw Hin. apply In_replace_unit_all in Hin as [[<-|[<-|[]]]|Hin]; tauto.
Qed.

Lemma join_nonempty_length (sep : jsstring) (l : list jsstring) :
  Forall (fun w => w <> []) l -> (length l <= length (join sep l))%nat.
Proof.
  induction l as [|w [|w' l] IH]; intros Hf; [cbn; lia| |].
  - inversion Hf; subst. destruct w; [congruence|]. cbn. lia.
  - inversion Hf as [|? ? Hw Hl]; subst.
    change (join sep (w :: w' :: l)) with (w ++ sep ++ join sep (w' :: l)).
    rewrite !length_app. specialize (IH Hl). destruct w; [congruence|]. cbn in *. lia.
Qed.

Lemma join_quoted {T} (g : T -> jsstring) l rest :
  l <> [] ->
  c_quote :: join rep_amp (map g l) ++ [c_quote] ++ rest =
  join [c_comma] (map (fun x => c_quote :: g x ++ [c_quote]) l) ++ rest.
Proof.
  induction l as [|x [|y l] IH]; intros Hne; [congruence| |].
  - cbn. rewrite <- app_assoc. reflexivity.
  - specialize (IH ltac:(discriminate)). cbn [map] in *.
    change (join rep_amp (g x :: g y :: map g l)) with (g x ++ rep_amp ++ join rep_amp (g y :: map g l)).
    change (join [c_comma] (?a :: ?b :: ?l')) with (a ++ [c_comma] ++ join [c_comma] (b :: l')).
    rewrite <- !app_assoc. cbn [app]. rewrite <- IH, <- !app_assoc. reflexivity.
Qed.

(** The JSON text of a decoded query of items. *)
Lemma json_text_items ts :
  ts <> [] -> Forall json_piece ts ->
  json_text (join [c_amp] (map dpiece ts)) = c_lbrace :: join [c_comma] (map item_text ts) ++ [c_rbrace].
Proof.
  intros Hne Hts. unfold json_text.
  assert (Hq : forall t, json_piece t -> replace_unit_all c_quote rep_quote (dpiece t) = esc (fst (fst t)) ++ c_eq :: esc (snd t)).
  { intros [[k e] s] _. cbn [dpiece fst snd]. rewrite replace_unit_all_app. reflexivity. }
  rewrite replace_unit_all_join, (replace_unit_all_notin _ _ [c_amp]) by (cbn; unfold c_amp, c_quote; lia).
  rewrite map_map, (map_ext_Forall _ (fun t => esc (fst (fst t)) ++ c_eq :: esc (snd t))) by (eapply Forall_impl; [|exact Hts]; exact Hq).
  rewrite replace_unit_all_join, map_map.
  rewrite (map_ext_Forall _ (fun t => esc (fst (fst t)) ++ c_eq :: esc (snd t))).
  2: { eapply Forall_impl; [|exact Hts]. intros [[k e] s] (Hg & _ & _ & _ & Ha & _). cbn [fst snd].
       destruct Hg as (Hk & _). destruct (plain_notin k Hk) as (Hka & _).
       apply replace_unit_all_notin. intros Hin. apply in_app_or in Hin as [Hin|[Hin|Hin]].
       - revert Hin. apply esc_notin; [unfold c_amp, c_bslash | unfold c_amp, c_quote|]; lia || exact Hka.
       - unfold c_eq, c_amp in Hin. lia.
       - revert Hin. apply esc_notin; [unfold c_amp, c_bslash | unfold c_amp, c_quote|]; lia || exact Ha. }
  rewrite replace_unit_all_join, (replace_unit_all_notin _ _ rep_amp) by (cbn; unfold c_eq, c_quote, c_comma; lia).
  rewrite map_map.
  rewrite (map_ext_Forall _ (fun t => esc (fst (fst t)) ++ rep_eq ++ esc (snd t))).
  2: { eapply Forall_impl; [|exact Hts]. intros [[k e] s] (Hg & _ & _ & _ & _ & He). cbn [fst snd].
       destruct Hg as (Hk & _). destruct (plain_notin k Hk) as (_ & Hke & _).
       rewrite replace_unit_all_app.
       change (replace_unit_all c_eq rep_eq (c_eq :: esc s)) with (rep_eq ++ replace_unit_all c_eq rep_eq (esc s)).
       rewrite !replace_unit_all_notin; [reflexivity| |].
       - apply esc_notin; [unfold c_eq, c_bslash | unfold c_eq, c_quote|]; lia || exact He.
       - apply esc_notin; [unfold c_eq, c_bslash | unfold c_eq, c_quote|]; lia || exact Hke. }
  clear Hq Hts. cbn [app]. f_equal.
  change [c_quote; c_rbrace] with ([c_quote] ++ [c_rbrace]).
  rewrite join_quoted by exact Hne. f_equal. f_equal. apply map_ext. intros [[k e] s].
  cbn [item_text fst snd]. rewrite <- !app_assoc. reflexivity.
Qed.

(** *** Decoding a query of items *)

Lemma Decode_not_pct c t :
  c <> c_pct -> decodeURIComponent (c :: t) = cons c <$$> decodeURIComponent t.
Proof. intros Hc. unfold decodeURIComponent. cbn [Decode]. rewrite (proj2 (Z.eqb_neq c c_pct) Hc). reflexivity. Qed.

Lemma decode_piece_app t rest :
  json_piece t -> decodeURIComponent (piece t ++ rest) = app (dpiece t) <$$> decodeURIComponent rest.
Proof.
  destruct t as [[k e] s]. intros ((_ & _ & Hd & _) & Hk & _). cbn [piece dpiece].
  cbn [percent_decode ecma_codec] in Hd. unfold decodeURIComponent in *.
  rewrite <- app_assoc, (Decode_app _ k _ k) by (apply Decode_plain; exact Hk). cbn [app].
  fold (decodeURIComponent (c_eq :: e ++ rest)). rewrite Decode_not_pct by (unfold c_eq, c_pct; lia).
  unfold decodeURIComponent. rewrite (Decode_app _ e _ s Hd), !cmap_cmap.
  destruct (Decode _ rest); cbn; rewrite <- ?app_assoc; reflexivity.
Qed.

Lemma decode_items ts :
  ts <> [] -> Forall json_piece ts ->
  decodeURIComponent (join [c_amp] (map piece ts)) = Normal (join [c_amp] (map dpiece ts)).
Proof.
  induction ts as [|t [|t' ts] IH]; intros Hne Hts; [congruence| |]; inversion Hts as [|? ? Ht Hts']; subst.
  - cbn [map join]. rewrite <- (app_nil_r (piece t)), decode_piece_app by exact Ht.
    cbn. rewrite app_nil_r. reflexivity.
  - cbn [map]. change (join ?sep (?a :: ?b :: ?l)) with (a ++ sep ++ join sep (b :: l)).
    rewrite decode_piece_app by exact Ht. cbn [app].
    rewrite Decode_not_pct by (unfold c_amp, c_pct; lia).
    specialize (IH ltac:(discriminate) Hts'). cbn [map] in IH. rewrite IH. reflexivity.
Qed.

(** *** Parsing the JSON text *)

Lemma string_chars_esc k rest acc :
  Forall json_unit k -> string_chars (esc k ++ c_quote :: rest) acc = POk (rev acc ++ k) rest.
Proof.
  revert acc. induction k as [|x k IH]; intros acc Hk.
  - cbn. rewrite app_nil_r. reflexivity.
  - inversion Hk as [|? ? (Hx1 & Hx2) Hk']; subst. unfold esc. cbn [replace_unit_all flat_map].
    destruct (Z.eqb_spec x c_quote) as [->|Hq].
    + cbn -[esc]. fold (esc k). rewrite IH by exact Hk'. cbn. rewrite <- app_assoc. reflexivity.
    + cbn [app string_chars]. fold (esc k).
      rewrite (proj2 (Z.eqb_neq _ _) Hq), (proj2 (Z.eqb_neq _ _) Hx1), (proj2 (Z.ltb_ge x 32)) by lia.
      rewrite IH by exact Hk'. cbn. rewrite <- app_assoc. reflexivity.
Qed.

Lemma parse_value_string f s rest :
  Forall json_unit s -> parse_value (S f) (c_quote :: esc s ++ c_quote :: rest) = POk (JString s) rest.
Proof. intros Hs. cbn -[string_chars esc]. rewrite string_chars_esc by exact Hs. reflexivity. Qed.

(** One member of the text, key and value as quoted strings, followed
    by [','] or ['}']. *)
Lemma members_item f F k e s c X acc :
  json_piece (k, e, s) -> c = c_comma \/ c = c_rbrace ->
  members (parse_value (S f)) (S F) (item_text (k, e, s) ++ c :: X) acc =
    if c =? c_comma then members (parse_value (S f)) F X (obj_put acc k (JString s))
    else POk (obj_put acc k (JString s)) X.
Proof.
  intros (_ & _ & Hk & Hs & _) Hc.
  replace (item_text (k, e, s) ++ c :: X)
    with (c_quote :: (esc k ++ c_quote :: c_colon :: c_quote :: esc s ++ c_quote :: c :: X))
    by (cbn [item_text app]; rewrite <- ?app_assoc; cbn [app]; rewrite <- ?app_assoc; reflexivity).
  cbn [members skip_ws]. cbn -[string_chars esc parse_value members].
  rewrite string_chars_esc by exact Hk. cbn -[esc parse_value members].
  rewrite parse_value_string by exact Hs.
  destruct Hc as [->| ->]; reflexivity.
Qed.

Lemma members_items f ts F rest acc :
  ts <> [] -> Forall json_piece ts -> (length ts <= F)%nat ->
  members (parse_value (S f)) F (join [c_comma] (map item_text ts) ++ c_rbrace :: rest) acc =
    POk (fold_left put_json ts acc) rest.
Proof.
  revert F acc. induction ts as [|[[k e] s] [|t' ts] IH]; intros F acc Hne Hts HF; [congruence| |];
    inversion Hts as [|? ? Ht Hts']; subst; (destruct F as [|F]; [cbn in HF; lia|]).
  - cbn [map join]. rewrite members_item by (assumption || (right; reflexivity)). reflexivity.
  - cbn [map]. change (join ?sep (?a :: ?b :: ?l)) with (a ++ sep ++ join sep (b :: l)).
    rewrite <- app_assoc. cbn [app]. rewrite members_item by (assumption || (left; reflexivity)).
    cbn [Z.eqb c_comma Pos.eqb]. apply IH; [discriminate | exact Hts' | cbn in *; lia].
Qed.

(** [JSON.parse] on an object text whose first member starts at once. *)
Lemma parse_value_object f r Y :
  skip_ws r = c_quote :: Y ->
  parse_value (S f) (c_lbrace :: r) =
    match members (parse_value f) f r [] with POk o t => POk (JObject o) t | PErr => PErr | PFuel => PFuel end.
Proof. intros H. cbn [parse_value skip_ws]. cbn -[members parse_value skip_ws]. rewrite H. reflexivity. Qed.

(** *** The two loops *)

Lemma set_string_property_put o k s :
  k <> proto_key -> set_string_property o k s = obj_put o k (VString s).
Proof. intros Hk. unfold set_string_property. rewrite bool_decide_false by exact Hk. reflexivity. Qed.

Lemma parse_items_fold ts acc :
  Forall json_piece ts -> cfold_left parse_item (map piece ts) acc = Normal (fold_left put_value ts acc).
Proof.
  revert acc. induction ts as [|[[k e] s] ts IH]; intros acc Hts; [reflexivity|].
  inversion Hts as [|? ? Ht Hts']; subst. destruct Ht as (Hg & _).
  cbn [map cfold_left fold_left]. rewrite parse_item_piece by exact Hg.
  destruct Hg as (_ & _ & _ & Hp). rewrite set_string_property_put by exact Hp. apply IH, Hts'.
Qed.

Lemma json_of_obj_put o k s :
  map (fun '(k, v) => (k, JString (to_string v))) (obj_put o k (VString s)) =
  obj_put (map (fun '(k, v) => (k, JString (to_string v))) o) k (JString s).
Proof.
  induction o as [|[k' v'] o IH]; [reflexivity|]. cbn [obj_put map].
  destruct (bool_decide (k' = k)); cbn; [reflexivity | rewrite IH; reflexivity].
Qed.

Lemma json_of_fold ts acc :
  map (fun '(k, v) => (k, JString (to_string v))) (fold_left put_value ts acc) =
  fold_left put_json ts (map (fun '(k, v) => (k, JString (to_string v))) acc).
Proof.
  revert acc. induction ts as [|[[k e] s] ts IH]; intros acc; [reflexivity|].
  cbn [fold_left put_value put_json]. rewrite IH, json_of_obj_put. reflexivity.
Qed.

(** *** The refinement *)

Lemma join_cons_prefix (sep w : jsstring) l : exists X, join sep (w :: l) = w ++ X.
Proof. destruct l as [|w' l]; [exists []; rewrite app_nil_r; reflexivity | eexists; reflexivity]. Qed.

(** Both parsers find the query [q] in [q] and in ['?' + q]. *)
Lemma search_query url q :
  ~ In c_qmark q -> q <> [] -> url = q \/ url = c_qmark :: q ->
  substring url (lastIndexOf url c_qmark + 1) = q /\ strip_leading_qmark url = q.
Proof.
  intros Hq Hne [-> | ->].
  - split; [apply substring_lastIndexOf_notin; exact Hq|].
    apply strip_leading_qmark_other. destruct q as [|x q]; [congruence|]. cbn. intros [= ->]. apply Hq. left. reflexivity.
  - split; [exact (substring_lastIndexOf_last [] q c_qmark Hq) | reflexivity].
Qed.

(** C8: on a query of well-formed items (with or without a leading ['?']),
    [parseQueryString] and [parseUrlQuery] agree: the latter returns an
    object [o] and the former the JSON object with the same properties,
    in the same order, each value a string.  Repeated keys are allowed;
    both keep the first position and the last value. *)
Theorem parseQueryString_refines href ts url :
  ts <> [] -> Forall json_piece ts ->
  url = join [c_amp] (map piece ts) \/ url = c_qmark :: join [c_amp] (map piece ts) ->
  exists o, parseUrlQuery href (Some url) = Normal o /\
            parseQueryString href (Some url) = Normal (json_of_object o).
Proof.
  intros Hne Hts Hurl.
  assert (Hg : Forall good_piece ts) by (eapply Forall_impl; [|exact Hts]; intros [[k e] s] H; exact (proj1 H)).
  pose proof (query_no_qmark ts Hg) as Hq.
  assert (Hsplit : split c_amp (join [c_amp] (map piece ts)) = map piece ts)
    by (apply split_join; [destruct ts; cbn; congruence | apply pieces_no_amp, Hg]).
  assert (Hqne : join [c_amp] (map piece ts) <> []).
  { destruct ts as [|[[k e] s] ts]; [congruence|]. cbn [map].
    destruct (join_cons_prefix [c_amp] (piece (k, e, s)) (map piece ts)) as [X ->].
    cbn [piece]. destruct k; discriminate. }
  destruct (search_query url _ Hq Hqne Hurl) as [Hsearch Hstrip].
  remember (join [c_amp] (map piece ts)) as q eqn:Eq.
  destruct url as [|u url']; [destruct Hurl; congruence|].
  unfold parseUrlQuery, parseQueryString. cbv beta iota zeta. rewrite Hsearch, Hstrip.
  destruct q as [|x q']; [congruence|]. rewrite Hsplit.
  exists (fold_left put_value ts []). split; [apply parse_items_fold, Hts|].
  rewrite Eq, decode_items by assumption. cbn [cbind]. rewrite json_text_items by assumption.
  set (J := join [c_comma] (map item_text ts)).
  assert (HJ : exists Y, skip_ws (J ++ [c_rbrace]) = c_quote :: Y).
  { destruct ts as [|[[k e] s] ts]; [congruence|]. unfold J. cbn [map].
    destruct (join_cons_prefix [c_comma] (item_text (k, e, s)) (map item_text ts)) as [X ->].
    cbn [item_text app]. eexists. reflexivity. }
  assert (HL : (length ts <= length (J ++ [c_rbrace]))%nat).
  { rewrite length_app. pose proof (join_nonempty_length [c_comma] (map item_text ts)) as H.
    rewrite length_map in H. enough (length ts <= length J)%nat by lia. apply H.
    apply Forall_map, Forall_forall. intros [[k e] s] _. discriminate. }
  destruct HJ as [Y HJ]. unfold json_parse. cbn [length]. rewrite (parse_value_object _ _ Y HJ).
  rewrite length_app, Nat.add_1_r in *. unfold J at 3. rewrite members_items by (assumption || lia).
  cbn. unfold json_of_object. rewrite json_of_fold. reflexivity.
Qed.
(** The query [?a=x%20y&b=1&a=2]. *)
Definition sample_items : list (jsstring * jsstring * jsstring) :=
  [(js "a", js "x%20y", js "x y"); (js "b", js "1", js "1"); (js "a", js "2", js "2")].

Lemma parseQueryString_refines_witness :
  (sample_items <> [] /\ Forall json_piece sample_items /\
   (c_qmark :: join [c_amp] (map piece sample_items) = join [c_amp] (map piece sample_items) \/
    c_qmark :: join [c_amp] (map piece sample_items) = c_qmark :: join [c_amp] (map piece sample_items))) /\
  exists o, parseUrlQuery (js "http://h/p") (Some (c_qmark :: join [c_amp] (map piece sample_items))) = Normal o /\
            parseQueryString (js "http://h/p") (Some (c_qmark :: join [c_amp] (map piece sample_items))) =
              Normal (json_of_object o).
Proof.
  assert (H1 : sample_items <> []) by discriminate.
  assert (H2 : Forall json_piece sample_items).
  { unfold sample_items. repeat apply Forall_cons; try apply Forall_nil;
      cbn [json_piece good_piece]; repeat split;
      first [ vm_compute; reflexivity | apply (bool_decide_unpack _); vm_compute; reflexivity]. }
  assert (H3 : c_qmark :: join [c_amp] (map piece sample_items) = join [c_amp] (map piece sample_items) \/
               c_qmark :: join [c_amp] (map piece sample_items) = c_qmark :: join [c_amp] (map piece sample_items))
    by (right; reflexivity).
  split; [tauto|]. exact (parseQueryString_refines _ sample_items _ H1 H2 H3).
Defined.

(** *** A first item without ['='] *)

Lemma json_text_key_amp k r :
  ~ In c_amp k -> ~ In c_eq k ->
  exists T, json_text (k ++ c_amp :: r) = c_lbrace :: c_quote :: esc k ++ c_quote :: c_comma :: T.
Proof.
  intros Ha He. unfold json_text. fold (esc (k ++ c_amp :: r)). unfold esc at 1.
  rewrite replace_unit_all_app. fold (esc k).
  change (replace_unit_all c_quote rep_quote (c_amp :: r)) with (c_amp :: esc r).
  rewrite replace_unit_all_app, (replace_unit_all_notin c_amp) by (apply esc_notin; unfold c_amp, c_bslash, c_quote; lia || exact Ha).
  change (replace_unit_all c_amp rep_amp (c_amp :: esc r)) with (rep_amp ++ replace_unit_all c_amp rep_amp (esc r)).
  rewrite replace_unit_all_app, (replace_unit_all_notin c_eq) by (apply esc_notin; unfold c_eq, c_bslash, c_quote; lia || exact He).
  rewrite replace_unit_all_app, (replace_unit_all_notin c_eq rep_eq rep_amp) by (cbn; unfold c_eq, c_quote, c_comma; lia).
  eexists. cbn [app]. rewrite <- !app_assoc. reflexivity.
Qed.

(** C9: an item without ['='] followed by ['&'] gives JSON text with a
    comma where a colon is due: [parseQueryString] throws SyntaxError
    whatever follows (once it decodes), where [parseUrlQuery] stores the
    string ["undefined"] under the item. *)
Theorem parseQueryString_no_eq_throws href k rest r :
  Forall json_unit k -> ~ In c_pct k -> ~ In c_amp k -> ~ In c_eq k -> ~ In c_qmark k -> ~ In c_qmark rest ->
  decodeURIComponent rest = Normal r ->
  parseQueryString href (Some (c_qmark :: k ++ c_amp :: rest)) = Throw SyntaxError.
Proof.
  intros Hk Hp Ha He Hq Hqr Hr.
  assert (Hq' : ~ In c_qmark (k ++ c_amp :: rest))
    by (intros Hin; apply in_app_or in Hin as [Hin|[Hin|Hin]]; [exact (Hq Hin) | unfold c_amp, c_qmark in Hin; lia | exact (Hqr Hin)]).
  unfold parseQueryString. cbv beta iota zeta.
  assert (Hne : k ++ c_amp :: rest <> []) by (destruct k; discriminate).
  rewrite (proj1 (search_query (c_qmark :: k ++ c_amp :: rest) _ Hq' Hne (or_intror eq_refl))).
  destruct (k ++ c_amp :: rest) as [|x y] eqn:Ek; [congruence|]. rewrite <- Ek.
  unfold decodeURIComponent. rewrite (Decode_app _ k _ k) by (apply Decode_plain; exact Hp).
  fold (decodeURIComponent (c_amp :: rest)). rewrite Decode_not_pct, Hr by (unfold c_amp, c_pct; lia).
  cbn [cmap cbind]. destruct (json_text_key_amp k r Ha He) as [T ->].
  unfold json_parse. rewrite (parse_value_object _ _ (esc k ++ c_quote :: c_comma :: T)) by reflexivity.
  cbn [length]. rewrite length_app. cbn [length]. rewrite Nat.add_succ_r.
  cbn [members skip_ws]. cbn -[string_chars esc parse_value].
  rewrite string_chars_esc by exact Hk. reflexivity.
Qed.

Lemma parseQueryString_no_eq_throws_witness :
  (Forall json_unit (js "flag") /\ ~ In c_pct (js "flag") /\ ~ In c_amp (js "flag") /\ ~ In c_eq (js "flag") /\
   ~ In c_qmark (js "flag") /\ ~ In c_qmark (js "b=1") /\ decodeURIComponent (js "b=1") = Normal (js "b=1")) /\
  parseQueryString (js "http://h/p") (Some (c_qmark :: js "flag" ++ c_amp :: js "b=1")) = Throw SyntaxError.
Proof.
  assert (H : Forall json_unit (js "flag") /\ ~ In c_pct (js "flag") /\ ~ In c_amp (js "flag") /\ ~ In c_eq (js "flag") /\
              ~ In c_qmark (js "flag") /\ ~ In c_qmark (js "b=1") /\ decodeURIComponent (js "b=1") = Normal (js "b=1"))
    by (repeat split; first [ vm_compute; reflexivity | apply (bool_decide_unpack _); vm_compute; reflexivity ]).
  split; [exact H|]. destruct H as (H1 & H2 & H3 & H4 & H5 & H6 & H7).
  exact (parseQueryString_no_eq_throws _ _ _ _ H1 H2 H3 H4 H5 H6 H7).
Defined.

(** *** Termination of the parse *)

(** The [JSON.parse] call of [parseQueryString] terminates on the
    text built from any decoded query [d]: the parser's fuel, one more
    than the text's length, is never exhausted, and any larger fuel
    gives the same result. *)
Theorem parseQueryString_parse_terminates d f :
  (length (json_text d) < f)%nat ->
  parse_value (S (length (json_text d))) (json_text d) <> PFuel /\
  parse_value f (json_text d) = parse_value (S (length (json_text d))) (json_text d).
Proof.
  intros Hf. destruct (parse_value_fuel (S (length (json_text d))) (json_text d) ltac:(lia)) as [H1 H2].
  split; [exact H1 | apply H2; exact Hf].
Qed.

Lemma parseQueryString_parse_terminates_witness :
  (length (json_text (js "a=[1,{}]")) < 100)%nat /\
  (parse_value (S (length (json_text (js "a=[1,{}]")))) (json_text (js "a=[1,{}]")) <> PFuel /\
   parse_value 100 (json_text (js "a=[1,{}]")) = parse_value (S (length (json_text (js "a=[1,{}]")))) (json_text (js "a=[1,{}]"))).
Proof.
  assert (H : (length (json_text (js "a=[1,{}]")) < 100)%nat) by (vm_compute; lia).
  split; [exact H | exact (parseQueryString_parse_terminates _ _ H)].
Defined.

(** ** Only strings come out *)

(** The JSON text is made of tokens: a unit other than a quote (from the
    query), an escaped quote (from a quote of the query), the three units
    a ['&'] or a ['='] becomes, and the closing quote and brace. *)
Inductive tokens : jsstring -> Prop :=
| tk_end : tokens [c_quote; c_rbrace]
| tk_char c s : c <> c_quote -> tokens s -> tokens (c :: s)
| tk_esc s : tokens s -> tokens (c_bslash :: c_quote :: s)
| tk_amp s : tokens s -> tokens (c_quote :: c_comma :: c_quote :: s)
| tk_eq s : tokens s -> tokens (c_quote :: c_colon :: c_quote :: s).

(** What a unit of the decoded query becomes. *)
Definition tokf (u : Z) : jsstring :=
  if u =? c_quote then rep_quote else if u =? c_amp then rep_amp else if u =? c_eq then rep_eq else [u].

Lemma json_text_tokens d :
  exists T, json_text d = c_lbrace :: c_quote :: T /\ tokens T.
Proof.
  exists (flat_map tokf d ++ [c_quote; c_rbrace]). split.
  - unfold json_text. cbn [app]. do 2 f_equal. f_equal.
    induction d as [|u d IH]; [reflexivity|].
    change (u :: d) with ([u] ++ d). rewrite !replace_unit_all_app, flat_map_app, IH. f_equal.
    unfold tokf. cbn.
    destruct (Z.eqb_spec u c_quote) as [->|H1]; [reflexivity|].
    destruct (Z.eqb_spec u c_amp) as [->|H2]; [reflexivity|].
    destruct (Z.eqb_spec u c_eq) as [->|H3]; [reflexivity|].
    repeat (cbn; match goal with |- context [?a =? ?b] =>
      destruct (Z.eqb_spec a b); [exfalso; unfold c_quote, c_amp, c_eq in *; lia|] end).
    reflexivity.
  - induction d as [|u d IH]; [constructor|]. cbn [flat_map]. rewrite <- app_assoc. unfold tokf.
    destruct (Z.eqb_spec u c_quote); [apply tk_esc, IH|].
    destruct (Z.eqb_spec u c_amp); [apply tk_amp, IH|].
    destruct (Z.eqb_spec u c_eq); [apply tk_eq, IH|]. apply tk_char; assumption.
Qed.

(** A prefix of units that are neither quotes nor backslashes. *)
Definition plain_prefix (s t : jsstring) : Prop :=
  exists p, s = p ++ t /\ Forall (fun x => x <> c_quote /\ x <> c_bslash) p.

Lemma tokens_plain_prefix s t : tokens s -> plain_prefix s t -> tokens t.
Proof.
  intros Hs (p & -> & Hp). induction Hp as [|x p (Hx1 & Hx2) Hp IH]; [exact Hs|].
  inversion Hs; subst; try (exfalso; unfold c_quote, c_bslash in *; lia). apply IH. assumption.
Qed.

Lemma plain_prefix_refl s : plain_prefix s s.
Proof. exists []. split; [reflexivity | constructor]. Qed.

Lemma plain_prefix_cons c s t : c <> c_quote -> c <> c_bslash -> plain_prefix s t -> plain_prefix (c :: s) t.
Proof. intros H1 H2 (p & -> & Hp). exists (c :: p). split; [reflexivity | constructor; auto]. Qed.

Lemma plain_prefix_trans s t u : plain_prefix s t -> plain_prefix t u -> plain_prefix s u.
Proof.
  intros (p & -> & Hp) (q & -> & Hq). exists (p ++ q). rewrite app_assoc.
  split; [reflexivity | apply Forall_app; split; assumption].
Qed.

Lemma skip_ws_plain s : plain_prefix s (skip_ws s).
Proof.
  induction s as [|c s IH]; [apply plain_prefix_refl|]. cbn.
  destruct (is_json_ws c) eqn:E; [|apply plain_prefix_refl].
  apply plain_prefix_cons; [| |exact IH]; intros ->; discriminate.
Qed.

Lemma json_digits_plain s : plain_prefix s (snd (json_digits s)).
Proof.
  induction s as [|c s IH]; [apply plain_prefix_refl|]. cbn.
  destruct (is_ascii_digit c) eqn:E; [|apply plain_prefix_refl].
  destruct (json_digits s) as [ds t]. cbn in *.
  unfold is_ascii_digit in E. apply andb_prop in E as [E1 E2]. apply Z.leb_le in E1, E2.
  apply plain_prefix_cons; [unfold c_quote; lia | unfold c_bslash; lia | exact IH].
Qed.

Lemma lex_number_plain s : match lex_number s with POk _ t => plain_prefix s t | _ => True end.
Proof.
  unfold lex_number.
  assert (Hsg : plain_prefix s (snd (lex_sign s))).
  { destruct s as [|c r]; [apply plain_prefix_refl|]. cbn.
    destruct (Z.eqb_spec c c_minus) as [->|]; [apply plain_prefix_cons; [discriminate|discriminate|apply plain_prefix_refl] | apply plain_prefix_refl]. }
  destruct (lex_sign s) as [neg s1]. cbn [snd] in Hsg.
  assert (Hi : plain_prefix s1 (snd (lex_int s1))).
  { destruct s1 as [|c r]; [apply plain_prefix_refl|]. cbn.
    destruct (Z.eqb_spec c 48) as [->|]; [apply plain_prefix_cons; [discriminate|discriminate|apply plain_prefix_refl]|].
    apply (json_digits_plain (c :: r)). }
  destruct (lex_int s1) as [[|d ip] s2]; [exact I|]. cbn [snd] in Hi.
  assert (Hf : plain_prefix s2 (snd (fst (lex_frac s2)))).
  { destruct s2 as [|c r]; [apply plain_prefix_refl|]. cbn.
    destruct (Z.eqb_spec c 46) as [->|]; [|apply plain_prefix_refl].
    pose proof (json_digits_plain r). destruct (json_digits r). cbn in *.
    apply plain_prefix_cons; [discriminate|discriminate|assumption]. }
  destruct (lex_frac s2) as [[fp s3] okf]. cbn [fst snd] in Hf.
  assert (He : plain_prefix s3 (snd (fst (lex_exp s3)))).
  { destruct s3 as [|c r]; [apply plain_prefix_refl|]. cbn.
    destruct ((c =? 101) || (c =? 69)) eqn:Ec; [|apply plain_prefix_refl].
    assert (Hc : c <> c_quote /\ c <> c_bslash)
      by (apply orb_prop in Ec as [Ec|Ec]; apply Z.eqb_eq in Ec; subst; split; discriminate).
    destruct (match r with x :: r' => _ | [] => _ end) as [sg r1] eqn:E1.
    assert (Hr1 : plain_prefix r r1).
    { destruct r as [|x r']; [injection E1 as _ <-; apply plain_prefix_refl|].
      destruct (Z.eqb_spec x 43) as [->|]; [injection E1 as _ <-; apply plain_prefix_cons; [discriminate|discriminate|apply plain_prefix_refl]|].
      destruct (Z.eqb_spec x c_minus) as [->|]; injection E1 as _ <-;
        [apply plain_prefix_cons; [discriminate|discriminate|apply plain_prefix_refl] | apply plain_prefix_refl]. }
    pose proof (json_digits_plain r1). destruct (json_digits r1). cbn in *.
    apply plain_prefix_cons; [apply Hc | apply Hc |]. eapply plain_prefix_trans; eassumption. }
  destruct (lex_exp s3) as [[ex s4] oke]. cbn [fst snd] in He.
  destruct (okf && oke); [|exact I].
  eapply plain_prefix_trans; [exact Hsg|]. eapply plain_prefix_trans; [exact Hi|].
  eapply plain_prefix_trans; [exact Hf | exact He].
Qed.

Lemma expect_plain w s t :
  Forall (fun x => x <> c_quote /\ x <> c_bslash) w -> expect w s = Some t -> plain_prefix s t.
Proof.
  revert s. induction w as [|x w IH]; intros s Hw H; cbn in H.
  - injection H as <-. apply plain_prefix_refl.
  - destruct s as [|c s]; [discriminate|]. inversion Hw as [|? ? (H1 & H2) Hw']; subst.
    destruct (Z.eqb_spec x c) as [<-|]; [|discriminate]. apply plain_prefix_cons; auto.
Qed.

Lemma tokens_skip_ws s : tokens s -> tokens (skip_ws s).
Proof. intros H. exact (tokens_plain_prefix _ _ H (skip_ws_plain s)). Qed.

Lemma tokens_char c r : tokens (c :: r) -> c <> c_quote -> c <> c_bslash -> tokens r.
Proof. intros H H1 H2. exact (tokens_plain_prefix _ _ H (plain_prefix_cons c r r H1 H2 (plain_prefix_refl r))). Qed.

(** A step whose rest, when it succeeds, satisfies [P]. *)
Definition keeps {A} (P : jsstring -> Prop) (p : presult A) : Prop :=
  match p with POk _ r => P r | _ => True end.

Lemma keeps_wrap {A B} (g : A -> B) P (p : presult A) :
  keeps P p -> keeps P (match p with POk a t => POk (g a) t | PErr => PErr | PFuel => PFuel end).
Proof. destruct p; cbn; tauto. Qed.

(** *** Outside a string *)

(** A string opened outside the strings of the text is the ["," ] or
    [":"] of a separator, or the final quote, which never closes. *)
Lemma string_chars_outside r acc : tokens (c_quote :: r) -> keeps tokens (string_chars r acc).
Proof.
  intros H. inversion H as [| c s Hc Hs | s Hs | s Hs | s Hs]; subst; try congruence; cbn; trivial.
Qed.

Section Outside.
Variable value : jsstring -> presult json.
Hypothesis value_outside : forall s, tokens s -> keeps tokens (value s).

(** The units after a value: [','] and more members, or ['}']. *)
Lemma after_value_outside {A} (k : jsstring -> presult A) (ok : A) r3 :
  tokens r3 -> (forall r4, tokens r4 -> keeps tokens (k r4)) ->
  keeps tokens (match skip_ws r3 with
                | e :: r4 => if e =? c_comma then k r4 else if e =? c_rbrace then POk ok r4 else PErr
                | [] => PErr end).
Proof.
  intros H3 Hk. pose proof (tokens_skip_ws r3 H3) as Hs.
  destruct (skip_ws r3) as [|e r4]; [exact I|].
  destruct (Z.eqb_spec e c_comma) as [->|]; [apply Hk; eapply tokens_char; [exact Hs | discriminate | discriminate]|].
  destruct (Z.eqb_spec e c_rbrace) as [->|]; [cbn; eapply tokens_char; [exact Hs | discriminate | discriminate] | exact I].
Qed.

Lemma members_outside F s acc : tokens s -> keeps tokens (members value F s acc).
Proof.
  revert s acc. induction F as [|F IH]; intros s acc Hs; [exact I|]. cbn [members].
  pose proof (tokens_skip_ws s Hs) as Hw. destruct (skip_ws s) as [|c r]; [exact I|].
  destruct (Z.eqb_spec c c_quote) as [->|]; [|exact I].
  pose proof (string_chars_outside r [] Hw) as Hk. destruct (string_chars r []) as [k r1| |]; try exact I.
  cbn in Hk. pose proof (tokens_skip_ws r1 Hk) as Hw1. destruct (skip_ws r1) as [|d r2]; [exact I|].
  destruct (Z.eqb_spec d c_colon) as [->|]; [|exact I].
  assert (H2 : tokens r2) by (eapply tokens_char; [exact Hw1 | discriminate | discriminate]).
  pose proof (value_outside r2 H2) as Hv. destruct (value r2) as [v r3| |]; try exact I.
  apply (after_value_outside (fun r4 => members value F r4 (obj_put acc k v))); [exact Hv|].
  intros r4 H4. apply IH, H4.
Qed.

Lemma elements_outside F s acc : tokens s -> keeps tokens (elements value F s acc).
Proof.
  revert s acc. induction F as [|F IH]; intros s acc Hs; [exact I|]. cbn [elements].
  pose proof (value_outside s Hs) as Hv. destruct (value s) as [v r| |]; try exact I.
  pose proof (tokens_skip_ws r Hv) as Hw. destruct (skip_ws r) as [|e r']; [exact I|].
  destruct (Z.eqb_spec e c_comma) as [->|]; [apply IH; eapply tokens_char; [exact Hw | discriminate | discriminate]|].
  destruct (Z.eqb_spec e 93) as [->|]; [cbn; eapply tokens_char; [exact Hw | discriminate | discriminate] | exact I].
Qed.

End Outside.

Lemma literal_plain w : w = js "true" \/ w = js "false" \/ w = js "null" ->
  Forall (fun x => x <> c_quote /\ x <> c_bslash) w.
Proof. intros [ -> | [ -> | -> ] ]; repeat constructor; discriminate. Qed.

(** Outside the strings of the text, [JSON.parse] leaves a rest made of
    tokens. *)
Lemma parse_value_outside f s : tokens s -> keeps tokens (parse_value f s).
Proof.
  revert s. induction f as [|f IH]; intros s Hs; [exact I|]. cbn [parse_value].
  pose proof (tokens_skip_ws s Hs) as Hw. destruct (skip_ws s) as [|c r]; [exact I|].
  destruct (Z.eqb_spec c c_lbrace) as [->|].
  { assert (Hr : tokens r) by (eapply tokens_char; [exact Hw | discriminate | discriminate]).
    pose proof (tokens_skip_ws r Hr) as Hw'. destruct (skip_ws r) as [|d r']; [exact I|].
    destruct (Z.eqb_spec d c_rbrace) as [->|]; [cbn; eapply tokens_char; [exact Hw' | discriminate | discriminate]|].
    apply keeps_wrap, members_outside; assumption. }
  destruct (Z.eqb_spec c 91) as [->|].
  { assert (Hr : tokens r) by (eapply tokens_char; [exact Hw | discriminate | discriminate]).
    pose proof (tokens_skip_ws r Hr) as Hw'. destruct (skip_ws r) as [|d r']; [exact I|].
    destruct (Z.eqb_spec d 93) as [->|]; [cbn; eapply tokens_char; [exact Hw' | discriminate | discriminate]|].
    apply keeps_wrap, elements_outside; assumption. }
  destruct (Z.eqb_spec c c_quote) as [->|]; [apply keeps_wrap, string_chars_outside, Hw|].
  assert (Hlit : forall w t, w = js "true" \/ w = js "false" \/ w = js "null" -> expect w (c :: r) = Some t -> tokens t)
    by (intros w t Hw0 E; eapply tokens_plain_prefix; [exact Hw | exact (expect_plain _ _ _ (literal_plain w Hw0) E)]).
  destruct (expect (js "true"%string) (c :: r)) eqn:E1; [cbn; eapply Hlit; [left; reflexivity | exact E1]|].
  destruct (expect (js "false"%string) (c :: r)) eqn:E2; [cbn; eapply Hlit; [right; left; reflexivity | exact E2]|].
  destruct (expect (js "null"%string) (c :: r)) eqn:E3; [cbn; eapply Hlit; [right; right; reflexivity | exact E3]|].
  pose proof (lex_number_plain (c :: r)) as Hn. destruct (lex_number (c :: r)); cbn; trivial.
  eapply tokens_plain_prefix; eassumption.
Qed.

(** *** Inside a string *)

(** Where a string opened at a token boundary can close: at the first
    quote of a separator, at the final quote, or, after an escaped
    backslash, at the quote of an escaped quote, leaving the reader
    outside the strings of the text. *)
Definition inside_rest (r : jsstring) : Prop :=
  (exists tb, tokens tb /\ (r = c_comma :: c_quote :: tb \/ r = c_colon :: c_quote :: tb)) \/
  r = [c_rbrace] \/ tokens r.

Lemma hex_value_plain h v : hex_value h = Some v -> h <> c_quote /\ h <> c_bslash.
Proof.
  unfold hex_value. intros H.
  destruct (Z.eqb_spec h c_quote) as [->|]; [discriminate|]. destruct (Z.eqb_spec h c_bslash) as [->|]; [discriminate|]. auto.
Qed.

Lemma string_chars_inside s acc : tokens s -> keeps inside_rest (string_chars s acc).
Proof.
  revert acc. induction s as [s IH] using length_strong_ind. intros acc Hs.
  inversion Hs as [| c s' Hc Hs' | s' Hs' | s' Hs' | s' Hs']; subst.
  - cbn. right. left. reflexivity.
  - cbn [string_chars]. rewrite (proj2 (Z.eqb_neq _ _) Hc).
    destruct (Z.eqb_spec c c_bslash) as [->|Hb].
    + inversion Hs' as [| e s'' He Hs'' | s'' Hs'' | s'' Hs'' | s'' Hs'']; subst; cbn; trivial.
      * destruct (Z.eqb_spec e 117) as [->|He'].
        -- destruct s'' as [|h1 [|h2 [|h3 [|h4 r'']]]]; try exact I.
           destruct (hex4 h1 h2 h3 h4) as [u|] eqn:Eh; [|exact I].
           unfold hex4 in Eh.
           destruct (hex_value h1) eqn:E1, (hex_value h2) eqn:E2, (hex_value h3) eqn:E3, (hex_value h4) eqn:E4; try discriminate.
           apply hex_value_plain in E1 as [? ?], E2 as [? ?], E3 as [? ?], E4 as [? ?].
           apply IH; [cbn; lia|].
           repeat (match goal with H : tokens (?x :: ?y) |- tokens ?y => eapply tokens_char; [exact H | assumption | assumption] end
                   || match goal with H : tokens (?x :: ?y) |- _ => apply tokens_char in H; [|assumption|assumption] end).
        -- destruct (simple_escape e); [apply IH; [cbn; lia | exact Hs''] | exact I].
      * right. right. exact Hs''.
      * right. right. exact Hs''.
      * right. right. exact Hs''.
    + destruct (c <? 32); [exact I|]. apply IH; [cbn; lia | exact Hs'].
  - cbn. apply IH; [cbn; lia | exact Hs'].
  - cbn. left. exists s'. split; [exact Hs' | left; reflexivity].
  - cbn. left. exists s'. split; [exact Hs' | right; reflexivity].
Qed.

(** *** The object the text parses to *)

Definition all_strings (o : list (jsstring * json)) : Prop := Forall (fun kv => exists s, snd kv = JString s) o.

Lemma all_strings_put o k s : all_strings o -> all_strings (obj_put o k (JString s)).
Proof.
  induction o as [|[k' v'] o IH]; intros Ho; [constructor; [exists s; reflexivity | constructor]|].
  inversion Ho as [|? ? Hv Ho']; subst. cbn [obj_put].
  destruct (bool_decide (k' = k)); constructor; [exists s; reflexivity | exact Ho' | exact Hv | apply IH, Ho'].
Qed.

(** The members loop from a quote that opens a key at a token boundary
    either ends the text with an object of strings or leaves a rest made
    of tokens. *)
Definition members_good (p : presult (list (jsstring * json))) : Prop :=
  match p with POk o r => (r = [] /\ all_strings o) \/ tokens r | _ => True end.

Lemma members_good_tokens p : keeps tokens p -> members_good p.
Proof. destruct p; cbn; tauto. Qed.

(** After a key, the colon and a value read outside the strings. *)
Lemma member_outside f F r1 acc k :
  tokens r1 ->
  keeps tokens (match skip_ws r1 with
                | d :: r2 =>
                    if d =? c_colon then
                      match parse_value f r2 with
                      | POk v r3 =>
                          match skip_ws r3 with
                          | e :: r4 =>
                              if e =? c_comma then members (parse_value f) F r4 (obj_put acc k v)
                              else if e =? c_rbrace then POk (obj_put acc k v) r4 else PErr
                          | [] => PErr
                          end
                      | PErr => PErr
                      | PFuel => PFuel
                      end
                    else PErr
                | [] => PErr
                end).
Proof.
  intros H1. pose proof (tokens_skip_ws r1 H1) as Hw1. destruct (skip_ws r1) as [|d r2]; [exact I|].
  destruct (Z.eqb_spec d c_colon) as [->|]; [|exact I].
  assert (H2 : tokens r2) by (eapply tokens_char; [exact Hw1 | discriminate | discriminate]).
  pose proof (parse_value_outside f r2 H2) as Hv. destruct (parse_value f r2) as [v r3| |]; try exact I.
  apply (after_value_outside (fun r4 => members (parse_value f) F r4 (obj_put acc k v))); [exact Hv|].
  intros r4 H4. apply members_outside; [intros; apply parse_value_outside; assumption | exact H4].
Qed.

Lemma parse_value_quote f r :
  parse_value (S f) (c_quote :: r) =
    match string_chars r [] with POk str t => POk (JString str) t | PErr => PErr | PFuel => PFuel end.
Proof. reflexivity. Qed.

Lemma members_aligned f F T acc :
  tokens T -> all_strings acc -> members_good (members (parse_value f) F (c_quote :: T) acc).
Proof.
  revert T acc. induction F as [|F IH]; intros T acc HT Hacc; [exact I|]. cbn [members skip_ws is_json_ws].
  cbn -[string_chars skip_ws parse_value members].
  pose proof (string_chars_inside T [] HT) as Hk. destruct (string_chars T []) as [k r1| |]; try exact I.
  cbn in Hk. destruct Hk as [(tb & Htb & [-> | ->]) | [-> | Hr1]].
  - exact I.
  - cbn -[parse_value members]. destruct f as [|f]; [exact I|].
    rewrite parse_value_quote.
    pose proof (string_chars_inside tb [] Htb) as Hv. destruct (string_chars tb []) as [v r3| |]; try exact I.
    cbn in Hv. destruct Hv as [(tb3 & Htb3 & [-> | ->]) | [-> | Hr3]].
    + cbn -[members parse_value]. apply IH; [exact Htb3 | apply all_strings_put, Hacc].
    + exact I.
    + cbn. left. split; [reflexivity | apply all_strings_put, Hacc].
    + apply members_good_tokens.
      apply (after_value_outside (fun r4 => members (parse_value (S f)) F r4 (obj_put acc k (JString v)))); [exact Hr3|].
      intros r4 H4. apply members_outside; [intros; apply parse_value_outside; assumption | exact H4].
  - exact I.
  - apply members_good_tokens, member_outside, Hr1.
Qed.

(** C10: whatever the query, a successful [parseQueryString] returns an
    object whose every value is a string: the escaping of quotes lets a
    query end a string early (after a backslash), but the text can then
    never be completed, so no array, number, literal or nested object can
    be injected. *)
Theorem parseQueryString_strings href url j :
  parseQueryString href url = Normal j -> exists o, j = JObject o /\ all_strings o.
Proof.
  unfold parseQueryString. destruct (substring _ _) as [|x y]; [intros [= <-]; exists []; split; [reflexivity | constructor]|].
  destruct (decodeURIComponent (x :: y)) as [d|e]; cbn [cbind]; [|discriminate].
  destruct (json_text_tokens d) as (T & -> & HT). unfold json_parse.
  rewrite (parse_value_object _ _ T) by reflexivity.
  pose proof (members_aligned (length (c_lbrace :: c_quote :: T)) (length (c_lbrace :: c_quote :: T)) T [] HT ltac:(constructor)) as Hm.
  destruct (members _ _ _ _) as [o r| |]; try discriminate.
  destruct Hm as [[-> Ho] | Hr].
  - intros [= <-]. exists o. split; [reflexivity | exact Ho].
  - assert (Hne : skip_ws r <> []).
    { clear -Hr. induction Hr as [|c s Hc Hs IH| | |]; cbn; try discriminate.
      destruct (is_json_ws c); [exact IH | discriminate]. }
    destruct (skip_ws r); [congruence|]. discriminate.
Qed.

Lemma parseQueryString_strings_witness :
  parseQueryString (js "http://h/p") (Some (js "?a=1&b=%5C%5Cx")) =
    Normal (JObject [(js "a", JString (js "1")); (js "b", JString [c_bslash; 120])]) /\
  exists o, JObject [(js "a", JString (js "1")); (js "b", JString [c_bslash; 120])] = JObject o /\ all_strings o.
Proof.
  assert (H : parseQueryString (js "http://h/p") (Some (js "?a=1&b=%5C%5Cx")) =
                Normal (JObject [(js "a", JString (js "1")); (js "b", JString [c_bslash; 120])]))
    by (vm_compute; reflexivity).
  split; [exact H | exact (parseQueryString_strings _ _ _ H)].
Defined.

(** ** Where the two parsers part *)

Definition sample_href : jsstring := js "http://h/p"%string.

Example parseQueryString_samples :
  parseQueryString sample_href (Some (js "?a=1&b=x%20y&a=2"%string)) =
    Normal (JObject [(js "a", JString (js "2")); (js "b", JString (js "x y"))]) /\
  parseQueryString sample_href (Some (js "?q=%22hi%22"%string)) =
    Normal (JObject [(js "q", JString [c_quote; 104; 105; c_quote])]) /\
  parseQueryString sample_href (Some (js "?a=%5Cn"%string)) = Normal (JObject [(js "a", JString [10])]) /\
  parseUrlQuery sample_href (Some (js "?a=%5Cn"%string)) = Normal [(js "a", VString [92; 110])] /\
  parseQueryString sample_href (Some (js "?a=%5C"%string)) = Throw SyntaxError /\
  parseQueryString sample_href (Some (js "?a=%5C%22:true,%5C%22b=c"%string)) = Throw SyntaxError /\
  parseQueryString sample_href (Some (js "?a&b=1"%string)) = Throw SyntaxError /\
  parseUrlQuery sample_href (Some (js "?a&b=1"%string)) =
    Normal [(js "a", VString (js "undefined")); (js "b", VString (js "1"))] /\
  parseQueryString sample_href (Some (js "?a=x%26y"%string)) = Throw SyntaxError /\
  parseQueryString sample_href (Some (js "?a=1=2"%string)) = Throw SyntaxError /\
  parseQueryString sample_href (Some (js "?__proto__=x"%string)) =
    Normal (JObject [(js "__proto__", JString (js "x"))]) /\
  parseUrlQuery sample_href (Some (js "?__proto__=x"%string)) = Normal [].
Proof. repeat split; vm_compute; reflexivity. Qed.

End ParseQueryString.
