(* ===== verification/RandomColor.v ===== *)
(** [randomColor] of [src/index.js] (lines 424-426):
    ['#' + ('00000' + (Math.random() * 0x1000000 << 0).toString(16)).slice(-6)].

    [Math.random()] is a parameter [r]: any double in [[0, 1)]
    ([Binary64.unit_double]).  The multiplication is binary64
    multiplication, [<< 0] is [ToInt32] followed by a shift by 0,
    [toString(16)] writes an integer in lowercase hexadecimal, and
    [slice(-6)] keeps the last six code units.  The theorem shows the
    result is ['#'] and the six hexadecimal digits of [floor(r * 2^24)]:
    the multiplication is exact, so every double of [[0, 1)] is mapped to
    the colour its first 24 bits name. *)

From Stdlib Require Import ZArith Lia List.
From Stdlib Require Import Floats.SpecFloat.
From S2P Require Import Prelude JsString Binary64.
Import ListNotations.
Open Scope Z_scope.

Module RandomColor.
Import JsString Binary64.

Definition c_hash : Z := 35.   (* '#' *)

(** A digit of [Number::toString(radix)], lowercase past 9. *)
Definition digit_char (d : Z) : Z := if d <? 10 then c_zero + d else 87 + d.

(** The digits of a non-negative integer in base [radix], last digit
    first onto [acc]; the bound is the bit length, as for base 10. *)
Fixpoint radix_digits (radix : Z) (fuel : nat) (z : Z) (acc : jsstring) : jsstring :=
  match fuel with
  | O => acc
  | S f =>
      let acc' := digit_char (z mod radix) :: acc in
      if z <? radix then acc' else radix_digits radix f (z / radix) acc'
  end.

(** [Number.prototype.toString(radix)] on an integer. *)
Definition to_radix_string (radix z : Z) : jsstring :=
  if z <? 0 then c_minus :: radix_digits radix (digit_bound (- z)) (- z) []
  else radix_digits radix (digit_bound z) z [].

(** [s.slice(-n)]. *)
Definition slice_last (n : nat) (s : jsstring) : jsstring := skipn (length s - n) s.

Definition randomColor (random : double) : jsstring :=
  let n := left_shift (dmul random (of_Z (2 ^ 24))) dzero in
  c_hash :: slice_last 6 (repeat c_zero 5 ++ to_radix_string 16 n).

(** ** The specification *)

(** [floor(r * 2^24)] for [r] in [[0, 1)]. *)
Definition color_index (r : double) : Z :=
  match r with
  | S754_finite false m e => Zpos m / 2 ^ (- e - 24)
  | _ => 0
  end.

(** The [k] lowest hexadecimal digits of [c], most significant first. *)
Definition hex_fixed (k : nat) (c : Z) : jsstring :=
  map (fun i => digit_char (c / 16 ^ Z.of_nat i mod 16)) (rev (seq 0 k)).

(** ** Lemmas *)

Lemma hex_fixed_succ k c : hex_fixed (S k) c = digit_char (c / 16 ^ Z.of_nat k mod 16) :: hex_fixed k c.
Proof. unfold hex_fixed. rewrite seq_S, rev_app_distr. reflexivity. Qed.

Lemma skipn_repeat_app {A} (a : A) n l : skipn n (repeat a n ++ l) = l.
Proof. induction n; cbn; auto. Qed.

Lemma hex_fixed_length k c : length (hex_fixed k c) = k.
Proof. unfold hex_fixed. rewrite length_map, length_rev, length_seq. reflexivity. Qed.

Lemma hex_fixed_low k c :
  0 <= c -> hex_fixed (S k) c = hex_fixed k (c / 16) ++ [digit_char (c mod 16)].
Proof.
  intros Hc. unfold hex_fixed. cbn [seq rev]. rewrite <- seq_shift, <- map_rev, map_app, map_map.
  cbn [map]. rewrite Z.pow_0_r, Z.div_1_r. f_equal.
  apply map_ext. intros i. rewrite Nat2Z.inj_succ, Z.pow_succ_r, Z.div_div by lia.
  rewrite Z.mul_comm. reflexivity.
Qed.

Lemma hex_fixed_pad j k c :
  0 <= c < 16 ^ Z.of_nat k -> hex_fixed (j + k) c = repeat c_zero j ++ hex_fixed k c.
Proof.
  intros Hc. induction j as [|j IH]; [reflexivity|].
  cbn [Nat.add repeat app]. rewrite hex_fixed_succ, IH. f_equal.
  rewrite Z.div_small; [reflexivity|]. split; [lia|].
  apply Z.lt_le_trans with (16 ^ Z.of_nat k); [lia|]. apply Z.pow_le_mono_r; lia.
Qed.

(** With enough fuel the digit loop writes [c] with [k] digits, [k] the
    digit count of [c]. *)
Lemma radix_digits_hex fuel c acc :
  fuel <> O -> 0 <= c < 2 ^ Z.of_nat fuel ->
  exists k, (1 <= k)%nat /\ c < 16 ^ Z.of_nat k /\ (k = 1%nat \/ 16 ^ (Z.of_nat k - 1) <= c) /\
    radix_digits 16 fuel c acc = hex_fixed k c ++ acc.
Proof.
  revert c acc. induction fuel as [|f IH]; intros c acc Hf Hc; [congruence|].
  cbn [radix_digits]. destruct (Z.ltb_spec c 16) as [Hlt|Hge].
  - exists 1%nat. repeat split; [lia|lia|left; reflexivity|].
    cbn. rewrite Z.div_1_r. reflexivity.
  - assert (Hf' : f <> O).
    { intros ->. cbn in Hc. lia. }
    assert (Hc' : 0 <= c / 16 < 2 ^ Z.of_nat f).
    { split; [apply Z.div_pos; lia|]. apply Z.div_lt_upper_bound; [lia|].
      rewrite Nat2Z.inj_succ, Z.pow_succ_r in Hc by lia.
      pose proof (Z.pow_pos_nonneg 2 (Z.of_nat f)). lia. }
    destruct (IH (c / 16) (digit_char (c mod 16) :: acc) Hf' Hc') as (k & Hk1 & Hk & Hmin & ->).
    exists (S k). rewrite hex_fixed_low, <- app_assoc by lia.
    split; [lia|]. split; [|split; [right|reflexivity]].
    + rewrite Nat2Z.inj_succ, Z.pow_succ_r by lia. zarith.
    + rewrite Nat2Z.inj_succ. replace (Z.succ (Z.of_nat k) - 1) with (Z.of_nat k) by lia.
      destruct Hmin as [->|Hmin]; [cbn; lia|].
      replace (Z.of_nat k) with (Z.succ (Z.of_nat k - 1)) by lia.
      rewrite Z.pow_succ_r by lia. zarith.
Qed.

Lemma digit_bound_pow2 c : 0 <= c -> c < 2 ^ Z.of_nat (digit_bound c).
Proof.
  intros Hc. unfold digit_bound. rewrite Nat2Z.inj_succ, Z2Nat.id by apply Z.log2_nonneg.
  destruct (Z.eq_dec c 0) as [->|Hne]; [cbn; lia|]. apply Z.log2_spec. lia.
Qed.

(** Six hexadecimal digits after ['00000'] and [slice(-6)]. *)
Lemma pad_hex c :
  0 <= c < 2 ^ 24 -> slice_last 6 (repeat c_zero 5 ++ to_radix_string 16 c) = hex_fixed 6 c.
Proof.
  intros Hc. unfold to_radix_string. rewrite (proj2 (Z.ltb_ge c 0)) by lia.
  destruct (radix_digits_hex (digit_bound c) c [] ltac:(discriminate) (conj (proj1 Hc) (digit_bound_pow2 c (proj1 Hc))))
    as (k & Hk1 & Hk & Hmin & ->).
  rewrite app_nil_r.
  assert (Hk6 : (k <= 6)%nat).
  { destruct Hmin as [->|Hmin]; [lia|].
    destruct (Nat.le_gt_cases k 6) as [|Hgt]; [assumption|].
    assert (16 ^ 6 <= 16 ^ (Z.of_nat k - 1)) by (apply Z.pow_le_mono_r; lia). lia. }
  replace 6%nat with ((6 - k) + k)%nat at 2 by lia. rewrite hex_fixed_pad by lia.
  unfold slice_last. rewrite length_app, repeat_length, hex_fixed_length.
  replace (5 + k - 6)%nat with (k - 1)%nat by lia.
  replace (repeat c_zero 5) with (repeat c_zero (k - 1) ++ repeat c_zero (6 - k))
    by (rewrite <- repeat_app; f_equal; lia).
  rewrite <- app_assoc. apply skipn_repeat_app.
Qed.

Lemma wrap32_small z : 0 <= z < 2 ^ 31 -> wrap32 z = z.
Proof.
  intros Hz. unfold wrap32. rewrite Z.mod_small by lia.
  destruct (Z.leb_spec (2 ^ 31) z); lia.
Qed.

(** [Math.random() * 0x1000000 << 0] is [floor(r * 2^24)]. *)
Lemma color_index_spec r :
  unit_double r = true ->
  0 <= color_index r < 2 ^ 24 /\ left_shift (dmul r (of_Z (2 ^ 24))) dzero = color_index r.
Proof.
  destruct r as [[]|[]| |[] m e]; cbn [unit_double]; try discriminate.
  - intros _. split; [cbn; lia | vm_compute; reflexivity].
  - intros [Hv Hm]%andb_prop. apply Z.ltb_lt in Hm.
    destruct (valid_unit_exponent m e Hv Hm) as (_ & _ & Hhi & _).
    destruct (dmul_unit_2p24 m e Hv Hm) as (j & q & Hj & Hq & ->).
    cbn [color_index]. pose proof (Z.pow_pos_nonneg 2 (- e - 24)).
    assert (Hb : 0 <= Zpos m / 2 ^ (- e - 24) < 2 ^ 24).
    { split; [apply Z.div_pos; lia|]. apply Z.div_lt_upper_bound; [lia|].
      rewrite <- Z.pow_add_r by lia. replace (- e - 24 + 24) with (- e) by lia. exact Hm. }
    split; [exact Hb|].
    unfold left_shift, to_int32, trunc. cbn [cond_Zopp].
    rewrite (proj2 (Z.leb_gt 0 (e + 24 - j))) by lia.
    replace (- (e + 24 - j)) with (j + (- e - 24)) by lia.
    rewrite Z.pow_add_r, Hq, (Z.mul_comm (2 ^ j)), Z.div_mul_cancel_r by lia.
    assert (H31 : (2 : Z) ^ 24 < 2 ^ 31) by reflexivity.
    rewrite (wrap32_small (Zpos m / _)) by lia. cbn [trunc dzero]. rewrite Z.mod_0_l, Z.shiftl_0_r by lia.
    apply wrap32_small. lia.
Qed.

(** ** The theorem *)

(** C31: for every value [r] of [Math.random()] (a double in [[0, 1)]),
    [randomColor] returns ['#'] followed by exactly six lowercase
    hexadecimal digits, those of [floor(r * 2^24)], an index below
    [2^24]: the scaling is exact and the padding never leaves fewer or
    more than six digits. *)
Theorem randomColor_hex r :
  unit_double r = true ->
  0 <= color_index r < 2 ^ 24 /\ randomColor r = c_hash :: hex_fixed 6 (color_index r).
Proof.
  intros Hr. destruct (color_index_spec r Hr) as [Hb Hs]. split; [exact Hb|].
  unfold randomColor. rewrite Hs, pad_hex by exact Hb. reflexivity.
Qed.

(** [0.5] gives ["#800000"]. *)
Lemma randomColor_hex_witness :
  unit_double (S754_finite false (Pos.pow 2 52) (-53)) = true /\
  randomColor (S754_finite false (Pos.pow 2 52) (-53)) = c_hash :: hex_fixed 6 (2 ^ 23).
Proof.
  assert (H : unit_double (S754_finite false (Pos.pow 2 52) (-53)) = true) by (vm_compute; reflexivity).
  split; [exact H|]. exact (proj2 (randomColor_hex _ H)).
Defined.

End RandomColor.
