(* ===== verification/NumberText.v ===== *)
(** [Number::toString] on binary64 values and [parseInt].

    [Number::toString(x)] (ECMA-262 6.1.6.1.20) writes the shortest
    decimal [s * 10^(n-k)] that rounds to [x] ([k] digits, [k] as small
    as possible; among several such [s] the one nearest [x], as the
    standard's note recommends), in plain notation when [-6 < n <= 21]
    and in exponent notation otherwise.  [shortest] finds it by search:
    for [k = 1 .. 17] (17 digits always suffice for binary64) the two
    [k]-digit decimals next to [x] are the only candidates, since the
    decimals rounding to [x] form an interval around [x]
    ([round_interval]).
    The double is taken in the canonical form [SpecFloat]'s operations
    return.

    [parseInt(string)] with no radix (ECMA-262 19.2.5) skips white
    space, reads a sign, a [0x] prefix and the longest run of digits.
    The composition [parseInt(String(x))] is what [formatPassTime] does
    to its quotients. *)

From Stdlib Require Import ZArith Lia List String.
From Stdlib Require Import Floats.SpecFloat.
From S2P Require Import Prelude JsString Binary64.
Import ListNotations.
Open Scope bool_scope.
Open Scope Z_scope.

Module NumberText.
Import JsString Binary64.

(** ** Rationals and rounding *)

(** The value [num / den] of a positive finite double. *)
Definition fin_num (m : positive) (e : Z) : Z := Zpos m * 2 ^ Z.max 0 e.
Definition fin_den (e : Z) : Z := 2 ^ Z.max 0 (- e).

(** The decimals that round to [m * 2^e]: [𝔽] rounds to nearest, ties
    to even, so a value rounds to the double when it lies within half a
    unit in the last place of it, the ends included when [m] is even.
    Below a power of two (past the smallest normal exponent) the gap to
    the next smaller double is half as wide.  The ends are kept as
    numerators over the denominator [iv_den]. *)
Record interval := { iv_lo : Z; iv_hi : Z; iv_den : Z; iv_closed : bool }.

Definition round_interval (m : positive) (e : Z) : interval :=
  let lo_gap := if (Zpos m =? 2 ^ 52) && (-1074 <? e) then 1 else 2 in
  let sc := 2 ^ Z.max 0 (e - 2) in
  {| iv_lo := (4 * Zpos m - lo_gap) * sc; iv_hi := (4 * Zpos m + 2) * sc;
     iv_den := 2 ^ Z.max 0 (2 - e); iv_closed := Z.even (Zpos m) |}.

(** [𝔽(num / den)] is the double. *)
Definition in_interval (iv : interval) (num den : Z) : bool :=
  let v := num * iv_den iv in
  match Z.compare v (iv_lo iv * den), Z.compare v (iv_hi iv * den) with
  | Gt, Lt => true
  | Eq, Lt | Gt, Eq => iv_closed iv
  | _, _ => false
  end.

(** [10^t <= num / den]. *)
Definition pow10_le (t num den : Z) : bool :=
  if 0 <=? t then 10 ^ t * den <=? num else den <=? num * 10 ^ (- t).

(** [floor(log10(num / den))], from the binary estimate corrected by at
    most four steps each way. *)
Fixpoint log10_up (fuel : nat) (t num den : Z) : Z :=
  match fuel with
  | O => t
  | S f => if pow10_le (t + 1) num den then log10_up f (t + 1) num den else t
  end.

Fixpoint log10_down (fuel : nat) (t num den : Z) : Z :=
  match fuel with
  | O => t
  | S f => if pow10_le t num den then t else log10_down f (t - 1) num den
  end.

Definition floor_log10 (num den : Z) : Z :=
  let est := ((Z.log2 num - Z.log2 den) * 30103) / 100000 in
  log10_up 4 (log10_down 4 est num den) num den.

(** ** The shortest decimal *)

(** The candidate at [k] digits.  With [T = floor(log10 x)], the
    [k]-digit decimals next to [x] are [s * 10^(T+1-k)] for [s] the
    floor [lo] of [x * 10^(k-T-1)], which lies in [[10^(k-1), 10^k)],
    and [lo + 1] (written [10^(k-1) * 10^(T+2-k)] when it reaches
    [10^k]).  A decimal with [n = T], below [10^T <= x], never needs to
    be tried: if it rounded to [x], so would [10^T], which has one
    digit and is nearer.  When both round to [x] the nearer is taken,
    the even one on a tie. *)
Definition try_digits (iv : interval) (num den t : Z) (k : nat) : option (Z * Z) :=
  let j := Z.of_nat k - (t + 1) in
  let up := 10 ^ Z.max 0 j in
  let dn := 10 ^ Z.max 0 (- j) in
  let lo := (num * up) / (den * dn) in
  let c2 := if lo + 1 =? 10 ^ Z.of_nat k then (10 ^ (Z.of_nat k - 1), t + 2) else (lo + 1, t + 1) in
  let ok1 := in_interval iv (lo * dn) up in
  let ok2 := in_interval iv ((lo + 1) * dn) up in
  if ok1 then
    if ok2 then
      match Z.compare (2 * num * up) ((2 * lo + 1) * den * dn) with
      | Lt => Some (lo, t + 1)
      | Gt => Some c2
      | Eq => if Z.even lo then Some (lo, t + 1) else Some c2
      end
    else Some (lo, t + 1)
  else if ok2 then Some c2 else None.

(** The least [k] in [[lo, hi]] with a candidate, [hi] having one: a
    [k]-digit decimal that rounds to [x] gives a [k+1]-digit one (a zero
    appended), so the digit counts that work are all those from the
    least one on, and the search halves the range. *)
Fixpoint least_digits (iv : interval) (num den t : Z) (lo hi : nat) (fuel : nat) : nat :=
  match fuel with
  | O => hi
  | S f =>
      if Nat.leb hi lo then hi
      else
        let mid := ((lo + hi) / 2)%nat in
        match try_digits iv num den t mid with
        | Some _ => least_digits iv num den t lo mid f
        | None => least_digits iv num den t (S mid) hi f
        end
  end.

(** [(s, n, k)] for a positive finite double [m * 2^e]. *)
Definition shortest (m : positive) (e : Z) : Z * Z * nat :=
  let num := fin_num m e in
  let den := fin_den e in
  let t := floor_log10 num den in
  let iv := round_interval m e in
  let k := least_digits iv num den t 1 17 5 in
  match try_digits iv num den t k with
  | Some (s, n) => (s, n, k)
  | None => (0, 0, k)
  end.

(** ** Writing it *)

Definition c_dot : Z := 46.    (* '.' *)
Definition c_e : Z := 101.     (* 'e' *)
Definition c_plus : Z := 43.   (* '+' *)

(** The [k] digits of [s]. *)
Definition digits_of (s : Z) (k : nat) : jsstring :=
  map (fun i => c_zero + s / 10 ^ Z.of_nat i mod 10) (rev (seq 0 k)).

(** Steps 6 to 10 of [Number::toString]. *)
Definition layout (s n : Z) (k : nat) : jsstring :=
  let ds := digits_of s k in
  let kz := Z.of_nat k in
  if (kz <=? n) && (n <=? 21) then ds ++ repeat c_zero (Z.to_nat (n - kz))
  else if (0 <? n) && (n <=? 21) then firstn (Z.to_nat n) ds ++ c_dot :: skipn (Z.to_nat n) ds
  else if (-6 <? n) && (n <=? 0) then [c_zero; c_dot] ++ repeat c_zero (Z.to_nat (- n)) ++ ds
  else
    let ex := (if 0 <=? n - 1 then c_plus else c_minus) :: number_to_string (Z.abs (n - 1)) in
    match ds with
    | [d] => d :: c_e :: ex
    | d :: rest => d :: c_dot :: rest ++ c_e :: ex
    | [] => c_e :: ex
    end.

Definition number_to_text (x : double) : jsstring :=
  match x with
  | S754_nan => js "NaN"%string
  | S754_zero _ => [c_zero]
  | S754_infinity false => js "Infinity"%string
  | S754_infinity true => c_minus :: js "Infinity"%string
  | S754_finite sx m e =>
      let '(s, n, k) := shortest m e in
      (if sx then [c_minus] else []) ++ layout s n k
  end.

(** ** [parseInt] *)

(** [StrWhiteSpaceChar]: white space and line terminators. *)
Definition is_str_space (c : Z) : bool :=
  existsb (Z.eqb c) [9; 10; 11; 12; 13; 32; 160; 5760; 8192; 8193; 8194; 8195; 8196; 8197; 8198;
                     8199; 8200; 8201; 8202; 8232; 8233; 8239; 8287; 12288; 65279].

Fixpoint drop_space (s : jsstring) : jsstring :=
  match s with c :: r => if is_str_space c then drop_space r else s | [] => [] end.

(** The value of a digit in bases up to 36. *)
Definition digit_value (c : Z) : Z :=
  if (48 <=? c) && (c <=? 57) then c - 48
  else if (97 <=? c) && (c <=? 122) then c - 87
  else if (65 <=? c) && (c <=? 90) then c - 55
  else 36.

(** The longest prefix of digits of base [r], as their values. *)
Fixpoint digit_run (r : Z) (s : jsstring) : list Z :=
  match s with
  | c :: t => if digit_value c <? r then digit_value c :: digit_run r t else []
  | [] => []
  end.

Definition parseInt (str : jsstring) : double :=
  let s := drop_space str in
  let '(neg, s) := match s with
                   | c :: t => if c =? c_minus then (true, t) else if c =? c_plus then (false, t) else (false, s)
                   | [] => (false, s) end in
  let '(r, s) := match s with
                 | 48 :: x :: t => if (x =? 120) || (x =? 88) then (16, t) else (10, s)
                 | _ => (10, s) end in
  match digit_run r s with
  | [] => S754_nan
  | ds =>
      let v := fold_left (fun a d => a * r + d) ds 0 in
      if v =? 0 then S754_zero neg else of_Z (if neg then - v else v)
  end.

(** [if (x)] on a number. *)
Definition truthy_double (x : double) : bool :=
  match x with S754_nan | S754_zero _ => false | _ => true end.

(** ** Checks of the conversion *)

Example number_to_text_samples :
  number_to_text (of_Z 0) = js "0"%string /\
  number_to_text (of_Z 2024) = js "2024"%string /\
  number_to_text (of_Z (-7)) = js "-7"%string /\
  number_to_text (ddiv (of_Z 1) (of_Z 10)) = js "0.1"%string /\
  number_to_text (ddiv (of_Z 1) (of_Z 3)) = js "0.3333333333333333"%string /\
  number_to_text (ddiv (of_Z 50) (of_Z 86400000)) = js "5.787037037037037e-7"%string /\
  number_to_text (of_Z (10 ^ 21)) = js "1e+21"%string /\
  number_to_text (ddiv (of_Z 123) (of_Z 100000000)) = js "0.00000123"%string.
Proof. repeat split; vm_compute; reflexivity. Qed.

Example parseInt_samples :
  parseInt (js " -12px"%string) = of_Z (-12) /\ parseInt (js "0x1F"%string) = of_Z 31 /\
  parseInt (js "5.787037037037037e-7"%string) = of_Z 5 /\ parseInt (js "-0.5"%string) = S754_zero true /\
  parseInt (js "abc"%string) = S754_nan.
Proof. repeat split; vm_compute; reflexivity. Qed.

End NumberText.
