(* ===== verification/StringNumber.v ===== *)
(** [ToNumber] (ECMA-262 7.1.4) on the values the module's functions
    receive, and [StringToNumber] (7.1.4.1.1) on strings, which
    [digitUppercase] applies to a string argument through
    [Number(num)], [num < 0] and [Math.abs(num)].

    A string is trimmed of [StrWhiteSpaceChar]s ([NumberText.is_str_space])
    on both sides; the empty string is [+0].  What remains is either a
    [NonDecimalIntegerLiteral] ([0b], [0o], [0x] and at least one digit of
    the base, no sign) or a [StrDecimalLiteral]: an optional sign, then
    [Infinity] or digits with an optional point and fraction (one of the
    two parts not empty) and an optional exponent.  Anything else is
    [NaN].  The decimal value is rounded by [Json.decimal_to_double], the
    rounding [JSON.parse] uses.  Objects and arrays convert through
    [ToPrimitive], whose [valueOf] returns the object itself, so through
    their [toString] text ([JsValue.to_string]). *)

From Stdlib Require Import ZArith Lia List String.
From Stdlib Require Import Floats.SpecFloat.
From stdpp Require Import base decidable.
From S2P Require Import Prelude JsString JsValue Binary64 Json NumberText.
Import ListNotations.
Open Scope bool_scope.
Open Scope Z_scope.

Module StringNumber.
Import JsString JsValue Binary64 Json NumberText.

(** [StrWhiteSpace] removed from both ends. *)
Definition trim_space (s : jsstring) : jsstring := rev (drop_space (rev (drop_space s))).

Definition str_infinity : jsstring := js "Infinity".

(** [StrUnsignedDecimalLiteral] after its sign: the point and the
    fraction digits, if there is a point. *)
Definition lex_str_frac (s : jsstring) : list Z * jsstring :=
  match s with
  | c :: r => if c =? 46 then json_digits r else ([], s)
  | [] => ([], s)
  end.

(** [StrDecimalLiteral]: [neg] is the sign read before it. *)
Definition str_decimal (s : jsstring) : double :=
  let '(neg, s1) := match s with
                    | c :: r => if c =? c_plus then (false, r) else if c =? c_minus then (true, r) else (false, s)
                    | [] => (false, s)
                    end in
  if bool_decide (s1 = str_infinity) then S754_infinity neg
  else
    let '(ip, s2) := json_digits s1 in
    let '(fp, s3) := lex_str_frac s2 in
    match ip ++ fp with
    | [] => S754_nan
    | ds =>
        let '(ex, s4, oke) := lex_exp s3 in
        if oke && bool_decide (s4 = []) then decimal_to_double neg (digits_value ds) (ex - Z.of_nat (length fp))
        else S754_nan
    end.

(** [NonDecimalIntegerLiteral] after its prefix, in base [r]: every
    unit a digit of the base, at least one. *)
Definition non_decimal (r : Z) (t : jsstring) : double :=
  let ds := digit_run r t in
  if negb (Nat.eqb (length ds) 0) && Nat.eqb (length ds) (length t)
  then of_Z (fold_left (fun a d => a * r + d) ds 0)
  else S754_nan.

Definition to_number (str : jsstring) : double :=
  let s := trim_space str in
  match s with
  | [] => S754_zero false
  | c :: x :: t =>
      if negb (c =? 48) then str_decimal s
      else if (x =? 98) || (x =? 66) then non_decimal 2 t
      else if (x =? 111) || (x =? 79) then non_decimal 8 t
      else if (x =? 120) || (x =? 88) then non_decimal 16 t
      else str_decimal s
  | _ => str_decimal s
  end.

(** [ToNumber] of a value of [JsValue]. *)
Definition to_number_value (v : value) : double :=
  match v with
  | VUndefined => S754_nan
  | VNull => S754_zero false
  | VBool b => if b then of_Z 1 else S754_zero false
  | VNumber n => of_Z n
  | VString s => to_number s
  | VArray _ | VObject _ => to_number (to_string v)
  end.

(** ** Lemmas *)

Lemma drop_space_keep s : Forall (fun c => is_str_space c = false) s -> drop_space s = s.
Proof. intros [|c r Hc _]; [reflexivity|]. cbn [drop_space]. rewrite Hc. reflexivity. Qed.

Lemma trim_space_keep s : Forall (fun c => is_str_space c = false) s -> trim_space s = s.
Proof.
  intros Hs. unfold trim_space. rewrite (drop_space_keep s Hs), drop_space_keep, rev_involutive; [reflexivity|].
  apply Forall_rev, Hs.
Qed.

Lemma json_digits_all s :
  Forall (fun c => is_digit c = true) s -> json_digits s = (map (fun c => c - 48) s, []).
Proof.
  induction 1 as [|c s Hc _ IH]; [reflexivity|]. cbn.
  unfold is_digit in Hc. unfold is_ascii_digit. rewrite Hc, IH. reflexivity.
Qed.

Lemma digits_value_map s : digits_value (map (fun c => c - 48) s) = decimal_value s.
Proof.
  unfold digits_value, decimal_value. generalize 0. induction s as [|c s IH]; intros a; [reflexivity|]. apply IH.
Qed.

(** A digit is no white space, sign or letter the grammar tests for. *)
Lemma digit_not_space c : is_digit c = true -> is_str_space c = false.
Proof.
  unfold is_digit, is_str_space. intros H. bool_hyps. apply not_true_is_false. intros Hx.
  apply existsb_exists in Hx as (y & Hy & Hxy). apply Z.eqb_eq in Hxy. subst.
  repeat destruct Hy as [<-|Hy]; try lia. destruct Hy.
Qed.

Lemma str_decimal_digits (neg : bool) s :
  s <> [] -> Forall (fun c => is_digit c = true) s ->
  str_decimal ((if neg then [c_minus] else []) ++ s) = decimal_to_double neg (decimal_value s) 0.
Proof.
  intros Hne Hs. destruct s as [|c r]; [congruence|].
  assert (Hinf : c :: r <> str_infinity).
  { inversion Hs as [|? ? Hc _]. intros [= -> _]. discriminate. }
  assert (Hsign : (c =? c_plus) = false /\ (c =? c_minus) = false).
  { inversion Hs as [|? ? Hc _]. unfold is_digit in Hc. bool_hyps. unfold c_plus, c_minus. split; apply Z.eqb_neq; lia. }
  unfold str_decimal. destruct neg; cbn [app];
    [change (c_minus =? c_plus) with false; change (c_minus =? c_minus) with true | destruct Hsign as [-> ->]];
    cbn iota beta; rewrite bool_decide_eq_false_2 by exact Hinf; rewrite json_digits_all by exact Hs;
    cbn [lex_str_frac]; rewrite app_nil_r; cbn [map lex_exp length Z.of_nat]; rewrite <- digits_value_map; reflexivity.
Qed.

(** A trimmed string whose second unit is a digit when its first is
    ['0'] is read as a decimal literal. *)
Lemma to_number_decimal s :
  Forall (fun c => is_str_space c = false) s -> s <> [] ->
  (forall x t, s = 48 :: x :: t -> is_digit x = true) ->
  to_number s = str_decimal s.
Proof.
  intros Hsp Hne H0. unfold to_number. rewrite trim_space_keep by exact Hsp.
  destruct s as [|c [|x t]]; [congruence|reflexivity|].
  destruct (Z.eqb_spec c 48) as [->|]; [|reflexivity].
  specialize (H0 x t eq_refl). unfold is_digit in H0. bool_hyps. cbn [negb Z.eqb Pos.eqb].
  case_cmp; try lia. reflexivity.
Qed.

Lemma decimal_digits_ne f z acc : acc <> [] -> decimal_digits f z acc <> [].
Proof.
  revert z acc. induction f as [|f IH]; intros z acc Hacc; [exact Hacc|].
  cbn [decimal_digits]. destruct (z <? 10); [discriminate|]. apply IH. discriminate.
Qed.

Lemma number_to_string_sign n :
  number_to_string n = (if n <? 0 then [c_minus] else []) ++ number_to_string (Z.abs n) /\
  number_to_string (Z.abs n) <> [].
Proof.
  unfold number_to_string. destruct (Z.ltb_spec (Z.abs n) 0); [lia|].
  split; [destruct (Z.ltb_spec n 0); [replace (Z.abs n) with (- n) by lia | replace (Z.abs n) with n by lia]; reflexivity|].
  unfold digit_bound. cbn [decimal_digits]. destruct (Z.abs n <? 10); [discriminate|].
  apply decimal_digits_ne. discriminate.
Qed.

Lemma drop_space_pad ws s :
  Forall (fun c => is_str_space c = true) ws -> drop_space (ws ++ s) = drop_space s.
Proof. induction 1 as [|c ws Hc _ IH]; [reflexivity|]. cbn [app drop_space]. rewrite Hc. exact IH. Qed.

(** White space around a text without white space is trimmed away. *)
Lemma to_number_pad ws1 s ws2 :
  Forall (fun c => is_str_space c = true) ws1 -> Forall (fun c => is_str_space c = true) ws2 ->
  Forall (fun c => is_str_space c = false) s -> to_number (ws1 ++ s ++ ws2) = to_number s.
Proof.
  intros H1 H2 Hs. assert (Ht : trim_space (ws1 ++ s ++ ws2) = trim_space s).
  { unfold trim_space. rewrite drop_space_pad by exact H1.
    destruct s as [|c r]; cbn [app].
    - pose proof (drop_space_pad ws2 [] H2) as E. rewrite app_nil_r in E. rewrite E. reflexivity.
    - assert (Hc : is_str_space c = false) by (inversion Hs; assumption).
      cbn [drop_space]. rewrite Hc. rewrite app_comm_cons, rev_app_distr, drop_space_pad by (apply Forall_rev, H2). reflexivity. }
  unfold to_number. rewrite Ht. reflexivity.
Qed.

Lemma number_to_string_nospace n : Forall (fun c => is_str_space c = false) (number_to_string n).
Proof.
  eapply Forall_impl; [|apply number_to_string_chars].
  intros c [Hc| ->]; [exact (digit_not_space c Hc) | reflexivity].
Qed.

(** [StringToNumber] reads back the text [Number::toString] writes
    for every integer: [Number(String(n))] is the double nearest [n]. *)
Theorem to_number_number_to_string n : to_number (number_to_string n) = of_Z n.
Proof.
  destruct (number_to_string_sign n) as [Hs Hne].
  destruct (number_to_string_decimal (Z.abs n) ltac:(lia)) as [Hd Hv].
  rewrite Hs, to_number_decimal.
  - rewrite (str_decimal_digits (n <? 0)) by assumption. rewrite Hv. unfold decimal_to_double, of_Z.
    destruct (Z.eqb_spec (Z.abs n) 0) as [H0|H0]; [replace n with 0 by lia; reflexivity|].
    rewrite Z.mul_1_r. cbn -[binary_normalize Z.log2 Z.abs]. rewrite Z.mul_0_r, Z.add_0_r.
    destruct (Z.ltb_spec (Z.log2 (Z.abs n) + 1) (-1076)); [pose proof (Z.log2_nonneg (Z.abs n)); lia|].
    destruct n; [lia|reflexivity|reflexivity].
  - rewrite <- Hs. apply number_to_string_nospace.
  - destruct (n <? 0); [discriminate|]. exact Hne.
  - intros x t Heq. destruct (n <? 0); [discriminate|]. cbn [app] in Heq. rewrite Heq in Hd.
    inversion Hd as [|? ? _ Hd']. inversion Hd'. assumption.
Qed.

(** The grammar on sample strings: white space around the literal, the
    sign of zero, the prefixes with no sign, a point with digits on one
    side only, [Infinity], and texts that are [NaN]. *)
Example to_number_samples :
  to_number [] = S754_zero false /\ to_number [32; 9; 49; 50; 32; 10] = of_Z 12 /\
  to_number (js "-0") = S754_zero true /\ to_number (js "007") = of_Z 7 /\
  to_number (js "0x1F") = of_Z 31 /\ to_number (js "0b101") = of_Z 5 /\ to_number (js "0O17") = of_Z 15 /\
  to_number (js "-0x1F") = S754_nan /\ to_number (js "0x") = S754_nan /\
  to_number (js "1e3") = of_Z 1000 /\ to_number (js "+.5") = ddiv (of_Z 1) (of_Z 2) /\
  to_number (js "5.") = of_Z 5 /\ to_number (js "0.1") = ddiv (of_Z 1) (of_Z 10) /\
  to_number (js "-Infinity") = S754_infinity true /\ to_number (js "infinity") = S754_nan /\
  to_number (js "1_000") = S754_nan /\ to_number (js "12px") = S754_nan /\
  to_number (js ".") = S754_nan /\ to_number (js "1e") = S754_nan /\ to_number (js "e5") = S754_nan.
Proof. repeat split; vm_compute; reflexivity. Qed.

Example to_number_value_samples :
  to_number_value VNull = S754_zero false /\ to_number_value (VBool true) = of_Z 1 /\
  to_number_value VUndefined = S754_nan /\ to_number_value (VArray []) = S754_zero false /\
  to_number_value (VArray [VString (js " 7 ")]) = of_Z 7 /\ to_number_value (VObject []) = S754_nan.
Proof. repeat split; vm_compute; reflexivity. Qed.

End StringNumber.
