(* ===== verification/EcmaDate.v ===== *)
(** The time values of ECMA-262 [Date] objects (21.4.1) that [Moment]
    uses, all in UTC; the local time zone is the offset [LocalTZA] of
    the host ([DateText.date_host]), which [DateText] and [Moment] add
    to a time value before reading its fields.

    A time value is [Some t], milliseconds since 1970-01-01T00:00Z, or
    [None] for [NaN].  [DayFromYear], [YearFromTime], [MonthFromTime],
    [DateFromTime], [WeekDay], [MakeDay], [MakeDate] and [TimeClip] are
    the abstract operations of the standard; [YearFromTime], defined as
    the largest year whose first day is not after the time, is computed
    from an estimate corrected by at most two years
    ([year_from_day_spec] shows it meets its definition).  The main
    results are the two round trips between days and calendar dates. *)

From Stdlib Require Import ZArith Lia List.
From S2P Require Import Prelude.
Import ListNotations.
Open Scope bool_scope.
Open Scope Z_scope.

Module EcmaDate.

Definition msPerDay : Z := 86400000.

(** 21.4.1.3 [Day] and [TimeWithinDay]. *)
Definition Day (t : Z) : Z := t / msPerDay.
Definition TimeWithinDay (t : Z) : Z := t mod msPerDay.

(** 21.4.1.4 [DaysInYear] and [DayFromYear]. *)
Definition DaysInYear (y : Z) : Z :=
  if negb (y mod 4 =? 0) then 365
  else if negb (y mod 100 =? 0) then 366
  else if negb (y mod 400 =? 0) then 365
  else 366.

Definition DayFromYear (y : Z) : Z :=
  365 * (y - 1970) + (y - 1969) / 4 - (y - 1901) / 100 + (y - 1601) / 400.

Definition year_estimate (d : Z) : Z := 1970 + (d * 400) / 146097.

(** The year of a day number. *)
Definition year_from_day (d : Z) : Z :=
  let y := year_estimate d in
  if d <? DayFromYear y then (if d <? DayFromYear (y - 1) then y - 2 else y - 1)
  else if DayFromYear (y + 1) <=? d then (if DayFromYear (y + 2) <=? d then y + 2 else y + 1)
  else y.

(** 21.4.1.5 [YearFromTime], [InLeapYear]. *)
Definition YearFromTime (t : Z) : Z := year_from_day (Day t).
Definition InLeapYear (t : Z) : bool := DaysInYear (YearFromTime t) =? 366.

Definition leap_year (y : Z) : bool := DaysInYear y =? 366.

(** 21.4.1.6 [DayWithinYear]. *)
Definition DayWithinYear (t : Z) : Z := Day t - DayFromYear (YearFromTime t).

(** The first day of month [m] (0 to 12) within its year. *)
Definition month_start (leap : bool) (m : Z) : Z :=
  nth (Z.to_nat m) [0; 31; 59; 90; 120; 151; 181; 212; 243; 273; 304; 334; 365] 0
  + (if leap && (2 <=? m) then 1 else 0).

Definition days_in_month (y m : Z) : Z := month_start (leap_year y) (m + 1) - month_start (leap_year y) m.

(** 21.4.1.6 [MonthFromTime]: the last month that starts on or before
    the day within the year. *)
Fixpoint month_of (leap : bool) (dwy : Z) (k : nat) : Z :=
  match k with
  | O => 0
  | S k' => if month_start leap (Z.of_nat k) <=? dwy then Z.of_nat k else month_of leap dwy k'
  end.

Definition MonthFromTime (t : Z) : Z := month_of (InLeapYear t) (DayWithinYear t) 11.

(** 21.4.1.7 [DateFromTime]. *)
Definition DateFromTime (t : Z) : Z :=
  DayWithinYear t - month_start (InLeapYear t) (MonthFromTime t) + 1.

(** 21.4.1.8 [WeekDay]: 1970-01-01 was a Thursday. *)
Definition WeekDay (t : Z) : Z := (Day t + 4) mod 7.

(** 21.4.1.28 [MakeDay] on integer arguments. *)
Definition MakeDay (year month date : Z) : Z :=
  let ym := year + month / 12 in
  let mn := month mod 12 in
  DayFromYear ym + month_start (leap_year ym) mn + date - 1.

(** 21.4.1.29 [MakeDate]. *)
Definition MakeDate (day time : Z) : Z := day * msPerDay + time.

(** 21.4.1.31 [TimeClip]. *)
Definition TimeClip (t : Z) : option Z := if Z.abs t <=? 8640000000000000 then Some t else None.

(** ** Years *)

Lemma dfy_bounds y :
  146097 * (y - 1970) - 1200 <= 400 * DayFromYear y <= 146097 * (y - 1970) + 1200.
Proof. unfold DayFromYear. zarith. Qed.

Lemma div_step4 y : (y + 1 - 1969) / 4 - (y - 1969) / 4 = if y mod 4 =? 0 then 1 else 0.
Proof. destruct (Z.eqb_spec (y mod 4) 0); zarith. Qed.

Lemma div_step100 y : (y + 1 - 1901) / 100 - (y - 1901) / 100 = if y mod 100 =? 0 then 1 else 0.
Proof. destruct (Z.eqb_spec (y mod 100) 0); zarith. Qed.

Lemma div_step400 y : (y + 1 - 1601) / 400 - (y - 1601) / 400 = if y mod 400 =? 0 then 1 else 0.
Proof. destruct (Z.eqb_spec (y mod 400) 0); zarith. Qed.

Lemma mod_multiples y : (y mod 4 <> 0 -> y mod 100 <> 0) /\ (y mod 100 <> 0 -> y mod 400 <> 0).
Proof. split; zarith. Qed.

(** Consecutive years are [DaysInYear] apart. *)
Lemma dfy_step y : DayFromYear (y + 1) - DayFromYear y = DaysInYear y.
Proof.
  unfold DayFromYear, DaysInYear. generalize (div_step4 y) (div_step100 y) (div_step400 y) (mod_multiples y).
  case_cmp; intros; lia.
Qed.

Lemma DaysInYear_range y : 365 <= DaysInYear y <= 366.
Proof. unfold DaysInYear. case_cmp; lia. Qed.

Lemma dfy_lt a b : a < b -> DayFromYear a < DayFromYear b.
Proof. intros H. unfold DayFromYear. zarith. Qed.

(** [year_from_day] is [YearFromTime]'s year: the first day of its year
    is not after [d], the first day of the next one is. *)
Lemma year_from_day_spec d : DayFromYear (year_from_day d) <= d < DayFromYear (year_from_day d + 1).
Proof.
  unfold year_from_day, year_estimate. set (y := 1970 + d * 400 / 146097).
  assert (146097 * (y - 1970) <= d * 400 < 146097 * (y - 1970) + 146097) by (unfold y; zarith).
  pose proof (dfy_bounds (y - 2)). pose proof (dfy_bounds (y - 1)). pose proof (dfy_bounds y).
  pose proof (dfy_bounds (y + 1)). pose proof (dfy_bounds (y + 2)). pose proof (dfy_bounds (y + 3)).
  pose proof (dfy_step (y - 2)). pose proof (dfy_step (y - 1)). pose proof (dfy_step y).
  pose proof (dfy_step (y + 1)). pose proof (dfy_step (y + 2)).
  pose proof (DaysInYear_range (y - 2)). pose proof (DaysInYear_range (y - 1)). pose proof (DaysInYear_range y).
  pose proof (DaysInYear_range (y + 1)). pose proof (DaysInYear_range (y + 2)).
  replace (y - 2 + 1) with (y - 1) in * by lia. replace (y - 1 + 1) with y in * by lia.
  replace (y + 1 + 1) with (y + 2) in * by lia. replace (y + 2 + 1) with (y + 3) in * by lia.
  case_cmp; try (replace (y - 2 + 1) with (y - 1) by lia); try (replace (y - 1 + 1) with y by lia);
    try (replace (y + 1 + 1) with (y + 2) by lia); try (replace (y + 2 + 1) with (y + 3) by lia); lia.
Qed.

Lemma year_from_day_unique d y : DayFromYear y <= d < DayFromYear (y + 1) -> year_from_day d = y.
Proof.
  intros H. pose proof (year_from_day_spec d) as Hs. set (y' := year_from_day d) in *.
  destruct (Z.lt_trichotomy y' y) as [Hlt|[Heq|Hgt]]; [|exact Heq|].
  - pose proof (dfy_lt (y' + 1) y). assert (y' + 1 = y \/ y' + 1 < y) as [<-|Hl] by lia; lia.
  - pose proof (dfy_lt (y + 1) y'). assert (y + 1 = y' \/ y + 1 < y') as [E|Hl] by lia; [rewrite <- E in Hs|]; lia.
Qed.

Lemma dfy_le a b : a <= b -> DayFromYear a <= DayFromYear b.
Proof. intros H. destruct (Z.eq_dec a b) as [->|]; [lia|]. apply Z.lt_le_incl, dfy_lt. lia. Qed.

(** The times of the years 1601 to 9999. *)
Lemma time_of_year x : 1601 <= YearFromTime x <= 9999 -> -11644473600000 <= x < 253402300800000.
Proof.
  intros Hy. unfold YearFromTime in Hy. pose proof (year_from_day_spec (Day x)) as Hs.
  pose proof (dfy_le 1601 (year_from_day (Day x)) ltac:(lia)) as H1.
  pose proof (dfy_le (year_from_day (Day x) + 1) 10000 ltac:(lia)) as H2.
  change (DayFromYear 1601) with (-134774) in H1. change (DayFromYear 10000) with 2932897 in H2.
  unfold Day, msPerDay in *. zarith.
Qed.

(** A day between the first days of years [a] and [b] is in a year
    from [a] to [b - 1]. *)
Lemma year_from_day_between d a b : DayFromYear a <= d < DayFromYear b -> a <= year_from_day d < b.
Proof.
  intros H. pose proof (year_from_day_spec d) as Hs. set (y := year_from_day d) in *.
  pose proof dfy_le as Hle. split.
  - destruct (Z.lt_ge_cases y a) as [Hy|Hy]; [|exact Hy]. specialize (Hle (y + 1) a ltac:(lia)). lia.
  - destruct (Z.lt_ge_cases y b) as [Hy|Hy]; [exact Hy|]. specialize (Hle b y Hy). lia.
Qed.

(** ** Months *)

Lemma month_start_range leap m : 0 <= m <= 11 ->
  0 <= month_start leap m /\ month_start leap m < month_start leap (m + 1) /\
  month_start leap (m + 1) <= month_start leap 12 /\ month_start leap 12 = 365 + (if leap then 1 else 0).
Proof.
  intros H. assert (m = 0 \/ m = 1 \/ m = 2 \/ m = 3 \/ m = 4 \/ m = 5 \/ m = 6 \/ m = 7 \/ m = 8 \/ m = 9 \/ m = 10 \/ m = 11)
    as Hm by lia.
  destruct leap; repeat destruct Hm as [->|Hm]; subst; unfold month_start; simpl; lia.
Qed.

(** The month of a day within a year is the month it falls in. *)
Lemma month_of_in leap m k :
  0 <= m <= 11 -> month_start leap m <= k < month_start leap (m + 1) -> month_of leap k 11 = m.
Proof.
  intros H Hk. assert (m = 0 \/ m = 1 \/ m = 2 \/ m = 3 \/ m = 4 \/ m = 5 \/ m = 6 \/ m = 7 \/ m = 8 \/ m = 9 \/ m = 10 \/ m = 11)
    as Hm by lia.
  destruct leap; repeat destruct Hm as [->|Hm]; subst; simpl month_of; unfold month_start in *; simpl in Hk |- *; case_cmp; lia.
Qed.

Lemma month_of_range leap k n : (n <= 11)%nat -> 0 <= month_of leap k n <= 11.
Proof.
  induction n as [|n IH]; intros Hn; cbn [month_of]; [lia|].
  destruct (month_start leap (Z.of_nat (S n)) <=? k); [lia|]. apply IH. lia.
Qed.

Lemma leap_days y : DaysInYear y = 365 + (if leap_year y then 1 else 0).
Proof. unfold leap_year. pose proof (DaysInYear_range y). case_cmp; lia. Qed.

(** ** The two round trips *)

Lemma MakeDay_month y m dt : 0 <= m <= 11 -> MakeDay y m dt = DayFromYear y + month_start (leap_year y) m + dt - 1.
Proof.
  intros H. unfold MakeDay. rewrite (Z.div_small m 12), (Z.mod_small m 12) by lia. rewrite Z.add_0_r. reflexivity.
Qed.

Lemma Day_MakeDate day tm : 0 <= tm < msPerDay -> Day (MakeDate day tm) = day /\ TimeWithinDay (MakeDate day tm) = tm.
Proof. intros H. unfold Day, TimeWithinDay, MakeDate, msPerDay in *. split; zarith. Qed.

(** A calendar date and a time within its day give back that date. *)
Theorem date_roundtrip y m dt tm :
  0 <= m <= 11 -> 1 <= dt <= days_in_month y m -> 0 <= tm < msPerDay ->
  YearFromTime (MakeDate (MakeDay y m dt) tm) = y /\
  MonthFromTime (MakeDate (MakeDay y m dt) tm) = m /\
  DateFromTime (MakeDate (MakeDay y m dt) tm) = dt /\
  TimeWithinDay (MakeDate (MakeDay y m dt) tm) = tm.
Proof.
  intros Hm Hdt Htm. destruct (Day_MakeDate (MakeDay y m dt) tm Htm) as [Hd Ht].
  pose proof (MakeDay_month y m dt Hm) as Hmk. unfold days_in_month in Hdt.
  pose proof (month_start_range (leap_year y) m Hm) as (H0 & H1 & H2 & H3).
  pose proof (dfy_step y) as Hs. rewrite leap_days in Hs.
  assert (Hy : YearFromTime (MakeDate (MakeDay y m dt) tm) = y).
  { unfold YearFromTime. rewrite Hd, Hmk. apply year_from_day_unique. destruct (leap_year y); lia. }
  assert (Hl : InLeapYear (MakeDate (MakeDay y m dt) tm) = leap_year y) by (unfold InLeapYear; rewrite Hy; reflexivity).
  assert (Hw : DayWithinYear (MakeDate (MakeDay y m dt) tm) = month_start (leap_year y) m + dt - 1)
    by (unfold DayWithinYear; rewrite Hd, Hy, Hmk; lia).
  assert (HM : MonthFromTime (MakeDate (MakeDay y m dt) tm) = m).
  { unfold MonthFromTime. rewrite Hl, Hw. apply month_of_in; lia. }
  split; [exact Hy|]. split; [exact HM|]. split; [|exact Ht].
  unfold DateFromTime. rewrite Hw, Hl, HM. lia.
Qed.

(** A time is its calendar date and time within the day put together. *)
Theorem time_decompose t :
  MakeDate (MakeDay (YearFromTime t) (MonthFromTime t) (DateFromTime t)) (TimeWithinDay t) = t.
Proof.
  rewrite MakeDay_month by (apply month_of_range; lia).
  unfold DateFromTime, InLeapYear, DayWithinYear. fold (leap_year (YearFromTime t)).
  replace (DayFromYear (YearFromTime t) + month_start (leap_year (YearFromTime t)) (MonthFromTime t) +
           (Day t - DayFromYear (YearFromTime t) - month_start (leap_year (YearFromTime t)) (MonthFromTime t) + 1) - 1)
    with (Day t) by lia.
  unfold MakeDate, Day, TimeWithinDay, msPerDay. zarith.
Qed.

(** ** Ranges of the fields *)

Lemma month_start_0 leap : month_start leap 0 = 0.
Proof. destruct leap; reflexivity. Qed.

Lemma month_of_le leap k n : 0 <= k -> month_start leap (month_of leap k n) <= k.
Proof.
  intros Hk. induction n as [|n IH]; cbn [month_of]; [rewrite month_start_0; exact Hk|].
  destruct (Z.leb_spec (month_start leap (Z.of_nat (S n))) k); [assumption|exact IH].
Qed.

Lemma DayWithinYear_nonneg t : 0 <= DayWithinYear t.
Proof. unfold DayWithinYear, YearFromTime. pose proof (year_from_day_spec (Day t)). lia. Qed.

Lemma DateFromTime_pos t : 1 <= DateFromTime t.
Proof.
  unfold DateFromTime, MonthFromTime. pose proof (month_of_le (InLeapYear t) (DayWithinYear t) 11 (DayWithinYear_nonneg t)).
  lia.
Qed.

(** A day within a year lies at most 30 days after the start of its
    month. *)
Definition date_in_month_ok (leap : bool) (k : Z) : bool :=
  (month_start leap 12 <=? k) || (k - month_start leap (month_of leap k 11) <? 31).

Lemma DayWithinYear_range t : 0 <= DayWithinYear t < month_start (InLeapYear t) 12.
Proof.
  split; [apply DayWithinYear_nonneg|]. unfold DayWithinYear, InLeapYear, YearFromTime.
  pose proof (year_from_day_spec (Day t)) as Hs. pose proof (dfy_step (year_from_day (Day t))) as Hd.
  rewrite leap_days in Hd. fold (leap_year (year_from_day (Day t))).
  destruct (month_start_range (leap_year (year_from_day (Day t))) 11 ltac:(lia)) as (_ & _ & _ & H12).
  rewrite H12. unfold leap_year in *. lia.
Qed.

Lemma DateFromTime_le t : DateFromTime t <= 31.
Proof.
  pose proof (DayWithinYear_range t) as Hk.
  assert (H : date_in_month_ok (InLeapYear t) (DayWithinYear t) = true).
  { destruct (InLeapYear t); [change (month_start true 12) with 366 in Hk | change (month_start false 12) with 365 in Hk];
      [range_check (date_in_month_ok true) 0 366%nat | range_check (date_in_month_ok false) 0 366%nat]. }
  unfold date_in_month_ok in H. bool_hyps; [lia|]. unfold DateFromTime, MonthFromTime. lia.
Qed.

(** A day within a year comes before the start of the month after its
    month. *)
Definition before_next_month_ok (leap : bool) (k : Z) : bool :=
  (month_start leap 12 <=? k) || (k <? month_start leap (month_of leap k 11 + 1)).

(** The day of the month is within the month's length. *)
Lemma DateFromTime_in_month t : DateFromTime t <= days_in_month (YearFromTime t) (MonthFromTime t).
Proof.
  pose proof (DayWithinYear_range t) as Hk.
  assert (H : before_next_month_ok (InLeapYear t) (DayWithinYear t) = true).
  { destruct (InLeapYear t); [change (month_start true 12) with 366 in Hk | change (month_start false 12) with 365 in Hk];
      [range_check (before_next_month_ok true) 0 366%nat | range_check (before_next_month_ok false) 0 366%nat]. }
  unfold before_next_month_ok in H. bool_hyps; [lia|].
  unfold DateFromTime, days_in_month, MonthFromTime. change (leap_year (YearFromTime t)) with (InLeapYear t). lia.
Qed.

Lemma days_in_month_min y m : 0 <= m <= 11 -> 28 <= days_in_month y m.
Proof.
  intros H. unfold days_in_month. assert (m = 0 \/ m = 1 \/ m = 2 \/ m = 3 \/ m = 4 \/ m = 5 \/ m = 6 \/ m = 7 \/ m = 8 \/ m = 9 \/ m = 10 \/ m = 11)
    as Hm by lia.
  destruct (leap_year y); repeat destruct Hm as [->|Hm]; subst; unfold month_start; simpl; lia.
Qed.

Lemma days_in_month_max y m : 0 <= m <= 11 -> days_in_month y m <= 31.
Proof.
  intros H. unfold days_in_month. assert (m = 0 \/ m = 1 \/ m = 2 \/ m = 3 \/ m = 4 \/ m = 5 \/ m = 6 \/ m = 7 \/ m = 8 \/ m = 9 \/ m = 10 \/ m = 11)
    as Hm by lia.
  destruct (leap_year y); repeat destruct Hm as [->|Hm]; subst; unfold month_start; simpl; lia.
Qed.

Lemma TimeWithinDay_range t : 0 <= TimeWithinDay t < msPerDay.
Proof. unfold TimeWithinDay, msPerDay. apply Z.mod_pos_bound. lia. Qed.

Lemma TimeClip_some x t : TimeClip x = Some t -> t = x.
Proof. unfold TimeClip. destruct (Z.abs x <=? _); congruence. Qed.

(** The year, month and day of the month of a time depend on its day
    only. *)
Lemma fields_of_Day t t' :
  Day t = Day t' -> YearFromTime t = YearFromTime t' /\ MonthFromTime t = MonthFromTime t' /\ DateFromTime t = DateFromTime t'.
Proof.
  intros H. unfold DateFromTime, MonthFromTime, DayWithinYear, InLeapYear, YearFromTime. rewrite H. auto.
Qed.

(** [MakeDay] carries a month beyond December into the year. *)
Lemma MakeDay_carry y m dt : MakeDay y m dt = MakeDay (y + m / 12) (m mod 12) dt.
Proof.
  rewrite (MakeDay_month (y + m / 12)) by (pose proof (Z.mod_pos_bound m 12); lia). reflexivity.
Qed.

End EcmaDate.
