(* ===== verification/DateText.v ===== *)
(** The text of a [Date] and [Date.parse] (ECMA-262 21.4.4.41 and
    21.4.3.2), which [formatPassTime] runs the current time through
    ([Date.parse(new Date())]) and which [new Date(string)] applies to a
    string argument of [formatPassTime], [formatRemainTime] and [Moment].

    [ToDateString] writes [Www Mmm DD YYYY HH:mm:ss GMT+HHMM] followed by
    an implementation-defined time zone name, the fields being those of
    local time: the time value plus the host's offset [LocalTZA] (a
    constant offset: daylight saving time is not modelled).  [Date.parse] reads
    the Date Time String Format of 21.4.1.32 ([parse_iso]: [YYYY],
    [YYYY-MM], [YYYY-MM-DD], optionally followed by [THH:mm], [:ss],
    [.sss] and an offset [Z] or [+HH:mm]; expanded years [+YYYYYY]); on
    other strings the standard lets an implementation use its own
    formats, and asks that it read back what [toString] writes: the
    model reads that format ([parse_date_string]) and leaves every other
    string to a parameter of the host ([parse_fallback]).  Parsers are
    functions from the remaining text to an optional value and rest,
    composed with a bind. *)

From Stdlib Require Import ZArith Lia List String.
From stdpp Require Import base decidable.
From S2P Require Import Prelude JsString EcmaDate.
Import ListNotations.
Open Scope bool_scope.
Open Scope Z_scope.

Module DateText.
Import JsString EcmaDate.

(** ** The host *)

(** What ECMA-262 leaves to the implementation: the offset of local
    time from UTC in milliseconds (21.4.1.25 [LocalTZA], here one
    offset for every instant), the name [toString] appends to the
    offset, and [Date.parse] on strings in neither format. *)
Record date_host := {
  LocalTZA : Z;
  tz_name : jsstring;
  parse_fallback : jsstring -> option Z
}.

(** ** Time of day *)

Definition msPerSecond : Z := 1000.
Definition msPerMinute : Z := 60000.
Definition msPerHour : Z := 3600000.

(** 21.4.1.14 [HourFromTime], [MinFromTime], [SecFromTime] and
    21.4.1.27 [MakeTime] on integers. *)
Definition HourFromTime (t : Z) : Z := (t / msPerHour) mod 24.
Definition MinFromTime (t : Z) : Z := (t / msPerMinute) mod 60.
Definition SecFromTime (t : Z) : Z := (t / msPerSecond) mod 60.
Definition MakeTime (h m s ms : Z) : Z := h * msPerHour + m * msPerMinute + s * msPerSecond + ms.

(** ** [Date.prototype.toString] *)

Definition week_names : list jsstring :=
  map js ["Sun"; "Mon"; "Tue"; "Wed"; "Thu"; "Fri"; "Sat"]%string.
Definition month_names : list jsstring :=
  map js ["Jan"; "Feb"; "Mar"; "Apr"; "May"; "Jun"; "Jul"; "Aug"; "Sep"; "Oct"; "Nov"; "Dec"]%string.

(** [ToZeroPaddedDecimalString(n, minLength)]. *)
Definition zero_pad (n : Z) (len : nat) : jsstring :=
  let s := number_to_string n in repeat c_zero (len - length s) ++ s.

Definition c_space : Z := 32.
Definition c_colon : Z := 58.
Definition c_plus : Z := 43.

(** 21.4.4.41.2 [DateString]. *)
Definition DateString (t : Z) : jsstring :=
  nth (Z.to_nat (WeekDay t)) week_names [] ++ [c_space] ++
  nth (Z.to_nat (MonthFromTime t)) month_names [] ++ [c_space] ++
  zero_pad (DateFromTime t) 2 ++ [c_space] ++
  (if YearFromTime t <? 0 then [c_minus] else []) ++ zero_pad (Z.abs (YearFromTime t)) 4.

(** 21.4.4.41.1 [TimeString]. *)
Definition TimeString (t : Z) : jsstring :=
  zero_pad (HourFromTime t) 2 ++ [c_colon] ++ zero_pad (MinFromTime t) 2 ++ [c_colon] ++
  zero_pad (SecFromTime t) 2 ++ js " GMT".

(** The name after the offset: nothing for an empty name, otherwise
    a space and the name in parentheses. *)
Definition tz_designation (h : date_host) : jsstring :=
  if bool_decide (tz_name h = []) then [] else [c_space; 40] ++ tz_name h ++ [41].

(** 21.4.4.41.3 [TimeZoneString]: the sign, hours and minutes of the
    offset, then the name. *)
Definition TimeZoneString (h : date_host) (tv : Z) : jsstring :=
  let offset := LocalTZA h in
  (if 0 <=? offset then [c_plus] else [c_minus]) ++
  zero_pad (HourFromTime (Z.abs offset)) 2 ++ zero_pad (MinFromTime (Z.abs offset)) 2 ++ tz_designation h.

(** 21.4.4.41.4 [ToDateString]: [Invalid Date] for [NaN]. *)
Definition ToDateString (h : date_host) (tv : option Z) : jsstring :=
  match tv with
  | None => js "Invalid Date"
  | Some tv =>
      let t := tv + LocalTZA h in
      DateString t ++ [c_space] ++ TimeString t ++ TimeZoneString h tv
  end.

(** ** Parsers *)

Definition parser (A : Type) : Type := jsstring -> option (A * jsstring).

Definition pret {A} (a : A) : parser A := fun s => Some (a, s).

Definition pbind {A B} (p : parser A) (f : A -> parser B) : parser B :=
  fun s => match p s with Some (a, r) => f a r | None => None end.

Declare Scope parser_scope.
Notation "x <- p ;; q" := (pbind p (fun x => q)) : parser_scope.
Open Scope parser_scope.

Definition or_else {A} (d : A) (o : option A) : A := match o with Some a => a | None => d end.

(** The empty parse, so that an optional part may be absent. *)
Definition popt {A} (p : parser A) : parser (option A) :=
  fun s => match p s with Some (a, r) => Some (Some a, r) | None => Some (None, s) end.

Fixpoint lit (w : jsstring) : parser unit :=
  fun s =>
    match w, s with
    | [], _ => Some (tt, s)
    | x :: w', c :: s' => if x =? c then lit w' s' else None
    | _ :: _, [] => None
    end.

(** Exactly [n] decimal digits, as their value. *)
Fixpoint digits_n (n : nat) (acc : Z) : parser Z :=
  fun s =>
    match n, s with
    | O, _ => Some (acc, s)
    | S k, c :: r => if is_digit c then digits_n k (acc * 10 + (c - c_zero)) r else None
    | S _, [] => None
    end.

(** The longest run of decimal digits. *)
Fixpoint digit_span (s : jsstring) : jsstring * jsstring :=
  match s with
  | c :: r => if is_digit c then let '(ds, t) := digit_span r in (c :: ds, t) else ([], s)
  | [] => ([], [])
  end.

(** A name of three units, as its index in [names]. *)
Fixpoint index_of (names : list jsstring) (w : jsstring) (i : Z) : option Z :=
  match names with
  | [] => None
  | n :: ns => if bool_decide (n = w) then Some i else index_of ns w (i + 1)
  end.

Definition name_index (names : list jsstring) : parser Z :=
  fun s =>
    match s with
    | a :: b :: c :: r => match index_of names [a; b; c] 0 with Some i => Some (i, r) | None => None end
    | _ => None
    end.

(** ** The format of [toString] *)

(** At least four digits of a year. *)
Definition year_digits : parser Z :=
  fun s => let '(ds, r) := digit_span s in
           if (4 <=? length ds)%nat then Some (decimal_value ds, r) else None.

Definition signed_year : parser Z :=
  neg <- popt (lit [c_minus]) ;; y <- year_digits ;; pret (match neg with Some _ => - y | None => y end).

Definition sign : parser Z :=
  fun s => match s with
           | c :: r => if c =? c_plus then Some (1, r) else if c =? c_minus then Some (-1, r) else None
           | [] => None
           end.

(** The time zone name: nothing, or a space and a parenthesised name
    up to the end. *)
Definition tz_suffix : parser unit :=
  fun s => match s with
           | [] => Some (tt, [])
           | a :: b :: r => if (a =? c_space) && (b =? 40) && bool_decide (last r 0 = 41) then Some (tt, []) else None
           | _ => None
           end.

Definition parse_date_string : parser Z :=
  _ <- name_index week_names ;; _ <- lit [c_space] ;;
  mon <- name_index month_names ;; _ <- lit [c_space] ;;
  day <- digits_n 2 0 ;; _ <- lit [c_space] ;;
  y <- signed_year ;; _ <- lit [c_space] ;;
  hh <- digits_n 2 0 ;; _ <- lit [c_colon] ;; mi <- digits_n 2 0 ;; _ <- lit [c_colon] ;;
  ss <- digits_n 2 0 ;; _ <- lit (js " GMT") ;;
  sg <- sign ;; oh <- digits_n 2 0 ;; om <- digits_n 2 0 ;; _ <- tz_suffix ;;
  pret (MakeDate (MakeDay y mon day) (MakeTime hh mi ss 0) - sg * (oh * msPerHour + om * msPerMinute)).

(** ** The Date Time String Format *)

(** [YYYY], or a sign and six digits; [-000000] is not a year. *)
Definition iso_year : parser Z :=
  fun s => match s with
           | c :: r =>
               if c =? c_plus then digits_n 6 0 r
               else if c =? c_minus then
                 match digits_n 6 0 r with
                 | Some (y, r') => if y =? 0 then None else Some (- y, r')
                 | None => None
                 end
               else digits_n 4 0 s
           | [] => None
           end.

(** [YYYY], [YYYY-MM] or [YYYY-MM-DD]: year, month and day, the
    missing fields being 1. *)
Definition iso_date : parser (Z * Z * Z) :=
  y <- iso_year ;;
  mo <- popt (_ <- lit [c_minus] ;; digits_n 2 0) ;;
  match mo with
  | None => pret (y, 1, 1)
  | Some m => d <- popt (_ <- lit [c_minus] ;; digits_n 2 0) ;; pret (y, m, or_else 1 d)
  end.

(** [THH:mm], [THH:mm:ss] or [THH:mm:ss.sss]. *)
Definition iso_time : parser (Z * Z * Z * Z) :=
  _ <- lit [84] ;; hh <- digits_n 2 0 ;; _ <- lit [c_colon] ;; mi <- digits_n 2 0 ;;
  sec <- popt (_ <- lit [c_colon] ;; ss <- digits_n 2 0 ;;
               ms <- popt (_ <- lit [46] ;; digits_n 3 0) ;; pret (ss, or_else 0 ms)) ;;
  pret (hh, mi, fst (or_else (0, 0) sec), snd (or_else (0, 0) sec)).

(** The UTC offset [Z] or [+HH:mm], in milliseconds. *)
Definition iso_offset : parser Z :=
  fun s => match s with
           | 90 :: r => Some (0, r)
           | _ => (sg <- sign ;; oh <- digits_n 2 0 ;; _ <- lit [c_colon] ;; om <- digits_n 2 0 ;;
                   if (oh <=? 23) && (om <=? 59) then pret (sg * (oh * msPerHour + om * msPerMinute))
                   else fun _ => None) s
           end.

(** The fields within their ranges; [24:00] only as the end of the
    day. *)
Definition iso_fields_ok (mo d hh mi ss ms : Z) : bool :=
  (1 <=? mo) && (mo <=? 12) && (1 <=? d) && (d <=? 31) && (hh <=? 24) && (mi <=? 59) && (ss <=? 59) &&
  ((hh <? 24) || ((mi =? 0) && (ss =? 0) && (ms =? 0))).

(** [Date.parse] on the format: [None] when the string is not of the
    format, [Some None] ([NaN]) when a field is out of range.  A
    date-only form is UTC, a date-time form without an offset local
    time, which is UTC plus [tza]. *)
Definition parse_iso (tza : Z) (s : jsstring) : option (option Z) :=
  match (d <- iso_date ;; t <- popt (tm <- iso_time ;; off <- popt iso_offset ;; pret (tm, off)) ;; pret (d, t)) s with
  | Some (((y, mo, dd), t), []) =>
      let '(hh, mi, ss, ms, off) :=
        match t with
        | None => (0, 0, 0, 0, 0)
        | Some ((hh, mi, ss, ms), off) => (hh, mi, ss, ms, or_else tza off)
        end in
      Some (if iso_fields_ok mo dd hh mi ss ms
            then TimeClip (MakeDate (MakeDay y (mo - 1) dd) (MakeTime hh mi ss ms) - off)
            else None)
  | _ => None
  end.

(** 21.4.3.2 [Date.parse(string)]: the format of the standard, then
    the format of [toString], then the host's own. *)
Definition date_parse (h : date_host) (s : jsstring) : option Z :=
  match parse_iso (LocalTZA h) s with
  | Some r => r
  | None =>
      match parse_date_string s with
      | Some (t, []) => TimeClip t
      | _ => parse_fallback h s
      end
  end.


(** The offsets [toString] writes exactly: a whole number of minutes,
    less than a day. *)
Definition offset_ok (h : date_host) : bool :=
  (LocalTZA h mod msPerMinute =? 0) && (Z.abs (LocalTZA h) <? msPerDay).

Lemma offset_ok_bound h : offset_ok h = true -> - 86340000 <= LocalTZA h <= 86340000.
Proof.
  unfold offset_ok, msPerMinute, msPerDay. intros H. bool_hyps. apply Z.eqb_eq in H.
  apply Z.ltb_lt in H0. zarith.
Qed.

(** A host in the manner of the engines of the browsers: the name of
    UTC after the offset, and no format of its own. *)
Definition utc_host : date_host :=
  {| LocalTZA := 0; tz_name := js "Coordinated Universal Time"; parse_fallback := fun _ => None |}.

(** A host an hour east of UTC, and one five hours west of it. *)
Definition cet_host : date_host :=
  {| LocalTZA := 3600000; tz_name := js "Central European Standard Time"; parse_fallback := fun _ => None |}.
Definition est_host : date_host :=
  {| LocalTZA := -18000000; tz_name := js "Eastern Standard Time"; parse_fallback := fun _ => None |}.

(** The text [YYYY-MM-DD] of a date. *)
Definition iso_date_text (y m d : Z) : jsstring :=
  zero_pad y 4 ++ [c_minus] ++ zero_pad m 2 ++ [c_minus] ++ zero_pad d 2.

(** ** Lemmas *)

Lemma pbind_ok {A B} (p : parser A) (f : A -> parser B) s a r :
  p s = Some (a, r) -> pbind p f s = f a r.
Proof. intros H. unfold pbind. rewrite H. reflexivity. Qed.

Lemma lit_app w r : lit w (w ++ r) = Some (tt, r).
Proof. induction w as [|x w IH]; [reflexivity|]. cbn [app lit]. rewrite Z.eqb_refl. exact IH. Qed.

Definition zero_pad2_ok (v : Z) : bool := bool_decide (zero_pad v 2 = [c_zero + v / 10; c_zero + v mod 10]).

(** Two digits of a field below 100. *)
Lemma zero_pad2 v : 0 <= v < 100 -> zero_pad v 2 = [c_zero + v / 10; c_zero + v mod 10].
Proof.
  intros Hv. assert (H : zero_pad2_ok v = true) by range_check zero_pad2_ok 0 100%nat.
  apply bool_decide_eq_true in H. exact H.
Qed.

Lemma digits_zero_pad2 v r : 0 <= v < 100 -> digits_n 2 0 (zero_pad v 2 ++ r) = Some (v, r).
Proof.
  intros Hv. rewrite zero_pad2 by exact Hv. cbn [app digits_n].
  unfold is_digit, c_zero. replace ((48 <=? 48 + v / 10) && (48 + v / 10 <=? 57)) with true by (symmetry; bool_to_prop; zarith).
  replace ((48 <=? 48 + v mod 10) && (48 + v mod 10 <=? 57)) with true by (symmetry; bool_to_prop; zarith).
  f_equal. f_equal. zarith.
Qed.

Lemma week_name_index tza w r :
  0 <= w < 7 -> name_index week_names (nth (Z.to_nat w) week_names [] ++ r) = Some (w, r) /\
                parse_iso tza (nth (Z.to_nat w) week_names [] ++ r) = None.
Proof.
  intros Hw. assert (w = 0 \/ w = 1 \/ w = 2 \/ w = 3 \/ w = 4 \/ w = 5 \/ w = 6) as Hc by lia.
  repeat destruct Hc as [->|Hc]; subst; split; reflexivity.
Qed.

Lemma month_name_index m r :
  0 <= m <= 11 -> name_index month_names (nth (Z.to_nat m) month_names [] ++ r) = Some (m, r).
Proof.
  intros Hm. assert (m = 0 \/ m = 1 \/ m = 2 \/ m = 3 \/ m = 4 \/ m = 5 \/ m = 6 \/ m = 7 \/ m = 8 \/ m = 9 \/ m = 10 \/ m = 11)
    as Hc by lia.
  repeat destruct Hc as [->|Hc]; subst; reflexivity.
Qed.

Lemma digit_span_app ds c r :
  Forall (fun x => is_digit x = true) ds -> is_digit c = false -> digit_span (ds ++ c :: r) = (ds, c :: r).
Proof.
  intros Hds Hc. induction Hds as [|x ds Hx _ IH]; cbn [app digit_span]; [rewrite Hc; reflexivity|].
  rewrite Hx, IH. reflexivity.
Qed.

Lemma zero_pad_digits n k : 0 <= n -> Forall (fun x => is_digit x = true) (zero_pad n k).
Proof.
  intros Hn. apply Forall_app. split; [|apply number_to_string_nonneg_digits, Hn].
  apply Forall_forall. intros x Hx. apply repeat_spec in Hx. subst. reflexivity.
Qed.

Lemma decimal_value_zeros j s : decimal_value (repeat c_zero j ++ s) = decimal_value s.
Proof.
  induction j as [|j IH]; [reflexivity|]. cbn [repeat app].
  rewrite decimal_value_cons. unfold c_zero at 1. rewrite Z.sub_diag, Z.mul_0_l. exact IH.
Qed.

Lemma zero_pad_value n k : 0 <= n -> decimal_value (zero_pad n k) = n /\ (k <= length (zero_pad n k))%nat.
Proof.
  intros Hn. unfold zero_pad. rewrite decimal_value_zeros, number_to_string_value by exact Hn.
  rewrite length_app, repeat_length. split; [reflexivity | lia].
Qed.

Lemma signed_year_text y r :
  signed_year ((if y <? 0 then [c_minus] else []) ++ zero_pad (Z.abs y) 4 ++ c_space :: r) = Some (y, c_space :: r).
Proof.
  pose proof (zero_pad_digits (Z.abs y) 4 ltac:(lia)) as Hd.
  destruct (zero_pad_value (Z.abs y) 4 ltac:(lia)) as [Hv Hl].
  assert (Hy : year_digits (zero_pad (Z.abs y) 4 ++ c_space :: r) = Some (Z.abs y, c_space :: r)).
  { unfold year_digits. rewrite digit_span_app by (exact Hd || reflexivity).
    apply Nat.leb_le in Hl. rewrite Hl, Hv. reflexivity. }
  unfold signed_year. destruct (Z.ltb_spec y 0).
  - erewrite pbind_ok by (unfold popt; rewrite lit_app; reflexivity).
    erewrite pbind_ok by exact Hy. unfold pret. do 3 f_equal. lia.
  - assert (Hh : lit [c_minus] (zero_pad (Z.abs y) 4 ++ c_space :: r) = None).
    { destruct (zero_pad (Z.abs y) 4) as [|c z]; [cbn in Hl; lia|].
      inversion Hd as [|? ? Hc _]. unfold is_digit in Hc. bool_hyps.
      cbn [app lit]. replace (c_minus =? c) with false by (unfold c_minus; lia). reflexivity. }
    cbn [app]. erewrite pbind_ok by (unfold popt; rewrite Hh; reflexivity).
    erewrite pbind_ok by exact Hy. unfold pret. do 3 f_equal. lia.
Qed.

Lemma mod_mul_r a b c : 0 < b -> 0 < c -> a mod (b * c) = a mod b + b * ((a / b) mod c).
Proof. intros Hb Hc. rewrite !Z.mod_eq by lia. rewrite <- Z.div_div by lia. ring. Qed.

(** The hours, minutes and seconds of a time, put together, are its
    time within the day without the milliseconds. *)
Lemma MakeTime_of_time t :
  MakeTime (HourFromTime t) (MinFromTime t) (SecFromTime t) 0 = TimeWithinDay t - t mod 1000.
Proof.
  unfold MakeTime, HourFromTime, MinFromTime, SecFromTime, TimeWithinDay, msPerHour, msPerMinute, msPerSecond, msPerDay.
  replace 3600000 with (1000 * 3600) by reflexivity. replace 60000 with (1000 * 60) by reflexivity.
  replace 86400000 with (1000 * 86400) by reflexivity.
  rewrite <- !Z.div_div by lia. rewrite mod_mul_r by lia.
  replace 3600 with (60 * 60) by reflexivity. replace 86400 with (60 * 1440) by reflexivity.
  rewrite <- (Z.div_div _ 60 60) by lia. rewrite (mod_mul_r (t / 1000) 60 1440) by lia.
  replace 1440 with (60 * 24) by reflexivity. rewrite (mod_mul_r (t / 1000 / 60) 60 24) by lia. lia.
Qed.

(** The fields of a time, put together, are the time without its
    milliseconds. *)
Lemma MakeDate_fields u :
  MakeDate (MakeDay (YearFromTime u) (MonthFromTime u) (DateFromTime u))
           (MakeTime (HourFromTime u) (MinFromTime u) (SecFromTime u) 0) = u - u mod 1000.
Proof. rewrite MakeTime_of_time. pose proof (time_decompose u) as D. unfold MakeDate in *. lia. Qed.

Lemma tz_suffix_designation h : tz_suffix (tz_designation h) = Some (tt, []).
Proof.
  unfold tz_designation. case_bool_decide; [reflexivity|].
  cbn [app tz_suffix]. rewrite last_last. reflexivity.
Qed.

(** The text of a valid time value: the fields of its local time in
    the order the parser reads them, then the offset. *)
Lemma ToDateString_text h tv (t := tv + LocalTZA h) :
  ToDateString h (Some tv) =
  nth (Z.to_nat (WeekDay t)) week_names [] ++ [c_space] ++ nth (Z.to_nat (MonthFromTime t)) month_names [] ++
  [c_space] ++ zero_pad (DateFromTime t) 2 ++ [c_space] ++
  ((if YearFromTime t <? 0 then [c_minus] else []) ++ zero_pad (Z.abs (YearFromTime t)) 4 ++ c_space ::
   zero_pad (HourFromTime t) 2 ++ [c_colon] ++ zero_pad (MinFromTime t) 2 ++ [c_colon] ++
   zero_pad (SecFromTime t) 2 ++ js " GMT" ++ TimeZoneString h tv).
Proof. unfold ToDateString, DateString, TimeString. rewrite <- !app_assoc. reflexivity. Qed.

(** An offset of whole minutes within a day is written [+HHMM] or
    [-HHMM] and read back. *)
Lemma offset_text h tv x :
  LocalTZA h mod msPerMinute = 0 -> Z.abs (LocalTZA h) < msPerDay ->
  (sg <- sign ;; oh <- digits_n 2 0 ;; om <- digits_n 2 0 ;; _ <- tz_suffix ;;
   pret (x - sg * (oh * msPerHour + om * msPerMinute))) (TimeZoneString h tv) = Some (x - LocalTZA h, []).
Proof.
  intros Hm Hd. set (o := LocalTZA h) in *. unfold TimeZoneString. fold o.
  assert (Hh : 0 <= HourFromTime (Z.abs o) < 24) by (unfold HourFromTime; apply Z.mod_pos_bound; lia).
  assert (Hmi : 0 <= MinFromTime (Z.abs o) < 60) by (unfold MinFromTime; apply Z.mod_pos_bound; lia).
  assert (Hv : HourFromTime (Z.abs o) * msPerHour + MinFromTime (Z.abs o) * msPerMinute = Z.abs o).
  { unfold HourFromTime, MinFromTime, msPerHour, msPerMinute, msPerDay in *.
    rewrite Z.mod_small by (split; [apply Z.div_pos|apply Z.div_lt_upper_bound]; lia).
    replace 3600000 with (60000 * 60) by reflexivity. rewrite <- Z.div_div by lia.
    pose proof (Z.div_mod (Z.abs o) 60000 ltac:(lia)). pose proof (Z.div_mod (Z.abs o / 60000) 60 ltac:(lia)).
    assert (Z.abs o mod 60000 = 0) by (destruct (Z.abs_spec o) as [[_ ->]|[_ ->]]; [exact Hm|];
      rewrite Z.mod_opp_l_z; lia). lia. }
  assert (Hs : sign ((if 0 <=? o then [c_plus] else [c_minus]) ++ zero_pad (HourFromTime (Z.abs o)) 2 ++
                     zero_pad (MinFromTime (Z.abs o)) 2 ++ tz_designation h) =
               Some (if 0 <=? o then 1 else -1, zero_pad (HourFromTime (Z.abs o)) 2 ++
                     zero_pad (MinFromTime (Z.abs o)) 2 ++ tz_designation h))
    by (destruct (0 <=? o); reflexivity).
  erewrite pbind_ok by exact Hs. cbv beta.
  erewrite pbind_ok by (apply digits_zero_pad2; lia). cbv beta.
  erewrite pbind_ok by (apply digits_zero_pad2; lia). cbv beta.
  erewrite pbind_ok by apply tz_suffix_designation. unfold pret. rewrite Hv.
  do 2 f_equal. destruct (Z.leb_spec 0 o); lia.
Qed.

(** [Date.parse] reads back what [Date.prototype.toString] writes,
    whatever the host's time zone name, when the offset is a whole
    number of minutes (the text has no seconds of the offset): on a
    valid time value the result is the time without its milliseconds,
    which is what [Date.parse(new Date())] makes of the current time. *)
Theorem date_parse_toString h t :
  offset_ok h = true -> Z.abs t <= 8640000000000000 -> date_parse h (ToDateString h (Some t)) = Some (t - t mod 1000).
Proof.
  intros Ho Ht. unfold offset_ok in Ho. apply andb_true_iff in Ho as [Hz Hzd].
  apply Z.eqb_eq in Hz. apply Z.ltb_lt in Hzd. rewrite ToDateString_text. set (u := t + LocalTZA h).
  assert (Hw : 0 <= WeekDay u < 7) by (apply Z.mod_pos_bound; lia).
  pose proof (month_of_range (InLeapYear u) (DayWithinYear u) 11 ltac:(lia)) as Hm. fold (MonthFromTime u) in Hm.
  pose proof (DateFromTime_pos u). pose proof (DateFromTime_le u).
  assert (0 <= HourFromTime u < 24 /\ 0 <= MinFromTime u < 60 /\ 0 <= SecFromTime u < 60) as (Hh & Hmi & Hs)
    by (unfold HourFromTime, MinFromTime, SecFromTime; split; [|split]; apply Z.mod_pos_bound; lia).
  unfold date_parse. rewrite (proj2 (week_name_index _ _ _ Hw)).
  unfold parse_date_string.
  erewrite pbind_ok by exact (proj1 (week_name_index 0 _ _ Hw)). cbv beta.
  erewrite pbind_ok by apply lit_app. cbv beta.
  erewrite pbind_ok by (apply month_name_index; exact Hm). cbv beta.
  erewrite pbind_ok by apply lit_app. cbv beta.
  erewrite pbind_ok by (apply digits_zero_pad2; lia). cbv beta.
  erewrite pbind_ok by apply lit_app. cbv beta.
  erewrite pbind_ok by apply signed_year_text. cbv beta.
  erewrite pbind_ok by apply (lit_app [c_space]). cbv beta.
  erewrite pbind_ok by (apply digits_zero_pad2; lia). cbv beta.
  erewrite pbind_ok by apply lit_app. cbv beta.
  erewrite pbind_ok by (apply digits_zero_pad2; lia). cbv beta.
  erewrite pbind_ok by apply lit_app. cbv beta.
  erewrite pbind_ok by (apply digits_zero_pad2; lia). cbv beta.
  erewrite pbind_ok by apply lit_app. cbv beta.
  rewrite (offset_text h t _ Hz Hzd).
  rewrite MakeDate_fields. unfold TimeClip.
  assert (Hu : u mod 1000 = t mod 1000).
  { unfold u. unfold msPerMinute in Hz. replace (LocalTZA h) with ((60 * (LocalTZA h / 60000)) * 1000)
      by (pose proof (Z.div_mod (LocalTZA h) 60000 ltac:(lia)); lia).
    apply Z.mod_add; lia. }
  replace (u - u mod 1000 - LocalTZA h) with (t - t mod 1000) by (rewrite Hu; unfold u; lia).
  rewrite (proj2 (Z.leb_le _ _)); [reflexivity|].
  pose proof (Z.mod_pos_bound t 1000 ltac:(lia)). zarith.
Qed.

Lemma date_parse_toString_witness :
  offset_ok cet_host = true /\ Z.abs 1700000000123 <= 8640000000000000 /\
  date_parse cet_host (ToDateString cet_host (Some 1700000000123)) = Some (1700000000123 - 1700000000123 mod 1000).
Proof. split; [reflexivity|]. split; [lia|]. apply date_parse_toString; reflexivity || lia. Defined.

Lemma digits_n_app n acc l r v : digits_n n acc l = Some (v, []) -> digits_n n acc (l ++ r) = Some (v, r).
Proof.
  revert acc l. induction n as [|n IH]; intros acc l H; destruct l as [|c l]; cbn [app digits_n] in *; try congruence.
  - injection H as ->. reflexivity.
  - destruct (is_digit c); [apply IH; exact H | discriminate].
Qed.

Definition year4_ok (y : Z) : bool :=
  bool_decide (zero_pad y 4 = number_to_string y) && bool_decide (digits_n 4 0 (number_to_string y) = Some (y, [])).

(** A year of four digits is written without padding and read back. *)
Lemma year4 y : 1000 <= y <= 9999 ->
  zero_pad y 4 = number_to_string y /\ forall r, digits_n 4 0 (zero_pad y 4 ++ r) = Some (y, r).
Proof.
  intros Hy. assert (H : year4_ok y = true) by (apply (forallb_range year4_ok 1000 (Z.to_nat 9000)); [vm_compute; reflexivity | rewrite Z2Nat.id by lia; lia]).
  unfold year4_ok in H. apply andb_true_iff in H as [H1 H2]. apply bool_decide_eq_true in H1, H2.
  split; [exact H1|]. intros r. rewrite H1. apply digits_n_app, H2.
Qed.

Lemma popt_some {A} (p : parser A) s a r : p s = Some (a, r) -> popt p s = Some (Some a, r).
Proof. intros H. unfold popt. rewrite H. reflexivity. Qed.

Lemma iso_date_of_text y m d :
  1000 <= y <= 9999 -> 1 <= m <= 12 -> 1 <= d <= 31 -> iso_date (iso_date_text y m d) = Some ((y, m, d), []).
Proof.
  intros Hy Hm Hd. destruct (year4 y Hy) as [_ H4]. unfold iso_date, iso_date_text.
  assert (Hyr : iso_year (zero_pad y 4 ++ [c_minus] ++ zero_pad m 2 ++ [c_minus] ++ zero_pad d 2) =
                Some (y, [c_minus] ++ zero_pad m 2 ++ [c_minus] ++ zero_pad d 2)).
  { specialize (H4 ([c_minus] ++ zero_pad m 2 ++ [c_minus] ++ zero_pad d 2)). revert H4.
    destruct (zero_pad y 4) as [|c l]; cbn [app digits_n]; [discriminate|].
    destruct (is_digit c) eqn:Hc; [|discriminate]. intros H4. unfold iso_year.
    unfold is_digit in Hc. bool_hyps. unfold c_plus, c_minus.
    replace (c =? 43) with false by lia. replace (c =? 45) with false by lia. cbn [app digits_n].
    unfold is_digit. rewrite (proj2 (andb_true_iff _ _) (conj (proj2 (Z.leb_le _ _) H) (proj2 (Z.leb_le _ _) H0))).
    exact H4. }
  erewrite pbind_ok by exact Hyr. cbv beta.
  erewrite pbind_ok.
  2: { apply popt_some. erewrite pbind_ok by apply lit_app. apply digits_zero_pad2. lia. }
  cbv beta iota. erewrite pbind_ok.
  2: { apply popt_some. erewrite pbind_ok by apply lit_app. rewrite <- (app_nil_r (zero_pad d 2)). apply digits_zero_pad2. lia. }
  reflexivity.
Qed.

(** [Date.parse] of a date [YYYY-MM-DD] with a four-digit year: the
    start of that day, UTC. *)
Lemma date_parse_iso_date h y m d :
  1000 <= y <= 9999 -> 1 <= m <= 12 -> 1 <= d <= 31 ->
  date_parse h (iso_date_text y m d) = Some (MakeDate (MakeDay y (m - 1) d) 0).
Proof.
  intros Hy Hm Hd. unfold date_parse, parse_iso.
  erewrite pbind_ok by (apply iso_date_of_text; assumption). cbv beta.
  erewrite pbind_ok by reflexivity. cbv beta. unfold pret.
  replace (iso_fields_ok m d 0 0 0 0) with true by (unfold iso_fields_ok; symmetry; bool_to_prop; lia).
  unfold TimeClip, MakeTime, or_else. cbn iota beta.
  rewrite MakeDay_month by lia. pose proof (dfy_bounds y).
  destruct (month_start_range (leap_year y) (m - 1) ltac:(lia)) as (H0 & H1 & H2 & H3).
  rewrite (proj2 (Z.leb_le _ _)); [unfold MakeDate; f_equal; lia|]. unfold MakeDate, msPerDay, msPerHour, msPerMinute, msPerSecond.
  destruct (leap_year y); lia.
Qed.

(** ** Examples *)

Example ToDateString_samples :
  ToDateString utc_host (Some 0) = js "Thu Jan 01 1970 00:00:00 GMT+0000 (Coordinated Universal Time)" /\
  ToDateString utc_host (Some 1700000000123) = js "Tue Nov 14 2023 22:13:20 GMT+0000 (Coordinated Universal Time)" /\
  ToDateString utc_host (Some (-62198755200000)) = js "Fri Jan 01 -0001 00:00:00 GMT+0000 (Coordinated Universal Time)" /\
  ToDateString est_host (Some 1700000000123) = js "Tue Nov 14 2023 17:13:20 GMT-0500 (Eastern Standard Time)" /\
  ToDateString cet_host (Some 1700000000123) = js "Tue Nov 14 2023 23:13:20 GMT+0100 (Central European Standard Time)" /\
  ToDateString utc_host None = js "Invalid Date".
Proof. repeat split; vm_compute; reflexivity. Qed.

Example date_parse_samples :
  date_parse utc_host (js "2024-01-15") = Some 1705276800000 /\
  date_parse utc_host (js "2024") = Some 1704067200000 /\
  date_parse utc_host (js "2024-01-15T10:30Z") = Some 1705314600000 /\
  date_parse utc_host (js "2024-01-15T10:30:00.250+08:00") = Some 1705285800250 /\
  date_parse utc_host (js "2024-01-15T24:00") = Some 1705363200000 /\
  date_parse utc_host (js "2024-02-30") = Some 1709251200000 /\
  date_parse utc_host (js "2024-13-01") = None /\
  date_parse utc_host (js "2024-01-15T24:00:01") = None /\
  date_parse utc_host (js "+275760-09-13T00:00:00Z") = Some 8640000000000000 /\
  date_parse utc_host (js "+275760-09-13T00:00:00.001Z") = None /\
  date_parse utc_host (js "Tue Nov 14 2023 22:13:20 GMT+0000 (Coordinated Universal Time)") = Some 1700000000000 /\
  date_parse utc_host (js "Tue Nov 14 2023 22:13:20 GMT+0100") = Some 1699996400000 /\
  date_parse est_host (js "2024-01-15T10:30") = Some 1705332600000 /\
  date_parse est_host (js "2024-01-15") = Some 1705276800000.
Proof. repeat split; vm_compute; reflexivity. Qed.

End DateText.
