(* ===== verification/RelativeTime.v ===== *)
(** [formatPassTime] and [formatRemainTime] of [src/index.js]
    (lines 590-631): the time since a start and the time left until an
    end, in Chinese.

    Numbers are binary64 values ([Binary64]), converted to strings by
    [NumberText.number_to_text] and read back by [NumberText.parseInt].
    The current time is the parameter [now], a time value (an integer
    of milliseconds), and the host's implementation-defined parts of
    [Date] are the parameter [h] ([DateText.date_host]).
    [Date.parse(new Date())] formats the current date with
    [Date.prototype.toString] and parses the text back
    ([parse_date_object]); [DateText.date_parse_toString] shows that
    the result is [now] without its milliseconds ([floor_second]) when
    the host's offset is a whole number of minutes under a day
    ([DateText.offset_ok]), since the text writes it in minutes.  The
    argument of either function is a number, a [Date] (its time value,
    [None] when invalid) or a string, which [Number] reads with
    [StringNumber.to_number] and [new Date] with [DateText.date_parse]. *)

From Stdlib Require Import ZArith Lia List String.
From Stdlib Require Import Floats.SpecFloat.
From stdpp Require Import base decidable.
From S2P Require Import Prelude JsString Binary64 NumberText StringNumber EcmaDate DateText.
Import ListNotations.
Open Scope bool_scope.
Open Scope Z_scope.

Module RelativeTime.
Import JsString Binary64 NumberText StringNumber EcmaDate DateText.

(** The argument [startTime] or [endTime]: a number, a [Date] (its
    time value) or a string. *)
Inductive time_arg :=
| ArgNumber (x : double)
| ArgDate (t : option Z)
| ArgString (s : jsstring).

(** A time value as a number, [NaN] for an invalid date. *)
Definition tv_number (tv : option Z) : double :=
  match tv with Some t => of_Z t | None => S754_nan end.

(** [Number(arg)]: a [Date] converts to its time value, a string by
    [StringToNumber]. *)
Definition arg_number (a : time_arg) : double :=
  match a with
  | ArgNumber x => x
  | ArgDate tv => tv_number tv
  | ArgString s => to_number s
  end.

(** [new Date(arg)] (ECMA-262 21.4.2.1): the time value of a [Date], a
    string parsed as [Date.parse] parses it, a number clipped by
    [TimeClip]. *)
Definition new_date (h : date_host) (a : time_arg) : option Z :=
  match a with
  | ArgNumber x =>
      match x with
      | S754_finite _ _ _ | S754_zero _ => TimeClip (trunc x)
      | _ => None
      end
  | ArgDate tv => tv
  | ArgString s => date_parse h s
  end.

(** [Date.parse(d)] of a [Date] [d]: its [toString] text parsed back. *)
Definition parse_date_object (h : date_host) (tv : option Z) : double :=
  tv_number (date_parse h (ToDateString h tv)).

(** A time without its milliseconds, what [date_parse_toString] shows
    [Date.parse(new Date())] returns. *)
Definition floor_second (now : Z) : Z := now - now mod 1000.

Definition w_years_ago : jsstring := [24180; 21069].          (* 年前 *)
Definition w_months_ago : jsstring := [20010; 26376; 21069].  (* 个月前 *)
Definition w_days_ago : jsstring := [22825; 21069].           (* 天前 *)
Definition w_hours_ago : jsstring := [23567; 26102; 21069].   (* 小时前 *)
Definition w_minutes_ago : jsstring := [20998; 38047; 21069]. (* 分钟前 *)
Definition w_just_now : jsstring := [21018; 21018].           (* 刚刚 *)

(** [parseInt(x)] of a number [x]: [parseInt] converts it to a string. *)
Definition parse_number (x : double) : double := parseInt (number_to_text x).

(** The units [formatPassTime] computes from the difference [time]. *)
Record pass_units := { p_year : double; p_month : double; p_day : double; p_hour : double; p_min : double }.

Definition pass_units_of (time : double) : pass_units :=
  let day := parse_number (ddiv time (of_Z 86400000)) in
  let hour := parse_number (ddiv time (of_Z 3600000)) in
  let min := parse_number (ddiv time (of_Z 60000)) in
  let month := parse_number (ddiv day (of_Z 30)) in
  let year := parse_number (ddiv month (of_Z 12)) in
  {| p_year := year; p_month := month; p_day := day; p_hour := hour; p_min := min |}.

(** The chain of [if]s: the first truthy unit, [刚刚] when none is. *)
Definition pass_text (u : pass_units) : jsstring :=
  if truthy_double (p_year u) then number_to_text (p_year u) ++ w_years_ago
  else if truthy_double (p_month u) then number_to_text (p_month u) ++ w_months_ago
  else if truthy_double (p_day u) then number_to_text (p_day u) ++ w_days_ago
  else if truthy_double (p_hour u) then number_to_text (p_hour u) ++ w_hours_ago
  else if truthy_double (p_min u) then number_to_text (p_min u) ++ w_minutes_ago
  else w_just_now.

(** [formatPassTime(startTime)] at the time value [now]: a start that
    is [NaN] as a number is replaced by
    [Date.parse(new Date(startTime))]; otherwise the subtraction
    converts it with [ToNumber]. *)
Definition formatPassTime (h : date_host) (now : Z) (startTime : time_arg) : jsstring :=
  let start := if is_nan (arg_number startTime) then parse_date_object h (new_date h startTime)
               else arg_number startTime in
  let currentTime := parse_date_object h (Some now) in
  pass_text (pass_units_of (dsub currentTime start)).

(** [new Date(endTime).getTime()]. *)
Definition date_time (h : date_host) (a : time_arg) : double := tv_number (new_date h a).

Definition w_day : jsstring := [22825].            (* 天 *)
Definition w_hour : jsstring := [23567; 26102].    (* 小时 *)
Definition w_minute : jsstring := [20998; 38047].  (* 分钟 *)
Definition w_second : jsstring := [31186].         (* 秒 *)

Definition remain_text (d h m s : double) : jsstring :=
  number_to_text d ++ w_day ++ number_to_text h ++ w_hour ++ number_to_text m ++ w_minute ++
  number_to_text s ++ w_second.

(** The fields [formatRemainTime] computes from [t >= 0]. *)
Definition remain_fields (t : double) : double * double * double * double :=
  let sec := ddiv t (of_Z 1000) in
  (dfloor (ddiv (ddiv sec (of_Z 3600)) (of_Z 24)),
   dfloor (dfmod (ddiv (ddiv sec (of_Z 60)) (of_Z 60)) (of_Z 24)),
   dfloor (dfmod (ddiv sec (of_Z 60)) (of_Z 60)),
   dfloor (dfmod sec (of_Z 60))).

(** [formatRemainTime(endTime)]. *)
Definition formatRemainTime (h : date_host) (now : Z) (endTime : time_arg) : jsstring :=
  let t := dsub (date_time h endTime) (of_Z now) in
  if dle dzero t then
    let '(d, h, m, s) := remain_fields t in remain_text d h m s
  else remain_text dzero dzero dzero dzero.

(** ** [formatPassTime] on the current time *)

(** The text for a difference of [-ms] milliseconds, [ms] below a
    second: [-k天前] for [ms] from 1 to 86, [刚刚] otherwise. *)
Definition subsecond_ok (ms : Z) : bool :=
  let r := pass_text (pass_units_of (of_Z (- ms))) in
  if (1 <=? ms) && (ms <=? 86)
  then existsb (fun k => bool_decide (r = [c_minus; c_zero + k] ++ w_days_ago)) [1; 2; 3; 4; 5; 6; 7; 8; 9]
  else bool_decide (r = w_just_now).

(** [Date.parse(new Date())] at a valid current time. *)
Lemma parse_date_now h now :
  offset_ok h = true -> Z.abs now <= 8640000000000000 -> parse_date_object h (Some now) = of_Z (floor_second now).
Proof. intros Ho Hn. unfold parse_date_object. rewrite date_parse_toString by assumption. reflexivity. Qed.

Lemma formatPassTime_number h now start :
  offset_ok h = true -> 1000 <= now <= 8640000000000000 -> 0 < start < 2 ^ 53 ->
  formatPassTime h now (ArgNumber (of_Z start)) = pass_text (pass_units_of (of_Z (floor_second now - start))).
Proof.
  intros Ho Hn Hs. unfold formatPassTime. cbn [arg_number].
  destruct (of_Z_pos start Hs) as (m & e & _ & _ & _ & E). rewrite E. cbn [is_nan]. rewrite <- E.
  rewrite parse_date_now by (assumption || lia). rewrite dsub_of_Z by (unfold floor_second; pose proof (Z.mod_pos_bound now 1000); lia).
  reflexivity.
Qed.

(** C29: [formatPassTime(Date.now())] compares the current time
    truncated to the second ([Date.parse(new Date())]) with a start that
    has its milliseconds: the difference is [-ms], [ms] the current
    millisecond.  For [ms] from 1 to 86 the quotient [-ms / 86400000]
    is written in exponent notation ([-5.787037037037037e-7] for 50),
    [parseInt] reads its leading digit, and the result is [-k天前] with
    [k] from 1 to 9; for every other [ms] it is [刚刚].  This holds on
    every host whose offset [toString] writes exactly. *)
Theorem formatPassTime_now h now :
  offset_ok h = true -> 1000 <= now <= 8640000000000000 ->
  (1 <= now mod 1000 <= 86 -> exists k, 1 <= k <= 9 /\
     formatPassTime h now (ArgNumber (of_Z now)) = [c_minus; c_zero + k] ++ w_days_ago) /\
  (now mod 1000 = 0 \/ 87 <= now mod 1000 ->
     formatPassTime h now (ArgNumber (of_Z now)) = w_just_now).
Proof.
  intros Ho Hn. pose proof (Z.mod_pos_bound now 1000 ltac:(lia)) as Hm.
  rewrite formatPassTime_number by (assumption || lia).
  replace (floor_second now - now) with (- (now mod 1000)) by (unfold floor_second; lia).
  assert (Hc : subsecond_ok (now mod 1000) = true) by range_check subsecond_ok 0 1000%nat.
  unfold subsecond_ok in Hc. split.
  - intros Hr. rewrite (proj2 (Z.leb_le 1 _)), (proj2 (Z.leb_le _ 86)) in Hc by lia.
    apply existsb_exists in Hc as (k & Hk & Heq). apply bool_decide_eq_true in Heq.
    exists k. split; [|exact Heq]. repeat destruct Hk as [<-|Hk]; try lia. destruct Hk.
  - intros Hr. replace ((1 <=? now mod 1000) && (now mod 1000 <=? 86)) with false in Hc
      by (symmetry; apply andb_false_iff; destruct Hr; [left; apply Z.leb_gt | right; apply Z.leb_gt]; lia).
    apply bool_decide_eq_true in Hc. exact Hc.
Qed.

Lemma formatPassTime_now_witness :
  offset_ok est_host = true /\ 1000 <= 1700000000050 <= 8640000000000000 /\
  ((1 <= 1700000000050 mod 1000 <= 86 -> exists k, 1 <= k <= 9 /\
     formatPassTime est_host 1700000000050 (ArgNumber (of_Z 1700000000050)) = [c_minus; c_zero + k] ++ w_days_ago) /\
   (1700000000050 mod 1000 = 0 \/ 87 <= 1700000000050 mod 1000 ->
     formatPassTime est_host 1700000000050 (ArgNumber (of_Z 1700000000050)) = w_just_now)).
Proof. split; [reflexivity|]. split; [lia|]. apply formatPassTime_now; [reflexivity | lia]. Defined.

(** ** [formatPassTime] on a date string *)

(** C30: a start given as a date string that is no number (such as
    [2024-01-15T10:30:00.250Z]) goes through [new Date] and then through
    [Date.parse] of the [Date]'s text, which drops its milliseconds: the
    difference formatted is that of the current time and the start,
    both truncated to the second (on a host whose offset [toString]
    writes exactly). *)
Theorem formatPassTime_string h now s t :
  offset_ok h = true -> 1000 <= now <= 8640000000000000 -> 1000 <= t <= 8640000000000000 ->
  is_nan (to_number s) = true -> date_parse h s = Some t ->
  formatPassTime h now (ArgString s) = pass_text (pass_units_of (of_Z (floor_second now - floor_second t))).
Proof.
  intros Ho Hn Ht Hnan Hp. unfold formatPassTime. cbn [arg_number new_date]. rewrite Hnan, Hp.
  rewrite !parse_date_now by (assumption || lia).
  pose proof (Z.mod_pos_bound now 1000). pose proof (Z.mod_pos_bound t 1000).
  rewrite dsub_of_Z by (unfold floor_second; lia). reflexivity.
Qed.

Lemma formatPassTime_string_witness :
  (offset_ok utc_host = true /\ 1000 <= 1705363200500 <= 8640000000000000 /\ 1000 <= 1705314600250 <= 8640000000000000 /\
   is_nan (to_number (js "2024-01-15T10:30:00.250Z")) = true /\
   date_parse utc_host (js "2024-01-15T10:30:00.250Z") = Some 1705314600250) /\
  formatPassTime utc_host 1705363200500 (ArgString (js "2024-01-15T10:30:00.250Z")) =
    pass_text (pass_units_of (of_Z (floor_second 1705363200500 - floor_second 1705314600250))).
Proof.
  assert (H : offset_ok utc_host = true /\ 1000 <= 1705363200500 <= 8640000000000000 /\
              1000 <= 1705314600250 <= 8640000000000000 /\
              is_nan (to_number (js "2024-01-15T10:30:00.250Z")) = true /\
              date_parse utc_host (js "2024-01-15T10:30:00.250Z") = Some 1705314600250)
    by (split; [reflexivity|]; split; [lia|]; split; [lia|]; split; vm_compute; reflexivity).
  split; [exact H|]. destruct H as (H0 & H1 & H2 & H3 & H4). exact (formatPassTime_string _ _ _ _ H0 H1 H2 H3 H4).
Defined.

(** The two functions read a string of digits differently: for
    [formatPassTime] it is a number of milliseconds (a hundred million
    seconds make [3年前]); [formatRemainTime] hands it to [new Date], which
    reads it as no date of the standard's formats, and a host without a
    format of its own gives [NaN], read as a deadline passed. *)
Example time_digit_strings :
  formatPassTime utc_host 1700000000000 (ArgString (js "1600000000000")) = number_to_string 3 ++ w_years_ago /\
  formatRemainTime utc_host 1600000000000 (ArgString (js "1700000000000")) = remain_text dzero dzero dzero dzero /\
  formatRemainTime utc_host 1600000000000 (ArgNumber (of_Z 1700000000000)) =
    number_to_string 1157 ++ w_day ++ number_to_string 9 ++ w_hour ++ number_to_string 46 ++ w_minute ++
    number_to_string 40 ++ w_second.
Proof. repeat split; vm_compute; reflexivity. Qed.

(** ** [formatRemainTime] on a deadline not yet passed *)

(** [String(k)] of a small integer is its decimal text. *)
Definition small_text_ok (k : Z) : bool := bool_decide (number_to_text (of_Z k) = number_to_string k).

Lemma number_to_text_small k : 0 <= k < 60 -> number_to_text (of_Z k) = number_to_string k.
Proof.
  intros Hk. assert (H : small_text_ok k = true) by range_check small_text_ok 0 60%nat.
  apply bool_decide_eq_true in H. exact H.
Qed.

(** [Math.floor(x % n)] of a quotient of [t] is an integer below [n]. *)
Lemma floor_mod_field E x n :
  nonneg_valid E x -> 0 < n <= 60 ->
  exists k, 0 <= k < n /\ number_to_text (dfloor (dfmod x (of_Z n))) = number_to_string k.
Proof.
  intros Hx Hn. destruct (dfloor_dfmod E x n Hx ltac:(lia)) as (k & Hk & ->).
  exists k. split; [exact Hk|]. apply number_to_text_small. lia.
Qed.

Lemma remain_fields_bounds t :
  nonneg_valid 0 t ->
  exists d h m s, remain_fields t = (d, h, m, s) /\
    (exists kh km ks, 0 <= kh < 24 /\ 0 <= km < 60 /\ 0 <= ks < 60 /\
       number_to_text h = number_to_string kh /\ number_to_text m = number_to_string km /\
       number_to_text s = number_to_string ks).
Proof.
  intros Ht. unfold remain_fields.
  pose proof (ddiv_nonneg_valid 0 t 1000 Ht ltac:(lia) ltac:(lia)) as H1.
  pose proof (ddiv_nonneg_valid 52 _ 60 H1 ltac:(lia) ltac:(lia)) as H2.
  pose proof (ddiv_nonneg_valid 104 _ 60 H2 ltac:(lia) ltac:(lia)) as H3.
  destruct (floor_mod_field _ _ 24 H3 ltac:(lia)) as (kh & Hkh & Eh).
  destruct (floor_mod_field _ _ 60 H2 ltac:(lia)) as (km & Hkm & Em).
  destruct (floor_mod_field _ _ 60 H1 ltac:(lia)) as (ks & Hks & Es).
  do 4 eexists. split; [reflexivity|]. exists kh, km, ks. repeat split; assumption || lia.
Qed.

(** C28: for a deadline [endTime] (a time value) not before the current
    time, [formatRemainTime] writes the days, then an hour count below
    24, a minute count below 60 and a second count below 60, each as a
    plain decimal integer: [d天h小时m分钟s秒]. *)
Theorem formatRemainTime_fields hs now end_ :
  0 < now <= end_ -> end_ <= 8640000000000000 ->
  exists d h m s, 0 <= h < 24 /\ 0 <= m < 60 /\ 0 <= s < 60 /\
    formatRemainTime hs now (ArgNumber (of_Z end_)) =
    number_to_text d ++ w_day ++ number_to_string h ++ w_hour ++ number_to_string m ++ w_minute ++
    number_to_string s ++ w_second.
Proof.
  intros Hn He. assert (H53 : 8640000000000000 < 2 ^ 53) by reflexivity.
  unfold formatRemainTime, date_time. cbn [new_date].
  destruct (of_Z_pos end_ ltac:(lia)) as (me & ee & _ & _ & _ & Ee).
  rewrite Ee, <- Ee, trunc_of_Z by lia. unfold TimeClip. rewrite (proj2 (Z.leb_le _ _)) by lia. cbn [tv_number].
  rewrite dsub_of_Z by lia.
  pose proof (of_Z_nonneg_valid (end_ - now) ltac:(lia)) as Ht.
  assert (Hle : dle dzero (of_Z (end_ - now)) = true)
    by (destruct Ht as [->|(m & e & -> & _)]; reflexivity).
  rewrite Hle. destruct (remain_fields_bounds _ Ht) as (d & h & m & s & -> & kh & km & ks & Hh & Hm & Hs & Eh & Em & Es).
  exists d, kh, km, ks. repeat split; try lia. unfold remain_text. rewrite Eh, Em, Es. reflexivity.
Qed.

(** A deadline a day, an hour, a minute and a second away. *)
Lemma formatRemainTime_fields_witness :
  (0 < 1700000000000 <= 1700090061000 /\ 1700090061000 <= 8640000000000000) /\
  exists d h m s, 0 <= h < 24 /\ 0 <= m < 60 /\ 0 <= s < 60 /\
    formatRemainTime utc_host 1700000000000 (ArgNumber (of_Z 1700090061000)) =
    number_to_text d ++ w_day ++ number_to_string h ++ w_hour ++ number_to_string m ++ w_minute ++
    number_to_string s ++ w_second.
Proof. split; [lia|]. apply formatRemainTime_fields; lia. Defined.

(** An expired deadline and an invalid one give the same text. *)
Example formatRemainTime_zero_samples :
  formatRemainTime utc_host 1700000000000 (ArgNumber (of_Z 1600000000000)) = remain_text dzero dzero dzero dzero /\
  formatRemainTime utc_host 1700000000000 (ArgDate None) = remain_text dzero dzero dzero dzero /\
  formatRemainTime utc_host 1700000000000 (ArgNumber (of_Z 1700090061000)) =
    number_to_string 1 ++ w_day ++ number_to_string 1 ++ w_hour ++ number_to_string 1 ++ w_minute ++
    number_to_string 1 ++ w_second.
Proof. repeat split; vm_compute; reflexivity. Qed.

End RelativeTime.
