(* ===== verification/DigitUppercase.v ===== *)
(** [digitUppercase] of [src/index.js] (lines 474-507): an amount of
    money in Chinese financial numerals.

    The argument is a JavaScript number, an IEEE 754 binary64 value
    ([Binary64]): [num * 10 * Math.pow(10, i)] is two rounded
    multiplications, [num / 10] a rounded division, and [Math.floor],
    [Math.abs] and [%] are exact as in IEEE 754.  An index [x % 10] that
    is not an integer from 0 to 9 ([NaN] for an infinite [num]) reads
    [undefined] from the digit array, and [undefined + '角'] is the
    string ["undefined角"].  The loops are bounded by the array lengths
    (2, 3 and 4 iterations), so the definitions are structural.  The
    string rewriting uses the regular-expression literals of the source
    through [Validators.lit_replace] and [lit_replace_all].  The result
    is [false] (after a console line) for [NaN], otherwise the string.
    The argument is an [amount]: a number, or any other value, which
    the three conversions of the code turn into the same double
    ([StringNumber.to_number_value]); [digitUppercase_string] shows that
    the text of an integer reads as the integer. *)

From Stdlib Require Import ZArith Lia List String.
From Stdlib Require Import Floats.SpecFloat.
From stdpp Require Import base decidable list.
From S2P Require Import Prelude JsString JsValue Regex Validators Binary64 NumberText StringNumber.
Import ListNotations.
Open Scope bool_scope.
Open Scope Z_scope.

Module DigitUppercase.
Import JsString JsValue Regex Validators Binary64 NumberText StringNumber.

(** ** Numbers *)

(** [Math.pow(10, i)] for the exponents the code uses. *)
Definition pow10 (i : nat) : double := of_Z (10 ^ Z.of_nat i).

(** The integer [x % 10] when [x] is an integer, [None] otherwise (a
    fraction, or [NaN] for an infinity or [NaN]). *)
Definition dmod10 (x : double) : option Z :=
  match x with
  | S754_zero _ => Some 0
  | S754_finite s m e =>
      if 0 <=? e then Some (Z.rem (cond_Zopp s (Zpos m * 2 ^ e)) 10)
      else if Z.rem (Zpos m) (2 ^ (- e)) =? 0 then Some (Z.rem (cond_Zopp s (Zpos m / 2 ^ (- e))) 10)
      else None
  | _ => None
  end.

(** ** The tables *)

Definition c_ling : Z := 38646.   (* 零 *)
Definition c_yuan : Z := 20803.   (* 元 *)
Definition c_zheng : Z := 25972.  (* 整 *)
Definition c_qian : Z := 27424.   (* 欠 *)

(** [fraction], [digit], [unit[0]] and [unit[1]]. *)
Definition fraction : list jsstring := [[35282]; [20998]].
Definition digit : list jsstring :=
  [[38646]; [22777]; [36144]; [21441]; [32902]; [20237]; [38470]; [26578]; [25420]; [29590]].
Definition unit0 : list jsstring := [[20803]; [19975]; [20159]].
Definition unit1 : list jsstring := [[]; [25342]; [20336]; [20191]].

(** [digit[k]], with [undefined] converted to a string. *)
Definition digit_at (k : option Z) : jsstring :=
  match k with
  | Some k => if (0 <=? k) && (k <=? 9) then nth (Z.to_nat k) digit [] else js "undefined"
  | None => js "undefined"
  end.

(** The literals [/零./], [/(零.)*零$/], [/^$/], [/(零.)*零元/],
    [/(零.)+/g] and [/^整$/]. *)
Definition re_ling_any : jsstring := [38646; 46].
Definition re_trailing_ling : jsstring := [40; 38646; 46; 41; 42; 38646; 36].
Definition re_empty : jsstring := [94; 36].
Definition re_ling_yuan : jsstring := [40; 38646; 46; 41; 42; 38646; 20803].
Definition re_ling_run : jsstring := [40; 38646; 46; 41; 43].
Definition re_only_zheng : jsstring := [94; 25972; 36].

(** ** The function *)

(** The first loop: [s += (digit[...] + fraction[i]).replace(/零./, '')]. *)
Fixpoint fraction_loop (num : double) (i : nat) (k : nat) (s : jsstring) : jsstring :=
  match k with
  | O => s
  | S k' =>
      let d := digit_at (dmod10 (dfloor (dmul (dmul num (of_Z 10)) (pow10 i)))) in
      fraction_loop num (S i) k' (s ++ lit_replace re_ling_any (d ++ nth i fraction []) [])
  end.

(** The inner loop: up to four digits of [num] with their units. *)
Fixpoint group_loop (num : double) (j : nat) (k : nat) (p : jsstring) : double * jsstring :=
  match k with
  | O => (num, p)
  | S k' =>
      if dlt dzero num then
        let p' := digit_at (dmod10 num) ++ nth j unit1 [] ++ p in
        group_loop (dfloor (ddiv num (of_Z 10))) (S j) k' p'
      else (num, p)
  end.

(** The outer loop: up to three groups with [元], [万] and [亿]. *)
Fixpoint integer_loop (num : double) (i : nat) (k : nat) (s : jsstring) : jsstring :=
  match k with
  | O => s
  | S k' =>
      if dlt dzero num then
        let '(num', p) := group_loop num 0 4 [] in
        let p' := lit_replace re_empty (lit_replace re_trailing_ling p []) [c_ling] in
        integer_loop num' (S i) k' (p' ++ nth i unit0 [] ++ s)
      else s
  end.

(** The argument [num]: a number (any double), or another value, which
    [Number(num)], [num < 0] and [Math.abs(num)] each convert with
    [ToNumber]. *)
Inductive amount :=
| ANumber (x : double)
| AValue (v : value).

Definition amount_number (num : amount) : double :=
  match num with
  | ANumber x => x
  | AValue v => to_number_value v
  end.

(** [digitUppercase(num)]: the result and the console lines. *)
Definition digitUppercase (num : amount) : value * list jsstring :=
  if is_nan (amount_number num) then (VBool false, [js "param must be a number or string"])
  else
    let head := if dlt (amount_number num) dzero then [c_qian] else [] in
    let num := dabs (amount_number num) in
    let s := fraction_loop num 0 2 [] in
    let s := if bool_decide (s = []) then [c_zheng] else s in
    let s := integer_loop (dfloor num) 0 3 s in
    let s := lit_replace re_ling_yuan s [c_yuan] in
    let s := lit_replace_all re_ling_run s [c_ling] in
    let s := lit_replace re_only_zheng s [c_ling; c_yuan; c_zheng] in
    (VString (head ++ s), []).

(** ** The reading of an integer amount *)

(** Digits from the highest with their units: each non-zero digit with
    its unit, one [零] for the zeros between two non-zero digits, none
    for the zeros at the end. *)
Fixpoint read_group (ds : list (Z * jsstring)) (started zero : bool) : jsstring :=
  match ds with
  | [] => []
  | (d, u) :: ds' =>
      if d =? 0 then read_group ds' started started
      else (if zero then [c_ling] else []) ++ nth (Z.to_nat d) digit [] ++ u ++ read_group ds' true false
  end.

(** The reading of an amount below 10000 yuan: [零元整] for 0. *)
Definition reading (n : Z) : jsstring :=
  if n =? 0 then [c_ling; c_yuan; c_zheng]
  else read_group [(n / 1000 mod 10, [20191]); (n / 100 mod 10, [20336]); (n / 10 mod 10, [25342]); (n mod 10, [])]
         false false ++ [c_yuan; c_zheng].

Definition reading_ok (n : Z) : bool :=
  match digitUppercase (ANumber (of_Z n)) with
  | (VString s, []) => bool_decide (s = reading n)
  | _ => false
  end.

(** C27: on every integer amount from 0 to 9999 the binary64
    computation, the digit loops and the six regular-expression rewrites
    of [digitUppercase] give the reading: non-zero digits with their
    units, one [零] per inner run of zeros, then [元整]. *)
Theorem digitUppercase_reading n :
  0 <= n < 10000 -> digitUppercase (ANumber (of_Z n)) = (VString (reading n), []).
Proof.
  intros Hn. assert (H : reading_ok n = true).
  { apply (forallb_range reading_ok 0 (Z.to_nat 10000)); [vm_compute; reflexivity|].
    rewrite Z2Nat.id by lia. lia. }
  unfold reading_ok in H. destruct (digitUppercase (ANumber (of_Z n))) as [[] [|l ls]]; try discriminate.
  apply bool_decide_eq_true in H. subst. reflexivity.
Qed.

Lemma digitUppercase_reading_witness :
  0 <= 2024 < 10000 /\ digitUppercase (ANumber (of_Z 2024)) = (VString (reading 2024), []).
Proof. split; [lia|]. apply digitUppercase_reading. lia. Defined.

(** Binary64 rounding and the bounded loops give wrong amounts:
    [0.57] is read [伍角陆分] (5 jiao 6 fen, since [0.57 * 10 * 10] is
    [56.99999999999999]), [8.87] as [捌元捌角陆分], and [10^12] as [元整],
    the digits above the third group being dropped. *)
Example digitUppercase_wrong_amounts :
  digitUppercase (ANumber (ddiv (of_Z 57) (of_Z 100))) = (VString [20237; 35282; 38470; 20998], []) /\
  digitUppercase (ANumber (ddiv (of_Z 887) (of_Z 100))) = (VString [25420; 20803; 25420; 35282; 38470; 20998], []) /\
  digitUppercase (ANumber (of_Z 1000000000000)) = (VString [c_yuan; c_zheng], []).
Proof. repeat split; vm_compute; reflexivity. Qed.

(** [NaN] gives [false] and a console line. *)
Example digitUppercase_nan :
  digitUppercase (ANumber S754_nan) = (VBool false, [js "param must be a number or string"]).
Proof. reflexivity. Qed.

(** ** String arguments *)

(** An amount given as the text of an integer, with white space
    around it, reads as the number does: the three conversions of the
    string give the double [Number(String(n))], which is [n] rounded. *)
Theorem digitUppercase_string n ws1 ws2 :
  Forall (fun c => is_str_space c = true) ws1 -> Forall (fun c => is_str_space c = true) ws2 ->
  digitUppercase (AValue (VString (ws1 ++ number_to_string n ++ ws2))) = digitUppercase (ANumber (of_Z n)).
Proof.
  intros H1 H2. unfold digitUppercase. cbn [amount_number to_number_value].
  rewrite to_number_pad by (assumption || apply number_to_string_nospace).
  rewrite to_number_number_to_string. reflexivity.
Qed.

Lemma digitUppercase_string_witness :
  Forall (fun c => is_str_space c = true) [32] /\ Forall (fun c => is_str_space c = true) [10; 9] /\
  digitUppercase (AValue (VString ([32] ++ number_to_string (-305) ++ [10; 9]))) = digitUppercase (ANumber (of_Z (-305))).
Proof.
  assert (Hw : Forall (fun c => is_str_space c = true) [32] /\ Forall (fun c => is_str_space c = true) [10; 9]).
  { split; repeat constructor. }
  split; [exact (proj1 Hw)|]. split; [exact (proj2 Hw)|].
  apply digitUppercase_string; [exact (proj1 Hw) | exact (proj2 Hw)].
Defined.

(** The guard [isNaN(Number(num))] lets through every argument
    [ToNumber] maps to a number: the empty string, a blank string and
    [null] read [零元整], [true] reads [壹元整], and a hexadecimal text
    is read in base 16; only a text that is no number literal, such as
    ['12元'], and [undefined] give [false]. *)
Example digitUppercase_loose_arguments :
  digitUppercase (AValue (VString [])) = (VString [c_ling; c_yuan; c_zheng], []) /\
  digitUppercase (AValue (VString [32; 32])) = (VString [c_ling; c_yuan; c_zheng], []) /\
  digitUppercase (AValue VNull) = (VString [c_ling; c_yuan; c_zheng], []) /\
  digitUppercase (AValue (VBool true)) = (VString [22777; c_yuan; c_zheng], []) /\
  digitUppercase (AValue (VString (js "0x10"))) = digitUppercase (ANumber (of_Z 16)) /\
  digitUppercase (AValue (VString [49; 50; 20803])) = (VBool false, [js "param must be a number or string"]) /\
  digitUppercase (AValue VUndefined) = (VBool false, [js "param must be a number or string"]).
Proof. repeat split; vm_compute; reflexivity. Qed.

End DigitUppercase.
