(* ===== verification/Moment.v ===== *)
(** The date wrapper of [src/index.js]: [clone], [pad], the [Moment]
    constructor and [Moment.prototype] (lines 519-583).

    A [Moment] holds a [Date] in [this.d]; its state is the time value of
    that [Date] ([EcmaDate]).  The [Date] methods the code calls read and
    write local time, the time value plus the host's offset
    [DateText.LocalTZA h]; the methods are defined in a section over the
    host [h].  Each method is a
    function from the state to the new state and its result: the setters
    [addMonths], [addDate], [year(n)], [month(n)] and [date(n)] return
    [this], the getters a number.  Numbers the code reads or passes are
    [option Z], [None] being [NaN] or [undefined] (both falsy, both
    [NaN] once converted).  The constructor's argument is a [Moment], a
    number, a [Date], a string or [undefined]; [new Date()] is the
    current time [now], a parameter, and [new Date(string)] parses the
    string with [DateText.date_parse] on the host [h]. *)

From Stdlib Require Import ZArith Lia List String.
From stdpp Require Import base decidable list.
From S2P Require Import Prelude JsString EcmaDate DateText.
Import ListNotations.
Open Scope Z_scope.

Module Moment.
Import JsString EcmaDate DateText.

Definition timeval := option Z.

(** [ToString] of a number result, [NaN] included. *)
Definition num_string (n : option Z) : jsstring :=
  match n with Some z => number_to_string z | None => js "NaN"%string end.

(** [clone(d)]: [new Date(d.getTime())]. *)
Definition clone (t : timeval) : timeval :=
  match t with Some t => TimeClip t | None => None end.

(** [('0' + v).slice(-2)]. *)
Definition pad (v : option Z) : jsstring :=
  let s := [c_zero] ++ num_string v in skipn (length s - 2) s.

(** [s.replace(pat, rep)] with a string pattern: the first occurrence. *)
Fixpoint replace_str (pat rep s : jsstring) : jsstring :=
  if bool_decide (firstn (length pat) s = pat) then rep ++ skipn (length pat) s
  else match s with
       | [] => []
       | c :: s' => c :: replace_str pat rep s'
       end.

Definition default_format : jsstring := js "YYYY-MM-DD"%string.

(** [if (n)] on a number argument. *)
Definition truthy_num (n : option Z) : bool := match n with Some z => negb (z =? 0) | None => false end.

Record moment := { md : timeval }.

Inductive moment_arg :=
| ArgMoment (m : moment)
| ArgNumber (n : option Z)
| ArgDate (t : timeval)
| ArgString (s : jsstring)
| ArgUndefined.

(** [!d] for the argument. *)
Definition arg_falsy (a : moment_arg) : bool :=
  match a with
  | ArgUndefined | ArgNumber None => true
  | ArgNumber (Some n) => n =? 0
  | ArgString s => bool_decide (s = [])
  | _ => false
  end.

(** A method's result: [this] or a number. *)
Inductive result := This | Number (n : option Z).

Section LocalTime.
Variable h : date_host.

(** 21.4.1.26 [LocalTime(t)] and 21.4.1.27 [UTC(t)] with the host's
    offset. *)
Definition LocalTime (t : Z) : Z := t + LocalTZA h.
Definition UTC (t : Z) : Z := t - LocalTZA h.

(** ** The [Date] methods *)

Definition getFullYear (t : timeval) : option Z := option_map (fun t => YearFromTime (LocalTime t)) t.
Definition getMonth (t : timeval) : option Z := option_map (fun t => MonthFromTime (LocalTime t)) t.
Definition getDate (t : timeval) : option Z := option_map (fun t => DateFromTime (LocalTime t)) t.
Definition getDay (t : timeval) : option Z := option_map (fun t => WeekDay (LocalTime t)) t.

(** 21.4.4.24 [setMonth(month)]. *)
Definition setMonth (t : timeval) (month : option Z) : timeval :=
  match t, month with
  | Some t, Some m =>
      let t := LocalTime t in
      TimeClip (UTC (MakeDate (MakeDay (YearFromTime t) m (DateFromTime t)) (TimeWithinDay t)))
  | _, _ => None
  end.

(** 21.4.4.20 [setDate(date)]. *)
Definition setDate (t : timeval) (date : option Z) : timeval :=
  match t, date with
  | Some t, Some dt =>
      let t := LocalTime t in
      TimeClip (UTC (MakeDate (MakeDay (YearFromTime t) (MonthFromTime t) dt) (TimeWithinDay t)))
  | _, _ => None
  end.

(** B.2.3.2 [setYear(year)], with [MakeFullYear]: years 0 to 99 are
    1900 to 1999, and a [NaN] date counts from +0. *)
Definition setYear (t : timeval) (year : option Z) : timeval :=
  match year with
  | None => None
  | Some y =>
      let yyyy := if (0 <=? y) && (y <=? 99) then 1900 + y else y in
      let t' := match t with Some t => LocalTime t | None => 0 end in
      TimeClip (UTC (MakeDate (MakeDay yyyy (MonthFromTime t') (DateFromTime t')) (TimeWithinDay t')))
  end.

(** ** The constructor *)

(** [new Moment(d)] at the instant [now]. *)
Definition new_Moment (now : Z) (a : moment_arg) : moment :=
  match a with
  | ArgMoment m => {| md := clone (md m) |}
  | _ =>
      if arg_falsy a then {| md := TimeClip now |}
      else match a with
           | ArgNumber (Some n) => {| md := TimeClip n |}
           | ArgDate t => {| md := clone t |}
           | ArgString s => {| md := date_parse h s |}
           | _ => {| md := None |}
           end
  end.

(** ** [Moment.prototype] *)

Definition addMonths (n : Z) (m : moment) : moment * result :=
  ({| md := setMonth (md m) (option_map (fun x => x + n) (getMonth (md m))) |}, This).

Definition addDate (n : Z) (m : moment) : moment * result :=
  ({| md := setDate (md m) (option_map (fun x => x + n) (getDate (md m))) |}, This).

Definition format (str : option jsstring) (m : moment) : jsstring :=
  let str := match str with Some s => if bool_decide (s = []) then default_format else s | None => default_format end in
  let d := md m in
  let s := replace_str (js "YYYY"%string) (num_string (getFullYear d)) str in
  let s := replace_str (js "MM"%string) (pad (option_map (fun x => x + 1) (getMonth d))) s in
  let s := replace_str (js "DD"%string) (pad (getDate d)) s in
  replace_str (js "d"%string) (num_string (getDay d)) s.

Definition year (n : option Z) (m : moment) : moment * result :=
  if truthy_num n then ({| md := setYear (md m) n |}, This) else (m, Number (getFullYear (md m))).

Definition month (n : option Z) (m : moment) : moment * result :=
  if truthy_num n then ({| md := setMonth (md m) n |}, This) else (m, Number (getMonth (md m))).

Definition date (n : option Z) (m : moment) : moment * result :=
  if truthy_num n then ({| md := setDate (md m) n |}, This) else (m, Number (getDate (md m))).

Definition day (m : moment) : result := Number (getDay (md m)).

End LocalTime.

(** ** Theorems *)

(** [UTC] undoes [LocalTime]. *)
Lemma UTC_LocalTime h t : UTC h (LocalTime h t) = t.
Proof. unfold UTC, LocalTime. lia. Qed.

Lemma LocalTime_UTC h t : LocalTime h (UTC h t) = t.
Proof. unfold UTC, LocalTime. lia. Qed.

(** [d.setDate(d.getDate() + n)] moves the time [n] days on: a
    constant offset has no days shorter or longer than [msPerDay]. *)
Lemma setDate_shift h t n : setDate h (Some t) (option_map (fun x => x + n) (getDate h (Some t))) = TimeClip (t + n * msPerDay).
Proof.
  unfold setDate, getDate. cbn [option_map]. f_equal.
  pose proof (time_decompose (LocalTime h t)) as Ht.
  unfold MakeDay, MakeDate, UTC, LocalTime in *. lia.
Qed.

(** [addDate(n)] moves the time [n] days on. *)
Lemma addDate_shift h m t n : md m = Some t -> md (fst (addDate h n m)) = TimeClip (t + n * msPerDay).
Proof. intros H. unfold addDate. cbn [md fst]. rewrite H. apply setDate_shift. Qed.

(** C32: [addMonths(n)] on a date whose local day of the month is at
    most 28 moves the local month by [n], carrying into the year, and
    keeps the local day of the month and the local time of day. *)
Theorem addMonths_keeps_date h m t n t' :
  md m = Some t -> DateFromTime (LocalTime h t) <= 28 -> md (fst (addMonths h n m)) = Some t' ->
  YearFromTime (LocalTime h t') = YearFromTime (LocalTime h t) + (MonthFromTime (LocalTime h t) + n) / 12 /\
  MonthFromTime (LocalTime h t') = (MonthFromTime (LocalTime h t) + n) mod 12 /\
  DateFromTime (LocalTime h t') = DateFromTime (LocalTime h t) /\ TimeWithinDay (LocalTime h t') = TimeWithinDay (LocalTime h t).
Proof.
  intros H Hd H'. unfold addMonths, setMonth, getMonth in H'. cbn [md fst] in H'. rewrite H in H'.
  cbn [option_map] in H'. apply TimeClip_some in H'. subst t'. rewrite LocalTime_UTC.
  set (u := LocalTime h t) in *.
  rewrite MakeDay_carry. pose proof (Z.mod_pos_bound (MonthFromTime u + n) 12 ltac:(lia)).
  pose proof (DateFromTime_pos u).
  pose proof (days_in_month_min (YearFromTime u + (MonthFromTime u + n) / 12) ((MonthFromTime u + n) mod 12) ltac:(lia)).
  apply date_roundtrip; [lia|lia|apply TimeWithinDay_range].
Qed.

Lemma addMonths_keeps_date_witness :
  md {| md := Some (MakeDate (MakeDay 2023 10 15) 3600000) |} = Some (MakeDate (MakeDay 2023 10 15) 3600000) /\
  DateFromTime (LocalTime est_host (MakeDate (MakeDay 2023 10 15) 3600000)) <= 28 /\
  md (fst (addMonths est_host 3 {| md := Some (MakeDate (MakeDay 2023 10 15) 3600000) |})) =
    Some (MakeDate (MakeDay 2024 1 15) 3600000) /\
  YearFromTime (LocalTime est_host (MakeDate (MakeDay 2024 1 15) 3600000)) =
    YearFromTime (LocalTime est_host (MakeDate (MakeDay 2023 10 15) 3600000)) +
    (MonthFromTime (LocalTime est_host (MakeDate (MakeDay 2023 10 15) 3600000)) + 3) / 12 /\
  MonthFromTime (LocalTime est_host (MakeDate (MakeDay 2024 1 15) 3600000)) =
    (MonthFromTime (LocalTime est_host (MakeDate (MakeDay 2023 10 15) 3600000)) + 3) mod 12 /\
  DateFromTime (LocalTime est_host (MakeDate (MakeDay 2024 1 15) 3600000)) =
    DateFromTime (LocalTime est_host (MakeDate (MakeDay 2023 10 15) 3600000)) /\
  TimeWithinDay (LocalTime est_host (MakeDate (MakeDay 2024 1 15) 3600000)) =
    TimeWithinDay (LocalTime est_host (MakeDate (MakeDay 2023 10 15) 3600000)).
Proof.
  assert (H1 : DateFromTime (LocalTime est_host (MakeDate (MakeDay 2023 10 15) 3600000)) <= 28)
    by (vm_compute; discriminate).
  assert (H2 : md (fst (addMonths est_host 3 {| md := Some (MakeDate (MakeDay 2023 10 15) 3600000) |})) =
               Some (MakeDate (MakeDay 2024 1 15) 3600000)) by (vm_compute; reflexivity).
  split; [reflexivity|]. split; [exact H1|]. split; [exact H2|].
  exact (addMonths_keeps_date est_host {| md := Some (MakeDate (MakeDay 2023 10 15) 3600000) |}
           (MakeDate (MakeDay 2023 10 15) 3600000) 3 _ eq_refl H1 H2).
Defined.

(** The date wrapper's surprises: [addMonths(1)] on 31 January 2023
    gives 3 March (the day overflows February); [new Moment(0)] is the
    current time, not the epoch, since [0] is falsy; and [month(0)]
    returns the month instead of setting January. *)
Example moment_surprises :
  md (fst (addMonths utc_host 1 {| md := Some (MakeDate (MakeDay 2023 0 31) 0) |})) = Some (MakeDate (MakeDay 2023 2 3) 0) /\
  new_Moment utc_host 1700000000000 (ArgNumber (Some 0)) = {| md := Some 1700000000000 |} /\
  month utc_host (Some 0) {| md := Some (MakeDate (MakeDay 2023 0 31) 0) |} =
    ({| md := Some (MakeDate (MakeDay 2023 0 31) 0) |}, Number (Some 0)).
Proof. repeat split; vm_compute; reflexivity. Qed.

Definition pad_ok (v : Z) : bool := bool_decide (pad (Some v) = [48 + v / 10; 48 + v mod 10]).

(** [pad] writes a number below 100 as two decimal digits. *)
Lemma pad_two_digits v : 0 <= v < 100 -> pad (Some v) = [48 + v / 10; 48 + v mod 10].
Proof.
  intros H. assert (Hv : pad_ok v = true) by range_check pad_ok 0 100%nat.
  apply bool_decide_eq_true in Hv. exact Hv.
Qed.

(** ** [format()] and [new Moment(string)] *)

(** [replace] with a pattern that starts with a unit absent from a
    prefix leaves the prefix alone. *)
Lemma replace_str_skip p pat rep l r :
  Forall (fun c => c <> p) l -> replace_str (p :: pat) rep (l ++ r) = l ++ replace_str (p :: pat) rep r.
Proof.
  induction 1 as [|c l Hc _ IH]; [reflexivity|]. cbn [app].
  unfold replace_str at 1; fold replace_str. rewrite bool_decide_eq_false_2; [rewrite IH; reflexivity|].
  cbn [length firstn]. intros [= E _]. congruence.
Qed.

Lemma digits_not Q l : Forall (fun c => is_digit c = true) l -> ~ (48 <= Q <= 57) -> Forall (fun c => c <> Q) l.
Proof.
  intros Hl HQ. eapply Forall_impl; [exact Hl|]. intros c Hc ->. unfold is_digit in Hc. bool_hyps. lia.
Qed.

(** [format()] of a valid date whose local year has four digits is the
    text [YYYY-MM-DD] of its local date. *)
Lemma format_default h t (u := LocalTime h t) :
  1000 <= YearFromTime u <= 9999 ->
  format h None {| md := Some t |} = iso_date_text (YearFromTime u) (MonthFromTime u + 1) (DateFromTime u).
Proof.
  intros Hy. pose proof (month_of_range (InLeapYear u) (DayWithinYear u) 11 ltac:(lia)) as Hm.
  fold (MonthFromTime u) in Hm. pose proof (DateFromTime_pos u). pose proof (DateFromTime_le u).
  unfold format, getFullYear, getMonth, getDate, getDay. cbn [md option_map]. fold u.
  set (y := YearFromTime u) in *. set (m := MonthFromTime u + 1). set (d := DateFromTime u) in *.
  destruct (year4 y Hy) as [Hy4 _]. pose proof (number_to_string_nonneg_digits y ltac:(lia)) as Hyd.
  rewrite (pad_two_digits m), (pad_two_digits d) by lia.
  change (replace_str (js "YYYY") (num_string (Some y)) default_format) with (number_to_string y ++ js "-MM-DD").
  rewrite (replace_str_skip 77 [77]) by (apply digits_not; [exact Hyd | lia]).
  change (replace_str [77; 77] [48 + m / 10; 48 + m mod 10] (js "-MM-DD")) with ([45; 48 + m / 10; 48 + m mod 10] ++ js "-DD").
  rewrite app_assoc, (replace_str_skip 68 [68]).
  2: { apply Forall_app. split; [apply digits_not; [exact Hyd | lia]|]. repeat constructor; zarith. }
  change (replace_str [68; 68] [48 + d / 10; 48 + d mod 10] (js "-DD")) with [45; 48 + d / 10; 48 + d mod 10].
  rewrite <- (app_nil_r (_ ++ [45; 48 + d / 10; 48 + d mod 10])), (replace_str_skip 100 []).
  2: { repeat (apply Forall_app; split); try (apply digits_not; [exact Hyd | lia]); repeat constructor; zarith. }
  unfold iso_date_text. rewrite Hy4, !zero_pad2 by lia. unfold c_zero. rewrite <- !app_assoc. reflexivity.
Qed.

(** C33: a [Moment] made from a date [YYYY-MM-DD] formats to the local
    date of that day's start in UTC: [new Date] reads a date-only
    string as UTC midnight, and [format()] writes the local year, month
    and day of that instant, for any offset under a day. *)
Theorem moment_string_date h now y m d :
  1001 <= y <= 9998 -> 1 <= m <= 12 -> 1 <= d <= days_in_month y (m - 1) -> Z.abs (LocalTZA h) < msPerDay ->
  format h None (new_Moment h now (ArgString (iso_date_text y m d))) =
  iso_date_text (YearFromTime (MakeDate (MakeDay y (m - 1) d) (LocalTZA h)))
                (MonthFromTime (MakeDate (MakeDay y (m - 1) d) (LocalTZA h)) + 1)
                (DateFromTime (MakeDate (MakeDay y (m - 1) d) (LocalTZA h))).
Proof.
  intros Hy Hm Hd Hz. pose proof (days_in_month_max y (m - 1) ltac:(lia)).
  assert (Hne : arg_falsy (ArgString (iso_date_text y m d)) = false).
  { cbn [arg_falsy]. apply bool_decide_eq_false_2. unfold iso_date_text. intros E.
    apply (f_equal (@length Z)) in E. rewrite !length_app in E. cbn in E. lia. }
  unfold new_Moment. rewrite Hne. rewrite date_parse_iso_date by lia.
  replace (MakeDate (MakeDay y (m - 1) d) (LocalTZA h)) with (LocalTime h (MakeDate (MakeDay y (m - 1) d) 0))
    by (unfold LocalTime, MakeDate; lia).
  apply format_default. unfold YearFromTime, LocalTime, MakeDate.
  rewrite MakeDay_month by lia. pose proof (dfy_step y). pose proof (dfy_step (y - 1)). pose proof (dfy_step (y + 1)).
  pose proof (DaysInYear_range (y - 1)). pose proof (DaysInYear_range y). pose proof (DaysInYear_range (y + 1)).
  replace (y - 1 + 1) with y in * by lia. replace (y + 1 + 1) with (y + 2) in * by lia.
  destruct (month_start_range (leap_year y) (m - 1) ltac:(lia)) as (Hs0 & Hs1 & Hs2 & Hs3).
  assert (Hl : DaysInYear y = 365 + (if leap_year y then 1 else 0)) by apply leap_days.
  assert (Hb : DayFromYear (y - 1) <= Day ((DayFromYear y + month_start (leap_year y) (m - 1) + d - 1) * msPerDay + 0 + LocalTZA h)
               < DayFromYear (y + 2)).
  { unfold Day, msPerDay in *. split.
    - apply Z.div_le_lower_bound; [lia|]. unfold days_in_month in *. destruct (leap_year y); lia.
    - apply Z.div_lt_upper_bound; [lia|]. unfold days_in_month in *. destruct (leap_year y); lia. }
  apply year_from_day_between in Hb. lia.
Qed.

Lemma moment_string_date_witness :
  (1001 <= 2024 <= 9998 /\ 1 <= 3 <= 12 /\ 1 <= 1 <= days_in_month 2024 (3 - 1) /\ Z.abs (LocalTZA est_host) < msPerDay) /\
  format est_host None (new_Moment est_host 1700000000000 (ArgString (iso_date_text 2024 3 1))) =
  iso_date_text (YearFromTime (MakeDate (MakeDay 2024 (3 - 1) 1) (LocalTZA est_host)))
                (MonthFromTime (MakeDate (MakeDay 2024 (3 - 1) 1) (LocalTZA est_host)) + 1)
                (DateFromTime (MakeDate (MakeDay 2024 (3 - 1) 1) (LocalTZA est_host))).
Proof.
  assert (H : 1001 <= 2024 <= 9998 /\ 1 <= 3 <= 12 /\ 1 <= 1 <= days_in_month 2024 (3 - 1) /\
              Z.abs (LocalTZA est_host) < msPerDay)
    by (split; [lia|]; split; [lia|]; vm_compute; repeat split; discriminate).
  split; [exact H|]. destruct H as (H1 & H2 & H3 & H4). exact (moment_string_date _ _ _ _ _ H1 H2 H3 H4).
Defined.

(** C34: [new Moment('YYYY-MM-DD').format()] gives the same date back
    on a host at or east of UTC, and the day before on a host west of
    UTC, where UTC midnight is still the previous day. *)
Theorem moment_string_day_shift h now y m d :
  1001 <= y <= 9998 -> 1 <= m <= 12 -> 1 <= d <= days_in_month y (m - 1) ->
  (0 <= LocalTZA h < msPerDay ->
   format h None (new_Moment h now (ArgString (iso_date_text y m d))) = iso_date_text y m d) /\
  (- msPerDay < LocalTZA h < 0 ->
   format h None (new_Moment h now (ArgString (iso_date_text y m d))) =
   iso_date_text (YearFromTime (MakeDate (MakeDay y (m - 1) d - 1) 0))
                 (MonthFromTime (MakeDate (MakeDay y (m - 1) d - 1) 0) + 1)
                 (DateFromTime (MakeDate (MakeDay y (m - 1) d - 1) 0))).
Proof.
  intros Hy Hm Hd. pose proof (days_in_month_max y (m - 1) ltac:(lia)). split; intros Hz.
  - rewrite moment_string_date by lia.
    destruct (date_roundtrip y (m - 1) d (LocalTZA h) ltac:(lia) ltac:(lia) ltac:(lia)) as (-> & -> & -> & _).
    do 2 f_equal. lia.
  - rewrite moment_string_date by lia.
    destruct (fields_of_Day (MakeDate (MakeDay y (m - 1) d) (LocalTZA h)) (MakeDate (MakeDay y (m - 1) d - 1) 0))
      as (-> & -> & ->); [|reflexivity].
    unfold Day, MakeDate in *. rewrite Z.add_0_r, Z.div_mul by (unfold msPerDay; lia).
    symmetry. apply Z.div_unique with (r := msPerDay + LocalTZA h); [left; lia | lia].
Qed.

Lemma moment_string_day_shift_witness :
  (1001 <= 2024 <= 9998 /\ 1 <= 3 <= 12 /\ 1 <= 1 <= days_in_month 2024 (3 - 1) /\
   - msPerDay < LocalTZA est_host < 0) /\
  format est_host None (new_Moment est_host 1700000000000 (ArgString (iso_date_text 2024 3 1))) =
   iso_date_text (YearFromTime (MakeDate (MakeDay 2024 (3 - 1) 1 - 1) 0))
                 (MonthFromTime (MakeDate (MakeDay 2024 (3 - 1) 1 - 1) 0) + 1)
                 (DateFromTime (MakeDate (MakeDay 2024 (3 - 1) 1 - 1) 0)).
Proof.
  assert (H : 1001 <= 2024 <= 9998 /\ 1 <= 3 <= 12 /\ 1 <= 1 <= days_in_month 2024 (3 - 1) /\
              - msPerDay < LocalTZA est_host < 0)
    by (split; [lia|]; split; [lia|]; vm_compute; repeat split; discriminate || reflexivity).
  split; [exact H|]. destruct H as (H1 & H2 & H3 & H4).
  exact (proj2 (moment_string_day_shift est_host 1700000000000 _ _ _ H1 H2 H3) H4).
Defined.

(** On a host five hours west of UTC, [new Moment('2024-03-01')]
    formats as [2024-02-29]; on UTC and an hour east, as [2024-03-01]. *)
Example moment_string_hosts :
  format est_host None (new_Moment est_host 0 (ArgString (js "2024-03-01"))) = js "2024-02-29" /\
  format utc_host None (new_Moment utc_host 0 (ArgString (js "2024-03-01"))) = js "2024-03-01" /\
  format cet_host None (new_Moment cet_host 0 (ArgString (js "2024-03-01"))) = js "2024-03-01".
Proof. repeat split; vm_compute; reflexivity. Qed.

End Moment.
