(* ===== verification/Cookie.v ===== *)
(** The cookie helpers of [src/index.js]: [setCookie], [removeCookie] and
    [getCookie] (lines 82-112), over a model of [document.cookie].

    The document's cookie jar is a list of cookies in creation order,
    each with a name, a value and an expiry instant ([None] for a session
    cookie).  Assigning to [document.cookie] follows RFC 6265 (5.2, 5.3)
    for a single domain and path: the name-value pair is the text up to
    the first [;], split at its first [=], both sides trimmed of spaces
    and tabs; a pair without [=] or with an empty name is ignored; a
    cookie that has already expired deletes the cookie of that name, any
    other replaces it in place or is appended.  Reading [document.cookie]
    joins the live cookies as [name=value] with ["; "].

    [setCookie] on the host [h] ([DateText.date_host]) at the instant [now]
    runs [new Date()], [date.setDate(date.getDate() + days)] with the
    [Date] methods of [Moment] (local time: the instant plus the host's
    offset), and assigns [`${name}=${value};expires=${date}`], the date
    written by [Date.prototype.toString] ([DateText.ToDateString]).  The
    store reads the attributes after the first [;]: the last [Max-Age]
    or else the last [Expires] attribute sets the expiry, an [Expires]
    value being read by the cookie-date algorithm of RFC 6265 5.1.1
    ([cookie_date]), which takes the date and time of the text as UTC:
    the expiry is the local time of the date, without its milliseconds,
    read as UTC ([cookie_date_toString]).  [days] undefined makes an
    invalid date, whose text [Invalid Date] is no cookie date: a session
    cookie.  [days] is an integer number of days; the clamping of
    expiry times to the representable range, and the cookie's domain,
    path and flags, are not modelled. *)

From Stdlib Require Import ZArith Lia String List.
From stdpp Require Import base decidable list.
From S2P Require Import Prelude JsString Uri Regex Validators EcmaDate DateText Moment.
Import ListNotations.
Open Scope bool_scope.
Open Scope Z_scope.

Module Cookie.
Import JsString Uri Regex Validators EcmaDate DateText.

Record cookie := { ck_name : jsstring; ck_value : jsstring; ck_expires : option Z }.

Definition jar := list cookie.

Definition c_semi : Z := 59.

(** White space of the cookie grammar: space and tab. *)
Definition is_wsp (c : Z) : bool := (c =? 32) || (c =? 9).

Fixpoint drop_wsp (s : jsstring) : jsstring :=
  match s with
  | c :: s' => if is_wsp c then drop_wsp s' else s
  | [] => []
  end.

Definition trim_wsp (s : jsstring) : jsstring := rev (drop_wsp (rev (drop_wsp s))).

(** The text before the first [sep] and the text after it. *)
Fixpoint split_first (sep : Z) (s : jsstring) : option (jsstring * jsstring) :=
  match s with
  | [] => None
  | c :: s' =>
      if c =? sep then Some ([], s')
      else match split_first sep s' with
           | Some (a, b) => Some (c :: a, b)
           | None => None
           end
  end.

Definition alive (now : Z) (c : cookie) : bool :=
  match ck_expires c with Some t => now <? t | None => true end.

Definition remove_name (n : jsstring) (j : jar) : jar :=
  List.filter (fun c => negb (bool_decide (ck_name c = n))) j.

(** Replace the cookie of the same name in place, or append. *)
Definition upsert (nc : cookie) (j : jar) : jar :=
  if existsb (fun c => bool_decide (ck_name c = ck_name nc)) j
  then map (fun c => if bool_decide (ck_name c = ck_name nc) then nc else c) j
  else j ++ [nc].

(** ** Dates of cookies (RFC 6265 5.1.1) *)

Definition is_delimiter (c : Z) : bool :=
  (c =? 9) || ((32 <=? c) && (c <=? 47)) || ((59 <=? c) && (c <=? 64)) ||
  ((91 <=? c) && (c <=? 96)) || ((123 <=? c) && (c <=? 126)).

(** The date-tokens: the maximal runs of non-delimiters, [cur] holding
    the token being read, reversed. *)
Fixpoint date_tokens_acc (cur : jsstring) (s : jsstring) : list jsstring :=
  match s with
  | [] => if bool_decide (cur = []) then [] else [rev cur]
  | c :: r =>
      if is_delimiter c then
        if bool_decide (cur = []) then date_tokens_acc [] r else rev cur :: date_tokens_acc [] r
      else date_tokens_acc (c :: cur) r
  end.

Definition date_tokens (s : jsstring) : list jsstring := date_tokens_acc [] s.

(** [lo*hiDIGIT ( non-digit *OCTET )]: the value of the leading digits,
    when there are [lo] to [hi] of them, and the rest. *)
Definition lead_digits (lo hi : nat) (tok : jsstring) : option (Z * jsstring) :=
  let '(ds, r) := digit_span tok in
  if (lo <=? length ds)%nat && (length ds <=? hi)%nat then Some (decimal_value ds, r) else None.

(** [hms-time ( non-digit *OCTET )]. *)
Definition time_token (tok : jsstring) : option (Z * Z * Z) :=
  match lead_digits 1 2 tok with
  | Some (hh, c1 :: r1) =>
      if c1 =? c_colon then
        match lead_digits 1 2 r1 with
        | Some (mi, c2 :: r2) =>
            if c2 =? c_colon then
              match lead_digits 1 2 r2 with Some (ss, _) => Some (hh, mi, ss) | None => None end
            else None
        | _ => None
        end
      else None
  | _ => None
  end.

Definition day_token (tok : jsstring) : option Z := option_map fst (lead_digits 1 2 tok).
Definition year_token (tok : jsstring) : option Z := option_map fst (lead_digits 2 4 tok).

Definition ascii_lower (c : Z) : Z := if (65 <=? c) && (c <=? 90) then c + 32 else c.

Definition month_abbrs : list jsstring :=
  map js ["jan"; "feb"; "mar"; "apr"; "may"; "jun"; "jul"; "aug"; "sep"; "oct"; "nov"; "dec"]%string.

(** [month ( *OCTET )]: the first three characters name a month, in
    any case. *)
Definition month_token (tok : jsstring) : option Z :=
  match tok with
  | a :: b :: c :: _ => index_of month_abbrs (map ascii_lower [a; b; c]) 0
  | _ => None
  end.

(** The fields found so far. *)
Record date_found := { f_time : option (Z * Z * Z); f_day : option Z; f_month : option Z; f_year : option Z }.

Definition no_field : date_found := {| f_time := None; f_day := None; f_month := None; f_year := None |}.

(** Step 2 for one token: the first field, in the order time,
    day of month, month, year, not yet found that the token matches. *)
Definition date_step (st : date_found) (tok : jsstring) : date_found :=
  match f_time st, time_token tok with
  | None, Some t => {| f_time := Some t; f_day := f_day st; f_month := f_month st; f_year := f_year st |}
  | _, _ =>
  match f_day st, day_token tok with
  | None, Some d => {| f_time := f_time st; f_day := Some d; f_month := f_month st; f_year := f_year st |}
  | _, _ =>
  match f_month st, month_token tok with
  | None, Some m => {| f_time := f_time st; f_day := f_day st; f_month := Some m; f_year := f_year st |}
  | _, _ =>
  match f_year st, year_token tok with
  | None, Some y => {| f_time := f_time st; f_day := f_day st; f_month := f_month st; f_year := Some y |}
  | _, _ => st
  end end end end.

(** Steps 3 to 7: two-digit years, the ranges of the fields, and the
    instant of that date and time in UTC. *)
Definition cookie_date (s : jsstring) : option Z :=
  let st := fold_left date_step (date_tokens s) no_field in
  match f_time st, f_day st, f_month st, f_year st with
  | Some (hh, mi, ss), Some d, Some m, Some y =>
      let y := if (70 <=? y) && (y <=? 99) then y + 1900 else if (0 <=? y) && (y <=? 69) then y + 2000 else y in
      if (1 <=? d) && (d <=? 31) && (1601 <=? y) && (hh <=? 23) && (mi <=? 59) && (ss <=? 59) &&
         (d <=? days_in_month y m)
      then Some (MakeDate (MakeDay y m d) (MakeTime hh mi ss 0))
      else None
  | _, _, _, _ => None
  end.

(** ** Assigning to [document.cookie] (RFC 6265 5.2, 5.3) *)

(** The attributes that set the expiry. *)
Inductive expiry_attr := AExpires (t : Z) | AMaxAge (t : Z).

(** 5.2.2 [Max-Age]: an optional [-] and digits, in seconds from now;
    zero or less is the earliest instant. *)
Definition max_age (now : Z) (v : jsstring) : option Z :=
  match v with
  | [] => None
  | c :: r =>
      if (is_digit c || (c =? c_minus)) && forallb is_digit r then
        let delta := if c =? c_minus then - decimal_value r else decimal_value v in
        Some (if delta <=? 0 then - 8640000000000000 else now + delta * 1000)
      else None
  end.

(** One [cookie-av]: its name, case-insensitively, and value, both
    trimmed; attributes other than [Expires] and [Max-Age], and values
    that do not parse, are ignored. *)
Definition parse_av (now : Z) (av : jsstring) : option expiry_attr :=
  let '(n, v) := match split_first c_eq av with
                 | Some (n, v) => (trim_wsp n, trim_wsp v)
                 | None => (trim_wsp av, [])
                 end in
  let n := map ascii_lower n in
  if bool_decide (n = js "expires") then option_map AExpires (cookie_date v)
  else if bool_decide (n = js "max-age") then option_map AMaxAge (max_age now v)
  else None.

(** 5.3 step 3: the last [Max-Age], else the last [Expires], else a
    session cookie. *)
Definition cookie_expiry (now : Z) (avs : list jsstring) : option Z :=
  let attrs := omap (parse_av now) avs in
  match fold_left (fun acc a => match a with AMaxAge t => Some t | _ => acc end) attrs None with
  | Some t => Some t
  | None => fold_left (fun acc a => match a with AExpires t => Some t | _ => acc end) attrs None
  end.

(** [document.cookie = text]: the name-value pair before the first
    [;], the attributes after it. *)
Definition cookie_set (now : Z) (j : jar) (text : jsstring) : jar :=
  let parts := split c_semi text in
  match split_first c_eq (hd [] parts) with
  | None => j
  | Some (n, v) =>
      let n := trim_wsp n in
      let nc := {| ck_name := n; ck_value := trim_wsp v; ck_expires := cookie_expiry now (tl parts) |} in
      if bool_decide (n = []) then j
      else if alive now nc then upsert nc j
      else remove_name n j
  end.

(** Reading [document.cookie]. *)
Definition cookie_get (now : Z) (j : jar) : jsstring :=
  join [c_semi; 32] (map (fun c => ck_name c ++ [c_eq] ++ ck_value c) (List.filter (alive now) j)).

(** [setCookie(name, value, days)] on the host [h] at the instant [now]:
    [new Date()], [date.setDate(date.getDate() + days)] ([NaN] when
    [days] is undefined), and the assignment with the date's
    [toString] text. *)
Definition setCookie (h : date_host) (now : Z) (j : jar) (name value : jsstring) (days : option Z) : jar :=
  let date := TimeClip now in
  let date := Moment.setDate h date (match Moment.getDate h date, days with
                                     | Some x, Some d => Some (x + d)
                                     | _, _ => None
                                     end) in
  cookie_set now j (name ++ [c_eq] ++ value ++ js ";expires=" ++ ToDateString h date).

(** [removeCookie(name)]: [setCookie(name, '1', -1)]. *)
Definition removeCookie (h : date_host) (now : Z) (j : jar) (name : jsstring) : jar :=
  setCookie h now j name (js "1") (Some (-1)).

(** The [for] loop of [getCookie] over the items of the cookie string. *)
Fixpoint cookie_loop (name : jsstring) (arr : list jsstring) : completion jsstring :=
  match arr with
  | [] => Normal []
  | item :: rest =>
      let tempArr := split c_eq item in
      if bool_decide (nth 0 tempArr [] = name)
      then decodeURIComponent (match nth_error tempArr 1 with Some v => v | None => js "undefined" end)
      else cookie_loop name rest
  end.

(** [getCookie(name)] on the string [document.cookie] reads. *)
Definition getCookie_from (document_cookie name : jsstring) : completion jsstring :=
  cookie_loop name (split c_semi (lit_replace_all (js "\s") document_cookie [])).

Definition getCookie (now : Z) (j : jar) (name : jsstring) : completion jsstring :=
  getCookie_from (cookie_get now j) name.

(** A cookie the jar can hold: a non-empty name without [;] or [=], a
    value without [;]. *)
Definition cookie_ok (c : cookie) : Prop :=
  ck_name c <> [] /\ ~ In c_semi (ck_name c) /\ ~ In c_eq (ck_name c) /\ ~ In c_semi (ck_value c).

(** The jar invariant: distinct names, and cookies it can hold. *)
Definition jar_wf (j : jar) : Prop := NoDup (map ck_name j) /\ Forall cookie_ok j.

(** A name or value [getCookie] reads back unchanged: no white space,
    [;] or [=], and for a value no [%]. *)
Definition cookie_token (s : jsstring) : bool :=
  negb (bool_decide (s = [])) && forallb (fun c => negb (is_space c) && negb (c =? c_semi) && negb (c =? c_eq)) s.

Definition cookie_text (s : jsstring) : bool :=
  forallb (fun c => negb (is_space c) && negb (c =? c_semi) && negb (c =? c_eq) && negb (c =? c_pct)) s.

(** ** Parsing the name-value pair *)

Lemma split_first_spec sep s a b : split_first sep s = Some (a, b) -> s = a ++ sep :: b /\ ~ In sep a.
Proof.
  revert a. induction s as [|c s IH]; intros a H; cbn [split_first] in H; [discriminate|].
  destruct (Z.eqb_spec c sep) as [->|Hne].
  - injection H as <- <-. split; [reflexivity|intros []].
  - destruct (split_first sep s) as [[a' b']|] eqn:E; [|discriminate]. injection H as <- <-.
    destruct (IH a' eq_refl) as [-> Hn]. split; [reflexivity|]. intros [->|Hin]; [congruence|tauto].
Qed.

Lemma split_first_app sep a b : ~ In sep a -> split_first sep (a ++ sep :: b) = Some (a, b).
Proof.
  induction a as [|c a IH]; intros Hn; cbn [split_first app]; [rewrite Z.eqb_refl; reflexivity|].
  destruct (Z.eqb_spec c sep) as [->|]; [simpl in Hn; tauto|].
  rewrite IH by (simpl in Hn; tauto). reflexivity.
Qed.

Lemma hd_split_notin sep s : ~ In sep (hd [] (split sep s)).
Proof.
  induction s as [|x s IH]; cbn [split]; [intros []|].
  destruct (Z.eqb_spec x sep) as [->|Hne]; [intros []|].
  destruct (split sep s) as [|w ws]; cbn [hd] in *; [intros [->|[]]; congruence|].
  intros [->|H]; [congruence|tauto].
Qed.

Lemma drop_wsp_id s : Forall (fun c => is_wsp c = false) s -> drop_wsp s = s.
Proof. intros H. destruct H as [|c s Hc _]; [reflexivity|]. cbn [drop_wsp]. rewrite Hc. reflexivity. Qed.

Lemma trim_wsp_id s : Forall (fun c => is_wsp c = false) s -> trim_wsp s = s.
Proof.
  intros H. unfold trim_wsp. rewrite (drop_wsp_id s H).
  rewrite drop_wsp_id by (apply Forall_rev; exact H). apply rev_involutive.
Qed.

Lemma drop_wsp_incl s x : In x (drop_wsp s) -> In x s.
Proof. induction s as [|c s IH]; cbn [drop_wsp]; [tauto|]. destruct (is_wsp c); simpl; tauto. Qed.

Lemma trim_wsp_incl s x : In x (trim_wsp s) -> In x s.
Proof.
  unfold trim_wsp. intros H. apply in_rev, drop_wsp_incl, in_rev, drop_wsp_incl in H. exact H.
Qed.

Lemma wsp_space c : is_wsp c = true -> is_space c = true.
Proof. unfold is_wsp. intros H. bool_hyps; subst; reflexivity. Qed.

Lemma no_space_wsp s : Forall (fun c => is_space c = false) s -> Forall (fun c => is_wsp c = false) s.
Proof.
  intros H. eapply Forall_impl; [exact H|]. intros c Hc. cbv beta in *. destruct (is_wsp c) eqn:E; [|reflexivity].
  rewrite wsp_space in Hc by exact E. discriminate.
Qed.

(** ** The jar invariant *)

Lemma NoDup_map_filter {A B} (f : A -> B) (p : A -> bool) l :
  NoDup (map f l) -> NoDup (map f (List.filter p l)).
Proof.
  induction l as [|x l IH]; intros H; [constructor|]. cbn [map] in H. inversion H as [|? ? Hx Hl]; subst.
  cbn [List.filter]. destruct (p x); [|auto]. cbn [map]. constructor; [|auto].
  rewrite list_elem_of_In in Hx |- *. intros Hin. apply Hx.
  apply in_map_iff in Hin as (y & Hxy & Hy). apply filter_In in Hy as [Hy _].
  rewrite <- Hxy. apply in_map. exact Hy.
Qed.

Lemma remove_name_wf n j : jar_wf j -> jar_wf (remove_name n j).
Proof.
  intros [Hd Hf]. split; [apply NoDup_map_filter, Hd|].
  apply List.Forall_forall. intros c Hc. apply filter_In in Hc as [Hc _].
  exact (proj1 (List.Forall_forall _ _) Hf c Hc).
Qed.

Lemma upsert_names nc j :
  existsb (fun c => bool_decide (ck_name c = ck_name nc)) j = true ->
  map ck_name (map (fun c => if bool_decide (ck_name c = ck_name nc) then nc else c) j) = map ck_name j.
Proof.
  intros _. rewrite map_map. apply map_ext. intros c. case_bool_decide; congruence.
Qed.

Lemma upsert_wf nc j : cookie_ok nc -> jar_wf j -> jar_wf (upsert nc j).
Proof.
  intros Hc [Hd Hf]. unfold upsert. destruct (existsb _ j) eqn:E.
  - split; [rewrite upsert_names by exact E; exact Hd|].
    apply Forall_map. eapply Forall_impl; [exact Hf|]. intros c Hc'. simpl. case_bool_decide; assumption.
  - split.
    + rewrite map_app. apply NoDup_app. split; [exact Hd|]. split; [|apply NoDup_singleton].
      intros x Hx Hx2. rewrite list_elem_of_In in Hx, Hx2. destruct Hx2 as [<-|[]].
      apply in_map_iff in Hx as (c & Hcn & Hin).
      assert (Hex : existsb (fun c => bool_decide (ck_name c = ck_name nc)) j = true).
      { apply existsb_exists. exists c. split; [exact Hin|]. apply bool_decide_eq_true. exact Hcn. }
      congruence.
    + apply Forall_app. split; [exact Hf|]. apply Forall_singleton. exact Hc.
Qed.

(** Every assignment to [document.cookie] keeps the jar invariant. *)
Lemma cookie_set_wf now j text : jar_wf j -> jar_wf (cookie_set now j text).
Proof.
  intros Hj. unfold cookie_set. destruct (split_first c_eq _) as [[n v]|] eqn:E; [|exact Hj].
  apply split_first_spec in E as [Et Hn]. pose proof (hd_split_notin c_semi text) as Hs. rewrite Et in Hs.
  cbv zeta. case_bool_decide as Hnil; [exact Hj|].
  destruct (alive _ _); [|apply remove_name_wf, Hj].
  apply upsert_wf; [|exact Hj]. cbn [ck_name ck_value]. split; [exact Hnil|].
  split; [|split]; intros Hin; apply trim_wsp_incl in Hin.
  - apply Hs, in_or_app. left. exact Hin.
  - exact (Hn Hin).
  - apply Hs, in_or_app. right. right. exact Hin.
Qed.

(** ** Reading the cookie string *)

Definition not_space (c : Z) : bool := negb (is_space c).

(** An item of the cookie string after [getCookie] removes white space. *)
Definition read_item (c : cookie) : jsstring := ck_name c ++ [c_eq] ++ List.filter not_space (ck_value c).

(** Names without white space. *)
Definition plain_names (j : jar) : Prop := Forall (fun c => Forall (fun u => is_space u = false) (ck_name c)) j.

Lemma class_mem_space c : class_mem space_class c = is_space c.
Proof. unfold class_mem, space_class; cbn. rewrite orb_false_r. reflexivity. Qed.

Lemma ws_literal :
  regexp_literal (js "\s") false = Some {| re_pattern := RSeq (RClass space_class) REps; re_icase := false |}.
Proof. vm_compute. reflexivity. Qed.

(** [replace(/\s/g, '')] deletes the white space. *)
Lemma remove_ws s : lit_replace_all (js "\s") s [] = List.filter not_space s.
Proof.
  unfold lit_replace_all. rewrite ws_literal.
  rewrite (replace_all_class _ space_class) by (intros; apply match_at_class_seq).
  apply List.filter_ext. intros c. rewrite class_mem_space. reflexivity.
Qed.

Lemma filter_join l :
  List.filter not_space (join [c_semi; 32] l) = join [c_semi] (map (List.filter not_space) l).
Proof.
  induction l as [|w [|w' l] IH]; [reflexivity|reflexivity|].
  change (join [c_semi; 32] (w :: w' :: l)) with (w ++ [c_semi; 32] ++ join [c_semi; 32] (w' :: l)).
  rewrite !List.filter_app, IH. reflexivity.
Qed.

Lemma filter_plain s : Forall (fun u => is_space u = false) s -> List.filter not_space s = s.
Proof.
  intros H. apply filter_all. eapply Forall_impl; [exact H|]. intros u Hu. cbv beta in *.
  unfold not_space. rewrite Hu. reflexivity.
Qed.

Lemma read_item_filter c :
  Forall (fun u => is_space u = false) (ck_name c) ->
  List.filter not_space (ck_name c ++ [c_eq] ++ ck_value c) = read_item c.
Proof. intros H. rewrite !List.filter_app, filter_plain by exact H. reflexivity. Qed.

Lemma read_item_split c :
  ~ In c_eq (ck_name c) -> split c_eq (read_item c) = ck_name c :: split c_eq (List.filter not_space (ck_value c)).
Proof. intros H. apply split_app_sep. exact H. Qed.

Lemma read_item_notin c : cookie_ok c -> ~ In c_semi (read_item c).
Proof.
  intros (_ & Hn & _ & Hv) Hin. apply in_app_or in Hin as [H|[H|H]]; [tauto|discriminate|].
  apply filter_In in H as [H _]. tauto.
Qed.

(** [getCookie] scans the live cookies in order, each as its [read_item]. *)
Lemma getCookie_items now j name :
  name <> [] -> Forall cookie_ok j -> plain_names j ->
  getCookie now j name = cookie_loop name (map read_item (List.filter (alive now) j)).
Proof.
  intros Hn Hok Hpl. unfold getCookie, getCookie_from, cookie_get. rewrite remove_ws, filter_join.
  assert (HL : Forall (fun c => cookie_ok c /\ Forall (fun u => is_space u = false) (ck_name c))
                 (List.filter (alive now) j)).
  { apply List.Forall_forall. intros c Hc. apply filter_In in Hc as [Hc _].
    split; [exact (proj1 (List.Forall_forall _ _) Hok c Hc)|exact (proj1 (List.Forall_forall _ _) Hpl c Hc)]. }
  rewrite map_map. erewrite map_ext_Forall; [|eapply Forall_impl; [exact HL|]; intros c [_ Hc]; apply read_item_filter, Hc].
  destruct (List.filter (alive now) j) as [|c0 l] eqn:E.
  - cbn. case_bool_decide; [congruence|reflexivity].
  - rewrite split_join; [reflexivity|discriminate|].
    apply Forall_map. eapply Forall_impl; [exact HL|]. intros c [Hc _]. apply read_item_notin, Hc.
Qed.

Lemma cookie_loop_skip name pre c post :
  Forall (fun c' => cookie_ok c' /\ ck_name c' <> name) pre ->
  cookie_loop name (map read_item (pre ++ c :: post)) = cookie_loop name (map read_item (c :: post)).
Proof.
  induction 1 as [|c' pre [[_ [_ [Hq _]]] Hne] _ IH]; [reflexivity|].
  cbn [app map cookie_loop]. rewrite read_item_split by exact Hq. cbn [nth].
  rewrite bool_decide_false by exact Hne. exact IH.
Qed.

Lemma cookie_loop_absent name l :
  Forall (fun c' => cookie_ok c' /\ ck_name c' <> name) l -> cookie_loop name (map read_item l) = Normal [].
Proof.
  intros H. rewrite <- (app_nil_r l). induction H as [|c' pre [[_ [_ [Hq _]]] Hne] _ IH]; [reflexivity|].
  cbn [app map cookie_loop]. rewrite read_item_split by exact Hq. cbn [nth].
  rewrite bool_decide_false by exact Hne. exact IH.
Qed.

(** A cookie in a jar of distinct names comes after cookies of other names. *)
Lemma jar_split (L : jar) c :
  In c L -> NoDup (map ck_name L) ->
  exists pre post, L = pre ++ c :: post /\ Forall (fun c' => ck_name c' <> ck_name c) pre.
Proof.
  intros Hin Hd. apply in_split in Hin as (pre & post & ->). exists pre, post. split; [reflexivity|].
  rewrite map_app in Hd. apply NoDup_app in Hd as (_ & Hd & _).
  apply List.Forall_forall. intros c' Hc' Heq. apply (Hd (ck_name c)).
  - apply list_elem_of_In, in_map_iff. exists c'. auto.
  - apply list_elem_of_In. left. reflexivity.
Qed.

(** ** The date of a [toString] text *)

Lemma date_tokens_acc_app cur tok d r :
  Forall (fun c => is_delimiter c = false) tok -> is_delimiter d = true -> rev cur ++ tok <> [] ->
  date_tokens_acc cur (tok ++ d :: r) = (rev cur ++ tok) :: date_tokens_acc [] r.
Proof.
  intros Ht Hd. revert cur. induction Ht as [|c tok Hc _ IH]; intros cur Hne; cbn [app date_tokens_acc].
  - rewrite Hd, app_nil_r in *. rewrite bool_decide_eq_false_2; [reflexivity|]. intros ->. exact (Hne eq_refl).
  - rewrite Hc, IH; cbn [rev]; rewrite <- app_assoc; [reflexivity|]. intros E. apply app_eq_nil in E as [_ E]. discriminate.
Qed.

(** A token followed by a delimiter is the first date-token. *)
Lemma date_tokens_cons tok d r :
  Forall (fun c => is_delimiter c = false) tok -> tok <> [] -> is_delimiter d = true ->
  date_tokens_acc [] (tok ++ d :: r) = tok :: date_tokens_acc [] r.
Proof. intros Ht Hne Hd. exact (date_tokens_acc_app [] tok d r Ht Hd Hne). Qed.

Lemma fold_left_cons {A B} (f : A -> B -> A) x l a : fold_left f (x :: l) a = fold_left f l (f a x).
Proof. reflexivity. Qed.

(** Once every field is found, the remaining tokens change nothing. *)
Lemma fold_found l t d m y :
  fold_left date_step l {| f_time := Some t; f_day := Some d; f_month := Some m; f_year := Some y |} =
  {| f_time := Some t; f_day := Some d; f_month := Some m; f_year := Some y |}.
Proof. induction l as [|tok l IH]; [reflexivity|]. exact IH. Qed.

Lemma digit_not_delimiter c : is_digit c = true -> is_delimiter c = false.
Proof. unfold is_digit, is_delimiter. intros H. bool_hyps. case_cmp; try reflexivity; lia. Qed.

Lemma digits_not_delimiter l : Forall (fun c => is_digit c = true) l -> Forall (fun c => is_delimiter c = false) l.
Proof. intros H. eapply Forall_impl; [exact H|]. intros c. apply digit_not_delimiter. Qed.

Lemma digit_span_all l : Forall (fun c => is_digit c = true) l -> digit_span l = (l, []).
Proof. induction 1 as [|c l Hc _ IH]; [reflexivity|]. cbn [digit_span]. rewrite Hc, IH. reflexivity. Qed.

Lemma lead_digits_all lo hi l :
  Forall (fun c => is_digit c = true) l ->
  lead_digits lo hi l = if (lo <=? length l)%nat && (length l <=? hi)%nat then Some (decimal_value l, []) else None.
Proof. intros H. unfold lead_digits. rewrite digit_span_all by exact H. reflexivity. Qed.

Lemma lead_digits_sep lo hi l c r :
  Forall (fun c => is_digit c = true) l -> is_digit c = false ->
  lead_digits lo hi (l ++ c :: r) = if (lo <=? length l)%nat && (length l <=? hi)%nat then Some (decimal_value l, c :: r) else None.
Proof. intros H Hc. unfold lead_digits. rewrite digit_span_app by assumption. reflexivity. Qed.

(** A run of digits is no time. *)
Lemma time_token_digits l : Forall (fun c => is_digit c = true) l -> time_token l = None.
Proof. intros H. unfold time_token. rewrite lead_digits_all by exact H. destruct (_ && _); reflexivity. Qed.

Lemma zero_pad_len2 v : 0 <= v < 100 -> length (zero_pad v 2) = 2%nat.
Proof. intros H. rewrite zero_pad2 by exact H. reflexivity. Qed.

Lemma digits_n_length n acc l v r : digits_n n acc l = Some (v, r) -> length l = (n + length r)%nat.
Proof.
  revert acc l. induction n as [|n IH]; intros acc l H; cbn [digits_n] in H.
  - injection H as _ ->. reflexivity.
  - destruct l as [|c l]; [discriminate|]. destruct (is_digit c); [|discriminate].
    cbn [length]. rewrite (IH _ _ H). reflexivity.
Qed.

Lemma zero_pad_len4 v : 1000 <= v <= 9999 -> length (zero_pad v 4) = 4%nat.
Proof.
  intros H. pose proof (proj2 (year4 v H) []) as E. apply digits_n_length in E.
  rewrite length_app in E. cbn in E. lia.
Qed.

(** The time [HH:mm:ss] of [toString]. *)
Lemma time_token_hms hh mi ss :
  0 <= hh < 100 -> 0 <= mi < 100 -> 0 <= ss < 100 ->
  time_token (zero_pad hh 2 ++ [c_colon] ++ zero_pad mi 2 ++ [c_colon] ++ zero_pad ss 2) = Some (hh, mi, ss).
Proof.
  intros Hh Hm Hs. unfold time_token. cbn [app].
  rewrite lead_digits_sep, zero_pad_len2, (proj1 (zero_pad_value hh 2 ltac:(lia))) by first [reflexivity | apply zero_pad_digits; lia | lia].
  cbn [Nat.leb andb]. rewrite Z.eqb_refl.
  rewrite lead_digits_sep, zero_pad_len2, (proj1 (zero_pad_value mi 2 ltac:(lia))) by first [reflexivity | apply zero_pad_digits; lia | lia].
  cbn [Nat.leb andb]. rewrite Z.eqb_refl.
  rewrite lead_digits_all, zero_pad_len2, (proj1 (zero_pad_value ss 2 ltac:(lia))) by first [apply zero_pad_digits; lia | lia].
  reflexivity.
Qed.

(** The day names of [toString] are no field of a date. *)
Lemma week_token w :
  0 <= w < 7 ->
  Forall (fun c => is_delimiter c = false) (nth (Z.to_nat w) week_names []) /\ nth (Z.to_nat w) week_names [] <> [] /\
  date_step no_field (nth (Z.to_nat w) week_names []) = no_field.
Proof.
  intros Hw. assert (w = 0 \/ w = 1 \/ w = 2 \/ w = 3 \/ w = 4 \/ w = 5 \/ w = 6) as Hc by lia.
  repeat destruct Hc as [->|Hc]; subst; vm_compute; (split; [repeat constructor|split; [discriminate|reflexivity]]).
Qed.

(** The month names of [toString] are months. *)
Lemma month_token_name m :
  0 <= m <= 11 ->
  Forall (fun c => is_delimiter c = false) (nth (Z.to_nat m) month_names []) /\ nth (Z.to_nat m) month_names [] <> [] /\
  date_step no_field (nth (Z.to_nat m) month_names []) =
    {| f_time := None; f_day := None; f_month := Some m; f_year := None |}.
Proof.
  intros Hm. assert (m = 0 \/ m = 1 \/ m = 2 \/ m = 3 \/ m = 4 \/ m = 5 \/ m = 6 \/ m = 7 \/ m = 8 \/ m = 9 \/ m = 10 \/ m = 11)
    as Hc by lia.
  repeat destruct Hc as [->|Hc]; subst; vm_compute; (split; [repeat constructor|split; [discriminate|reflexivity]]).
Qed.

Lemma day_step m v :
  1 <= v <= 31 ->
  date_step {| f_time := None; f_day := None; f_month := Some m; f_year := None |} (zero_pad v 2) =
  {| f_time := None; f_day := Some v; f_month := Some m; f_year := None |}.
Proof.
  intros Hv. pose proof (zero_pad_digits v 2 ltac:(lia)) as Hd. unfold date_step. cbn [f_time f_day f_month f_year].
  rewrite time_token_digits by exact Hd. unfold day_token. rewrite lead_digits_all, zero_pad_len2 by (exact Hd || lia).
  cbn. rewrite (proj1 (zero_pad_value v 2 ltac:(lia))). reflexivity.
Qed.

Lemma year_step d m v :
  1000 <= v <= 9999 ->
  date_step {| f_time := None; f_day := Some d; f_month := Some m; f_year := None |} (zero_pad v 4) =
  {| f_time := None; f_day := Some d; f_month := Some m; f_year := Some v |}.
Proof.
  intros Hv. pose proof (zero_pad_digits v 4 ltac:(lia)) as Hd. unfold date_step. cbn [f_time f_day f_month f_year].
  rewrite time_token_digits by exact Hd. unfold year_token. rewrite lead_digits_all, zero_pad_len4 by (exact Hd || lia).
  cbn. rewrite (proj1 (zero_pad_value v 4 ltac:(lia))). reflexivity.
Qed.

(** The [toString] text of a time whose local year is not negative,
    as the tokens the cookie-date algorithm reads. *)
Lemma ToDateString_tokens h e (u := e + LocalTZA h) :
  0 <= YearFromTime u ->
  ToDateString h (Some e) =
  nth (Z.to_nat (WeekDay u)) week_names [] ++ c_space :: nth (Z.to_nat (MonthFromTime u)) month_names [] ++
  c_space :: zero_pad (DateFromTime u) 2 ++ c_space :: zero_pad (YearFromTime u) 4 ++ c_space ::
  (zero_pad (HourFromTime u) 2 ++ [c_colon] ++ zero_pad (MinFromTime u) 2 ++ [c_colon] ++ zero_pad (SecFromTime u) 2) ++
  c_space :: (js "GMT" ++ TimeZoneString h e).
Proof.
  intros Hy. rewrite ToDateString_text. fold u. replace (YearFromTime u <? 0) with false by (symmetry; apply Z.ltb_ge; lia).
  rewrite Z.abs_eq by lia. rewrite <- !app_assoc. reflexivity.
Qed.

(** The cookie-date algorithm on the tokens of a [toString] text: the
    fields of its date and time, read as UTC. *)
Lemma cookie_date_fields w m d y hh mi ss rest :
  0 <= w < 7 -> 0 <= m <= 11 -> 1 <= d <= days_in_month y m -> d <= 31 -> 1601 <= y <= 9999 ->
  0 <= hh < 24 -> 0 <= mi < 60 -> 0 <= ss < 60 ->
  cookie_date (nth (Z.to_nat w) week_names [] ++ c_space :: nth (Z.to_nat m) month_names [] ++
               c_space :: zero_pad d 2 ++ c_space :: zero_pad y 4 ++ c_space ::
               (zero_pad hh 2 ++ [c_colon] ++ zero_pad mi 2 ++ [c_colon] ++ zero_pad ss 2) ++ c_space :: rest) =
  Some (MakeDate (MakeDay y m d) (MakeTime hh mi ss 0)).
Proof.
  intros Hw Hm Hd Hd' Hy Hh Hmi Hs.
  destruct (week_token _ Hw) as (Hw1 & Hw2 & Hw3). destruct (month_token_name _ Hm) as (Hm1 & Hm2 & Hm3).
  assert (Hz : forall v, 0 <= v -> Forall (fun c => is_delimiter c = false) (zero_pad v 2))
    by (intros v Hv; apply digits_not_delimiter, zero_pad_digits, Hv).
  assert (HT : Forall (fun c => is_delimiter c = false)
                 (zero_pad hh 2 ++ [c_colon] ++ zero_pad mi 2 ++ [c_colon] ++ zero_pad ss 2)).
  { apply Forall_app; split; [apply Hz; lia|]. apply Forall_app; split; [repeat constructor|].
    apply Forall_app; split; [apply Hz; lia|]. apply Forall_app; split; [repeat constructor|]. apply Hz; lia. }
  unfold cookie_date, date_tokens.
  rewrite date_tokens_cons by (exact Hw1 || exact Hw2 || reflexivity).
  rewrite date_tokens_cons by (exact Hm1 || exact Hm2 || reflexivity).
  rewrite date_tokens_cons by first [reflexivity | apply Hz; lia |
    intros E'; apply (f_equal (@length Z)) in E'; rewrite zero_pad_len2 in E' by lia; discriminate].
  rewrite date_tokens_cons by first [reflexivity | apply digits_not_delimiter, zero_pad_digits; lia |
    intros E'; apply (f_equal (@length Z)) in E'; rewrite zero_pad_len4 in E' by lia; discriminate].
  rewrite date_tokens_cons by first [reflexivity | exact HT |
    intros E'; apply (f_equal (@length Z)) in E'; rewrite length_app, zero_pad_len2 in E' by lia; discriminate].
  rewrite !fold_left_cons, Hw3, Hm3, day_step, year_step by lia.
  assert (Ht : date_step {| f_time := None; f_day := Some d; f_month := Some m; f_year := Some y |}
                 (zero_pad hh 2 ++ [c_colon] ++ zero_pad mi 2 ++ [c_colon] ++ zero_pad ss 2) =
               {| f_time := Some (hh, mi, ss); f_day := Some d; f_month := Some m; f_year := Some y |}).
  { unfold date_step. cbn [f_time]. rewrite time_token_hms by lia. reflexivity. }
  rewrite Ht, fold_found. cbn [f_time f_day f_month f_year].
  replace ((70 <=? y) && (y <=? 99)) with false by (symmetry; bool_to_prop; lia).
  replace ((0 <=? y) && (y <=? 69)) with false by (symmetry; bool_to_prop; lia).
  cbv zeta. match goal with |- (if ?c then _ else _) = _ => replace c with true by (symmetry; bool_to_prop; lia) end.
  reflexivity.
Qed.

(** The cookie-date algorithm reads the [toString] text of a time whose
    local year has four digits, from 1601 on, as the local time
    without its milliseconds, taken as UTC: the instant shifted by the
    offset of local time. *)
Lemma cookie_date_toString h e (u := e + LocalTZA h) :
  1601 <= YearFromTime u <= 9999 -> cookie_date (ToDateString h (Some e)) = Some (u - u mod 1000).
Proof.
  intros Hy. pose proof (ToDateString_tokens h e) as E. cbv zeta in E. fold u in E. rewrite E by lia.
  rewrite cookie_date_fields.
  - f_equal. apply MakeDate_fields.
  - apply Z.mod_pos_bound. lia.
  - exact (month_of_range (InLeapYear u) (DayWithinYear u) 11 ltac:(lia)).
  - split; [apply DateFromTime_pos | apply DateFromTime_in_month].
  - apply DateFromTime_le.
  - exact Hy.
  - apply Z.mod_pos_bound. lia.
  - apply Z.mod_pos_bound. lia.
  - apply Z.mod_pos_bound. lia.
Qed.

(** ** Setting and reading back *)

Lemma text_facts s :
  cookie_text s = true ->
  Forall (fun u => is_space u = false) s /\ ~ In c_semi s /\ ~ In c_eq s /\ ~ In c_pct s.
Proof.
  unfold cookie_text. rewrite forallb_Forall. intros H.
  assert (Hs : forall c, In c s -> is_space c = false /\ c <> c_semi /\ c <> c_eq /\ c <> c_pct).
  { intros c Hc. pose proof (proj1 (List.Forall_forall _ _) H c Hc) as Hb. cbv beta in Hb. bool_hyps.
    repeat split; assumption. }
  split; [apply List.Forall_forall; intros c Hc; apply Hs, Hc|].
  split; [|split]; intros Hin; apply Hs in Hin; tauto.
Qed.

Lemma token_facts s :
  cookie_token s = true ->
  s <> [] /\ Forall (fun u => is_space u = false) s /\ ~ In c_semi s /\ ~ In c_eq s.
Proof.
  unfold cookie_token. intros H. apply andb_true_iff in H as [Hn H].
  apply negb_true_iff, bool_decide_eq_false in Hn. split; [exact Hn|]. rewrite forallb_Forall in H.
  assert (Hs : forall c, In c s -> is_space c = false /\ c <> c_semi /\ c <> c_eq).
  { intros c Hc. pose proof (proj1 (List.Forall_forall _ _) H c Hc) as Hb. cbv beta in Hb. bool_hyps.
    repeat split; assumption. }
  split; [apply List.Forall_forall; intros c Hc; apply Hs, Hc|].
  split; intros Hin; apply Hs in Hin; tauto.
Qed.

(** ** The cookie [setCookie] writes *)

(** The instant of [date] after [date.setDate(date.getDate() + days)]
    on [new Date()]. *)
Definition expiry_date (now : Z) (days : option Z) : option Z :=
  match TimeClip now, days with Some t, Some d => TimeClip (t + d * msPerDay) | _, _ => None end.

Lemma setCookie_date h now days :
  Moment.setDate h (TimeClip now) (match Moment.getDate h (TimeClip now), days with
                                   | Some x, Some d => Some (x + d)
                                   | _, _ => None
                                   end) = expiry_date now days.
Proof.
  unfold expiry_date. destruct (TimeClip now) as [t|]; [|reflexivity]. destruct days as [d|]; [|reflexivity].
  exact (Moment.setDate_shift h t d).
Qed.

Lemma names_no_semi (names : list jsstring) i :
  Forall (Forall (fun c => c <> c_semi)) names -> Forall (fun c => c <> c_semi) (nth i names []).
Proof.
  intros H. destruct (Nat.lt_ge_cases i (length names)) as [Hi|Hi]; [|rewrite nth_overflow by exact Hi; constructor].
  exact (proj1 (List.Forall_forall _ _) H _ (nth_In names [] Hi)).
Qed.

(** The text of a date holds no [;] when the host's time zone name
    holds none. *)
Lemma ToDateString_no_semi h tv : ~ In c_semi (tz_name h) -> Forall (fun c => c <> c_semi) (ToDateString h tv).
Proof.
  intros Hn. destruct tv as [e|]; [|vm_compute; repeat constructor; discriminate].
  assert (Hz : forall v k, 0 <= v -> Forall (fun c => c <> c_semi) (zero_pad v k)).
  { intros v k Hv. eapply Forall_impl; [apply zero_pad_digits, Hv|]. intros c Hc ->. discriminate. }
  assert (Hw : Forall (Forall (fun c => c <> c_semi)) week_names) by (vm_compute; repeat constructor; discriminate).
  assert (Hm : Forall (Forall (fun c => c <> c_semi)) month_names) by (vm_compute; repeat constructor; discriminate).
  set (t := e + LocalTZA h). set (o := LocalTZA h).
  pose proof (DateFromTime_pos t).
  assert (0 <= HourFromTime t /\ 0 <= MinFromTime t /\ 0 <= SecFromTime t /\
          0 <= HourFromTime (Z.abs o) /\ 0 <= MinFromTime (Z.abs o)) as (? & ? & ? & ? & ?)
    by (unfold HourFromTime, MinFromTime, SecFromTime; repeat split; apply Z.mod_pos_bound; lia).
  unfold ToDateString, DateString, TimeString, TimeZoneString, tz_designation. fold t o.
  repeat match goal with
  | |- Forall _ (zero_pad _ _) => apply Hz; lia
  | |- Forall _ (nth _ week_names _) => apply names_no_semi, Hw
  | |- Forall _ (nth _ month_names _) => apply names_no_semi, Hm
  | |- Forall _ (tz_name h) => apply List.Forall_forall; intros c Hc ->; exact (Hn Hc)
  | |- Forall _ (if ?b then _ else _) => destruct b
  | |- Forall _ (_ ++ _) => apply Forall_app; split
  | |- Forall _ (js _) => vm_compute; repeat constructor; discriminate
  | |- Forall _ (_ :: _) => constructor
  | |- Forall _ [] => constructor
  | |- _ <> _ => let E := fresh in intros E; vm_compute in E; discriminate E
  end.
Qed.

Lemma wsp_delimiter c : is_wsp c = true -> is_delimiter c = true.
Proof. unfold is_wsp. intros H. bool_hyps; subst; reflexivity. Qed.

Lemma last_app_ne (l l' : jsstring) d : l' <> [] -> List.last (l ++ l') d = List.last l' d.
Proof.
  intros Hne. induction l as [|x l IH]; [reflexivity|]. cbn [app].
  destruct (l ++ l') as [|y r] eqn:E; [apply app_eq_nil in E; tauto|]. rewrite <- IH. reflexivity.
Qed.

(** A text that neither starts nor ends with white space is its own
    trim. *)
Lemma trim_wsp_ends s : s <> [] -> is_wsp (hd 0 s) = false -> is_wsp (List.last s 0) = false -> trim_wsp s = s.
Proof.
  intros Hne Hh Hl. unfold trim_wsp. destruct s as [|c r]; [congruence|]. cbn [drop_wsp hd] in *. rewrite Hh.
  rewrite (app_removelast_last 0 Hne) at 1. rewrite rev_unit. cbn [drop_wsp]. rewrite Hl.
  rewrite <- rev_unit, rev_involutive. symmetry. apply app_removelast_last. exact Hne.
Qed.

(** The text of a date starts and ends with no white space. *)
Lemma ToDateString_trim h tv : trim_wsp (ToDateString h tv) = ToDateString h tv.
Proof.
  destruct tv as [e|]; [|vm_compute; reflexivity].
  set (t := e + LocalTZA h).
  assert (Hw : 0 <= WeekDay t < 7) by (apply Z.mod_pos_bound; lia).
  destruct (week_token _ Hw) as (Hw1 & Hw2 & _).
  assert (Hmi : 0 <= MinFromTime (Z.abs (LocalTZA h)) < 100)
    by (unfold MinFromTime; pose proof (Z.mod_pos_bound (Z.abs (LocalTZA h) / msPerMinute) 60); lia).
  apply trim_wsp_ends.
  - unfold ToDateString, DateString. fold t. destruct (nth _ week_names []) as [|a r] eqn:E; [congruence | discriminate].
  - unfold ToDateString, DateString. fold t. destruct (nth _ week_names []) as [|a r] eqn:E; [congruence|].
    cbn [app hd]. inversion Hw1 as [|? ? Ha _]. destruct (is_wsp a) eqn:Hwa; [|reflexivity].
    rewrite wsp_delimiter in Ha by exact Hwa. discriminate.
  - unfold ToDateString, TimeZoneString, tz_designation. rewrite !app_assoc.
    case_bool_decide.
    + rewrite app_nil_r, (zero_pad2 (MinFromTime _)) by exact Hmi. rewrite last_app_ne by discriminate. cbn.
      unfold is_wsp, c_zero. case_cmp; try reflexivity; zarith.
    + rewrite last_app_ne by discriminate. rewrite ?app_assoc, last_last. reflexivity.
Qed.

(** The attributes [;expires=<date>]: the expiry is the cookie date of
    the text. *)
Lemma cookie_expiry_expires now T :
  trim_wsp T = T -> cookie_expiry now [js "expires" ++ c_eq :: T] = cookie_date T.
Proof.
  intros HT. unfold cookie_expiry, parse_av. cbn [omap list_omap].
  rewrite split_first_app by (vm_compute; intuition discriminate). rewrite HT.
  change (trim_wsp (js "expires")) with (js "expires"). change (map ascii_lower (js "expires")) with (js "expires").
  rewrite bool_decide_true by reflexivity. destruct (cookie_date T); reflexivity.
Qed.

(** [setCookie] with a plain name and value stores exactly that cookie,
    with the cookie date of the text of its [date] as expiry. *)
Lemma setCookie_jar h now j name value days :
  cookie_token name = true -> cookie_text value = true -> ~ In c_semi (tz_name h) ->
  let nc := {| ck_name := name; ck_value := value;
               ck_expires := cookie_date (ToDateString h (expiry_date now days)) |} in
  setCookie h now j name value days = if alive now nc then upsert nc j else remove_name name j.
Proof.
  intros Hn Hv Hh nc. destruct (token_facts name Hn) as (Hne & Hns & Hn1 & Hn2).
  destruct (text_facts value Hv) as (Hvs & Hv1 & Hv2 & _).
  unfold setCookie. rewrite setCookie_date. set (T := ToDateString h (expiry_date now days)).
  pose proof (ToDateString_no_semi h (expiry_date now days) Hh) as HT. fold T in HT.
  unfold cookie_set.
  replace (name ++ [c_eq] ++ value ++ js ";expires=" ++ T)
    with ((name ++ c_eq :: value) ++ c_semi :: (js "expires" ++ c_eq :: T)) by (rewrite <- !app_assoc; reflexivity).
  rewrite split_app_sep by (intros Hin; apply in_app_or in Hin as [H|[H|H]]; [tauto|discriminate|tauto]).
  rewrite split_notin.
  2: { intros Hin. apply in_app_or in Hin as [H|[H|H]]; [vm_compute in H; intuition discriminate|discriminate|].
       exact (proj1 (List.Forall_forall _ _) HT _ H eq_refl). }
  cbn [hd tl]. rewrite split_first_app by exact Hn2. cbv zeta.
  rewrite !trim_wsp_id by (apply no_space_wsp; assumption).
  rewrite cookie_expiry_expires by apply ToDateString_trim.
  rewrite bool_decide_false by exact Hne. reflexivity.
Qed.

Lemma upsert_in nc j : In nc (upsert nc j).
Proof.
  unfold upsert. destruct (existsb _ j) eqn:E.
  - apply existsb_exists in E as (c & Hc & Hn). apply in_map_iff. exists c. split; [|exact Hc].
    rewrite Hn. reflexivity.
  - apply in_or_app. right. left. reflexivity.
Qed.

Lemma plain_names_upsert nc j :
  Forall (fun u => is_space u = false) (ck_name nc) -> plain_names j -> plain_names (upsert nc j).
Proof.
  intros Hc Hj. unfold upsert. destruct (existsb _ j).
  - apply Forall_map. eapply Forall_impl; [exact Hj|]. intros c Hc'. cbv beta. case_bool_decide; assumption.
  - apply Forall_app. split; [exact Hj|]. apply Forall_singleton. exact Hc.
Qed.

Lemma plain_names_filter p j : plain_names j -> plain_names (List.filter p j).
Proof.
  intros H. apply List.Forall_forall. intros c Hc. apply filter_In in Hc as [Hc _].
  exact (proj1 (List.Forall_forall _ _) H c Hc).
Qed.

(** Reading a cookie just stored, at a time when it is alive. *)
Lemma read_back t j name value e :
  jar_wf j -> plain_names j -> cookie_token name = true -> cookie_text value = true ->
  alive t {| ck_name := name; ck_value := value; ck_expires := e |} = true ->
  getCookie t (upsert {| ck_name := name; ck_value := value; ck_expires := e |} j) name = Normal value.
Proof.
  intros Hwf Hpl Hn Hv Ha. destruct (token_facts name Hn) as (Hne & Hns & Hn1 & Hn2).
  destruct (text_facts value Hv) as (Hvs & Hv1 & Hv2 & Hv3).
  set (nc := {| ck_name := name; ck_value := value; ck_expires := e |}) in *.
  assert (Hok : cookie_ok nc) by (unfold nc, cookie_ok; cbn; tauto).
  destruct (upsert_wf nc j Hok Hwf) as [Hd' Hf'].
  rewrite getCookie_items by (exact Hne || exact Hf' || apply plain_names_upsert; assumption).
  assert (Hin : In nc (List.filter (alive t) (upsert nc j))) by (apply filter_In; split; [apply upsert_in|exact Ha]).
  destruct (jar_split _ nc Hin (NoDup_map_filter _ _ _ Hd')) as (pre & post & E & Hpre).
  rewrite E, cookie_loop_skip.
  - cbn [map cookie_loop]. rewrite read_item_split by exact Hn2. cbn [nth nth_error ck_name ck_value nc].
    rewrite bool_decide_true by reflexivity. rewrite filter_plain, split_notin by assumption.
    apply Decode_plain. exact Hv3.
  - apply List.Forall_forall. intros c Hc. split.
    + apply (proj1 (List.Forall_forall _ _) Hf'). apply (filter_In (alive t)).
      rewrite E. apply in_or_app. left. exact Hc.
    + exact (proj1 (List.Forall_forall _ _) Hpre c Hc).
Qed.

Lemma NoDup_map_same {A B} (f : A -> B) l x y :
  NoDup (map f l) -> In x l -> In y l -> f x = f y -> x = y.
Proof.
  induction l as [|z l IH]; intros Hd Hx Hy Hf; [destruct Hx|]. inversion Hd as [|? ? Hz Hd']; subst.
  destruct Hx as [<-|Hx], Hy as [<-|Hy]; try reflexivity.
  - exfalso. apply Hz. rewrite Hf. apply list_elem_of_In, in_map, Hy.
  - exfalso. apply Hz. rewrite <- Hf. apply list_elem_of_In, in_map, Hx.
  - apply IH; assumption.
Qed.

(** Once the cookie just stored has expired, no cookie of its name is
    read. *)
Lemma read_back_dead t j name value e :
  jar_wf j -> plain_names j -> cookie_token name = true -> cookie_text value = true ->
  alive t {| ck_name := name; ck_value := value; ck_expires := e |} = false ->
  getCookie t (upsert {| ck_name := name; ck_value := value; ck_expires := e |} j) name = Normal [].
Proof.
  intros Hwf Hpl Hn Hv Ha. destruct (token_facts name Hn) as (Hne & Hns & Hn1 & Hn2).
  destruct (text_facts value Hv) as (Hvs & Hv1 & Hv2 & Hv3).
  set (nc := {| ck_name := name; ck_value := value; ck_expires := e |}) in *.
  assert (Hok : cookie_ok nc) by (unfold nc, cookie_ok; cbn; tauto).
  destruct (upsert_wf nc j Hok Hwf) as [Hd' Hf'].
  rewrite getCookie_items by (exact Hne || exact Hf' || apply plain_names_upsert; assumption).
  apply cookie_loop_absent. apply List.Forall_forall. intros c Hc. apply filter_In in Hc as [Hc Hac].
  split; [exact (proj1 (List.Forall_forall _ _) Hf' c Hc)|]. intros Hname.
  assert (c = nc) as -> by (apply (NoDup_map_same ck_name (upsert nc j)); [exact Hd' | exact Hc | apply upsert_in | exact Hname]).
  congruence.
Qed.

(** The expiry [setCookie] writes for [days] days, when the local date
    has a four-digit year from 1601 on: the local time of the instant
    [days] days on, without its milliseconds, taken as UTC. *)
Lemma expiry_of_days h now d (x := now + d * msPerDay + LocalTZA h) :
  offset_ok h = true -> Z.abs now <= 8640000000000000 -> 1601 <= YearFromTime x <= 9999 ->
  cookie_date (ToDateString h (expiry_date now (Some d))) = Some (x - x mod 1000).
Proof.
  intros Ho Hn Hy. pose proof (offset_ok_bound h Ho). pose proof (time_of_year x Hy).
  unfold expiry_date, TimeClip. rewrite (proj2 (Z.leb_le _ _) Hn).
  rewrite (proj2 (Z.leb_le _ _)) by (unfold x in *; lia).
  apply cookie_date_toString. exact Hy.
Qed.

Lemma cookie_date_invalid h : cookie_date (ToDateString h None) = None.
Proof. reflexivity. Qed.

(** The cookie [setCookie] stores for a positive number of days whose
    end has a four-digit local year, or for undefined days, is alive
    when it is set: an offset of less than a day cannot bring the
    expiry back to the present. *)
Lemma setCookie_alive h now days :
  offset_ok h = true ->
  (forall d, days = Some d -> 0 < d /\ 1601 <= YearFromTime (now + d * msPerDay + LocalTZA h) <= 9999) ->
  match cookie_date (ToDateString h (expiry_date now days)) with Some t => now <? t | None => true end = true.
Proof.
  intros Ho Hd. destruct days as [d|]; [|unfold expiry_date; destruct (TimeClip now); reflexivity].
  destruct (Hd d eq_refl) as [Hd0 Hy].
  destruct (Z_le_gt_dec (Z.abs now) 8640000000000000) as [Hn|Hn].
  - rewrite expiry_of_days by assumption. pose proof (offset_ok_bound h Ho). apply Z.ltb_lt.
    pose proof (Z.mod_pos_bound (now + d * msPerDay + LocalTZA h) 1000 ltac:(lia)). unfold msPerDay in *. lia.
  - unfold expiry_date, TimeClip. rewrite (proj2 (Z.leb_gt _ _)) by lia. reflexivity.
Qed.

(** C23: reading back a cookie: after [setCookie(name, value, days)] with
    [days] positive or undefined, on a jar that keeps its invariant and
    whose names hold no white space, [getCookie(name)] returns [value],
    when the name is a non-empty token and the value holds no white
    space, [;], [=] or [%].  The host's offset is a whole number of
    minutes under a day and its time zone name holds no [;], and the
    date [days] days on has a four-digit local year from 1601 on (the
    years the cookie-date algorithm reads back). *)
Theorem setCookie_getCookie h now j name value days :
  offset_ok h = true -> ~ In c_semi (tz_name h) ->
  jar_wf j -> plain_names j -> cookie_token name = true -> cookie_text value = true ->
  (forall d, days = Some d -> 0 < d /\ 1601 <= YearFromTime (now + d * msPerDay + LocalTZA h) <= 9999) ->
  getCookie now (setCookie h now j name value days) name = Normal value.
Proof.
  intros Ho Hh Hwf Hpl Hn Hv Hd. rewrite setCookie_jar by assumption. cbv zeta.
  unfold alive at 1. cbn [ck_expires]. rewrite setCookie_alive by assumption.
  apply read_back; try assumption. unfold alive. cbn [ck_expires]. apply setCookie_alive; assumption.
Qed.

Definition sample_jar : jar := [{| ck_name := js "sid"; ck_value := js "x y"; ck_expires := None |}].

Lemma sample_jar_wf : jar_wf sample_jar.
Proof.
  split; [apply NoDup_singleton|]. apply Forall_singleton.
  unfold cookie_ok; cbn. repeat split; [discriminate| | |]; intuition discriminate.
Qed.

Lemma est_name_ok : ~ In c_semi (tz_name est_host).
Proof. vm_compute. intuition discriminate. Qed.

Lemma setCookie_getCookie_witness :
  offset_ok est_host = true /\ ~ In c_semi (tz_name est_host) /\
  jar_wf sample_jar /\ plain_names sample_jar /\ cookie_token (js "lang") = true /\ cookie_text (js "zh") = true /\
  (forall d, Some 7 = Some d -> 0 < d /\ 1601 <= YearFromTime (1700000000123 + d * msPerDay + LocalTZA est_host) <= 9999) /\
  getCookie 1700000000123 (setCookie est_host 1700000000123 sample_jar (js "lang") (js "zh") (Some 7)) (js "lang") =
    Normal (js "zh").
Proof.
  assert (H1 := sample_jar_wf).
  assert (H2 : plain_names sample_jar) by (repeat constructor).
  assert (H5 : forall d, Some 7 = Some d -> 0 < d /\ 1601 <= YearFromTime (1700000000123 + d * msPerDay + LocalTZA est_host) <= 9999)
    by (intros d E; injection E as <-; split; [lia | vm_compute; split; discriminate]).
  split; [reflexivity|]. split; [exact est_name_ok|]. split; [exact H1|]. split; [exact H2|].
  split; [reflexivity|]. split; [reflexivity|]. split; [exact H5|].
  apply setCookie_getCookie; [reflexivity | exact est_name_ok | exact H1 | exact H2 | reflexivity | reflexivity | exact H5].
Defined.

(** C24: a cookie set for [days > 0] days expires at the local time [days]
    days on, read as UTC and cut to the second (the [expires] text is the
    local time, which the cookie-date algorithm reads as UTC): it is read
    back at every instant before that expiry, and from it on, forever,
    [getCookie] returns the empty string. *)
Theorem setCookie_expires h now j name value d (x := now + d * msPerDay + LocalTZA h) :
  offset_ok h = true -> ~ In c_semi (tz_name h) ->
  jar_wf j -> plain_names j -> cookie_token name = true -> cookie_text value = true ->
  0 < d -> Z.abs now <= 8640000000000000 -> 1601 <= YearFromTime x <= 9999 ->
  (forall t, t < x - x mod 1000 -> getCookie t (setCookie h now j name value (Some d)) name = Normal value) /\
  (forall t, x - x mod 1000 <= t -> getCookie t (setCookie h now j name value (Some d)) name = Normal []).
Proof.
  intros Ho Hh Hwf Hpl Hn Hv Hd Hnow Hy. rewrite setCookie_jar by assumption. cbv zeta.
  change (alive now ?c) with (match ck_expires c with Some t => now <? t | None => true end). cbn [ck_expires].
  rewrite setCookie_alive by (try assumption; intros d' E; injection E as <-; split; assumption).
  rewrite expiry_of_days by assumption. fold x.
  split; intros t Ht; [apply read_back | apply read_back_dead]; try assumption;
    unfold alive; cbn [ck_expires]; [apply Z.ltb_lt | apply Z.ltb_ge]; exact Ht.
Qed.

Lemma setCookie_expires_witness :
  (offset_ok est_host = true /\ ~ In c_semi (tz_name est_host) /\
   jar_wf sample_jar /\ plain_names sample_jar /\ cookie_token (js "lang") = true /\ cookie_text (js "zh") = true /\
   0 < 7 /\ Z.abs 1700000000123 <= 8640000000000000 /\
   1601 <= YearFromTime (1700000000123 + 7 * msPerDay + LocalTZA est_host) <= 9999) /\
  (forall t, t < 1700586800000 ->
     getCookie t (setCookie est_host 1700000000123 sample_jar (js "lang") (js "zh") (Some 7)) (js "lang") = Normal (js "zh")) /\
  (forall t, 1700586800000 <= t ->
     getCookie t (setCookie est_host 1700000000123 sample_jar (js "lang") (js "zh") (Some 7)) (js "lang") = Normal []).
Proof.
  assert (H1 := sample_jar_wf).
  assert (H2 : plain_names sample_jar) by (repeat constructor).
  assert (Hy : 1601 <= YearFromTime (1700000000123 + 7 * msPerDay + LocalTZA est_host) <= 9999)
    by (vm_compute; split; discriminate).
  split.
  { split; [reflexivity|]. split; [exact est_name_ok|]. split; [exact H1|]. split; [exact H2|].
    split; [reflexivity|]. split; [reflexivity|]. split; [lia|]. split; [lia|]. exact Hy. }
  exact (setCookie_expires est_host 1700000000123 sample_jar (js "lang") (js "zh") 7
           eq_refl est_name_ok H1 H2 eq_refl eq_refl ltac:(lia) ltac:(lia) Hy).
Defined.

(** [removeCookie(name)] stores the name with an expiry a day before
    the local time, read as UTC, which is in the past for an offset
    under a day and deletes it: [getCookie(name)] then returns the
    empty string, on a jar whose names hold no white space. *)
Theorem removeCookie_getCookie h now j name :
  offset_ok h = true -> ~ In c_semi (tz_name h) -> Z.abs now <= 8640000000000000 ->
  1601 <= YearFromTime (now + -1 * msPerDay + LocalTZA h) <= 9999 ->
  Forall cookie_ok j -> plain_names j -> cookie_token name = true ->
  getCookie now (removeCookie h now j name) name = Normal [].
Proof.
  intros Ho Hh Hnow Hy Hok Hpl Hn. destruct (token_facts name Hn) as (Hne & _ & _ & _).
  unfold removeCookie. rewrite setCookie_jar by (exact Hn || reflexivity || exact Hh). cbv zeta.
  unfold alive at 1. cbn [ck_expires]. rewrite expiry_of_days by assumption.
  pose proof (offset_ok_bound h Ho).
  pose proof (Z.mod_pos_bound (now + -1 * msPerDay + LocalTZA h) 1000 ltac:(lia)).
  replace (now <? _) with false by (symmetry; apply Z.ltb_ge; unfold msPerDay in *; lia).
  rewrite getCookie_items by (exact Hne || apply plain_names_filter, Hpl ||
    (apply List.Forall_forall; intros c Hc; apply filter_In in Hc as [Hc _];
     exact (proj1 (List.Forall_forall _ _) Hok c Hc))).
  apply cookie_loop_absent. apply List.Forall_forall. intros c Hc.
  apply filter_In in Hc as [Hc _]. apply filter_In in Hc as [Hc Hname].
  split; [exact (proj1 (List.Forall_forall _ _) Hok c Hc)|].
  apply negb_true_iff, bool_decide_eq_false in Hname. exact Hname.
Qed.

Lemma removeCookie_getCookie_witness :
  offset_ok est_host = true /\ ~ In c_semi (tz_name est_host) /\ Z.abs 1700000000123 <= 8640000000000000 /\
  1601 <= YearFromTime (1700000000123 + -1 * msPerDay + LocalTZA est_host) <= 9999 /\
  Forall cookie_ok sample_jar /\ plain_names sample_jar /\ cookie_token (js "sid") = true /\
  getCookie 1700000000123 (removeCookie est_host 1700000000123 sample_jar (js "sid")) (js "sid") = Normal [].
Proof.
  assert (H1 : Forall cookie_ok sample_jar) by exact (proj2 sample_jar_wf).
  assert (H2 : plain_names sample_jar) by (repeat constructor).
  assert (Hy : 1601 <= YearFromTime (1700000000123 + -1 * msPerDay + LocalTZA est_host) <= 9999)
    by (vm_compute; split; discriminate).
  split; [reflexivity|]. split; [exact est_name_ok|]. split; [lia|]. split; [exact Hy|].
  split; [exact H1|]. split; [exact H2|]. split; [reflexivity|].
  apply removeCookie_getCookie; [reflexivity | exact est_name_ok | lia | exact Hy | exact H1 | exact H2 | reflexivity].
Defined.

(** [setCookie] does not encode the value while [getCookie] removes all
    white space and decodes the text between the first and second [=]:
    ["100%"] makes [getCookie] throw [URIError], ["x y"] reads back as
    ["xy"], ["x=y"] as ["x"], and ["a;b"] is stored as ["a"]. *)
Example cookie_value_mangled :
  getCookie 0 (setCookie utc_host 0 [] (js "k") (js "100%") None) (js "k") = Throw URIError /\
  getCookie 0 (setCookie utc_host 0 [] (js "k") (js "x y") None) (js "k") = Normal (js "xy") /\
  getCookie 0 (setCookie utc_host 0 [] (js "k") (js "x=y") None) (js "k") = Normal (js "x") /\
  getCookie 0 (setCookie utc_host 0 [] (js "k") (js "a;b") None) (js "k") = Normal (js "a").
Proof. repeat split; vm_compute; reflexivity. Qed.

(** The expiry of [setCookie(name, value, 7)] five hours west of UTC is
    seven days on less five hours, cut to the second; the cookie-date
    algorithm reads RFC 1123 dates too; and a date past the year 9999
    is no cookie date of [toString]'s text: five hours west of UTC the
    offset [0500] is read as the year 500 and the cookie is a session
    cookie, while on UTC the offset [0000] is read as the year 2000 and
    the cookie, expired at once, is deleted. *)
Example setCookie_samples :
  setCookie est_host 1700000000123 [] (js "a") (js "b") (Some 7) =
    [{| ck_name := js "a"; ck_value := js "b"; ck_expires := Some 1700586800000 |}] /\
  cookie_date (js "Wed, 21 Oct 2015 07:28:00 GMT") = Some 1445412480000 /\
  setCookie est_host 1700000000123 [] (js "a") (js "b") (Some 3000000) =
    [{| ck_name := js "a"; ck_value := js "b"; ck_expires := None |}] /\
  setCookie utc_host 1700000000123 [] (js "a") (js "b") (Some 3000000) = [].
Proof. repeat split; vm_compute; reflexivity. Qed.

End Cookie.
